(* ===== verification/_CoqProject ===== *)
-Q . S2P
Prelude.v
PyText.v
PyPath.v
Base64.v
Sha256.v
Utf8.v
Unicode.v
PyValue.v
External.v
Attestation.v
Policy.v
World.v
Json.v
JsonProps.v
Jwks.v
JwksThreads.v
Examples.v
ItaVerifier.v
Rpc.v
Client.v
Backends.v
McpServer.v
DemoServer.v
McpChannels.v
McpProtocol.v
McpWire.v
McpReload.v
McpEvict.v
Cli.v
ArgParse.v
CliArgs.v
Scenario.v
Diagnose.v
GenerateProtos.v
Schema.v
Session.v
PolicyRegistry.v
SessionSteps.v
SessionInv.v
SessionDemo.v
SessionSystem.v
SessionSpec.v
SessionProps.v
Service.v
SessionLive.v
SessionProgress.v
EndToEnd.v
