(* ===== verification/Prelude.v ===== *)
(** * ZTAB agent: a verification development

    ZTAB lets agents of several parties run a session inside a confidential
    virtual machine. This library models the Python client side, [src/agent],
    which decides whether a server is the attested one and may be talked to,
    and of the server, [src/tee], the startup, the service and the session
    manager that runs the sessions, proves what makes each of them correct, and
    what follows for a user from the two sides together.

    ** The program

    A server presents a self-signed TLS certificate that carries an attestation
    token in an X.509 extension. [client.py] fetches that certificate, extracts
    the token ([attestation.py]), runs a verifier on both, and only then opens
    a gRPC channel that trusts exactly this certificate. The verifier comes
    from a policy ([verifier_policy.py], [verifier_factory.py]): the ITA
    verifier ([ita_verifier.py]) checks the token's signature against the
    Intel Trust Authority's key set, which it caches for 24 hours, and then
    the claims; the no-op verifier is for tests. Two programs use such
    channels: [cli.py], one command per process, and [mcp_server.py], a
    JSON-RPC server on standard input that reads its backends from a file it
    reloads when changed, keeps one channel per backend, and evicts channels
    that became unavailable. Three scripts stand beside them:
    [diagnose_tls.py] inspects a server's certificate, [generate_protos.py]
    produces the gRPC stubs, [examples/calendar] is a scenario with its data.

    Behind the channel, [main.cc] loads the model and the policies of a
    directory, refuses to start when one of them is bad, and serves: each call
    goes to the session manager, and creating a session needs the creator token
    where one is configured. The session manager keeps sessions under one mutex.
    A session is OPEN while participants join and accept its policy, SEALED once
    the full group accepted, CALCULATING once every input is in, and ends
    CLOSED with the model's result or ABORTED. The model runs on a background
    thread that takes the mutex only to build the prompt and to write the
    result. Timeouts are enforced whenever a session is touched, and creating a
    session first sweeps those that are over.

    ** Files

    - [Prelude]: results ([Ok]/[Raise]), the state-and-exception monad [ST],
      Hoare triples for it, shared lemmas and tactics.
    - [PyText], [PyPath], [Base64], [Sha256], [Utf8], [Unicode], [PyValue]: what
      the code uses of Python's texts, [os.path], [base64], [hashlib], UTF-8
      decoding, code points, and JSON values with the operators applied to them
      ([==], [in], [.get], [int], [frozenset]).
    - [Json], [JsonProps]: [json.loads] and [json.dumps], executable, with
      termination, round trip and the form of written text.
    - [ArgParse]: [argparse] on the words of a command line.
    - [External]: the [cryptography] and PyJWT packages as classes.
    - [Attestation]: [attestation.py].
    - [Policy]: [verifier_policy.py]; policies up to the order of their digests.
    - [World]: the host (clock, network, files), the JWKS cache as state, and
      the log of what the process learned from the host.
    - [Jwks], [JwksThreads]: [get_jwks], sequentially and with its lock and
      threads interleaved; where the cached key set comes from ([genuine]).
    - [Examples]: a concrete host, X.509 and JWT library.
    - [ItaVerifier]: the checks, the verifier, and what an accepted token says.
    - [Rpc]: the session service's messages, channels, and the trace of calls.
    - [Client]: [client.py] and [verifier_factory.py]; the interface
      [CertifiedPolicy] between policies and channels.
    - [Backends], [McpServer]: [mcp_server.py]; [DemoServer]: a concrete
      configuration and service for it.
    - [McpChannels]: every call is attested; [McpProtocol]: responses,
      robustness, disclosure; [McpWire]: the bytes read and written;
      [McpReload]: configuration; [McpEvict]: eviction of unavailable channels.
    - [Cli], [CliArgs]: [cli.py], its commands, and its parsers and [main];
      [Scenario]: [examples/calendar]; [Diagnose]: [diagnose_tls.py];
      [GenerateProtos]: [generate_protos.py].
    - [Schema]: the server's JSON helpers: schema validation, the comparison of
      a retried input, code fences. [Session]: the session manager's data and
      operations. [PolicyRegistry]: [policy_registry.cc] and [RunServer].
    - [SessionSteps]: what each operation can change ([quiet], [change]), the
      background threads as program points, and the runs of the server as
      interleavings of calls and thread steps. [SessionInv], [SessionSystem]:
      the invariants of the manager and of manager and threads together.
      [SessionDemo]: a concrete server and a session run to its end.
    - [SessionSpec]: the abstract life of a session and the refinement.
      [SessionProps]: history, release of results, isolation. [SessionLive]:
      threads, prompts, bounds, room for new sessions. [SessionProgress]: no
      session gets stuck; retried joins.
    - [Service]: the gRPC service of [main.cc] and its gate.
    - [EndToEnd]: client and server together, through the interface [Enclave].

    ** How the code is modelled

    Definitions keep the names of the functions they translate. A value that
    comes from JSON keeps the type [json] until the code itself narrows it, so
    an ill-typed claim, configuration or request behaves as in Python: it fails
    a check or raises. A call that may raise returns [result]; a call with
    effects is a function from a state to a result and a state, and an
    exception keeps the state reached. Module-level variables are fields of the
    state ([world], [net], [mcp], [cli]). Each interaction with the host is
    numbered, and its outcome is an arbitrary function of that number, so the
    theorems hold for every behaviour of the network, the clock and the files.
    What the host answered (clock readings, documents with their address,
    certificates with host and port, configuration files) is kept in the log of
    the world. No code reads it; the theorems on channels use it to say where a
    key set, a certificate or a backend entry came from: a channel is certified
    by what the log of the same process holds ([ita_certified], [configured]),
    never by an assumed cache.
    A gRPC channel is its immutable description (number, host, port, pinned
    certificate); which channels are closed and which calls were made is
    state. A formatted message is the list of its pieces, and a [json.dumps] in
    it is kept as a constructor; [McpWire] renders the responses to the text
    that is written. Components that only parse JSON are proved against the
    class [PyJson]; [McpWire] instantiates it with [Json]. The attributes of a
    command line stay [json] values too: [argparse] stores an empty list for an
    option whose value is the word [--].

    In the session manager each remote call is one atomic step, as it holds the
    mutex throughout; [SubmitInput] and [ProcessSessionAsync] are split where
    they release it. Tokens are drawn from a numbered random source; the
    theorems on sessions assume that draws do not repeat ([RandomUnique]). Hash
    maps are finite maps, and where their iteration order could show, in the
    prompt, it is proved irrelevant. The assumption on draws is an idealisation
    of 128- and 256-bit random tokens. A non-OK [absl::Status] and an uncaught
    C++ exception are the two kinds of failure.

    ** What the theorems show

    - Soundness and completeness of the ITA verifier against a declarative
      description of a trusted token; a validated production policy excludes
      debug machines; an accepted token binds one public key; key rotation is
      honoured; step 1 fails closed ([ItaVerifier]).
    - Outside the test environment: certificate pinning over every sequence of
      connects and closes ([Client]); over every run of the MCP server
      ([McpChannels]) and of the CLI ([Cli]), each call goes over an open channel
      to the host and port of a loaded backend entry or of the arguments, with a
      certificate they presented and a token verified under a key set that the
      process downloaded from ITA's address, for the policy of that entry or
      those arguments.
    - The key-set cache under threads: one download per lifetime; what a call
      returns was downloaded, and the lock is never lost ([JwksThreads]).
    - Each line the MCP server writes is one JSON text that reads back as the
      response to a request, one per request in order ([McpWire]); it survives
      every object message, validates arguments before acting, discloses only
      public backend data;
      it serves validated configurations only, flushes channels when a
      configuration in force changes ([McpProtocol], [McpReload]); each tool that
      gets UNAVAILABLE closes and forgets the channel it used, and no other
      ([McpEvict]).
    - The command-line program parses every command line, or exits; the command
      it selects has every attribute it reads and ends without an exception
      reaching the interpreter; conversely every well-typed call, with the
      documented options and defaults, can be written as a command line that is
      read back as that call ([CliArgs]).
    - Round trips: policies and dictionaries, base64url, DER and token; the
      payload shown is the payload signed.
    - Each session's life refines an abstract machine, over every interleaving
      of calls and background threads ([SessionSpec]); inputs, acceptances and
      results are never revised, a closed session never changes, and of an
      aborted one only the error can be overwritten; a result is released only to participants of
      a session in which everyone consented and contributed, and only if it
      passed the output schema; calls do not touch other sessions
      ([SessionProps]).
    - Background threads finish, unless the validator throws on a schema it
      cannot read; the prompt does not depend on hashing; sessions, participants
      and timeouts are bounded, threads are counted exactly, and no participant
      is told that an overdue session is still waiting; stalled sessions cannot
      exhaust the server ([SessionLive]). A session in time
      never gets stuck: the call it waits for succeeds, and joining is safe to
      retry ([SessionProgress]). Schema validation is
      exactly a declarative reading of the schema ([Schema]).
    - The server's proxy runs exactly when model, policy files, attestation
      provider and proxy are in order, and then the registry holds the policies
      declared in the directory, if one is named; whether the gRPC server behind
      it started is not tested by the code ([PolicyRegistry]); while a creator token is required, every
      session stems from a request that carried it ([Service]).
    - A result that a client shows outside the test environment, over a channel
      certified for a policy that admits only this server, is one that the service released in a session
      in which everyone consented and contributed ([EndToEnd]).
    - The diagnosis script's verdict and the stub generator's outcome on every
      branch ([Diagnose], [GenerateProtos]).
    - Three theorems state behaviour that contradicts the code's intent: the
      flush that is skipped after an unreadable configuration, the JSON lines
      that stop the server, and the diagnosis that announces success although
      claims do not match. [session_bounds] states a cap on sealed sessions that
      a comment denies; [session_history] and [startup_exact] show an error that
      is overwritten and a start that is not tested.

    ** Bounds and fuel

    Every model function is total by structural recursion; fuel appears in the
    loops of the JSON scanner, where the length of the text is proved to be
    enough ([loads_terminates]), in the DER length encoder, where the length
    itself bounds the digits, and in [makedirs], where the length of the path
    bounds the number of parents. The main loop recurses on the list of input lines, so its theorems cover inputs
    of any length; the schema validator recurses on the schema; the model is
    asked [kMaxLlmRetries] times as in the code. Integers are unbounded as in
    Python; the 32-bit fields of protobuf messages go through [int32_field],
    the [int] conversions of the validator through [int32]. SHA-256 is computed
    on 32-bit words with wrap-around.

    ** Not modelled

    The generated protobuf and gRPC stubs, PyJWT, [cryptography], sockets and
    files are parameters; so are the conversion between a float and its text and
    the depth at which Python's recursion limit strikes ([PyFloat]). NaN and
    infinite floats, non-ASCII digits in [int()] and, outside JSON, its limit of
    4300 digits are left out, as are the positions in JSON error messages.
    [argparse] is that of CPython 3.11 for the kinds of options [cli.py]
    declares; the texts of help and usage messages are left out, and what looks
    like a negative number is recognized with ASCII digits only. The legacy
    constants of [ita_verifier.py] that nothing reads, imports and changes of
    [sys.path] have no model.
    Progress messages are left out except where computing them can raise or
    they are the command's output.

    On the server, nlohmann's parser and printer ([NJson]), RE2 matching of a
    policy's patterns ([Re2]), the clock, the random source, the policy
    directory, the gRPC runtime and the inference engine's answers are
    parameters; log lines and the format of durations are left out. The TLS
    proxy, the certificate generator and the engine itself call system
    libraries throughout and have no model; nor have the test harness and the
    deployment scripts. *)

From Stdlib Require Export ZArith Lia.
From Stdlib Require Export Strings.Byte Strings.Ascii.
From stdpp Require Export base option strings gmap numbers pretty.
From stdpp Require Export list.

Set Default Proof Using "Type".
#[global] Generalizable No Variables.

(** ** Results: the outcome of a Python call

    A call either returns a value or raises an exception. *)

Inductive result (E A : Type) : Type :=
| Ok (a : A)
| Raise (e : E).
Arguments Ok {E A} a.
Arguments Raise {E A} e.

#[global] Instance result_ret (E : Type) : MRet (result E) := fun A a => Ok a.
#[global] Instance result_bind (E : Type) : MBind (result E) := fun A B f m =>
  match m with Ok a => f a | Raise e => Raise e end.
#[global] Instance result_fmap (E : Type) : FMap (result E) := fun A B f m =>
  match m with Ok a => Ok (f a) | Raise e => Raise e end.

Definition is_ok {E A : Type} (r : result E A) : bool :=
  match r with Ok _ => true | Raise _ => false end.

(** ** Stateful calls

    [ST S E A] is a call that reads and updates a state [S]. A raised
    exception keeps the state as it was at the point of the raise: Python
    does not roll back assignments. *)

Definition ST (S E A : Type) : Type := S → result E A * S.

#[global] Instance ST_ret (S E : Type) : MRet (ST S E) := fun A a s => (Ok a, s).
#[global] Instance ST_bind (S E : Type) : MBind (ST S E) := fun A B f m s =>
  match m s with
  | (Ok a, s') => f a s'
  | (Raise e, s') => (Raise e, s')
  end.

Section st_ops.
Context {S E : Type}.

Definition raise {A : Type} (e : E) : ST S E A := fun s => (Raise e, s).
Definition get_state : ST S E S := fun s => (Ok s, s).
Definition put_state (s : S) : ST S E unit := fun _ => (Ok tt, s).
Definition modify (f : S → S) : ST S E unit := fun s => (Ok tt, f s).
Definition lift {A : Type} (r : result E A) : ST S E A := fun s => (r, s).

(** [try: m except ... as e: h e]; [h] decides, from the exception, whether
    a clause applies ([Some handler]) or the exception propagates ([None]). *)
Definition try_except {A : Type} (m : ST S E A) (h : E → option (ST S E A)) : ST S E A :=
  fun s => match m s with
           | (Ok a, s') => (Ok a, s')
           | (Raise e, s') =>
               match h e with
               | Some k => k s'
               | None => (Raise e, s')
               end
           end.

(** [try: m finally: f]; an exception of [f] replaces the outcome of [m]. *)
Definition try_finally {A : Type} (m : ST S E A) (f : ST S E unit) : ST S E A :=
  fun s => let '(r, s') := m s in
           match f s' with
           | (Ok _, s'') => (r, s'')
           | (Raise e, s'') => (Raise e, s'')
           end.
End st_ops.

(** Run a call on a part of the state. *)
Definition zoom {S T E A : Type} (get : S → T) (put : T → S → S) (m : ST T E A) : ST S E A :=
  fun s => let '(r, t) := m (get s) in (r, put t s).

(** ** Hoare triples

    From a state that satisfies [P], the call returns a value and a state
    related by [Q], or raises in a state that satisfies [R]. *)

Definition hoare {S E A : Type} (P : S → Prop) (m : ST S E A) (Q : A → S → Prop) (R : S → Prop) : Prop :=
  ∀ s, P s → match m s with (Ok a, s') => Q a s' | (Raise _, s') => R s' end.


(** ** Generic lemmas *)

Lemma bind_Ok {E A B : Type} (m : result E A) (f : A → result E B) (b : B) :
  (m ≫= f) = Ok b ↔ ∃ a, m = Ok a ∧ f a = Ok b.
Proof.
  destruct m as [a|e]; cbn; split; [eauto| |discriminate|].
  - by intros (? & [= ->] & ?).
  - by intros (? & ? & _).
Qed.

Lemma ret_bind {E A B : Type} (a : A) (f : A → result E B) : (Ok a ≫= f) = f a.
Proof. done. Qed.

Lemma raise_bind {E A B : Type} (e : E) (f : A → result E B) : (Raise e ≫= f) = Raise e.
Proof. done. Qed.

Lemma is_ok_true {E A : Type} (r : result E A) : is_ok r = true ↔ ∃ a, r = Ok a.
Proof. destruct r as [a|e]; cbn; split; [eauto|done|done|by intros [? ?]]. Qed.

Lemma existsb_ext_In {A : Type} (f g : A → bool) (l : list A) :
  (∀ x, In x l → f x = g x) → existsb f l = existsb g l.
Proof. induction l as [|x l IH]; cbn; intros H; [done|]. rewrite H, IH; auto. Qed.

Lemma st_bind_Ok {S E A B : Type} (m : ST S E A) (f : A → ST S E B) s b s'' :
  (m ≫= f) s = (Ok b, s'') ↔ ∃ a s', m s = (Ok a, s') ∧ f a s' = (Ok b, s'').
Proof.
  unfold mbind, ST_bind. destruct (m s) as [[a|e] s'].
  - split; [eauto|by intros (? & ? & [= -> ->] & ?)].
  - split; [done|by intros (? & ? & [=] & _)].
Qed.

Lemma st_bind_Raise {S E A B : Type} (m : ST S E A) (f : A → ST S E B) s e s'' :
  (m ≫= f) s = (Raise e, s'') ↔
  m s = (Raise e, s'') ∨ ∃ a s', m s = (Ok a, s') ∧ f a s' = (Raise e, s'').
Proof.
  unfold mbind, ST_bind. destruct (m s) as [[a|e'] s'].
  - split; [eauto|by intros [?|(? & ? & [= -> ->] & ?)]].
  - split; [intros [= -> ->]; by left|by intros [[= -> ->]|(? & ? & [=] & _)]].
Qed.

Lemma st_bind_eq {S E A B : Type} (m : ST S E A) (f : A → ST S E B) s :
  (m ≫= f) s = match m s with (Ok a, s') => f a s' | (Raise e, s') => (Raise e, s') end.
Proof. done. Qed.

Lemma st_bind_run {S E A B : Type} (m : ST S E A) (f : A → ST S E B) s a s' :
  m s = (Ok a, s') → (m ≫= f) s = f a s'.
Proof. unfold mbind, ST_bind. by intros ->. Qed.

Lemma lift_run {S E A : Type} (r : result E A) (s : S) : lift r s = (r, s).
Proof. done. Qed.

Section hoare.
Context {S E : Type}.
Implicit Types P R : S → Prop.

Lemma hoare_ret {A : Type} P (a : A) (Q : A → S → Prop) R :
  (∀ s, P s → Q a s) → hoare P (mret a : ST S E A) Q R.
Proof. intros H s Hs. by apply H. Qed.

Lemma hoare_raise {A : Type} P (e : E) (Q : A → S → Prop) R :
  (∀ s, P s → R s) → hoare P (raise e) Q R.
Proof. intros H s Hs. by apply H. Qed.

Lemma hoare_lift {A : Type} P (r : result E A) (Q : A → S → Prop) R :
  (∀ a s, r = Ok a → P s → Q a s) → (∀ e s, r = Raise e → P s → R s) → hoare P (lift r) Q R.
Proof. intros HQ HR s Hs. unfold lift. destruct r; eauto. Qed.

Lemma hoare_modify P (f : S → S) (Q : unit → S → Prop) R :
  (∀ s, P s → Q tt (f s)) → hoare P (modify f : ST S E unit) Q R.
Proof. intros H s Hs. by apply H. Qed.

Lemma hoare_get P (Q : S → S → Prop) R :
  (∀ s, P s → Q s s) → hoare P (get_state : ST S E S) Q R.
Proof. intros H s Hs. by apply H. Qed.

Lemma hoare_bind {A B : Type} P (m : ST S E A) (f : A → ST S E B) Q Q' R :
  hoare P m Q R → (∀ a, hoare (Q a) (f a) Q' R) → hoare P (m ≫= f) Q' R.
Proof.
  intros Hm Hf s Hs. specialize (Hm s Hs). unfold mbind, ST_bind.
  destruct (m s) as [[a|e] s']; [|done]. by apply Hf.
Qed.

Lemma hoare_conseq {A : Type} P P' (m : ST S E A) (Q Q' : A → S → Prop) R R' :
  hoare P' m Q' R' → (∀ s, P s → P' s) → (∀ a s, Q' a s → Q a s) → (∀ s, R' s → R s) → hoare P m Q R.
Proof.
  intros Hm HP HQ HR s Hs. specialize (Hm s (HP s Hs)). destruct (m s) as [[a|e] s']; auto.
Qed.

(** A fact about no state may be assumed. *)
Lemma hoare_pure {A : Type} (φ : Prop) P (m : ST S E A) Q R :
  (φ → hoare P m Q R) → hoare (λ s, φ ∧ P s) m Q R.
Proof. intros Hm s [Hφ Hs]. by apply Hm. Qed.

Lemma hoare_try {A : Type} P (m : ST S E A) h Q R R' :
  hoare P m Q R' → (∀ e k, h e = Some k → hoare R' k Q R) → (∀ s, R' s → R s) →
  hoare P (try_except m h) Q R.
Proof.
  intros Hm Hh HR s Hs. specialize (Hm s Hs). unfold try_except.
  destruct (m s) as [[a|e] s']; [done|]. destruct (h e) as [k|] eqn:E'; [|by apply HR].
  by apply (Hh e k).
Qed.

Lemma hoare_finally {A : Type} P (m : ST S E A) (f : ST S E unit) Q Q' R R' :
  hoare P m Q' R' → (∀ a, hoare (Q' a) f (λ _, Q a) R) → hoare R' f (λ _, R) R →
  hoare P (try_finally m f) Q R.
Proof.
  intros Hm Hf Hr s Hs. specialize (Hm s Hs). unfold try_finally.
  destruct (m s) as [[a|e] s'].
  - specialize (Hf a s' Hm). by destruct (f s') as [[u|e'] s''].
  - specialize (Hr s' Hm). by destruct (f s') as [[u|e'] s''].
Qed.

Lemma hoare_zoom {T A : Type} (get : S → T) (put : T → S → S) (m : ST T E A)
    (P0 : T → Prop) (Q0 : A → T → Prop) (R0 : T → Prop) (P : S → Prop) (Q : A → S → Prop) (R : S → Prop) :
  hoare P0 m Q0 R0 → (∀ s, P s → P0 (get s)) →
  (∀ s a t, P s → Q0 a t → Q a (put t s)) → (∀ s t, P s → R0 t → R (put t s)) →
  hoare P (zoom get put m) Q R.
Proof.
  intros Hm HP HQ HR s Hs. specialize (Hm (get s) (HP s Hs)). unfold zoom.
  destruct (m (get s)) as [[a|e] t]; eauto.
Qed.
End hoare.

Lemma NoDup_fmap_eq {A B : Type} (f : A → B) (l : list A) (x y : A) :
  NoDup (f <$> l) → x ∈ l → y ∈ l → f x = f y → x = y.
Proof.
  induction l as [|z l IH]; [by intros _ ?%elem_of_nil|].
  cbn. rewrite NoDup_cons, !elem_of_cons. intros [Hz Hl] [->|Hx] [->|Hy] Hf; auto.
  - destruct Hz. rewrite Hf. by apply list_elem_of_fmap_2.
  - destruct Hz. rewrite <- Hf. by apply list_elem_of_fmap_2.
Qed.

(** [find] returns the first match. *)
Lemma find_first {A : Type} (f : A → bool) (l : list A) (x : A) :
  List.find f l = Some x →
  ∃ i, l !! i = Some x ∧ f x = true ∧ ∀ j y, (j < i)%nat → l !! j = Some y → f y = false.
Proof.
  induction l as [|y l IH]; [done|]. cbn. destruct (f y) eqn:Hy.
  - intros [= ->]. exists 0%nat. split; [done|]. split; [done|]. lia.
  - intros (i & Hi & Hx & Hmin)%IH. exists (S i). split; [done|]. split; [done|].
    intros [|j] z Hj; [by intros [= ->]|]. apply Hmin. lia.
Qed.

(** Induction three elements at a time. *)
Lemma list_ind3 {A : Type} (P : list A → Prop) :
  P [] → (∀ a, P [a]) → (∀ a b, P [a; b]) →
  (∀ a b c l, P l → P (a :: b :: c :: l)) → ∀ l, P l.
Proof.
  intros H0 H1 H2 H3. fix IH 1. intros [|a [|b [|c l]]];
    [exact H0|exact (H1 a)|exact (H2 a b)|exact (H3 a b c l (IH l))].
Qed.

(** ** Automation

    [inv_ok] closes or injects equations between outcomes; [inv_bind] opens a
    chain of binds that is known to return. *)

Ltac inv_ok :=
  repeat match goal with
  | H : Ok _ = Ok _ |- _ => injection H as H; subst
  | H : Ok _ = Raise _ |- _ => discriminate H
  | H : Raise _ = Ok _ |- _ => discriminate H
  | H : Raise _ = Raise _ |- _ => injection H as H; subst
  | H : Some _ = Some _ |- _ => injection H as H; subst
  | H : Some _ = None |- _ => discriminate H
  | H : None = Some _ |- _ => discriminate H
  | H : (_, _) = (_, _) |- _ => injection H as H; subst
  end.

Ltac inv_bind :=
  repeat (match goal with
  | H : (_ ≫= _) = Ok _ |- _ =>
      apply bind_Ok in H; destruct H as (? & ? & H)
  | H : is_ok _ = true |- _ => apply is_ok_true in H; destruct H as (? & H)
  end; inv_ok).

(** Open a chain of stateful binds that is known to return. *)
Ltac inv_st :=
  repeat (match goal with
  | H : (_ ≫= _) _ = (Ok _, _) |- _ =>
      apply st_bind_Ok in H; destruct H as (? & ? & ? & H)
  | H : lift _ _ = (_, _) |- _ => rewrite lift_run in H
  | H : mret _ _ = (_, _) |- _ => unfold mret, ST_ret in H
  end; inv_ok).

(** Unfold the monads, to run a call symbolically. *)
Ltac st_unfold :=
  unfold mbind, mret, ST_bind, ST_ret, result_bind, result_ret,
    lift, raise, get_state, put_state, modify, try_except, try_finally in *;
  cbn beta iota in *.

Create HintDb ztab.
Create Rewrite HintDb ztab.
#[export] Hint Rewrite @ret_bind @raise_bind : ztab.
