(* ===== verification/PyText.v ===== *)
(** Python text and bytes: the part of [str], [bytes], [base64] and the UTF-8
    codec that the agent uses.

    A Python [str] is a Rocq [string] holding its UTF-8 encoding, so equality,
    prefixes and substrings of texts are those of the encodings; [bytes] is a
    list of [byte]. *)

From S2P Require Import Prelude.

Open Scope Z_scope.

(** ** Bytes as integers *)

Definition b2z (b : byte) : Z := Z.of_N (Byte.to_N b).

Definition z2b (z : Z) : byte :=
  match Byte.of_N (Z.to_N (z mod 256)) with
  | Some b => b
  | None => x00
  end.

Lemma b2z_range b : 0 <= b2z b < 256.
Proof. unfold b2z. pose proof (Byte.to_N_bounded b). lia. Qed.

Lemma z2b_b2z b : z2b (b2z b) = b.
Proof.
  unfold z2b. rewrite Z.mod_small by apply b2z_range.
  unfold b2z. rewrite N2Z.id. by rewrite Byte.of_to_N.
Qed.

Lemma b2z_z2b z : b2z (z2b z) = z mod 256.
Proof.
  unfold z2b. pose proof (Z.mod_pos_bound z 256 eq_refl) as Hb.
  destruct (Byte.of_N _) as [b|] eqn:E.
  - apply Byte.to_of_N in E. unfold b2z. rewrite E. lia.
  - apply Byte.of_N_None_iff in E. lia.
Qed.

Lemma b2z_inj a b : b2z a = b2z b → a = b.
Proof. intros H. rewrite <- (z2b_b2z a), H. apply z2b_b2z. Qed.

#[global] Instance byte_eq_dec : EqDecision byte.
Proof. intros x y. exact (Byte.byte_eq_dec x y). Defined.

(** ** Strings *)

(** [s.startswith(p)] is [String.prefix p s]; [sub in s] is [contains]. *)
Fixpoint contains (sub s : string) : bool :=
  String.prefix sub s ||
  match s with
  | EmptyString => false
  | String _ s' => contains sub s'
  end.

Lemma str_app_assoc (s t u : string) : (s +:+ t) +:+ u = s +:+ t +:+ u.
Proof. induction s as [|a s IH]; [done|]. exact (f_equal (String a) IH). Qed.

Lemma str_app_nil_r (s : string) : s +:+ EmptyString = s.
Proof. induction s as [|a s IH]; [done|]. exact (f_equal (String a) IH). Qed.

Lemma concat_cons (s : string) l : String.concat EmptyString (s :: l) = s +:+ String.concat EmptyString l.
Proof. destruct l; [|done]. symmetry. apply str_app_nil_r. Qed.

(** [s.split(c)] for a one-character separator. *)
Fixpoint split_on (c : ascii) (s : string) : list string :=
  match s with
  | EmptyString => [EmptyString]
  | String a s' =>
      if Ascii.eqb a c then EmptyString :: split_on c s'
      else match split_on c s' with
           | [] => [String a EmptyString]
           | p :: ps => String a p :: ps
           end
  end.

(** The characters of a text: a character starts at each byte that is not a
    UTF-8 continuation byte. *)
Definition is_cont (a : ascii) : bool := (N_of_ascii a / 64 =? 2)%N.
Fixpoint text_chars (s : string) : list string :=
  match s with
  | EmptyString => []
  | String a s' =>
      match text_chars s' with
      | (String b _ as c) :: cs =>
          if is_cont b then String a c :: cs else String a EmptyString :: c :: cs
      | cs => String a EmptyString :: cs
      end
  end.

(** The ASCII characters [int()] skips around a literal. *)
Definition int_space (a : ascii) : bool :=
  let n := Ascii.N_of_ascii a in ((9 <=? n) && (n <=? 13) || (n =? 32))%N.

Fixpoint drop_while {A : Type} (f : A → bool) (l : list A) : list A :=
  match l with
  | [] => []
  | a :: l' => if f a then drop_while f l' else l
  end.

Definition strip_list {A : Type} (f : A → bool) (l : list A) : list A :=
  rev (drop_while f (rev (drop_while f l))).

(** [str.strip()]: the characters for which [str.isspace()] holds, given by
    their UTF-8 encoding. *)
Definition utf8_char (bs : list Z) : string := String.string_of_list_byte (z2b <$> bs).
Definition spaces : list string :=
  utf8_char <$>
    ([[9]; [10]; [11]; [12]; [13]; [28]; [29]; [30]; [31]; [32]; [0xC2; 0x85]; [0xC2; 0xA0];
      [0xE1; 0x9A; 0x80]; [0xE2; 0x80; 0xA8]; [0xE2; 0x80; 0xA9]; [0xE2; 0x80; 0xAF];
      [0xE2; 0x81; 0x9F]; [0xE3; 0x80; 0x80]]
     ++ ((λ i, [0xE2; 0x80; 0x80 + Z.of_nat i]) <$> seq 0 11)).
Definition is_space (c : string) : bool := existsb (String.eqb c) spaces.

Definition strip (s : string) : string :=
  String.concat "" (strip_list is_space (text_chars s)).

(** ** [int(s)] for a text *)

Definition digit_val (a : ascii) : option Z :=
  let n := Ascii.N_of_ascii a in
  if ((48 <=? n) && (n <=? 57))%N then Some (Z.of_N n - 48) else None.

(** Digits with single underscores between them: [after_digit] says whether
    the previous character was a digit. *)
Fixpoint int_digits (acc : Z) (after_digit : bool) (l : list ascii) : option Z :=
  match l with
  | [] => if after_digit then Some acc else None
  | a :: l' =>
      if Ascii.eqb a "_" then
        if after_digit then int_digits acc false l' else None
      else match digit_val a with
           | Some d => int_digits (10 * acc + d) true l'
           | None => None
           end
  end.

Definition int_literal (l : list ascii) : option Z :=
  match l with
  | "-"%char :: l' => Z.opp <$> int_digits 0 false l'
  | "+"%char :: l' => int_digits 0 false l'
  | _ => int_digits 0 false l
  end.

Definition int_of_string (s : string) : option Z :=
  int_literal (strip_list int_space (String.list_ascii_of_string s)).

(** ** Checking a decidable fact for every byte *)

Definition all_bytes : list byte := (λ i, z2b (Z.of_nat i)) <$> seq 0 256.

Lemma elem_of_all_bytes b : In b all_bytes.
Proof.
  unfold all_bytes. apply in_map_iff. exists (Z.to_nat (b2z b)).
  pose proof (b2z_range b). split.
  - rewrite Z2Nat.id by lia. apply z2b_b2z.
  - apply in_seq. lia.
Qed.

Lemma byte_check (f : byte → bool) :
  forallb f all_bytes = true → ∀ b, f b = true.
Proof. intros H b. rewrite forallb_forall in H. apply H, elem_of_all_bytes. Qed.

Lemma byte_check2 (f : byte → byte → bool) :
  forallb (λ a, forallb (f a) all_bytes) all_bytes = true → ∀ a b, f a b = true.
Proof. intros H a. apply byte_check. revert a. by apply byte_check. Qed.

(** ** Texts as byte lists *)

Lemma length_list_byte s : length (String.list_byte_of_string s) = String.length s.
Proof. induction s as [|a s IH]; [done|]. cbn. by rewrite <- IH. Qed.

Lemma list_byte_cons c s :
  String.list_byte_of_string (String c s) = byte_of_ascii c :: String.list_byte_of_string s.
Proof. done. Qed.

Lemma list_byte_app s t :
  String.list_byte_of_string (s +:+ t) =
  String.list_byte_of_string s ++ String.list_byte_of_string t.
Proof. induction s as [|a s IH]; [done|]. exact (f_equal (cons _) IH). Qed.

Lemma list_byte_inj s t :
  String.list_byte_of_string s = String.list_byte_of_string t → s = t.
Proof.
  intros H. rewrite <- (String.string_of_list_byte_of_string s), H.
  apply String.string_of_list_byte_of_string.
Qed.

(** ** Printing and reading integers *)

Abbreviation chars := String.list_ascii_of_string.

Definition is_digit (a : ascii) : Prop := ∃ d, digit_val a = Some d.

Lemma pretty_N_char_digit n :
  (n < 10)%N → digit_val (pretty_N_char n) = Some (Z.of_N n) ∧ pretty_N_char n ≠ "_"%char.
Proof.
  intros Hn. assert (n ∈ [0; 1; 2; 3; 4; 5; 6; 7; 8; 9])%N as Hin by (rewrite !elem_of_cons; lia).
  repeat (apply elem_of_cons in Hin as [->|Hin]; [by split|]). by apply elem_of_nil in Hin.
Qed.

Lemma int_digits_char acc b n l :
  (n < 10)%N → int_digits acc b (pretty_N_char n :: l) = int_digits (10 * acc + Z.of_N n) true l.
Proof.
  intros [Hd Hu]%pretty_N_char_digit. cbn [int_digits].
  apply Ascii.eqb_neq in Hu as ->. by rewrite Hd.
Qed.

(** Reading the printed digits of [x] leaves the accumulator at [x]. *)
Lemma int_digits_pretty_go x s b :
  (0 < x)%N → int_digits 0 b (chars (pretty_N_go x s)) = int_digits (Z.of_N x) true (chars s).
Proof.
  revert s. induction (N.lt_wf_0 x) as [x _ IH]. intros s Hx.
  rewrite pretty_N_go_step by done.
  pose proof (N.mod_lt x 10 ltac:(done)). pose proof (N.div_mod x 10 ltac:(done)) as Hdm.
  destruct (N.eq_0_gt_0_cases (x `div` 10)) as [H0|H0].
  - rewrite H0, pretty_N_go_0. cbn [String.list_ascii_of_string].
    rewrite int_digits_char by done. f_equal. lia.
  - rewrite IH by (try apply N.div_lt; done). cbn [String.list_ascii_of_string].
    rewrite int_digits_char by done. f_equal. lia.
Qed.

Lemma pretty_go_digits x s :
  Forall is_digit (chars s) → Forall is_digit (chars (pretty_N_go x s)).
Proof.
  revert s. induction (N.lt_wf_0 x) as [x _ IH]. intros s Hs.
  destruct (N.eq_0_gt_0_cases x) as [->|Hx]; [by rewrite pretty_N_go_0|].
  rewrite pretty_N_go_step by done. apply IH; [by apply N.div_lt|].
  constructor; [|done]. eexists. apply pretty_N_char_digit, N.mod_lt. done.
Qed.

Lemma digit_not_space a : is_digit a → int_space a = false ∧ a ≠ "-"%char ∧ a ≠ "+"%char.
Proof.
  intros [d Hd]. unfold digit_val in Hd. case_match eqn:E; [|done].
  unfold int_space. split; [|split; intros ->; discriminate E].
  apply andb_true_iff in E as [E1%N.leb_le E2%N.leb_le]. cbv zeta.
  rewrite (proj2 (N.leb_gt _ 13)), andb_false_r, (proj2 (N.eqb_neq _ 32)); [done|lia..].
Qed.

Lemma drop_while_none {A : Type} (f : A → bool) l : Forall (λ a, f a = false) l → drop_while f l = l.
Proof. destruct 1 as [|a l Ha]; [done|]. cbn. by rewrite Ha. Qed.

Lemma strip_list_none {A : Type} (f : A → bool) l : Forall (λ a, f a = false) l → strip_list f l = l.
Proof.
  intros Hl. unfold strip_list. rewrite (drop_while_none _ l Hl), drop_while_none.
  - apply rev_involutive.
  - by apply Forall_rev.
Qed.

Lemma int_literal_digits l : Forall is_digit l → int_literal l = int_digits 0 false l.
Proof.
  intros [|a l' [_ [Hm Hp]]%digit_not_space _]; [done|].
  unfold int_literal. repeat (case_match; try done).
Qed.

Lemma int_of_string_pos p : int_of_string (pretty (Npos p)) = Some (Zpos p).
Proof.
  unfold int_of_string, pretty, pretty_N. rewrite decide_False by done.
  assert (Hd := pretty_go_digits (Npos p) "" (Forall_nil_2 _)).
  rewrite strip_list_none, int_literal_digits, int_digits_pretty_go; try done.
  eapply Forall_impl; [exact Hd|]. intros a Ha. by apply digit_not_space.
Qed.

Lemma int_of_string_neg p : int_of_string ("-" +:+ pretty (Npos p)) = Some (Zneg p).
Proof.
  pose proof (int_of_string_pos p) as Hp. revert Hp.
  unfold int_of_string, pretty, pretty_N. rewrite decide_False by done.
  assert (Hd := pretty_go_digits (Npos p) "" (Forall_nil_2 _)). cbn [String.append String.list_ascii_of_string].
  assert (Hs : Forall (λ a, int_space a = false) (chars (pretty_N_go (N.pos p) ""))).
  { eapply Forall_impl; [exact Hd|]. intros a Ha. by apply digit_not_space. }
  rewrite !strip_list_none by (try constructor; done).
  rewrite int_literal_digits by done. intros Hp.
  change (Z.opp <$> int_digits 0 false (chars (pretty_N_go (N.pos p) "")) = Some (Zneg p)).
  by rewrite Hp.
Qed.

(** [int(str(z)) == z]. *)
Lemma int_of_string_pretty z : int_of_string (pretty z) = Some z.
Proof. destruct z; [done|apply int_of_string_pos|apply int_of_string_neg]. Qed.
