(* ===== verification/PyPath.v ===== *)
(** Paths as text: what the scripts use of [os.path] on a POSIX system, and
    [str.endswith]. *)

From S2P Require Import Prelude PyText.

Abbreviation slash := "/"%char.

Definition is_slash (a : ascii) : bool := Ascii.eqb a slash.

(** [head, tail = os.path.split(p)]: the head loses its trailing slashes unless
    it consists of slashes. *)
Definition split_path (p : string) : string * string :=
  let r := rev (String.list_ascii_of_string p) in
  let tail := rev (take (length r - length (drop_while (λ a, negb (is_slash a)) r)) r) in
  let head := drop_while (λ a, negb (is_slash a)) r in
  let stripped := drop_while is_slash head in
  (String.string_of_list_ascii (rev (if decide (stripped = []) then head else stripped)),
   String.string_of_list_ascii tail).

Definition dirname (p : string) : string := (split_path p).1.
Definition basename (p : string) : string := (split_path p).2.

(** [os.path.join(a, b)] *)
Definition join (a b : string) : string :=
  if String.prefix "/" b then b
  else if String.eqb a "" || String.eqb (basename a) "" then a +:+ b
  else a +:+ "/" +:+ b.

Definition endswith (suffix s : string) : bool :=
  String.prefix (String.string_of_list_ascii (rev (String.list_ascii_of_string suffix)))
                (String.string_of_list_ascii (rev (String.list_ascii_of_string s))).
