(* ===== verification/Base64.v ===== *)
(** Base64: [base64.urlsafe_b64encode], [base64.b64decode] and
    [base64.urlsafe_b64decode] of the Python standard library, and the two
    helpers of [ita_verifier.py] built on them.

    The decoder is the non-strict [binascii.a2b_base64] loop: characters
    outside the alphabet are skipped, a complete pad sequence ends the input,
    and a leftover partial group is an error. *)

From S2P Require Import Prelude PyText.

Open Scope Z_scope.

Definition pad_byte : byte := x3d.

(** The standard alphabet: value of a sextet's character, and back. *)
Definition b64_char (v : Z) : byte :=
  z2b (if v <? 26 then 65 + v
       else if v <? 52 then 97 + (v - 26)
       else if v <? 62 then 48 + (v - 52)
       else if v =? 62 then 43 else 47).

Definition b64_val (b : byte) : option Z :=
  let n := b2z b in
  if (65 <=? n) && (n <=? 90) then Some (n - 65)
  else if (97 <=? n) && (n <=? 122) then Some (n - 97 + 26)
  else if (48 <=? n) && (n <=? 57) then Some (n - 48 + 52)
  else if n =? 43 then Some 62
  else if n =? 47 then Some 63
  else None.

(** [base64.b64encode(data)]: three bytes to four characters, the last group
    padded with [=]. *)
Fixpoint b64encode (data : list byte) : list byte :=
  match data with
  | [] => []
  | [a] =>
      [b64_char (Z.shiftr (b2z a) 2);
       b64_char (Z.shiftl (Z.land (b2z a) 3) 4); pad_byte; pad_byte]
  | [a; b] =>
      [b64_char (Z.shiftr (b2z a) 2);
       b64_char (Z.lor (Z.shiftl (Z.land (b2z a) 3) 4) (Z.shiftr (b2z b) 4));
       b64_char (Z.shiftl (Z.land (b2z b) 15) 2); pad_byte]
  | a :: b :: c :: rest =>
      b64_char (Z.shiftr (b2z a) 2)
      :: b64_char (Z.lor (Z.shiftl (Z.land (b2z a) 3) 4) (Z.shiftr (b2z b) 4))
      :: b64_char (Z.lor (Z.shiftl (Z.land (b2z b) 15) 2) (Z.shiftr (b2z c) 6))
      :: b64_char (Z.land (b2z c) 63)
      :: b64encode rest
  end.

(** [binascii.a2b_base64] in its non-strict mode: [q] is the position in the
    group of four, [left] the bits carried over, [pads] the pads seen since the
    last data character. [None] is [binascii.Error]. *)
Fixpoint a2b (l : list byte) (q : nat) (left : Z) (pads : nat) : option (list byte) :=
  match l with
  | [] => if (q =? 0)%nat then Some [] else None
  | c :: l' =>
      if decide (c = pad_byte) then
        if (2 <=? q)%nat && (4 <=? q + S pads)%nat then Some []
        else a2b l' q left (if (2 <=? q)%nat then S pads else pads)
      else match b64_val c with
           | None => a2b l' q left pads
           | Some v =>
               match q with
               | 0%nat => a2b l' 1 v 0
               | 1%nat => cons (z2b (Z.lor (Z.shiftl left 2) (Z.shiftr v 4)))
                            <$> a2b l' 2 (Z.land v 15) 0
               | 2%nat => cons (z2b (Z.lor (Z.shiftl left 4) (Z.shiftr v 2)))
                            <$> a2b l' 3 (Z.land v 3) 0
               | _ => cons (z2b (Z.lor (Z.shiftl left 6) v)) <$> a2b l' 0 0 0
               end
           end
  end.

Definition b64decode (l : list byte) : option (list byte) := a2b l 0 0 0.

(** The translations of the URL-safe alphabet. *)
Definition to_urlsafe (b : byte) : byte :=
  if decide (b = x2b) then x2d else if decide (b = x2f) then x5f else b.
Definition of_urlsafe (b : byte) : byte :=
  if decide (b = x2d) then x2b else if decide (b = x5f) then x2f else b.

Definition urlsafe_b64encode (data : list byte) : list byte := to_urlsafe <$> b64encode data.

Definition is_ascii_byte (b : byte) : bool := b2z b <? 128.

(** [base64.b64decode(s)] and [base64.urlsafe_b64decode(s)] for a text:
    [ValueError] when it is not ASCII, [binascii.Error] (a [ValueError]) when
    it does not decode. *)
Definition b64decode_text (s : string) : option (list byte) :=
  let bs := String.list_byte_of_string s in
  if forallb is_ascii_byte bs then b64decode bs else None.
Definition urlsafe_b64decode (s : string) : option (list byte) :=
  let bs := String.list_byte_of_string s in
  if forallb is_ascii_byte bs then b64decode (of_urlsafe <$> bs) else None.

(** [.rstrip(b"=")] *)
Fixpoint rstrip_pad (l : list byte) : list byte :=
  match l with
  | [] => []
  | b :: l' =>
      match rstrip_pad l' with
      | [] => if decide (b = pad_byte) then [] else [b]
      | r => b :: r
      end
  end.

(** ** [ita_verifier.py] *)

Definition _base64url_encode_nopad (data : list byte) : string :=
  String.string_of_list_byte (rstrip_pad (urlsafe_b64encode data)).

Definition eq_pad (n : nat) : string := String.string_of_list_byte (replicate n pad_byte).

Definition _base64url_decode (s : string) : option (list byte) :=
  urlsafe_b64decode (s ++ eq_pad ((4 - String.length s `mod` 4) `mod` 4)).

(** ** The group equations *)

Lemma b64_val_char v :
  0 <= v < 64 → b64_val (b64_char v) = Some v.
Proof.
  intros Hv. assert (Hc : forallb (λ i, bool_decide (b64_val (b64_char (Z.of_nat i)) = Some (Z.of_nat i)))
    (seq 0 64) = true) by (vm_compute; reflexivity).
  rewrite forallb_forall in Hc. specialize (Hc (Z.to_nat v)).
  rewrite Z2Nat.id, bool_decide_eq_true in Hc by lia. apply Hc, in_seq. lia.
Qed.

(** A data character is neither the pad nor one of the URL-safe substitutes. *)
Definition data_char (c : byte) : Prop := b64_val c ≠ None ∧ c ≠ pad_byte.

Lemma data_char_b64 c v : b64_val c = Some v → data_char c.
Proof. intros H. split; [congruence|]. intros ->. discriminate H. Qed.

Lemma of_to_urlsafe c : data_char c ∨ c = pad_byte → of_urlsafe (to_urlsafe c) = c.
Proof.
  assert (Hall : ∀ c, (bool_decide (b64_val c = None) && bool_decide (c ≠ pad_byte)
    || bool_decide (of_urlsafe (to_urlsafe c) = c)) = true)
    by (apply byte_check; vm_compute; reflexivity).
  specialize (Hall c). intros [[Hv Hp]| ->]; [|done].
  rewrite (bool_decide_eq_false_2 (b64_val c = None)) in Hall by done.
  by apply bool_decide_eq_true in Hall.
Qed.

Lemma to_urlsafe_pad c : to_urlsafe c = pad_byte → c = pad_byte.
Proof. unfold to_urlsafe. repeat case_decide; subst; done. Qed.

Lemma to_urlsafe_ascii c : data_char c ∨ c = pad_byte → is_ascii_byte (to_urlsafe c) = true.
Proof.
  assert (Hall : ∀ c, (bool_decide (b64_val c = None) && bool_decide (c ≠ pad_byte)
    || is_ascii_byte (to_urlsafe c)) = true) by (apply byte_check; vm_compute; reflexivity).
  specialize (Hall c). intros [[Hv Hp]| ->]; [|done].
  by rewrite (bool_decide_eq_false_2 (b64_val c = None)) in Hall.
Qed.

(** The sextets of a group, as the encoder writes them. *)
Definition s1 (a : byte) : Z := Z.shiftr (b2z a) 2.
Definition s2 (a b : byte) : Z := Z.lor (Z.shiftl (Z.land (b2z a) 3) 4) (Z.shiftr (b2z b) 4).
Definition s3 (b c : byte) : Z := Z.lor (Z.shiftl (Z.land (b2z b) 15) 2) (Z.shiftr (b2z c) 6).
Definition s4 (c : byte) : Z := Z.land (b2z c) 63.

Definition sextet (v : Z) : bool := (0 <=? v) && (v <? 64).

Lemma sextets_ok a b :
  sextet (s1 a) && sextet (s2 a b) && sextet (s3 a b) && sextet (s4 a) = true.
Proof. revert a b. apply byte_check2. vm_compute. reflexivity. Qed.

Lemma group_bytes a b c :
  z2b (Z.lor (Z.shiftl (s1 a) 2) (Z.shiftr (s2 a b) 4)) = a ∧
  z2b (Z.lor (Z.shiftl (Z.land (s2 a b) 15) 4) (Z.shiftr (s3 b c) 2)) = b ∧
  z2b (Z.lor (Z.shiftl (Z.land (s3 b c) 3) 6) (s4 c)) = c.
Proof.
  assert (H1 : ∀ a b, bool_decide (z2b (Z.lor (Z.shiftl (s1 a) 2) (Z.shiftr (s2 a b) 4)) = a) = true)
    by (apply byte_check2; vm_compute; reflexivity).
  assert (H2 : ∀ a b, bool_decide (Z.land (s2 a b) 15 = Z.shiftr (b2z b) 4) = true)
    by (apply byte_check2; vm_compute; reflexivity).
  assert (H3 : ∀ b c, bool_decide
    (z2b (Z.lor (Z.shiftl (Z.shiftr (b2z b) 4) 4) (Z.shiftr (s3 b c) 2)) = b) = true)
    by (apply byte_check2; vm_compute; reflexivity).
  assert (H4 : ∀ b c, bool_decide
    (z2b (Z.lor (Z.shiftl (Z.land (s3 b c) 3) 6) (s4 c)) = c) = true)
    by (apply byte_check2; vm_compute; reflexivity).
  specialize (H1 a b). specialize (H2 a b). specialize (H3 b c). specialize (H4 b c).
  rewrite bool_decide_eq_true in H1, H2, H3, H4. rewrite H2. auto.
Qed.

(** ** Round trips *)

(** The encoding without its pads. *)
Fixpoint b64_core (data : list byte) : list byte :=
  match data with
  | [] => []
  | [a] => [b64_char (s1 a); b64_char (s2 a x00)]
  | [a; b] => [b64_char (s1 a); b64_char (s2 a b); b64_char (s3 b x00)]
  | a :: b :: c :: rest =>
      b64_char (s1 a) :: b64_char (s2 a b) :: b64_char (s3 b c) :: b64_char (s4 c)
      :: b64_core rest
  end.

Definition pads_needed (n : nat) : nat := (4 - n `mod` 4) `mod` 4.

Lemma pads_needed_add4 n : pads_needed (S (S (S (S n)))) = pads_needed n.
Proof.
  unfold pads_needed. replace (S (S (S (S n)))) with (n + 1 * 4)%nat by lia.
  by rewrite Nat.Div0.mod_add.
Qed.

Lemma b64encode_core data :
  b64encode data = b64_core data ++ replicate (pads_needed (length (b64_core data))) pad_byte.
Proof.
  induction data as [|a|a b|a b c rest IH] using list_ind3; [done|..].
  - cbn -[s1 s2 b64_char]. unfold s1, s2. cbn [b2z]. by rewrite Z.lor_0_r.
  - cbn -[s1 s2 s3 b64_char]. unfold s1, s2, s3. by rewrite Z.lor_0_r.
  - cbn [b64encode b64_core length app]. rewrite pads_needed_add4, IH. done.
Qed.

Ltac sextet_side :=
  match goal with
  | |- context [s1 ?a] => pose proof (sextets_ok a a)
  | |- context [s2 ?a ?b] => pose proof (sextets_ok a b)
  | |- context [s3 ?a ?b] => pose proof (sextets_ok a b)
  | |- context [s4 ?a] => pose proof (sextets_ok a a)
  end; unfold sextet in *; lia.

Lemma b64_char_data v : 0 <= v < 64 → data_char (b64_char v).
Proof. intros Hv. by eapply data_char_b64, b64_val_char. Qed.

Lemma b64_core_data data : Forall data_char (b64_core data).
Proof.
  induction data as [|a|a b|a b c rest IH] using list_ind3; cbn [b64_core];
    repeat (apply Forall_cons; split; [apply b64_char_data; sextet_side|]);
    first [exact IH|constructor].
Qed.

(** One data character of the decoder's loop. *)
Lemma a2b_char v l q left pads :
  0 <= v < 64 →
  a2b (b64_char v :: l) q left pads =
    match q with
    | 0%nat => a2b l 1 v 0
    | 1%nat => cons (z2b (Z.lor (Z.shiftl left 2) (Z.shiftr v 4))) <$> a2b l 2 (Z.land v 15) 0
    | 2%nat => cons (z2b (Z.lor (Z.shiftl left 4) (Z.shiftr v 2))) <$> a2b l 3 (Z.land v 3) 0
    | _ => cons (z2b (Z.lor (Z.shiftl left 6) v)) <$> a2b l 0 0 0
    end.
Proof.
  intros Hv. cbn [a2b]. rewrite decide_False by apply b64_char_data, Hv.
  by rewrite b64_val_char.
Qed.

Lemma a2b_pads_0 k left pads : a2b (replicate k pad_byte) 0 left pads = Some [].
Proof. revert pads. induction k as [|k IH]; intros pads; [done|]. apply IH. Qed.

Lemma a2b_pads_2 k left : (2 <= k)%nat → a2b (replicate k pad_byte) 2 left 0 = Some [].
Proof. intros Hk. destruct k as [|[|k]]; [lia|lia|done]. Qed.

Lemma a2b_pads_3 k left : (1 <= k)%nat → a2b (replicate k pad_byte) 3 left 0 = Some [].
Proof. intros Hk. destruct k as [|k]; [lia|done]. Qed.

(** Decoding undoes encoding, however many pads follow as long as they
    complete the last group. *)
Lemma b64decode_core data k :
  (pads_needed (length (b64_core data)) <= k)%nat →
  b64decode (b64_core data ++ replicate k pad_byte) = Some data.
Proof.
  unfold b64decode.
  induction data as [|a|a b|a b c rest IH] using list_ind3; cbn [b64_core app]; intros Hk.
  - apply a2b_pads_0.
  - rewrite 2 a2b_char by sextet_side. rewrite a2b_pads_2 by exact Hk.
    cbn. by rewrite (proj1 (group_bytes a x00 x00)).
  - rewrite 3 a2b_char by sextet_side. rewrite a2b_pads_3 by exact Hk.
    destruct (group_bytes a b x00) as (Ha & Hb & _). cbn. by rewrite Ha, Hb.
  - rewrite 4 a2b_char by sextet_side. cbn [length] in Hk. rewrite pads_needed_add4 in Hk.
    rewrite IH by exact Hk. destruct (group_bytes a b c) as (Ha & Hb & Hc). cbn.
    by rewrite Ha, Hb, Hc.
Qed.

Lemma b64decode_encode data : b64decode (b64encode data) = Some data.
Proof. rewrite b64encode_core. by apply b64decode_core. Qed.

(** Stripping the pads leaves the data characters. *)
Lemma rstrip_pad_core l k :
  Forall data_char l → rstrip_pad (to_urlsafe <$> (l ++ replicate k pad_byte)) = to_urlsafe <$> l.
Proof.
  intros Hl. induction Hl as [|c l [_ Hc] Hl IH].
  - induction k as [|k IH]; [done|]. cbn in *. by rewrite IH.
  - rewrite <- app_comm_cons, fmap_cons. cbn [rstrip_pad]. rewrite IH.
    destruct (to_urlsafe <$> l) eqn:E; [|by rewrite <- E].
    apply fmap_nil_inv in E as ->. rewrite decide_False; [done|].
    intros H%to_urlsafe_pad. done.
Qed.

Lemma encode_nopad_core data :
  String.list_byte_of_string (_base64url_encode_nopad data) = to_urlsafe <$> b64_core data.
Proof.
  unfold _base64url_encode_nopad, urlsafe_b64encode.
  rewrite b64encode_core, rstrip_pad_core by apply b64_core_data.
  apply String.list_byte_of_string_of_list_byte.
Qed.

Lemma urlsafe_b64decode_core data k :
  (pads_needed (length (b64_core data)) <= k)%nat →
  urlsafe_b64decode (_base64url_encode_nopad data +:+ eq_pad k) = Some data.
Proof.
  intros Hk. unfold urlsafe_b64decode, eq_pad.
  rewrite list_byte_app, encode_nopad_core, String.list_byte_of_string_of_list_byte.
  assert (Hc : Forall (λ c, data_char c ∨ c = pad_byte) (b64_core data)).
  { eapply Forall_impl; [apply b64_core_data|]. auto. }
  assert (Hasc : forallb is_ascii_byte ((to_urlsafe <$> b64_core data) ++ replicate k pad_byte) = true).
  { rewrite forallb_app. apply andb_true_intro. split; apply forallb_forall.
    - intros x Hx. apply in_map_iff in Hx as (c & <- & Hin). apply to_urlsafe_ascii.
      rewrite List.Forall_forall in Hc. by apply Hc.
    - intros x Hx%list_elem_of_In. apply elem_of_replicate_inv in Hx as ->. done. }
  rewrite Hasc, fmap_app, <- list_fmap_compose.
  replace (of_urlsafe <$> replicate k pad_byte) with (replicate k pad_byte)
    by (rewrite fmap_replicate; done).
  rewrite (Forall_fmap_ext_1 _ id (b64_core data)), list_fmap_id; [by apply b64decode_core|].
  eapply Forall_impl; [exact Hc|]. intros c. apply of_to_urlsafe.
Qed.

Lemma length_encode_nopad data :
  String.length (_base64url_encode_nopad data) = length (b64_core data).
Proof. by rewrite <- length_list_byte, encode_nopad_core, length_fmap. Qed.

Lemma encode_nopad_inj d1 d2 :
  _base64url_encode_nopad d1 = _base64url_encode_nopad d2 → d1 = d2.
Proof.
  intros H. set (k := Nat.max (pads_needed (length (b64_core d1))) (pads_needed (length (b64_core d2)))).
  assert (Some d1 = Some d2) as [= ->]; [|done].
  rewrite <- (urlsafe_b64decode_core d1 k), <- (urlsafe_b64decode_core d2 k) by lia.
  by rewrite H.
Qed.

(** C31: decoding with [_base64url_decode] undoes [_base64url_encode_nopad] on
    every byte string: the pads the decoder adds are exactly the ones the
    encoder removed. *)
Theorem base64url_roundtrip data :
  _base64url_decode (_base64url_encode_nopad data) = Some data.
Proof.
  unfold _base64url_decode. apply urlsafe_b64decode_core.
  by rewrite length_encode_nopad.
Qed.
