(* ===== verification/Sha256.v ===== *)
(** SHA-256, as [hashlib.sha256(data).digest()] computes it (FIPS 180-4).

    A 32-bit word is an integer in [0, 2^32); addition and left shift wrap
    around. *)

From S2P Require Import Prelude PyText.

Open Scope Z_scope.

Definition wrap32 (z : Z) : Z := Z.land z 0xffffffff.
Definition add32 (a b : Z) : Z := wrap32 (a + b).
Definition not32 (a : Z) : Z := Z.lxor a 0xffffffff.
Definition rotr (n a : Z) : Z := Z.lor (Z.shiftr a n) (wrap32 (Z.shiftl a (32 - n))).

Definition ch (x y z : Z) : Z := Z.lxor (Z.land x y) (Z.land (not32 x) z).
Definition maj (x y z : Z) : Z := Z.lxor (Z.lxor (Z.land x y) (Z.land x z)) (Z.land y z).
Definition big0 (x : Z) : Z := Z.lxor (Z.lxor (rotr 2 x) (rotr 13 x)) (rotr 22 x).
Definition big1 (x : Z) : Z := Z.lxor (Z.lxor (rotr 6 x) (rotr 11 x)) (rotr 25 x).
Definition small0 (x : Z) : Z := Z.lxor (Z.lxor (rotr 7 x) (rotr 18 x)) (Z.shiftr x 3).
Definition small1 (x : Z) : Z := Z.lxor (Z.lxor (rotr 17 x) (rotr 19 x)) (Z.shiftr x 10).

(** ** The constants, from their definition

    The standard takes the first 32 bits of the fractional parts of the cube
    roots of the first 64 primes, and of the square roots of the first eight. *)

Definition is_prime (n : Z) : bool :=
  (1 <? n) && forallb (λ d, negb (n mod (Z.of_nat d) =? 0)) (seq 2 (Z.to_nat n - 2)).

(** The 64th prime is 311. *)
Definition primes : list Z := List.filter is_prime (Z.of_nat <$> seq 2 310).

(** The largest number of at most [k] bits whose cube is at most [n], built
    from its highest bit down. *)
Fixpoint cube_root (k : nat) (acc n : Z) : Z :=
  match k with
  | O => acc
  | S k' =>
      let next := acc + 2 ^ Z.of_nat k' in
      cube_root k' (if next ^ 3 <=? n then next else acc) n
  end.

(** The roots are below 2^3, hence their scaled values below 2^35. *)
Definition round_constants : list Z :=
  Eval vm_compute in (λ p, wrap32 (cube_root 35 0 (p * 2 ^ 96))) <$> primes.

Definition initial_hash : list Z :=
  Eval vm_compute in (λ p, wrap32 (Z.sqrt (p * 2 ^ 64))) <$> take 8 primes.

(** Sixteen message words, most significant byte first. *)
Fixpoint words (bs : list byte) : list Z :=
  match bs with
  | a :: b :: c :: d :: rest =>
      (Z.shiftl (b2z a) 24 + Z.shiftl (b2z b) 16 + Z.shiftl (b2z c) 8 + b2z d) :: words rest
  | _ => []
  end.

(** The message schedule, newest word first. *)
Fixpoint expand (n : nat) (ws : list Z) : list Z :=
  match n with
  | O => ws
  | S n' =>
      let w i := nth i ws 0 in
      expand n' (add32 (add32 (small1 (w 1%nat)) (w 6%nat)) (add32 (small0 (w 14%nat)) (w 15%nat)) :: ws)
  end.

Definition schedule (block : list byte) : list Z := rev (expand 48 (rev (words block))).

Definition sha_round (st : list Z) (kw : Z * Z) : list Z :=
  match st with
  | [a; b; c; d; e; f; g; h] =>
      let t1 := add32 (add32 (add32 h (big1 e)) (add32 (ch e f g) kw.1)) kw.2 in
      let t2 := add32 (big0 a) (maj a b c) in
      [add32 t1 t2; a; b; c; add32 d t1; e; f; g]
  | _ => st
  end.

Definition compress (st : list Z) (block : list byte) : list Z :=
  zip_with add32 st (foldl sha_round st (zip round_constants (schedule block))).

Fixpoint be_word (n : nat) (z : Z) : list byte :=
  match n with
  | O => []
  | S n' => be_word n' (Z.shiftr z 8) ++ [z2b z]
  end.

(** One bit, zeros, and the bit length in 64 bits, up to a multiple of 64. *)
Definition pad_message (data : list byte) : list byte :=
  let zeros := Z.to_nat ((55 - Z.of_nat (length data)) mod 64) in
  data ++ x80 :: replicate zeros x00 ++ be_word 8 (8 * Z.of_nat (length data)).

Fixpoint blocks (n : nat) (bs : list byte) : list (list byte) :=
  match n with
  | O => []
  | S n' => take 64 bs :: blocks n' (drop 64 bs)
  end.

Definition sha256 (data : list byte) : list byte :=
  let m := pad_message data in
  mjoin (be_word 4 <$> foldl compress initial_hash (blocks (length m / 64) m)).

Lemma length_be_word n z : length (be_word n z) = n.
Proof.
  revert z. induction n as [|n IH]; intros z; [done|]. cbn. rewrite length_app, IH. cbn. lia.
Qed.

Lemma length_words bs n : length bs = (4 * n)%nat → length (words bs) = n.
Proof.
  revert bs. induction n as [|n IH]; intros bs Hl.
  - by apply nil_length_inv in Hl as ->.
  - destruct bs as [|a [|b [|c [|d bs]]]]; cbn in Hl; try lia. cbn. f_equal. apply IH. lia.
Qed.

Lemma length_sha_round st kw : length st = 8%nat → length (sha_round st kw) = 8%nat.
Proof. intros Hl. unfold sha_round. repeat case_match; done. Qed.

Lemma length_compress st block : length st = 8%nat → length (compress st block) = 8%nat.
Proof.
  intros Hl. unfold compress. rewrite length_zip_with, Hl.
  assert (Hf : ∀ kws st', length st' = 8%nat → length (foldl sha_round st' kws) = 8%nat).
  { induction kws as [|kw kws IH]; intros st' Hst; [done|]. cbn. apply IH, length_sha_round, Hst. }
  by rewrite Hf.
Qed.

(** A digest is 32 bytes long. *)
Lemma length_sha256 data : length (sha256 data) = 32%nat.
Proof.
  unfold sha256. set (bs := blocks _ _). clearbody bs.
  assert (Hf : ∀ st, length st = 8%nat → length (foldl compress st bs) = 8%nat).
  { induction bs as [|b bs IH]; intros st Hst; [done|]. cbn. apply IH, length_compress, Hst. }
  specialize (Hf initial_hash eq_refl). set (st := foldl _ _ _) in *. clearbody st.
  do 9 (destruct st as [|? st]; [done|]). done.
Qed.

(** The test vector of the standard for the message ["abc"]. *)
Lemma sha256_abc :
  b2z <$> sha256 [x61; x62; x63] =
  [0xba; 0x78; 0x16; 0xbf; 0x8f; 0x01; 0xcf; 0xea; 0x41; 0x41; 0x40; 0xde; 0x5d; 0xae; 0x22; 0x23;
   0xb0; 0x03; 0x61; 0xa3; 0x96; 0x17; 0x7a; 0x9c; 0xb4; 0x10; 0xff; 0x61; 0xf2; 0x00; 0x15; 0xad].
Proof. vm_compute. reflexivity. Qed.
