(* ===== verification/Utf8.v ===== *)
(** The UTF-8 codec: [bytes.decode("utf-8", errors="replace")].

    The decoder replaces every maximal invalid piece by U+FFFD, as CPython
    does, and never fails. *)

From S2P Require Import Prelude PyText.

Open Scope Z_scope.

Definition in_range (lo hi : Z) (b : byte) : bool := (lo <=? b2z b) && (b2z b <=? hi).

(** A continuation byte, and the bytes a lead byte allows in second place. *)
Definition cont (b : byte) : bool := in_range 0x80 0xbf b.
Definition second_ok (b0 b1 : byte) : bool :=
  if b2z b0 =? 0xe0 then in_range 0xa0 0xbf b1
  else if b2z b0 =? 0xed then in_range 0x80 0x9f b1
  else if b2z b0 =? 0xf0 then in_range 0x90 0xbf b1
  else if b2z b0 =? 0xf4 then in_range 0x80 0x8f b1
  else cont b1.

(** The length of the sequence a byte starts; 0 when it starts none. *)
Definition seq_len (b : byte) : nat :=
  if in_range 0x00 0x7f b then 1
  else if in_range 0xc2 0xdf b then 2
  else if in_range 0xe0 0xef b then 3
  else if in_range 0xf0 0xf4 b then 4
  else 0.

Definition replacement : list byte := [xef; xbf; xbd].

Fixpoint utf8_replace (l : list byte) : list byte :=
  match l with
  | [] => []
  | b0 :: t =>
      match seq_len b0 with
      | 1%nat => b0 :: utf8_replace t
      | 2%nat =>
          match t with
          | b1 :: t1 =>
              if cont b1 then b0 :: b1 :: utf8_replace t1
              else replacement ++ utf8_replace t
          | [] => replacement
          end
      | 3%nat =>
          match t with
          | b1 :: t1 =>
              if second_ok b0 b1 then
                match t1 with
                | b2 :: t2 =>
                    if cont b2 then b0 :: b1 :: b2 :: utf8_replace t2
                    else replacement ++ utf8_replace t1
                | [] => replacement
                end
              else replacement ++ utf8_replace t
          | [] => replacement
          end
      | 4%nat =>
          match t with
          | b1 :: t1 =>
              if second_ok b0 b1 then
                match t1 with
                | b2 :: t2 =>
                    if cont b2 then
                      match t2 with
                      | b3 :: t3 =>
                          if cont b3 then b0 :: b1 :: b2 :: b3 :: utf8_replace t3
                          else replacement ++ utf8_replace t2
                      | [] => replacement
                      end
                    else replacement ++ utf8_replace t1
                | [] => replacement
                end
              else replacement ++ utf8_replace t
          | [] => replacement
          end
      | _ => replacement ++ utf8_replace t
      end
  end.

(** [raw.decode("utf-8", errors="replace")] *)
Definition decode_utf8 (raw : list byte) : string :=
  String.string_of_list_byte (utf8_replace raw).

(** Well-formed UTF-8. *)
Inductive utf8_valid : list byte → Prop :=
| valid_nil : utf8_valid []
| valid_1 b0 t : seq_len b0 = 1%nat → utf8_valid t → utf8_valid (b0 :: t)
| valid_2 b0 b1 t :
    seq_len b0 = 2%nat → cont b1 = true → utf8_valid t → utf8_valid (b0 :: b1 :: t)
| valid_3 b0 b1 b2 t :
    seq_len b0 = 3%nat → second_ok b0 b1 = true → cont b2 = true →
    utf8_valid t → utf8_valid (b0 :: b1 :: b2 :: t)
| valid_4 b0 b1 b2 b3 t :
    seq_len b0 = 4%nat → second_ok b0 b1 = true → cont b2 = true → cont b3 = true →
    utf8_valid t → utf8_valid (b0 :: b1 :: b2 :: b3 :: t).
#[export] Hint Constructors utf8_valid : ztab.

(** On well-formed input the decoder changes nothing. *)
Lemma utf8_replace_valid l : utf8_valid l → utf8_replace l = l.
Proof.
  induction 1 as [|? ? Hl ? IH|? ? ? Hl H1 ? IH|? ? ? ? Hl H1 H2 ? IH|? ? ? ? ? Hl H1 H2 H3 ? IH];
    cbn [utf8_replace]; [done|..]; rewrite Hl, ?H1, ?H2, ?H3, IH; done.
Qed.

Lemma valid_replacement t : utf8_valid t → utf8_valid (replacement ++ t).
Proof. intros Ht. by apply valid_3. Qed.
#[export] Hint Resolve valid_replacement : ztab.

(** Whatever the input, the output is well-formed. *)
Lemma utf8_replace_is_valid l : utf8_valid (utf8_replace l).
Proof.
  induction l as [[|b0 t] IH] using (induction_ltof1 _ (@length byte)); [constructor|].
  assert (Hr : utf8_valid replacement) by (apply (valid_replacement []); constructor).
  assert (Hsub : ∀ u, (length u <= length t)%nat → utf8_valid (utf8_replace u))
    by (intros u Hu; apply IH; unfold ltof; cbn; lia).
  cbn [utf8_replace].
  repeat case_match; subst; cbn [length] in *; eauto 10 with ztab lia.
  all: try (apply valid_replacement, Hsub; cbn; lia).
  all: first [apply valid_1|apply valid_2|apply valid_3|apply valid_4]; try done; apply Hsub; cbn; lia.
Qed.
