(* ===== verification/Unicode.v ===== *)
(** Code points of Python texts.

    A [str] is a sequence of code points; the model keeps its UTF-8 encoding
    ([PyText]). [code_points] and [text_of] translate; a lone surrogate, which a
    [str] may hold, is encoded in three bytes like its neighbours. *)

From S2P Require Import Prelude PyText Utf8.

Open Scope Z_scope.

(** ** Encoding *)

Definition encode_cp (c : Z) : list byte :=
  if c <? 0x80 then [z2b c]
  else if c <? 0x800 then [z2b (0xC0 + c / 64); z2b (0x80 + c mod 64)]
  else if c <? 0x10000 then [z2b (0xE0 + c / 4096); z2b (0x80 + c / 64 mod 64); z2b (0x80 + c mod 64)]
  else [z2b (0xF0 + c / 262144); z2b (0x80 + c / 4096 mod 64); z2b (0x80 + c / 64 mod 64); z2b (0x80 + c mod 64)].

Fixpoint text_bytes (cs : list Z) : list byte :=
  match cs with [] => [] | c :: cs' => encode_cp c ++ text_bytes cs' end.
Definition text_of (cs : list Z) : string := String.string_of_list_byte (text_bytes cs).

(** ** Decoding *)

(** The code points of an encoded text; a byte that starts no sequence, which
    no encoding contains, counts for itself. *)
Fixpoint decode_cps (l : list byte) : list Z :=
  match l with
  | [] => []
  | b0 :: t =>
      let n := b2z b0 in
      if n <? 0x80 then n :: decode_cps t
      else if n <? 0xE0 then
        match t with
        | b1 :: t1 => ((n - 0xC0) * 64 + (b2z b1 - 0x80)) :: decode_cps t1
        | _ => n :: decode_cps t
        end
      else if n <? 0xF0 then
        match t with
        | b1 :: b2 :: t2 =>
            ((n - 0xE0) * 4096 + (b2z b1 - 0x80) * 64 + (b2z b2 - 0x80)) :: decode_cps t2
        | _ => n :: decode_cps t
        end
      else
        match t with
        | b1 :: b2 :: b3 :: t3 =>
            ((n - 0xF0) * 262144 + (b2z b1 - 0x80) * 4096 + (b2z b2 - 0x80) * 64 + (b2z b3 - 0x80)) :: decode_cps t3
        | _ => n :: decode_cps t
        end
  end.

Definition code_points (s : string) : list Z := decode_cps (String.list_byte_of_string s).

(** A code point, and one that is no surrogate *)
Definition is_cp (c : Z) : Prop := 0 <= c < 0x110000.
Definition is_scalar (c : Z) : Prop := 0 <= c < 0xD800 ∨ 0xE000 <= c < 0x110000.

(** ** Round trips *)

Lemma decode_1 b0 t : b2z b0 < 0x80 → decode_cps (b0 :: t) = b2z b0 :: decode_cps t.
Proof. intros Hb. cbn [decode_cps]. by rewrite (proj2 (Z.ltb_lt _ _) Hb). Qed.

Lemma decode_2 b0 b1 t :
  0x80 <= b2z b0 < 0xE0 →
  decode_cps (b0 :: b1 :: t) = ((b2z b0 - 0xC0) * 64 + (b2z b1 - 0x80)) :: decode_cps t.
Proof.
  intros Hb. cbn [decode_cps]. rewrite (proj2 (Z.ltb_ge (b2z b0) 0x80)) by lia.
  by rewrite (proj2 (Z.ltb_lt (b2z b0) 0xE0)) by lia.
Qed.

Lemma decode_3 b0 b1 b2 t :
  0xE0 <= b2z b0 < 0xF0 →
  decode_cps (b0 :: b1 :: b2 :: t) =
  ((b2z b0 - 0xE0) * 4096 + (b2z b1 - 0x80) * 64 + (b2z b2 - 0x80)) :: decode_cps t.
Proof.
  intros Hb. cbn [decode_cps]. rewrite (proj2 (Z.ltb_ge (b2z b0) 0x80)) by lia.
  rewrite (proj2 (Z.ltb_ge (b2z b0) 0xE0)) by lia. by rewrite (proj2 (Z.ltb_lt (b2z b0) 0xF0)) by lia.
Qed.

Lemma decode_4 b0 b1 b2 b3 t :
  0xF0 <= b2z b0 →
  decode_cps (b0 :: b1 :: b2 :: b3 :: t) =
  ((b2z b0 - 0xF0) * 262144 + (b2z b1 - 0x80) * 4096 + (b2z b2 - 0x80) * 64 + (b2z b3 - 0x80)) :: decode_cps t.
Proof.
  intros Hb. cbn [decode_cps]. rewrite (proj2 (Z.ltb_ge (b2z b0) 0x80)) by lia.
  rewrite (proj2 (Z.ltb_ge (b2z b0) 0xE0)) by lia. by rewrite (proj2 (Z.ltb_ge (b2z b0) 0xF0)) by lia.
Qed.

Lemma b2z_z2b_small z : 0 <= z < 256 → b2z (z2b z) = z.
Proof. intros Hz. rewrite b2z_z2b. by apply Z.mod_small. Qed.

(** The digits of a number to base 64, up to four of them *)
Lemma digits_64 c :
  c = c / 64 * 64 + c mod 64 ∧ c / 64 = c / 4096 * 64 + c / 64 mod 64 ∧
  c / 4096 = c / 262144 * 64 + c / 4096 mod 64 ∧
  0 <= c mod 64 < 64 ∧ 0 <= c / 64 mod 64 < 64 ∧ 0 <= c / 4096 mod 64 < 64.
Proof.
  change 262144 with (4096 * 64). change 4096 with (64 * 64) at 1. rewrite <- !Z.div_div by lia.
  pose proof (Z.div_mod c 64 ltac:(lia)). pose proof (Z.div_mod (c / 64) 64 ltac:(lia)).
  pose proof (Z.div_mod (c / 4096) 64 ltac:(lia)).
  pose proof (Z.mod_pos_bound c 64 ltac:(lia)). pose proof (Z.mod_pos_bound (c / 64) 64 ltac:(lia)).
  pose proof (Z.mod_pos_bound (c / 4096) 64 ltac:(lia)). lia.
Qed.

Lemma decode_encode c l : is_cp c → decode_cps (encode_cp c ++ l) = c :: decode_cps l.
Proof.
  unfold is_cp, encode_cp. intros Hc. pose proof (digits_64 c) as (? & ? & ? & ? & ? & ?).
  destruct (Z.ltb_spec c 0x80); [|destruct (Z.ltb_spec c 0x800); [|destruct (Z.ltb_spec c 0x10000)]]; cbn [app].
  - rewrite decode_1; rewrite b2z_z2b_small by lia; done.
  - rewrite decode_2; rewrite !b2z_z2b_small by lia; [f_equal; lia|lia].
  - rewrite decode_3; rewrite !b2z_z2b_small by lia; [f_equal; lia|lia].
  - rewrite decode_4; rewrite !b2z_z2b_small by lia; [f_equal; lia|lia].
Qed.

Lemma decode_text_bytes cs l : Forall is_cp cs → decode_cps (text_bytes cs ++ l) = cs ++ decode_cps l.
Proof.
  induction 1 as [|c cs Hc _ IH]; [done|]. cbn [text_bytes]. rewrite <- app_assoc, decode_encode by done.
  cbn. by rewrite IH.
Qed.

Lemma code_points_text_of cs : Forall is_cp cs → code_points (text_of cs) = cs.
Proof.
  intros Hcs. unfold code_points, text_of. rewrite String.list_byte_of_string_of_list_byte.
  rewrite <- (app_nil_r (text_bytes cs)), decode_text_bytes by done. apply app_nil_r.
Qed.

(** *** Well-formed UTF-8 *)

Lemma in_range_spec lo hi b : in_range lo hi b = true ↔ lo <= b2z b <= hi.
Proof. unfold in_range. rewrite andb_true_iff, !Z.leb_le. done. Qed.

Lemma seq_len_range b :
  match seq_len b with
  | 1%nat => 0 <= b2z b <= 0x7f | 2%nat => 0xc2 <= b2z b <= 0xdf | 3%nat => 0xe0 <= b2z b <= 0xef
  | 4%nat => 0xf0 <= b2z b <= 0xf4 | _ => True
  end.
Proof.
  unfold seq_len. destruct (in_range 0 _ b) eqn:H1; [by apply in_range_spec|].
  destruct (in_range 0xc2 _ b) eqn:H2; [by apply in_range_spec|].
  destruct (in_range 0xe0 _ b) eqn:H3; [by apply in_range_spec|].
  destruct (in_range 0xf0 _ b) eqn:H4; [by apply in_range_spec|done].
Qed.

Lemma second_ok_range b0 b1 :
  second_ok b0 b1 = true →
  0x80 <= b2z b1 <= 0xbf ∧ (b2z b0 = 0xe0 → 0xa0 <= b2z b1) ∧ (b2z b0 = 0xed → b2z b1 <= 0x9f) ∧
  (b2z b0 = 0xf0 → 0x90 <= b2z b1) ∧ (b2z b0 = 0xf4 → b2z b1 <= 0x8f).
Proof.
  unfold second_ok, cont. repeat (case_match; [intros ?%in_range_spec; rewrite ?Z.eqb_eq, ?Z.eqb_neq in *; lia|]).
  intros ?%in_range_spec. rewrite ?Z.eqb_neq in *. lia.
Qed.

(** Base-64 digits are recovered from the number they make. *)
Lemma digit_div x r : 0 <= r < 64 → (x * 64 + r) / 64 = x ∧ (x * 64 + r) mod 64 = r.
Proof. intros Hr. split; [rewrite Z.div_add_l, Z.div_small; lia|rewrite Z.add_comm, Z.mod_add, Z.mod_small; lia]. Qed.

Lemma encode_2 b0 b1 :
  0xc2 <= b2z b0 <= 0xdf → 0x80 <= b2z b1 <= 0xbf →
  let c := (b2z b0 - 0xC0) * 64 + (b2z b1 - 0x80) in encode_cp c = [b0; b1] ∧ is_scalar c.
Proof.
  intros H0 H1 c. subst c. destruct (digit_div (b2z b0 - 0xC0) (b2z b1 - 0x80)) as [Hd Hm]; [lia|].
  split; [|left; lia]. unfold encode_cp. rewrite (proj2 (Z.ltb_ge _ 0x80)), (proj2 (Z.ltb_lt _ 0x800)) by lia.
  rewrite Hd, Hm, !Zplus_minus, !z2b_b2z. done.
Qed.

Lemma encode_3 b0 b1 b2 :
  0xe0 <= b2z b0 <= 0xef → second_ok b0 b1 = true → 0x80 <= b2z b2 <= 0xbf →
  let c := (b2z b0 - 0xE0) * 4096 + (b2z b1 - 0x80) * 64 + (b2z b2 - 0x80) in
  encode_cp c = [b0; b1; b2] ∧ is_scalar c.
Proof.
  intros H0 (H1 & Ha & Hb & _)%second_ok_range H2 c. subst c.
  replace ((b2z b0 - 0xE0) * 4096 + (b2z b1 - 0x80) * 64) with (((b2z b0 - 0xE0) * 64 + (b2z b1 - 0x80)) * 64) by lia.
  destruct (digit_div ((b2z b0 - 0xE0) * 64 + (b2z b1 - 0x80)) (b2z b2 - 0x80)) as [Hd Hm]; [lia|].
  destruct (digit_div (b2z b0 - 0xE0) (b2z b1 - 0x80)) as [Hd' Hm']; [lia|].
  split; [|unfold is_scalar; lia]. unfold encode_cp.
  rewrite (proj2 (Z.ltb_ge _ 0x80)), (proj2 (Z.ltb_ge _ 0x800)), (proj2 (Z.ltb_lt _ 0x10000)) by lia.
  change 4096 with (64 * 64). rewrite <- Z.div_div by lia. rewrite Hd, Hm, Hd', Hm', !Zplus_minus, !z2b_b2z. done.
Qed.

Lemma encode_4 b0 b1 b2 b3 :
  0xf0 <= b2z b0 <= 0xf4 → second_ok b0 b1 = true → 0x80 <= b2z b2 <= 0xbf → 0x80 <= b2z b3 <= 0xbf →
  let c := (b2z b0 - 0xF0) * 262144 + (b2z b1 - 0x80) * 4096 + (b2z b2 - 0x80) * 64 + (b2z b3 - 0x80) in
  encode_cp c = [b0; b1; b2; b3] ∧ is_scalar c.
Proof.
  intros H0 (H1 & _ & _ & Ha & Hb)%second_ok_range H2 H3 c. subst c.
  replace ((b2z b0 - 0xF0) * 262144 + (b2z b1 - 0x80) * 4096 + (b2z b2 - 0x80) * 64)
    with ((((b2z b0 - 0xF0) * 64 + (b2z b1 - 0x80)) * 64 + (b2z b2 - 0x80)) * 64) by lia.
  destruct (digit_div (((b2z b0 - 0xF0) * 64 + (b2z b1 - 0x80)) * 64 + (b2z b2 - 0x80)) (b2z b3 - 0x80)) as [Hd Hm]; [lia|].
  destruct (digit_div ((b2z b0 - 0xF0) * 64 + (b2z b1 - 0x80)) (b2z b2 - 0x80)) as [Hd' Hm']; [lia|].
  destruct (digit_div (b2z b0 - 0xF0) (b2z b1 - 0x80)) as [Hd'' Hm'']; [lia|].
  split; [|unfold is_scalar; lia]. unfold encode_cp.
  rewrite (proj2 (Z.ltb_ge _ 0x80)), (proj2 (Z.ltb_ge _ 0x800)), (proj2 (Z.ltb_ge _ 0x10000)) by lia.
  change 262144 with (64 * 64 * 64). change 4096 with (64 * 64). rewrite <- !Z.div_div by lia.
  rewrite Hd, Hm, Hd', Hm', Hd'', Hm'', !Zplus_minus, !z2b_b2z. done.
Qed.

(** A text in well-formed UTF-8 is given by its code points, none of which is a
    surrogate. *)
Lemma decode_valid l : utf8_valid l → text_bytes (decode_cps l) = l ∧ Forall is_scalar (decode_cps l).
Proof.
  assert (Hstep : ∀ c bs t, encode_cp c = bs ∧ is_scalar c →
    text_bytes (decode_cps t) = t ∧ Forall is_scalar (decode_cps t) →
    text_bytes (c :: decode_cps t) = bs ++ t ∧ Forall is_scalar (c :: decode_cps t)).
  { intros c bs t [<- Hc] [He Hf]. split; [|by constructor]. cbn [text_bytes]. by rewrite He. }
  induction 1 as [|b0 t Hl _ IH|b0 b1 t Hl H1 _ IH|b0 b1 b2 t Hl H1 H2 _ IH|b0 b1 b2 b3 t Hl H1 H2 H3 _ IH];
    [done|..]; pose proof (seq_len_range b0) as Hr; rewrite Hl in Hr; unfold cont in *; rewrite ?in_range_spec in *.
  - rewrite decode_1 by lia. apply (Hstep _ [b0]); [|done]. split; [|left; lia].
    unfold encode_cp. rewrite (proj2 (Z.ltb_lt _ _)) by lia. by rewrite z2b_b2z.
  - rewrite decode_2 by lia. apply (Hstep _ [b0; b1]); [|done]. by apply encode_2.
  - rewrite decode_3 by lia. apply (Hstep _ [b0; b1; b2]); [|done]. by apply encode_3.
  - rewrite decode_4 by lia. apply (Hstep _ [b0; b1; b2; b3]); [|done]. by apply encode_4.
Qed.

(** A text in well-formed UTF-8 *)
Definition proper_text (s : string) : Prop := utf8_valid (String.list_byte_of_string s).

Lemma text_of_code_points s : proper_text s → text_of (code_points s) = s ∧ Forall is_scalar (code_points s).
Proof.
  intros [He Hf]%decode_valid. split; [|exact Hf]. unfold text_of, code_points.
  rewrite He. apply String.string_of_list_byte_of_string.
Qed.

Lemma is_scalar_cp c : is_scalar c → is_cp c.
Proof. unfold is_scalar, is_cp. lia. Qed.

(** ASCII texts *)
Definition is_ascii (c : Z) : Prop := 0 <= c < 0x80.

Lemma text_of_ascii cs :
  Forall is_ascii cs → String.list_byte_of_string (text_of cs) = z2b <$> cs.
Proof.
  intros Hcs. unfold text_of. rewrite String.list_byte_of_string_of_list_byte.
  induction Hcs as [|c cs Hc _ IH]; [done|]. cbn [text_bytes]. rewrite IH. unfold encode_cp, is_ascii in *.
  by rewrite (proj2 (Z.ltb_lt c 0x80)) by lia.
Qed.
