(* ===== verification/PyValue.v ===== *)
(** Python values as the agent meets them: what [json.loads] returns, with the
    operations the code applies to such values without knowing their type.

    A dict is an association list in insertion order. A float is the rational
    it stands for; the JSON extensions NaN and Infinity are left out. *)

From S2P Require Import Prelude PyText.
From Stdlib Require Import QArith.Qcanon.

Open Scope Z_scope.

(** ** Values *)

Unset Elimination Schemes.
Inductive json : Type :=
| JNull
| JBool (b : bool)
| JInt (z : Z)
| JFloat (q : Qc)
| JStr (s : string)
| JList (l : list json)
| JObj (kvs : list (string * json)).
Set Elimination Schemes.

Abbreviation dict := (list (string * json)).

(** Induction with hypotheses for the elements of lists and dicts. *)
Section json_induction.
Variable P : json → Prop.
Hypothesis Hnull : P JNull.
Hypothesis Hbool : ∀ b, P (JBool b).
Hypothesis Hint : ∀ z, P (JInt z).
Hypothesis Hfloat : ∀ q, P (JFloat q).
Hypothesis Hstr : ∀ s, P (JStr s).
Hypothesis Hlist : ∀ l, Forall P l → P (JList l).
Hypothesis Hobj : ∀ d, Forall (λ kv, P kv.2) d → P (JObj d).

Fixpoint json_ind (v : json) : P v :=
  match v with
  | JNull => Hnull
  | JBool b => Hbool b
  | JInt z => Hint z
  | JFloat q => Hfloat q
  | JStr s => Hstr s
  | JList l =>
      Hlist l ((fix go (l : list json) : Forall P l :=
                  match l with
                  | [] => Forall_nil_2 P
                  | x :: l' => Forall_cons_2 P x l' (json_ind x) (go l')
                  end) l)
  | JObj d =>
      Hobj d ((fix go (d : dict) : Forall (λ kv, P kv.2) d :=
                 match d with
                 | [] => Forall_nil_2 _
                 | x :: d' => Forall_cons_2 (λ kv, P kv.2) x d' (json_ind x.2) (go d')
                 end) d)
  end.
End json_induction.

#[global] Instance json_eq_dec : EqDecision json.
Proof.
  refine (fix go (v w : json) : Decision (v = w) :=
    let _ : EqDecision json := @go in
    match v, w with
    | JNull, JNull => left eq_refl
    | JBool a, JBool b => cast_if (decide (a = b))
    | JInt a, JInt b => cast_if (decide (a = b))
    | JFloat a, JFloat b => cast_if (Qc_eq_dec a b)
    | JStr a, JStr b => cast_if (decide (a = b))
    | JList a, JList b => cast_if (decide (a = b))
    | JObj a, JObj b => cast_if (decide (a = b))
    | _, _ => right _
    end); congruence.
Defined.

(** ** Exceptions

    The classes the code raises or tells apart in its [except] clauses.
    [OtherException] is any further subclass of [Exception] raised by a
    library; [SystemExit] is not a subclass of [Exception]. *)

Inductive status_code :=
| OK | CANCELLED | UNKNOWN | INVALID_ARGUMENT | DEADLINE_EXCEEDED | NOT_FOUND
| ALREADY_EXISTS | PERMISSION_DENIED | RESOURCE_EXHAUSTED | FAILED_PRECONDITION
| ABORTED_CODE | OUT_OF_RANGE | UNIMPLEMENTED | INTERNAL | UNAVAILABLE | DATA_LOSS
| UNAUTHENTICATED.

Inductive exn_class :=
| ValueError | JSONDecodeError
| TypeError | AttributeError | KeyError | IndexError | OverflowError
| RuntimeError | OSError | FileNotFoundError
| ExpiredSignatureError | InvalidAudienceError | DecodeError
| RpcError (code : status_code)
| OtherException (name : string)
| SystemExit (code : Z).

(** An f-string: literal text and interpolated values, in order. *)
Inductive frag :=
| Txt (s : string)
| Val (v : json).

Record exn := Exn { exn_type : exn_class; exn_msg : list frag }.

Abbreviation res := (result exn).

#[global] Instance status_code_eq_dec : EqDecision status_code.
Proof. solve_decision. Defined.
#[global] Instance exn_class_eq_dec : EqDecision exn_class.
Proof. solve_decision. Defined.

(** [except ValueError] also catches its subclass [JSONDecodeError]. *)
Definition is_value_error (e : exn) : bool :=
  match exn_type e with ValueError | JSONDecodeError => true | _ => false end.

(** [except Exception] *)
Definition is_exception (e : exn) : bool :=
  match exn_type e with SystemExit _ => false | _ => true end.

(** [except grpc.RpcError as e] with [e.code()] *)
Definition rpc_code (e : exn) : option status_code :=
  match exn_type e with RpcError c => Some c | _ => None end.

Definition type_name (v : json) : string :=
  match v with
  | JNull => "NoneType" | JBool _ => "bool" | JInt _ => "int" | JFloat _ => "float"
  | JStr _ => "str" | JList _ => "list" | JObj _ => "dict"
  end.

Definition attribute_error (v : json) (attr : string) : exn :=
  Exn AttributeError [Txt ("'" +:+ type_name v +:+ "' object has no attribute '" +:+ attr +:+ "'")].
Definition not_iterable (v : json) : exn :=
  Exn TypeError [Txt ("'" +:+ type_name v +:+ "' object is not iterable")].
Definition unhashable (v : json) : exn :=
  Exn TypeError [Txt ("unhashable type: '" +:+ type_name v +:+ "'")].
Definition key_error (k : string) : exn := Exn KeyError [Txt ("'" +:+ k +:+ "'")].

(** ** Truth, numbers, equality, hashing *)

Definition truthy (v : json) : bool :=
  match v with
  | JNull => false
  | JBool b => b
  | JInt z => negb (z =? 0)
  | JFloat q => negb (Qc_eq_bool q 0)
  | JStr s => negb (String.eqb s "")
  | JList l => match l with [] => false | _ => true end
  | JObj d => match d with [] => false | _ => true end
  end.

(** Booleans, integers and floats compare by their numeric value. *)
Definition num_of (v : json) : option Qc :=
  match v with
  | JBool b => Some (Q2Qc (QArith_base.inject_Z (Z.b2z b)))
  | JInt z => Some (Q2Qc (QArith_base.inject_Z z))
  | JFloat q => Some q
  | _ => None
  end.

Fixpoint lookup_key (k : string) (d : dict) : option json :=
  match d with
  | [] => None
  | (k', v) :: d' => if String.eqb k' k then Some v else lookup_key k d'
  end.

(** [a == b]; dicts compare regardless of the order of their keys. *)
Fixpoint py_eq (a b : json) {struct a} : bool :=
  match a, b with
  | JNull, JNull => true
  | JStr s, JStr t => String.eqb s t
  | JList l, JList m =>
      (fix go (l m : list json) : bool :=
         match l, m with
         | [], [] => true
         | x :: l', y :: m' => py_eq x y && go l' m'
         | _, _ => false
         end) l m
  | JObj d, JObj e =>
      Nat.eqb (length d) (length e) &&
      forallb (fun kv => match lookup_key (fst kv) e with
                         | Some w => py_eq (snd kv) w
                         | None => false
                         end) d
  | _, _ =>
      match num_of a, num_of b with
      | Some p, Some q => Qc_eq_bool p q
      | _, _ => false
      end
  end.

Definition hashable (v : json) : bool :=
  match v with JList _ | JObj _ => false | _ => true end.

(** ** Containers *)

(** [v.get(k, default)] *)
Definition py_get (v : json) (k : string) (default : json) : res json :=
  match v with
  | JObj d => Ok (match lookup_key k d with Some x => x | None => default end)
  | _ => Raise (attribute_error v "get")
  end.

(** [v[k]] for a text [k] *)
Definition py_getitem (v : json) (k : string) : res json :=
  match v with
  | JObj d => match lookup_key k d with Some x => Ok x | None => Raise (key_error k) end
  | JList _ => Raise (Exn TypeError [Txt "list indices must be integers or slices, not str"])
  | JStr _ => Raise (Exn TypeError [Txt "string indices must be integers, not 'str'"])
  | _ => Raise (Exn TypeError [Txt ("'" +:+ type_name v +:+ "' object is not subscriptable")])
  end.

(** [d[k] = v]: an existing key keeps its place. *)
Fixpoint set_key (k : string) (v : json) (d : dict) : dict :=
  match d with
  | [] => [(k, v)]
  | (k', v') :: d' => if String.eqb k' k then (k', v) :: d' else (k', v') :: set_key k v d'
  end.

(** [v in s] for a set [s] given by its elements. *)
Definition in_set (v : json) (s : list json) : res bool :=
  if hashable v then Ok (existsb (py_eq v) s) else Raise (unhashable v).

(** [v in c] *)
Definition py_in (v c : json) : res bool :=
  match c with
  | JList l => Ok (existsb (py_eq v) l)
  | JStr s =>
      match v with
      | JStr sub => Ok (contains sub s)
      | _ => Raise (Exn TypeError [Txt ("'in <string>' requires string as left operand, not " +:+ type_name v)])
      end
  | JObj d =>
      if hashable v
      then Ok (match v with
               | JStr k => match lookup_key k d with Some _ => true | None => false end
               | _ => false
               end)
      else Raise (unhashable v)
  | _ => Raise (Exn TypeError [Txt ("argument of type '" +:+ type_name c +:+ "' is not iterable")])
  end.

(** [for x in v] *)
Definition py_iter (v : json) : res (list json) :=
  match v with
  | JList l => Ok l
  | JStr s => Ok (JStr <$> text_chars s)
  | JObj d => Ok ((λ kv, JStr kv.1) <$> d)
  | _ => Raise (not_iterable v)
  end.

(** [frozenset(l)]: the elements without later duplicates; [TypeError] for an
    unhashable element. *)
Fixpoint dedup (l : list json) : list json :=
  match l with
  | [] => []
  | v :: l' => v :: List.filter (λ w, negb (py_eq v w)) (dedup l')
  end.
Definition frozenset (l : list json) : res (list json) :=
  match List.find (λ v, negb (hashable v)) l with
  | Some v => Raise (unhashable v)
  | None => Ok (dedup l)
  end.

(** ** Conversions *)

Definition invalid_int (v : json) : exn :=
  Exn ValueError [Txt "invalid literal for int() with base 10: "; Val v].

(** [int(v)] *)
Definition py_int (v : json) : res Z :=
  match v with
  | JInt z => Ok z
  | JBool b => Ok (Z.b2z b)
  | JFloat q => Ok (Z.quot (QArith_base.Qnum q) (Zpos (QArith_base.Qden q)))
  | JStr s => match int_of_string s with Some z => Ok z | None => Raise (invalid_int v) end
  | _ => Raise (Exn TypeError [Txt ("int() argument must be a string, a bytes-like object or a real number, not '"
                                    +:+ type_name v +:+ "'")])
  end.

(** [int(str(v))]. The text of a float has a point or an exponent, that of a
    list or a dict starts with a bracket: none is an integer literal. *)
Definition py_int_str (v : json) : res Z :=
  let parse s := match int_of_string s with Some z => Ok z | None => Raise (invalid_int v) end in
  match v with
  | JStr s => parse s
  | JInt z => parse (pretty z)
  | JBool b => parse (if b then "True" else "False")
  | JNull => parse "None"
  | JFloat _ | JList _ | JObj _ => Raise (invalid_int v)
  end.

(** [len(v)] succeeds on containers and texts only. *)
Definition py_len (v : json) : res nat :=
  match v with
  | JList l => Ok (length l)
  | JObj d => Ok (length d)
  | JStr s => Ok (length (text_chars s))
  | _ => Raise (Exn TypeError [Txt ("object of type '" +:+ type_name v +:+ "' has no len()")])
  end.

(** ** Lemmas *)

Lemma py_eq_str_r v s : py_eq v (JStr s) = true ↔ v = JStr s.
Proof.
  destruct v; cbn; try (split; [done|intros [=]]).
  rewrite String.eqb_eq. split; [by intros ->|by intros [= ->]].
Qed.

Lemma py_eq_str_l v s : py_eq (JStr s) v = true ↔ v = JStr s.
Proof.
  destruct v; cbn; try (split; [done|intros [=]]).
  rewrite String.eqb_eq. split; [by intros ->|by intros [= ->]].
Qed.

Lemma py_eq_str_r_false v s : v ≠ JStr s → py_eq v (JStr s) = false.
Proof. intros H. apply not_true_iff_false. by rewrite py_eq_str_r. Qed.

Lemma existsb_py_eq_str s l : existsb (py_eq (JStr s)) l = true ↔ JStr s ∈ l.
Proof.
  rewrite existsb_exists, list_elem_of_In. split.
  - intros (x & Hx & ->%py_eq_str_l). done.
  - intros Hx. exists (JStr s). split; [done|]. by apply py_eq_str_l.
Qed.

Lemma in_set_str s l : in_set (JStr s) l = Ok true ↔ JStr s ∈ l.
Proof.
  unfold in_set. cbn [hashable]. rewrite <- existsb_py_eq_str.
  destruct (existsb _ _); split; congruence.
Qed.

(** Membership in a set of texts decides which text it is. *)
Lemma in_set_texts v (ss : list string) b :
  in_set v (JStr <$> ss) = Ok b →
  if b then ∃ s, v = JStr s ∧ s ∈ ss else ∀ s, s ∈ ss → v ≠ JStr s.
Proof.
  unfold in_set. destruct (hashable v); [|done]. intros [= <-].
  destruct (existsb _ _) eqn:E.
  - apply existsb_exists in E as (x & Hx & He).
    apply list_elem_of_In, list_elem_of_fmap in Hx as (s & -> & Hs).
    apply py_eq_str_r in He. eauto.
  - intros s Hs ->. apply not_true_iff_false in E. apply E, existsb_py_eq_str.
    apply list_elem_of_fmap. eauto.
Qed.

Lemma lookup_set_key k k' v d :
  lookup_key k (set_key k' v d) = if String.eqb k' k then Some v else lookup_key k d.
Proof.
  induction d as [|[k0 v0] d IH]; cbn; [done|].
  destruct (String.eqb_spec k0 k') as [->|Hne]; cbn; [by destruct (String.eqb k' k)|].
  rewrite IH. destruct (String.eqb_spec k0 k) as [->|]; [|done].
  by rewrite (proj2 (String.eqb_neq k' k)) by congruence.
Qed.

Lemma lookup_key_elem k d v : lookup_key k d = Some v → (k, v) ∈ d.
Proof.
  induction d as [|[k' v'] d IH]; [done|]. cbn. destruct (String.eqb_spec k' k) as [->|].
  - intros [= ->]. apply elem_of_cons. by left.
  - intros Hl. apply elem_of_cons. right. by apply IH.
Qed.

Lemma py_int_str_int z : py_int_str (JInt z) = Ok z.
Proof. cbn. by rewrite int_of_string_pretty. Qed.

Lemma truthy_str s : truthy (JStr s) = true ↔ s ≠ "".
Proof. cbn. rewrite negb_true_iff, String.eqb_neq. done. Qed.

Lemma Qc_eq_bool_iff (x y : Qc) : Qc_eq_bool x y = true ↔ x = y.
Proof.
  unfold Qc_eq_bool. destruct (Qc_eq_dec x y); split; done.
Qed.

Lemma py_eq_int m n : py_eq (JInt m) (JInt n) = true ↔ m = n.
Proof. cbn. rewrite Qc_eq_bool_iff, Q2Qc_eq_iff. apply QArith_base.inject_Z_injective. Qed.

Lemma py_eq_bool a b : py_eq (JBool a) (JBool b) = true ↔ a = b.
Proof.
  cbn. rewrite Qc_eq_bool_iff, Q2Qc_eq_iff, QArith_base.inject_Z_injective.
  destruct a, b; done.
Qed.
