(* ===== verification/External.v ===== *)
(** The libraries the agent calls that are not part of it, as interfaces: the
    [cryptography] package's X.509 objects and PyJWT. Their functions are
    parameters of every definition that uses them. *)

From S2P Require Import Prelude PyText PyValue.

(** [cryptography.x509] *)
Class X509 := {
  Cert : Type;
  load_pem_x509_certificate : list byte → res Cert;
  load_der_x509_certificate : list byte → res Cert;
  (** [cert.public_bytes(Encoding.PEM)] *)
  cert_pem_bytes : Cert → list byte;
  (** [cert.extensions.get_extension_for_oid(oid).value.value]; [None] stands
      for [x509.ExtensionNotFound]. *)
  extension_for_oid : Cert → string → res (option (list byte));
  (** [cert.public_key().public_bytes(DER, SubjectPublicKeyInfo)] *)
  spki_der : Cert → res (list byte);
  (** The validity dates of a certificate, formatted [%Y-%m-%d]. *)
  validity_dates : Cert → res (string * string)
}.

(** PyJWT. A key of a key set is its [key_id] and the key itself. *)
Record jwk (K : Type) := Jwk { key_id : json; key : K }.
Arguments Jwk {K} key_id key.
Arguments key_id {K} _.
Arguments key {K} _.

Record jwt_options := JwtOptions {
  verify_exp : bool; verify_nbf : bool; verify_iss : bool; verify_aud : bool }.

Class PyJWT := {
  JwtKey : Type;
  (** [jwt.PyJWKSet.from_dict(d).keys] *)
  PyJWKSet_from_dict : json → res (list (jwk JwtKey));
  (** [jwt.get_unverified_header(token)] *)
  get_unverified_header : string → res dict;
  (** [jwt.decode(token, key, algorithms, audience, options, leeway)] at a
      given wall-clock time (nanoseconds) *)
  jwt_decode : Z → string → JwtKey → list string → string → jwt_options → Z → res dict
}.
