(* ===== verification/Attestation.v ===== *)
(** [agent/attestation.py]: the attestation token inside the server's
    certificate. *)

From S2P Require Import Prelude PyText Utf8 PyValue External.

Open Scope Z_scope.

Definition ATTESTATION_OID : string := "1.3.6.1.4.1.99999.1".

(** The bytes of the extension that hold the token: the content of a DER OCTET
    STRING, or the whole value when it does not start with its tag. [None] when
    there is too little to read. Indexing and slicing follow Python: a slice
    that starts past the end is empty. *)
Definition octet_string_payload (raw : list byte) : option (list byte) :=
  match raw with
  | b0 :: b1 :: rest =>
      if negb (b2z b0 =? 0x04) then Some raw
      else if b2z b1 <? 0x80 then Some rest
      else Some (drop (Z.to_nat (Z.land (b2z b1) 0x7f)) rest)
  | _ => None
  end.

Definition extract_attestation_token `{X509} (cert_pem : list byte) : res (option string) :=
  cert ← load_pem_x509_certificate cert_pem;
  ext ← extension_for_oid cert ATTESTATION_OID;
  match ext with
  | None => Ok None
  | Some raw => Ok (decode_utf8 <$> octet_string_payload raw)
  end.

(** ** The server's side: DER

    The certificate carries [i2d_ASN1_OCTET_STRING] of the token. This is the
    DER rule for a definite length: one byte below 128, otherwise the number of
    length bytes followed by the length, most significant byte first, without
    leading zeros. *)

Fixpoint be_bytes (fuel : nat) (n : Z) : list byte :=
  match fuel with
  | O => []
  | S f => if n =? 0 then [] else be_bytes f (n / 256) ++ [z2b (n mod 256)]
  end.

Definition der_length (n : nat) : list byte :=
  if (n <? 128)%nat then [z2b (Z.of_nat n)]
  else let bs := be_bytes n (Z.of_nat n) in z2b (128 + Z.of_nat (length bs)) :: bs.

Definition der_octet_string (content : list byte) : list byte :=
  x04 :: der_length (length content) ++ content.

(** ** Properties *)

Lemma be_bytes_length fuel n k :
  (n < 256 ^ Z.of_nat k) → 0 <= n → (length (be_bytes fuel n) <= k)%nat.
Proof.
  revert n k. induction fuel as [|f IH]; intros n k Hn H0; cbn; [lia|].
  destruct (Z.eqb_spec n 0); cbn; [lia|].
  destruct k as [|k]; [cbn in Hn; lia|].
  rewrite length_app. cbn. rewrite Nat2Z.inj_succ, Z.pow_succ_r in Hn by lia.
  enough (length (be_bytes f (n / 256)) <= k)%nat by lia.
  apply IH; [apply Z.div_lt_upper_bound; lia|apply Z.div_pos; lia].
Qed.

(** Tokens long enough for the long form have a length that fits in 126 length
    bytes; DER allows no more. *)
Definition der_representable (content : list byte) : Prop :=
  Z.of_nat (length content) < 256 ^ 126.

Lemma payload_der_octet_string content :
  der_representable content → octet_string_payload (der_octet_string content) = Some content.
Proof.
  intros Hlen. unfold der_octet_string, der_length.
  destruct (Nat.ltb_spec (length content) 128) as [Hs|Hl].
  - cbn. rewrite b2z_z2b, Z.mod_small by lia.
    by rewrite (proj2 (Z.ltb_lt _ _)) by lia.
  - set (bs := be_bytes (length content) (Z.of_nat (length content))).
    assert (Hbs : (length bs <= 126)%nat) by (apply be_bytes_length; [done|lia]).
    cbn. rewrite b2z_z2b, Z.mod_small by lia.
    rewrite (proj2 (Z.ltb_ge _ _)) by lia. f_equal.
    replace (Z.land (128 + Z.of_nat (length bs)) 127) with (Z.of_nat (length bs)).
    + by rewrite Nat2Z.id, drop_app_length.
    + change 127 with (Z.ones 7). rewrite Z.land_ones by lia.
      change (2 ^ 7) with 128. rewrite <- Z.add_mod_idemp_l by lia.
      rewrite Z.mod_same, Z.add_0_l, Z.mod_small by lia. done.
Qed.

(** C32: for a certificate whose attestation extension is the DER OCTET STRING
    of a well-formed UTF-8 token, [extract_attestation_token] returns exactly
    that token, for the short and the long form of the DER length. *)
Theorem extract_der_roundtrip `{X509} (cert_pem : list byte) (cert : Cert) (token : string) :
  load_pem_x509_certificate cert_pem = Ok cert →
  extension_for_oid cert ATTESTATION_OID =
    Ok (Some (der_octet_string (String.list_byte_of_string token))) →
  utf8_valid (String.list_byte_of_string token) →
  der_representable (String.list_byte_of_string token) →
  extract_attestation_token cert_pem = Ok (Some token).
Proof.
  intros Hload Hext Hv Hr. unfold extract_attestation_token.
  rewrite Hload, ret_bind, Hext, ret_bind, payload_der_octet_string by done. cbn.
  unfold decode_utf8. rewrite utf8_replace_valid by done.
  by rewrite String.string_of_list_byte_of_string.
Qed.

(** A toy X.509 library: a certificate is its extension value. *)
#[local] Instance toy_x509 : X509 := {|
  Cert := list byte;
  load_pem_x509_certificate := Ok;
  load_der_x509_certificate := Ok;
  cert_pem_bytes c := c;
  extension_for_oid c oid := Ok (Some c);
  spki_der := Ok;
  validity_dates _ := Ok ("", "") |}.

Lemma extract_der_roundtrip_witness :
  extract_attestation_token (der_octet_string (String.list_byte_of_string "a.b")) = Ok (Some "a.b").
Proof.
  apply (extract_der_roundtrip (H:=toy_x509) _ (der_octet_string (String.list_byte_of_string "a.b")));
    [reflexivity|reflexivity| |reflexivity].
  repeat (apply valid_1; [reflexivity|]). constructor.
Defined.
