(* ===== verification/Policy.v ===== *)
(** [agent/verifier_policy.py]: the attestation policies.

    [NoopPolicy] has no fields. The fields of [ItaPolicy] that come straight
    from a JSON document or a command line keep whatever value they were given;
    [min_cs_version] and [clock_skew_seconds] are integers. A [frozenset] is
    the list of its elements, in an order the code never relies on. *)

From S2P Require Import Prelude PyText PyValue.
From stdpp Require Import sorting.

Open Scope Z_scope.

(** [os.environ] *)
Abbreviation environ := (gmap string string).

Definition is_test (env : environ) : bool :=
  bool_decide (env !! "ZTAB_TEST_ENVIRONMENT" = Some "1").

Definition _MIN_CS_VERSION_DEFAULT : Z := 260500.

Record ItaPolicy := {
  expected_image_digests : list json;
  expected_project_id : json;
  expected_service_account : json;
  min_cs_version : Z;
  allow_debug : json;
  allow_memory_monitoring : json;
  clock_skew_seconds : Z
}.

(** ** Validation *)

Definition noop_validate (env : environ) : res unit :=
  if is_test env then Ok tt
  else Raise (Exn RuntimeError [Txt "noop verifier forbidden outside ZTAB_TEST_ENVIRONMENT=1."]).

(** The loop over the digests: [d.startswith] exists for texts only. *)
Fixpoint check_digests (ds : list json) : res unit :=
  match ds with
  | [] => Ok tt
  | JStr s :: ds' =>
      if String.prefix "sha256:" s then check_digests ds'
      else Raise (Exn ValueError [Txt "Digest '"; Val (JStr s);
             Txt "' does not start with 'sha256:'. All digests must use the 'sha256:' prefix."])
  | d :: _ => Raise (attribute_error d "startswith")
  end.

Definition ita_validate (env : environ) (p : ItaPolicy) : res unit :=
  match expected_image_digests p with
  | [] => Raise (Exn ValueError
            [Txt "expected_image_digests must contain at least one digest (e.g. 'sha256:...')."])
  | ds =>
      check_digests ds;;
      if min_cs_version p <=? 0 then
        Raise (Exn ValueError
          [Txt "min_cs_version must be a positive integer (e.g. 260500). Got: ";
           Val (JInt (min_cs_version p))])
      else if truthy (allow_debug p) && negb (is_test env) then
        Raise (Exn RuntimeError
          [Txt "allow_debug=True forbidden outside ZTAB_TEST_ENVIRONMENT=1."])
      else if truthy (allow_memory_monitoring p) && negb (is_test env) then
        Raise (Exn RuntimeError
          [Txt "allow_memory_monitoring=True forbidden outside ZTAB_TEST_ENVIRONMENT=1."])
      else Ok tt
  end.

(** ** Serialization *)

Definition noop_to_dict : dict := [("verifier_type", JStr "noop")].

Definition text_of (v : json) : option string :=
  match v with JStr s => Some s | _ => None end.

Definition str_le (s t : string) : Prop := String.leb s t = true.
#[global] Instance str_le_dec s t : Decision (str_le s t).
Proof. unfold str_le. apply _. Defined.
Definition num_le (v w : json) : Prop :=
  match num_of v, num_of w with Some p, Some q => Qcanon.Qcle p q | _, _ => True end.
#[global] Instance num_le_dec v w : Decision (num_le v w).
Proof. unfold num_le. destruct (num_of v), (num_of w); apply _. Defined.

(** [sorted(s)] for the elements of a set: texts by code point, numbers by
    value; two elements of other or different kinds do not compare. *)
Definition py_sorted (l : list json) : res (list json) :=
  match l with
  | [] | [_] => Ok l
  | _ =>
      match mapM text_of l with
      | Some ss => Ok (JStr <$> merge_sort str_le ss)
      | None =>
          match mapM num_of l with
          | Some _ => Ok (merge_sort num_le l)
          | None => Raise (Exn TypeError [Txt "'<' not supported between these instances"])
          end
      end
  end.

(** [dataclasses.fields(ItaPolicy)] after the digests: name, value, default. *)
Definition ita_fields (p : ItaPolicy) : list (string * json * json) :=
  [("expected_project_id", expected_project_id p, JStr "");
   ("expected_service_account", expected_service_account p, JStr "");
   ("min_cs_version", JInt (min_cs_version p), JInt _MIN_CS_VERSION_DEFAULT);
   ("allow_debug", allow_debug p, JBool false);
   ("allow_memory_monitoring", allow_memory_monitoring p, JBool false);
   ("clock_skew_seconds", JInt (clock_skew_seconds p), JInt 300)].

Definition put_changed (d : dict) (f : string * json * json) : dict :=
  let '(name, val, default) := f in
  if py_eq val default then d else set_key name val d.

Definition ita_to_dict (p : ItaPolicy) : res dict :=
  ds ← py_sorted (expected_image_digests p);
  Ok (foldl put_changed [("verifier_type", JStr "ita"); ("expected_image_digests", JList ds)]
        (ita_fields p)).

(** ** Deserialization *)

Definition int_field (name : string) (default : Z) (d : dict) : res Z :=
  match lookup_key name d with
  | None => Ok default
  | Some JNull => Ok default
  | Some v => if py_eq v (JStr "") then Ok default else py_int v
  end.

Definition any_field (name : string) (default : json) (d : dict) : json :=
  match lookup_key name d with Some v => v | None => default end.

Definition ita_from_dict (d : dict) : res ItaPolicy :=
  let digests := any_field "expected_image_digests" (JList []) d in
  items ← match digests with JStr s => Ok [JStr s] | v => py_iter v end;
  ds ← frozenset items;
  min_cs ← int_field "min_cs_version" _MIN_CS_VERSION_DEFAULT d;
  skew ← int_field "clock_skew_seconds" 300 d;
  Ok {| expected_image_digests := ds;
        expected_project_id := any_field "expected_project_id" (JStr "") d;
        expected_service_account := any_field "expected_service_account" (JStr "") d;
        min_cs_version := min_cs;
        allow_debug := any_field "allow_debug" (JBool false) d;
        allow_memory_monitoring := any_field "allow_memory_monitoring" (JBool false) d;
        clock_skew_seconds := skew |}.

(** The two subclasses of the abstract base class. *)
Inductive verifier_policy :=
| NoopPolicy
| Ita (p : ItaPolicy).

(** [_policy_registry()]: verifier type to the subclass's [from_dict]. *)
Definition _policy_registry : list (string * (dict → res verifier_policy)) :=
  [("noop", λ _, Ok NoopPolicy);
   ("ita", λ d, Ita <$> ita_from_dict d)].

(** [VerifierPolicy.from_dict] *)
Definition policy_from_dict (d : json) : res verifier_policy :=
  vtype ← py_get d "verifier_type" (JStr "");
  if hashable vtype then
    match d, vtype with
    | JObj kvs, JStr t =>
        match List.find (λ r, String.eqb r.1 t) _policy_registry with
        | Some (_, from_dict) => from_dict kvs
        | None => Raise (Exn ValueError [Txt "Unknown verifier_type '"; Val vtype;
                           Txt "'. Known types: ['ita', 'noop']"])
        end
    | _, _ => Raise (Exn ValueError [Txt "Unknown verifier_type '"; Val vtype;
                       Txt "'. Known types: ['ita', 'noop']"])
    end
  else Raise (unhashable vtype).

Definition policy_to_dict (p : verifier_policy) : res dict :=
  match p with
  | NoopPolicy => Ok noop_to_dict
  | Ita p => ita_to_dict p
  end.

(** ** Properties of validation *)

Definition digest_ok (d : json) : Prop := ∃ s, d = JStr s ∧ String.prefix "sha256:" s = true.

Lemma check_digests_ok ds : check_digests ds = Ok tt ↔ Forall digest_ok ds.
Proof.
  induction ds as [|d ds IH]; cbn.
  - by rewrite Forall_nil.
  - rewrite Forall_cons, <- IH. unfold digest_ok.
    destruct d as [| | | |s| |]; try (split; [done|by intros ((? & [=] & _) & _)]).
    destruct (String.prefix "sha256:" s) eqn:E.
    + split; [eauto|by intros [_ ?]].
    + split; [done|]. intros ((t & [= <-] & Ht) & _). congruence.
Qed.

(** The bypasses of a policy are off, or the process runs in the test
    environment. *)
Definition no_bypass (env : environ) (p : ItaPolicy) : Prop :=
  is_test env = true ∨ (truthy (allow_debug p) = false ∧ truthy (allow_memory_monitoring p) = false).

(** [validate] accepts exactly the policies with at least one digest, only
    well-formed digests, a positive version floor, and no bypass outside the
    test environment. *)
Lemma ita_validate_ok env p :
  ita_validate env p = Ok tt ↔
  expected_image_digests p ≠ [] ∧ Forall digest_ok (expected_image_digests p) ∧
  0 < min_cs_version p ∧ no_bypass env p.
Proof.
  unfold ita_validate. rewrite <- check_digests_ok.
  destruct (expected_image_digests p) as [|d ds]; [split; [done|by intros [? _]]|].
  destruct (check_digests (d :: ds)) as [[]|e]; [|split; [done|by intros (_ & ? & _)]].
  rewrite ret_bind. unfold no_bypass.
  destruct (Z.leb_spec (min_cs_version p) 0); [split; [done|lia]|].
  destruct (truthy (allow_debug p)), (truthy (allow_memory_monitoring p)), (is_test env);
    cbn; intuition congruence.
Qed.

(** ** Policies up to the order of their digests *)

Record policy_equiv (p q : ItaPolicy) : Prop := PolicyEquiv {
  pe_digests : ∀ d, d ∈ expected_image_digests p ↔ d ∈ expected_image_digests q;
  pe_project : expected_project_id p = expected_project_id q;
  pe_account : expected_service_account p = expected_service_account q;
  pe_version : min_cs_version p = min_cs_version q;
  pe_debug : allow_debug p = allow_debug q;
  pe_monitoring : allow_memory_monitoring p = allow_memory_monitoring q;
  pe_skew : clock_skew_seconds p = clock_skew_seconds q
}.

#[global] Instance policy_equiv_equivalence : Equivalence policy_equiv.
Proof.
  split.
  - intros p. by split.
  - intros p q []. by split.
  - intros p q r [] []. split; [|congruence..].
    intros d. etrans; eauto.
Qed.

(** Whether [validate] accepts depends on the set of digests only, not on the
    order in which the set is iterated. *)
#[global] Instance ita_validate_proper env :
  Proper (policy_equiv ==> eq) (λ p, is_ok (ita_validate env p)).
Proof.
  intros p q Hpq. apply eq_true_iff_eq.
  assert (Hok : ∀ r, is_ok (ita_validate env r) = true ↔ ita_validate env r = Ok tt).
  { intros r. rewrite is_ok_true. split; [by intros [[] ?]|eauto]. }
  rewrite !Hok, !ita_validate_ok, !Forall_forall. unfold no_bypass.
  destruct Hpq as [Hd _ _ -> -> -> _].
  assert (Hne : expected_image_digests p ≠ [] ↔ expected_image_digests q ≠ []).
  { split; intros H Hn; apply H, elem_of_nil_inv; intros x Hx;
      apply Hd in Hx; rewrite Hn in Hx; by apply elem_of_nil in Hx. }
  rewrite Hne. setoid_rewrite Hd. done.
Qed.

(** ** Serialization round trip *)

(** A policy whose fields have their declared types. *)
Record typed_policy (p : ItaPolicy) : Prop := TypedPolicy {
  tp_digests : ∃ ss, expected_image_digests p = JStr <$> ss ∧ NoDup ss;
  tp_project : ∃ s, expected_project_id p = JStr s;
  tp_account : ∃ s, expected_service_account p = JStr s;
  tp_debug : ∃ b, allow_debug p = JBool b;
  tp_monitoring : ∃ b, allow_memory_monitoring p = JBool b
}.

Lemma lookup_put_changed k d name val default :
  lookup_key k (put_changed d (name, val, default)) =
  if String.eqb name k && negb (py_eq val default) then Some val else lookup_key k d.
Proof.
  unfold put_changed. destruct (py_eq val default); [by rewrite andb_false_r|].
  rewrite lookup_set_key, andb_true_r. done.
Qed.

Lemma mapM_text_of ss : mapM text_of (JStr <$> ss) = Some ss.
Proof. induction ss as [|s ss IH]; [done|]. cbn in *. by rewrite IH. Qed.

Lemma py_sorted_texts ss :
  ∃ ts, py_sorted (JStr <$> ss) = Ok (JStr <$> ts) ∧ ts ≡ₚ ss.
Proof.
  destruct ss as [|s [|t ss]]; [by exists []|by exists [s]|].
  exists (merge_sort str_le (s :: t :: ss)). split; [|apply merge_sort_Permutation].
  unfold py_sorted. rewrite mapM_text_of. done.
Qed.

Lemma dedup_texts ss : NoDup ss → dedup (JStr <$> ss) = JStr <$> ss.
Proof.
  induction 1 as [|s ss Hs _ IH]; [done|]. cbn [fmap list_fmap dedup]. f_equal.
  rewrite IH. clear IH. induction ss as [|t ss IH]; [done|]. cbn.
  rewrite not_elem_of_cons in Hs. rewrite (proj2 (String.eqb_neq s t)) by tauto.
  cbn. f_equal. apply IH. tauto.
Qed.

Lemma frozenset_texts ss : NoDup ss → frozenset (JStr <$> ss) = Ok (JStr <$> ss).
Proof.
  intros Hs. unfold frozenset. rewrite dedup_texts by done.
  replace (List.find _ _) with (@None json); [done|]. clear Hs.
  by induction ss as [|s ss IH].
Qed.

Lemma lookup_fields k d fs :
  NoDup (fst ∘ fst <$> fs) →
  lookup_key k (foldl put_changed d fs) =
  match List.find (λ f, String.eqb f.1.1 k) fs with
  | Some (_, v, default) => if py_eq v default then lookup_key k d else Some v
  | None => lookup_key k d
  end.
Proof.
  revert d. induction fs as [|[[n v] default] fs IH]; intros d Hnd; [done|].
  apply NoDup_cons in Hnd as [Hn Hnd]. cbn [foldl List.find fst].
  rewrite IH, lookup_put_changed by done.
  destruct (String.eqb_spec n k) as [->|Hne].
  - destruct (List.find _ fs) as [[[n' v'] d']|] eqn:E.
    + apply List.find_some in E as [Hin Hk]. cbn in Hk. apply String.eqb_eq in Hk as ->. destruct Hn.
      apply list_elem_of_fmap. exists (k, v', d'). split; [done|]. by apply list_elem_of_In.
    + by destruct (py_eq v default).
  - done.
Qed.

Lemma ita_fields_nodup p : NoDup (fst ∘ fst <$> ita_fields p).
Proof. cbn. apply NoDup_ListNoDup. repeat constructor; cbn; intuition discriminate. Qed.

(** The values [to_dict] leaves out are those [from_dict] fills in. *)
Lemma default_typed_str v : (∃ s, v = JStr s) → py_eq v (JStr "") = true → v = JStr "".
Proof. by intros _ ->%py_eq_str_r. Qed.

Lemma default_typed_bool v : (∃ b, v = JBool b) → py_eq v (JBool false) = true → v = JBool false.
Proof. intros [b ->] ->%py_eq_bool. done. Qed.

Lemma int_field_eq d name val default :
  lookup_key name d = (if py_eq (JInt val) (JInt default) then None else Some (JInt val)) →
  int_field name default d = Ok val.
Proof.
  unfold int_field. intros ->. destruct (py_eq _ _) eqn:E; [|done].
  by apply py_eq_int in E as ->.
Qed.

Lemma any_field_eq d name val default :
  lookup_key name d = (if py_eq val default then None else Some val) →
  (py_eq val default = true → val = default) → any_field name default d = val.
Proof.
  unfold any_field. intros -> H. destruct (py_eq val default); [by rewrite H|done].
Qed.

Lemma ita_roundtrip p :
  typed_policy p →
  ∃ d q, ita_to_dict p = Ok d ∧ ita_from_dict d = Ok q ∧ policy_equiv p q ∧
         lookup_key "verifier_type" d = Some (JStr "ita").
Proof.
  intros [(ss & Hss & Hnd) Hpr Hac Hde Hmo].
  destruct (py_sorted_texts ss) as (ts & Hts & Hperm).
  set (d := foldl put_changed [("verifier_type", JStr "ita");
              ("expected_image_digests", JList (JStr <$> ts))] (ita_fields p)).
  assert (Hl : ∀ k, lookup_key k d = _) by (intros k; apply lookup_fields, ita_fields_nodup).
  exists d. eexists. split; [unfold ita_to_dict; by rewrite Hss, Hts, ret_bind|].
  split; [|split; [|exact (Hl "verifier_type")]].
  - unfold ita_from_dict.
    replace (any_field "expected_image_digests" _ d) with (JList (JStr <$> ts))
      by (unfold any_field; by rewrite Hl).
    cbn [py_iter]. rewrite ret_bind, frozenset_texts by (by rewrite Hperm).
    rewrite ret_bind, (int_field_eq _ "min_cs_version" (min_cs_version p)) by exact (Hl "min_cs_version").
    rewrite ret_bind, (int_field_eq _ "clock_skew_seconds" (clock_skew_seconds p)) by exact (Hl "clock_skew_seconds").
    by rewrite ret_bind.
  - split; cbn [expected_image_digests expected_project_id expected_service_account min_cs_version
      allow_debug allow_memory_monitoring clock_skew_seconds]; try done;
      try (symmetry; match goal with |- any_field ?n _ _ = _ =>
             apply any_field_eq; [exact (Hl n)|eauto using default_typed_str, default_typed_bool] end).
    intros v. rewrite Hss, !list_elem_of_fmap. setoid_rewrite Hperm. done.
Qed.

(** The same for both kinds of policy, through the dispatching
    [VerifierPolicy.from_dict]. *)
Definition vp_equiv (p q : verifier_policy) : Prop :=
  match p, q with
  | NoopPolicy, NoopPolicy => True
  | Ita p, Ita q => policy_equiv p q
  | _, _ => False
  end.

Definition vp_typed (p : verifier_policy) : Prop :=
  match p with NoopPolicy => True | Ita p => typed_policy p end.

(** C30: a policy whose fields have their declared types survives [to_dict]
    followed by [VerifierPolicy.from_dict]: the dispatch finds the class it
    came from and every field comes back, the digests as the same set. *)
Theorem policy_dict_roundtrip p :
  vp_typed p →
  ∃ d q, policy_to_dict p = Ok d ∧ policy_from_dict (JObj d) = Ok q ∧ vp_equiv p q.
Proof.
  destruct p as [|p]; intros Ht.
  - by exists noop_to_dict, NoopPolicy.
  - destruct (ita_roundtrip p Ht) as (d & q & Hd & Hq & Heq & Hty).
    exists d, (Ita q). split; [done|]. split; [|done].
    unfold policy_from_dict. cbn [py_get]. rewrite Hty. cbn. by rewrite Hq.
Qed.

Definition example_policy : ItaPolicy := {|
  expected_image_digests := [JStr "sha256:b"; JStr "sha256:a"];
  expected_project_id := JStr "proj";
  expected_service_account := JStr "";
  min_cs_version := 270000;
  allow_debug := JBool false;
  allow_memory_monitoring := JBool false;
  clock_skew_seconds := 300 |}.

Lemma policy_dict_roundtrip_witness :
  ∃ d q, policy_to_dict (Ita example_policy) = Ok d ∧ policy_from_dict (JObj d) = Ok q ∧
         vp_equiv (Ita example_policy) q.
Proof.
  apply (policy_dict_roundtrip (Ita example_policy)).
  split; cbn; eauto. exists ["sha256:b"; "sha256:a"]. split; [done|].
  apply NoDup_ListNoDup. repeat constructor; cbn; intuition discriminate.
Defined.
