(* ===== verification/World.v ===== *)
(** The process the agent runs in: the host around it and the state it keeps
    between calls.

    Every call that leaves the process (the clock, the network, the file
    system) is numbered, and its outcome is a function of that number: the host
    may answer the same question differently each time. What the process learned
    this way is kept in a log, so that theorems can say where a value came
    from. *)

From S2P Require Import Prelude PyText PyValue Policy.

Open Scope Z_scope.

Class Host := {
  (** [os.environ]; the agent never writes to it. *)
  os_environ : environ;
  (** [time.time()], in nanoseconds *)
  clock : nat → Z;
  (** [urlopen(url)] and [json.loads] of the body *)
  http_get_json : nat → string → res json;
  (** TLS handshake with a host and port, and the DER certificate the peer
      presents, if any *)
  tls_peer_certificate : nat → json → Z → res (option (list byte))
}.

(** The file system and the identifiers drawn by [uuid.uuid4()]. *)
Class Files := {
  (** [os.stat(path).st_mtime_ns] *)
  stat_mtime_ns : nat → string → res Z;
  (** [open(path)] and [json.load] of the file *)
  load_json_file : nat → string → res json;
  (** [os.path.expanduser] *)
  expanduser : string → string;
  uuid4 : nat → string
}.

(** [json.loads] of a text and of bytes *)
Class PyJson := {
  json_loads : string → res json;
  json_loads_bytes : list byte → res json
}.

(** [_JWKS_CACHE]: the key set and the time it was fetched. *)
Record jwks_cache := JwksCache { cache_data : option json; cache_ts : Z }.

(** What the process learned from the host. *)
Inductive interaction :=
| ReadClock (now : Z)
| Downloaded (url : string) (body : json)
| Presented (host : json) (port : Z) (der : option (list byte))
| LoadedFile (path : string) (content : json).

Record world := World { w_tick : nat; w_jwks : jwks_cache; w_log : list interaction }.

Definition init_world : world := World 0 (JwksCache None 0) [].

(** The number of the next interaction with the host. *)
Definition tick : ST world exn nat :=
  λ w, (Ok (w_tick w), World (S (w_tick w)) (w_jwks w) (w_log w)).
(** An answer of the host enters the log. *)
Definition learn (i : interaction) : ST world exn unit :=
  λ w, (Ok tt, World (w_tick w) (w_jwks w) (w_log w ++ [i])).

Definition get_cache : ST world exn jwks_cache := λ w, (Ok (w_jwks w), w).
Definition set_cache (c : jwks_cache) : ST world exn unit :=
  λ w, (Ok tt, World (w_tick w) c (w_log w)).

Section host.
Context `{Host}.

Definition time_time : ST world exn Z :=
  n ← tick;
  learn (ReadClock (clock n));;
  mret (clock n).
Definition http_get (url : string) : ST world exn json :=
  n ← tick;
  body ← lift (http_get_json n url);
  learn (Downloaded url body);;
  mret body.
Definition tls_certificate (host : json) (port : Z) : ST world exn (option (list byte)) :=
  n ← tick;
  der ← lift (tls_peer_certificate n host port);
  learn (Presented host port der);;
  mret der.

(** The host gave this answer. *)
Definition answered (i : interaction) : Prop :=
  match i with
  | ReadClock now => ∃ n, clock n = now
  | Downloaded url body => ∃ n, http_get_json n url = Ok body
  | Presented host port der => ∃ n, tls_peer_certificate n host port = Ok der
  | LoadedFile _ _ => True
  end.
End host.
