(* ===== verification/Json.v ===== *)
(** Python's [json] module: [json.loads] and [json.dumps].

    The scanner follows [Lib/json] and its C accelerator on the code points of a
    text: strict strings, [\u] escapes with surrogate pairs, numbers by longest
    match, integers through [int()] with its limit of 4300 digits, objects in
    which the last of several equal keys wins, and a bound on nesting. Error
    messages are kept without their position.

    Left out: the constants NaN and Infinity, for which [json] has no value, and
    the conversion between a float and its decimal text, a parameter. *)

From S2P Require Import Prelude PyText Utf8 Unicode PyValue World.
From Stdlib Require Import QArith.Qcanon.

Open Scope Z_scope.

Class PyFloat := {
  (** [float(text)] of a float literal; [None] when it is infinite *)
  float_of_text : string → option Qc;
  (** [float.__repr__] *)
  float_repr : Qc → string;
  (** how deep values may nest before [RecursionError] *)
  recursion_limit : nat
}.

(** ** Errors *)

Definition decode_error (msg : string) : exn := Exn JSONDecodeError [Txt msg].
Definition expecting_value : exn := decode_error "Expecting value".
Definition recursion_error : exn := Exn (OtherException "RecursionError") [Txt "maximum recursion depth exceeded"].
Definition digits_error : exn :=
  Exn ValueError [Txt "Exceeds the limit (4300 digits) for integer string conversion"].
(** A value the model has no counterpart for. *)
Definition non_finite : exn := Exn (OtherException "NaN or Infinity") [].
(** A loop ran out of its bound; never the outcome of [loads]. *)
Definition out_of_fuel : exn := Exn (OtherException "out of fuel") [].

Abbreviation scanner A := (list Z → res (A * list Z)).

(** ** White space and literals *)

Definition is_ws (c : Z) : bool := (c =? 32) || (c =? 9) || (c =? 10) || (c =? 13).
Definition skip_ws (l : list Z) : list Z := drop_while is_ws l.

Definition codes (s : string) : list Z := b2z <$> String.list_byte_of_string s.

(** The rest of [l] after the literal [p] *)
Fixpoint after (p l : list Z) : option (list Z) :=
  match p, l with
  | [], _ => Some l
  | c :: p', c' :: l' => if c =? c' then after p' l' else None
  | _, [] => None
  end.

(** The rest of [l] after the character [c] *)
Definition expect (c : Z) (l : list Z) : option (list Z) :=
  match l with c' :: t => if c' =? c then Some t else None | [] => None end.

(** ** Strings *)

Definition hex_value (c : Z) : option Z :=
  if (48 <=? c) && (c <=? 57) then Some (c - 48)
  else if (97 <=? c) && (c <=? 102) then Some (c - 87)
  else if (65 <=? c) && (c <=? 70) then Some (c - 55)
  else None.

Definition hex4 (a b c d : Z) : option Z :=
  x ← hex_value a; y ← hex_value b; z ← hex_value c; w ← hex_value d;
  Some (((x * 16 + y) * 16 + z) * 16 + w).

Definition is_high (c : Z) : bool := (0xD800 <=? c) && (c <=? 0xDBFF).
Definition is_low (c : Z) : bool := (0xDC00 <=? c) && (c <=? 0xDFFF).
Definition join_surrogates (h l : Z) : Z := 0x10000 + (h - 0xD800) * 0x400 + (l - 0xDC00).

(** The character a one-letter escape stands for *)
Definition simple_escape (c : Z) : option Z :=
  if c =? 34 then Some 34 else if c =? 92 then Some 92 else if c =? 47 then Some 47
  else if c =? 98 then Some 8 else if c =? 102 then Some 12 else if c =? 110 then Some 10
  else if c =? 114 then Some 13 else if c =? 116 then Some 9 else None.

Definition emit_char (c : Z) (r : res (list Z * list Z)) : res (list Z * list Z) :=
  p ← r; Ok (c :: p.1, p.2).

Definition unterminated : exn := decode_error "Unterminated string starting at".
Definition bad_unicode : exn := decode_error "Invalid \uXXXX escape".

(** After the opening quote: the characters of the string and the rest. Four
    hexadecimal digits must be followed by a further character. *)
Fixpoint scanstring (l : list Z) : res (list Z * list Z) :=
  match l with
  | [] => Raise unterminated
  | c :: t =>
      if c =? 34 then Ok ([], t)
      else if c =? 92 then
        match t with
        | [] => Raise unterminated
        | e :: t1 =>
            if e =? 117 then
              match t1 with
              | h1 :: h2 :: h3 :: h4 :: ((q :: _) as t2) =>
                  match hex4 h1 h2 h3 h4 with
                  | None => Raise bad_unicode
                  | Some u =>
                      match t2 with
                      | b :: v :: k1 :: k2 :: k3 :: k4 :: ((_ :: _) as t3) =>
                          if is_high u && (b =? 92) && (v =? 117) then
                            match hex4 k1 k2 k3 k4 with
                            | None => Raise bad_unicode
                            | Some u2 =>
                                if is_low u2 then emit_char (join_surrogates u u2) (scanstring t3)
                                else emit_char u (scanstring t2)
                            end
                          else emit_char u (scanstring t2)
                      | _ => emit_char u (scanstring t2)
                      end
                  end
              | _ => Raise bad_unicode
              end
            else
              match simple_escape e with
              | Some c' => emit_char c' (scanstring t1)
              | None => Raise (decode_error "Invalid \escape: ")
              end
        end
      else if c <=? 31 then Raise (decode_error "Invalid control character at")
      else emit_char c (scanstring t)
  end.

(** ** Numbers *)

Definition is_dig (c : Z) : bool := (48 <=? c) && (c <=? 57).

Fixpoint span_digits (l : list Z) : list Z * list Z :=
  match l with
  | c :: t => if is_dig c then let '(ds, r) := span_digits t in (c :: ds, r) else ([], l)
  | [] => ([], [])
  end.

Definition scan_sign (l : list Z) : list Z * list Z :=
  match l with c :: t => if c =? 45 then ([c], t) else ([], l) | [] => ([], []) end.

Definition scan_int (l : list Z) : option (list Z * list Z) :=
  match l with
  | c :: t =>
      if c =? 48 then Some ([c], t)
      else if is_dig c then let '(ds, r) := span_digits t in Some (c :: ds, r)
      else None
  | [] => None
  end.

Definition scan_frac (l : list Z) : list Z * list Z :=
  match l with
  | c :: ((d :: _) as t) =>
      if (c =? 46) && is_dig d then let '(ds, r) := span_digits t in (c :: ds, r) else ([], l)
  | _ => ([], l)
  end.

Definition scan_exp_sign (l : list Z) : list Z * list Z :=
  match l with c :: t => if (c =? 43) || (c =? 45) then ([c], t) else ([], l) | [] => ([], []) end.

Definition scan_exp (l : list Z) : list Z * list Z :=
  match l with
  | c :: t =>
      if (c =? 101) || (c =? 69) then
        let '(s, t1) := scan_exp_sign t in
        match span_digits t1 with
        | ([], _) => ([], l)
        | (ds, r) => (c :: s ++ ds, r)
        end
      else ([], l)
  | [] => ([], [])
  end.

Definition INT_MAX_STR_DIGITS : nat := 4300.

Section json.
Context `{PyFloat}.

(** [_match_number_unicode] *)
Definition scan_number : scanner json := λ l,
  let '(sign, l1) := scan_sign l in
  match scan_int l1 with
  | None => Raise expecting_value
  | Some (int, l2) =>
      let '(frac, l3) := scan_frac l2 in
      let '(exp, l4) := scan_exp l3 in
      match frac ++ exp with
      | [] =>
          if (INT_MAX_STR_DIGITS <? length int)%nat then Raise digits_error
          else match int_of_string (text_of (sign ++ int)) with
               | Some z => Ok (JInt z, l4)
               | None => Raise expecting_value
               end
      | _ => match float_of_text (text_of (sign ++ int ++ frac ++ exp)) with
             | Some q => Ok (JFloat q, l4)
             | None => Raise non_finite
             end
      end
  end.

(** ** Values *)

(** The members of an object, from a property name on; [scan] reads a value. *)
Fixpoint scan_members (scan : scanner json) (fuel : nat) (d : dict) (l : list Z) : res (dict * list Z) :=
  match fuel with
  | O => Raise out_of_fuel
  | S fuel' =>
      match expect 34 l with
      | None => Raise (decode_error "Expecting property name enclosed in double quotes")
      | Some t =>
          k ← scanstring t;
          match expect 58 (skip_ws k.2) with
          | None => Raise (decode_error "Expecting ':' delimiter")
          | Some t1 =>
              v ← scan (skip_ws t1);
              let d := set_key (text_of k.1) v.1 d in
              let l1 := skip_ws v.2 in
              match expect 125 l1 with
              | Some t2 => Ok (d, t2)
              | None =>
                  match expect 44 l1 with
                  | Some t2 => scan_members scan fuel' d (skip_ws t2)
                  | None => Raise (decode_error "Expecting ',' delimiter")
                  end
              end
          end
      end
  end.

(** The elements of an array, from the first on; the ones read so far in
    reverse *)
Fixpoint scan_elements (scan : scanner json) (fuel : nat) (acc : list json) (l : list Z) : res (list json * list Z) :=
  match fuel with
  | O => Raise out_of_fuel
  | S fuel' =>
      v ← scan l;
      let l1 := skip_ws v.2 in
      match expect 93 l1 with
      | Some t => Ok (rev (v.1 :: acc), t)
      | None =>
          match expect 44 l1 with
          | Some t => scan_elements scan fuel' (v.1 :: acc) (skip_ws t)
          | None => Raise (decode_error "Expecting ',' delimiter")
          end
      end
  end.

Definition scan_object (scan : scanner json) : scanner json := λ l,
  let l := skip_ws l in
  match expect 125 l with
  | Some t => Ok (JObj [], t)
  | None => d ← scan_members scan (S (length l)) [] l; Ok (JObj d.1, d.2)
  end.

Definition scan_array (scan : scanner json) : scanner json := λ l,
  let l := skip_ws l in
  match expect 93 l with
  | Some t => Ok (JList [], t)
  | None => vs ← scan_elements scan (S (length l)) [] l; Ok (JList vs.1, vs.2)
  end.

(** Literals and numbers *)
Definition scan_atom : scanner json := λ l,
  match after (codes "null") l with Some t => Ok (JNull, t) | None =>
  match after (codes "true") l with Some t => Ok (JBool true, t) | None =>
  match after (codes "false") l with Some t => Ok (JBool false, t) | None =>
  match after (codes "NaN") l, after (codes "Infinity") l, after (codes "-Infinity") l with
  | None, None, None => scan_number l
  | _, _, _ => Raise non_finite
  end end end end.

(** [scan_once]; [n] is what is left of the recursion limit. *)
Fixpoint scan_once (n : nat) (l : list Z) : res (json * list Z) :=
  match expect 34 l with
  | Some t => s ← scanstring t; Ok (JStr (text_of s.1), s.2)
  | None =>
  match expect 123 l with
  | Some t => match n with O => Raise recursion_error | S n' => scan_object (scan_once n') t end
  | None =>
  match expect 91 l with
  | Some t => match n with O => Raise recursion_error | S n' => scan_array (scan_once n') t end
  | None => scan_atom l
  end end end.

(** [JSONDecoder.decode] *)
Definition decode (l : list Z) : res json :=
  v ← scan_once recursion_limit (skip_ws l);
  match skip_ws v.2 with
  | [] => Ok v.1
  | _ => Raise (decode_error "Extra data")
  end.

(** [json.loads(s)] *)
Definition loads (s : string) : res json :=
  match expect 0xFEFF (code_points s) with
  | Some _ => Raise (decode_error "Unexpected UTF-8 BOM (decode using utf-8-sig)")
  | None => decode (code_points s)
  end.

(** ** [json.dumps] *)

Definition hex_digit (d : Z) : Z := if d <? 10 then 48 + d else 87 + d.

Definition u_escape (c : Z) : list Z :=
  [92; 117; hex_digit (c / 4096); hex_digit (c / 256 mod 16); hex_digit (c / 16 mod 16); hex_digit (c mod 16)].

(** [py_encode_basestring_ascii], one character *)
Definition escape_char (c : Z) : list Z :=
  if c =? 34 then [92; 34] else if c =? 92 then [92; 92]
  else if c =? 10 then [92; 110] else if c =? 13 then [92; 114] else if c =? 9 then [92; 116]
  else if c =? 12 then [92; 102] else if c =? 8 then [92; 98]
  else if (32 <=? c) && (c <=? 126) then [c]
  else if c <? 0x10000 then u_escape c
  else u_escape (0xD800 + (c - 0x10000) / 1024) ++ u_escape (0xDC00 + (c - 0x10000) mod 1024).

Fixpoint escape_chars (cs : list Z) : list Z :=
  match cs with [] => [] | c :: cs' => escape_char c ++ escape_chars cs' end.

Definition encode_string (s : string) : list Z := 34 :: escape_chars (code_points s) ++ [34].

(** Line breaks of [indent=k] at a nesting level; without [indent] none *)
Definition newline_indent (indent : option nat) (level : nat) : list Z :=
  match indent with None => [] | Some k => 10 :: repeat 32 (k * level) end.

Definition item_separator (indent : option nat) (level : nat) : list Z :=
  match indent with None => [44; 32] | Some _ => 44 :: newline_indent indent level end.

Fixpoint join_codes (sep : list Z) (l : list (list Z)) : list Z :=
  match l with
  | [] => []
  | [x] => x
  | x :: l' => x ++ sep ++ join_codes sep l'
  end.

Definition bracketed (open close : Z) (indent : option nat) (level : nat) (items : list (list Z)) : list Z :=
  match items with
  | [] => [open; close]
  | _ => open :: newline_indent indent (S level) ++ join_codes (item_separator indent (S level)) items ++
         newline_indent indent level ++ [close]
  end.

Fixpoint dump_value (indent : option nat) (level : nat) (v : json) : list Z :=
  match v with
  | JNull => codes "null"
  | JBool true => codes "true"
  | JBool false => codes "false"
  | JInt z => codes (pretty z)
  | JFloat q => codes (float_repr q)
  | JStr s => encode_string s
  | JList l => bracketed 91 93 indent level (List.map (dump_value indent (S level)) l)
  | JObj d => bracketed 123 125 indent level
      (List.map (λ '(k, x), encode_string k ++ [58; 32] ++ dump_value indent (S level) x) d)
  end.

(** [json.dumps(v)] and [json.dumps(v, indent=k)] *)
Definition dumps (indent : option nat) (v : json) : string := text_of (dump_value indent 0 v).
End json.
