(* ===== verification/JsonProps.v ===== *)
(** Properties of [json.loads] and [json.dumps]: reading terminates, what was
    written is read back, and written text is one line of printable ASCII. *)

From S2P Require Import Prelude PyText Utf8 Unicode PyValue World Json.
From Stdlib Require Import QArith.Qcanon.

Open Scope Z_scope.

(** ** Termination

    A scanner consumes input when it succeeds, and never runs out of the bound
    of its loops. *)

Definition consumes {A : Type} (l : list Z) (r : res (A * list Z)) : Prop :=
  match r with Ok p => (length p.2 < length l)%nat | Raise e => e ≠ out_of_fuel end.

Lemma consumes_map {A B : Type} (f : A * list Z → B) l (r : res (A * list Z)) :
  consumes l r → consumes l (p ← r; Ok (f p, p.2)).
Proof. by destruct r. Qed.

Lemma consumes_le {A : Type} l l' (r : res (A * list Z)) :
  (length l <= length l')%nat → consumes l r → consumes l' r.
Proof. intros Hl. destruct r; cbn; [lia|done]. Qed.

Lemma skip_ws_length l : (length (skip_ws l) <= length l)%nat.
Proof. unfold skip_ws. induction l as [|c l IH]; [done|]. cbn. destruct (is_ws c); cbn; lia. Qed.

Lemma expect_length c l t : expect c l = Some t → length l = S (length t).
Proof. destruct l as [|c' l]; [done|]. cbn. destruct (c' =? c); [|done]. by intros [= ->]. Qed.

Lemma after_length p l t : p ≠ [] → after p l = Some t → (length t < length l)%nat.
Proof.
  intros Hp. assert (Hle : ∀ p l t, after p l = Some t → (length t <= length l)%nat).
  { clear. induction p as [|c p IH]; intros l t; [by intros [= <-]|]. destruct l as [|c' l]; [done|].
    cbn. destruct (c =? c'); [|done]. intros Ht%IH. lia. }
  destruct p as [|c p], l as [|c' l]; try done. cbn. destruct (c =? c'); [|done]. intros Ht%Hle. lia.
Qed.

Lemma span_digits_length l : (length (span_digits l).2 <= length l)%nat.
Proof.
  induction l as [|c l IH]; [done|]. cbn. destruct (is_dig c); [|done].
  destruct (span_digits l) as [ds r]. cbn in *. lia.
Qed.

Lemma emit_char_consumes c l r : consumes l r → consumes l (emit_char c r).
Proof. by destruct r. Qed.

Lemma scanstring_consumes l : consumes l (scanstring l).
Proof.
  induction l as [l IH] using (induction_ltof1 _ (@length Z)). unfold ltof in IH.
  assert (Hrec : ∀ c t, (length t < length l)%nat → consumes l (emit_char c (scanstring t))).
  { intros c t Ht. apply emit_char_consumes, (consumes_le t); [lia|]. by apply IH. }
  destruct l as [|c t]; [done|]. cbn [scanstring].
  destruct (c =? 34); [cbn; lia|]. destruct (c =? 92).
  - destruct t as [|e t1]; [done|]. destruct (e =? 117).
    + destruct t1 as [|h1 [|h2 [|h3 [|h4 [|q t2]]]]]; try done. destruct (hex4 _ _ _ _) as [u|]; [|done].
      destruct t2 as [|v [|k1 [|k2 [|k3 [|k4 [|q2 t3]]]]]];
        try (apply Hrec; cbn; lia).
      destruct (_ && _); [|apply Hrec; cbn; lia]. destruct (hex4 k1 k2 k3 k4) as [u2|]; [|done].
      destruct (is_low u2); apply Hrec; cbn; lia.
    + destruct (simple_escape e); [|done]. apply Hrec. cbn. lia.
  - destruct (c <=? 31); [done|]. apply Hrec. cbn. lia.
Qed.

Section termination.
Context `{PyFloat}.

Lemma scan_number_consumes l : consumes l (scan_number l).
Proof.
  unfold scan_number. assert (Hs : (length (scan_sign l).2 <= length l)%nat).
  { destruct l as [|c l]; [done|]. cbn. destruct (c =? 45); cbn; lia. }
  destruct (scan_sign l) as [sign l1]. cbn in Hs.
  assert (Hi : ∀ int l2, scan_int l1 = Some (int, l2) → (length l2 < length l1)%nat).
  { destruct l1 as [|c l1]; [done|]. cbn. intros int l2. destruct (c =? 48); [intros [= _ <-]; lia|].
    destruct (is_dig c); [|done]. pose proof (span_digits_length l1). destruct (span_digits l1). intros [= _ <-]. cbn in *. lia. }
  destruct (scan_int l1) as [[int l2]|]; [|done]. specialize (Hi _ _ eq_refl).
  assert (Hf : (length (scan_frac l2).2 <= length l2)%nat).
  { destruct l2 as [|c [|d l2]]; [done..|]. unfold scan_frac. destruct (_ && _); [|done].
    pose proof (span_digits_length (d :: l2)). destruct (span_digits (d :: l2)). cbn in *. lia. }
  destruct (scan_frac l2) as [frac l3]. cbn in Hf.
  assert (He : (length (scan_exp l3).2 <= length l3)%nat).
  { destruct l3 as [|c l3]; [done|]. unfold scan_exp. destruct (_ || _); [|done].
    assert (Hsg : (length (scan_exp_sign l3).2 <= length l3)%nat).
    { destruct l3 as [|s l3]; [done|]. cbn. destruct (_ || _); cbn; lia. }
    destruct (scan_exp_sign l3) as [s t1]. pose proof (span_digits_length t1). destruct (span_digits t1) as [[|d ds] r]; cbn in *; lia. }
  destruct (scan_exp l3) as [exp l4]. cbn in He.
  destruct (frac ++ exp).
  - destruct (_ <? _)%nat; [done|]. destruct (int_of_string _); cbn; [lia|done].
  - destruct (float_of_text _); cbn; [lia|done].
Qed.

Lemma scan_atom_consumes l : consumes l (scan_atom l).
Proof.
  unfold scan_atom.
  repeat (case_match; [try done; cbn; by eapply after_length; [|eassumption]|]).
  repeat case_match; try done. apply scan_number_consumes.
Qed.

(** The loops, for a scanner that consumes *)
Section loops.
Variable scan : list Z → res (json * list Z).
Hypothesis Hscan : ∀ l, consumes l (scan l).

Lemma scan_members_consumes fuel d l : (length l < fuel)%nat → consumes l (scan_members scan fuel d l).
Proof.
  revert d l. induction fuel as [|fuel IH]; intros d l Hl; [lia|]. cbn [scan_members].
  destruct (expect 34 l) as [t|] eqn:Ht; [|done]. apply expect_length in Ht.
  pose proof (scanstring_consumes t) as Hk. destruct (scanstring t) as [k|e]; [|exact Hk]. cbn in Hk |- *.
  destruct (expect 58 _) as [t1|] eqn:Ht1; [|done]. apply expect_length in Ht1. pose proof (skip_ws_length k.2).
  pose proof (Hscan (skip_ws t1)) as Hv. pose proof (skip_ws_length t1).
  destruct (scan (skip_ws t1)) as [v|e]; [|exact Hv]. cbn in Hv |- *. pose proof (skip_ws_length v.2).
  destruct (expect 125 _) as [t2|] eqn:Ht2; [apply expect_length in Ht2; cbn; lia|].
  destruct (expect 44 _) as [t2|] eqn:Ht3; [|done]. apply expect_length in Ht3. pose proof (skip_ws_length t2).
  eapply consumes_le; [|apply IH]; lia.
Qed.

Lemma scan_elements_consumes fuel acc l : (length l < fuel)%nat → consumes l (scan_elements scan fuel acc l).
Proof.
  revert acc l. induction fuel as [|fuel IH]; intros acc l Hl; [lia|]. cbn [scan_elements].
  pose proof (Hscan l) as Hv. destruct (scan l) as [v|e]; [|exact Hv]. cbn in Hv |- *. pose proof (skip_ws_length v.2).
  destruct (expect 93 _) as [t|] eqn:Ht; [apply expect_length in Ht; cbn; lia|].
  destruct (expect 44 _) as [t|] eqn:Ht2; [|done]. apply expect_length in Ht2. pose proof (skip_ws_length t).
  eapply consumes_le; [|apply IH]; lia.
Qed.

Lemma scan_object_consumes l : consumes l (scan_object scan l).
Proof.
  unfold scan_object. pose proof (skip_ws_length l). destruct (expect 125 _) as [t|] eqn:Ht.
  - apply expect_length in Ht. cbn. lia.
  - apply (consumes_map (λ d, JObj d.1)), (consumes_le (skip_ws l)), scan_members_consumes; lia.
Qed.

Lemma scan_array_consumes l : consumes l (scan_array scan l).
Proof.
  unfold scan_array. pose proof (skip_ws_length l). destruct (expect 93 _) as [t|] eqn:Ht.
  - apply expect_length in Ht. cbn. lia.
  - apply (consumes_map (λ d, JList d.1)), (consumes_le (skip_ws l)), scan_elements_consumes; lia.
Qed.
End loops.

Lemma scan_once_consumes n l : consumes l (scan_once n l).
Proof.
  revert l. induction n as [|n IH]; intros l; cbn [scan_once].
  all: destruct (expect 34 l) as [t|] eqn:Hs;
    [apply expect_length in Hs; apply (consumes_map (λ s, JStr (text_of s.1))), (consumes_le t), scanstring_consumes; lia|].
  all: destruct (expect 123 l) as [t|] eqn:Ho;
    [first [done|apply expect_length in Ho; apply (consumes_le t), scan_object_consumes; [lia|done]]|].
  all: destruct (expect 91 l) as [t|] eqn:Ha;
    [first [done|apply expect_length in Ha; apply (consumes_le t), scan_array_consumes; [lia|done]]|].
  all: apply scan_atom_consumes.
Qed.

(** The bound of the loops is always enough. *)
Lemma loads_fuel s : loads s ≠ Raise out_of_fuel.
Proof.
  unfold loads, decode. destruct (expect _ _); [done|].
  pose proof (scan_once_consumes recursion_limit (skip_ws (code_points s))) as Hc.
  destruct (scan_once _ _) as [v|e]; cbn in *; [by destruct (skip_ws v.2)|congruence].
Qed.
End termination.

(** ** Strings *)

Lemma hex_value_digit d : 0 <= d < 16 → hex_value (hex_digit d) = Some d.
Proof.
  intros Hd. unfold hex_value, hex_digit. destruct (Z.ltb_spec d 10).
  - rewrite (proj2 (Z.leb_le 48 _)), (proj2 (Z.leb_le _ 57)) by lia. cbn [andb]. f_equal. lia.
  - rewrite (proj2 (Z.leb_le 48 _)), (proj2 (Z.leb_gt _ 57)), (proj2 (Z.leb_le 97 _)), (proj2 (Z.leb_le _ 102)) by lia.
    cbn [andb]. f_equal. lia.
Qed.

Lemma hex4_digits c :
  0 <= c < 0x10000 →
  hex4 (hex_digit (c / 4096)) (hex_digit (c / 256 mod 16)) (hex_digit (c / 16 mod 16)) (hex_digit (c mod 16)) = Some c.
Proof.
  intros Hc. assert (Hd : c = c / 16 * 16 + c mod 16 ∧ c / 16 = c / 256 * 16 + c / 16 mod 16 ∧
    c / 256 = c / 4096 * 16 + c / 256 mod 16).
  { change 4096 with (256 * 16). change 256 with (16 * 16) at 1. rewrite <- !Z.div_div by lia.
    pose proof (Z.div_mod c 16 ltac:(lia)). pose proof (Z.div_mod (c / 16) 16 ltac:(lia)).
    pose proof (Z.div_mod (c / 256) 16 ltac:(lia)). lia. }
  pose proof (Z.mod_pos_bound c 16 ltac:(lia)). pose proof (Z.mod_pos_bound (c / 16) 16 ltac:(lia)).
  pose proof (Z.mod_pos_bound (c / 256) 16 ltac:(lia)).
  unfold hex4. rewrite !hex_value_digit by lia. cbn. f_equal. lia.
Qed.

(** A [\u] escape is read back, when no low surrogate can join it. *)
Lemma scanstring_u c q rest :
  0 <= c < 0x10000 → is_high c = false → scanstring (u_escape c ++ q :: rest) = emit_char c (scanstring (q :: rest)).
Proof.
  intros Hc Hh. unfold u_escape. cbn [app scanstring].
  change (92 =? 34) with false. change (92 =? 92) with true. change (117 =? 117) with true. cbn iota.
  rewrite hex4_digits by done.
  destruct rest as [|v [|k1 [|k2 [|k3 [|k4 [|q2 t3]]]]]]; try done. by rewrite Hh.
Qed.

(** So is a surrogate pair. *)
Lemma scanstring_pair h l q rest :
  0xD800 <= h <= 0xDBFF → 0xDC00 <= l <= 0xDFFF →
  scanstring (u_escape h ++ u_escape l ++ q :: rest) = emit_char (join_surrogates h l) (scanstring (q :: rest)).
Proof.
  intros Hh Hl. unfold u_escape. cbn [app scanstring].
  change (92 =? 34) with false. change (92 =? 92) with true. change (117 =? 117) with true. cbn iota.
  rewrite !hex4_digits by lia. unfold is_high, is_low.
  rewrite (proj2 (Z.leb_le 0xD800 h)), (proj2 (Z.leb_le h 0xDBFF)) by lia.
  rewrite (proj2 (Z.leb_le 0xDC00 l)), (proj2 (Z.leb_le l 0xDFFF)) by lia. done.
Qed.

Lemma scanstring_char c q rest :
  is_scalar c → scanstring (escape_char c ++ q :: rest) = emit_char c (scanstring (q :: rest)).
Proof.
  intros Hc. assert (Hr : 0 <= c < 0x110000) by (unfold is_scalar in Hc; lia). unfold escape_char.
  destruct (Z.eqb_spec c 34) as [->|H34]; [done|]. destruct (Z.eqb_spec c 92) as [->|H92]; [done|].
  destruct (Z.eqb_spec c 10) as [->|_]; [done|]. destruct (Z.eqb_spec c 13) as [->|_]; [done|].
  destruct (Z.eqb_spec c 9) as [->|_]; [done|]. destruct (Z.eqb_spec c 12) as [->|_]; [done|].
  destruct (Z.eqb_spec c 8) as [->|_]; [done|].
  destruct ((32 <=? c) && (c <=? 126)) eqn:Hp.
  { apply andb_true_iff in Hp as [Hp%Z.leb_le _]. change ([c] ++ q :: rest) with (c :: q :: rest).
    cbn [scanstring]. rewrite (proj2 (Z.eqb_neq c 34) H34), (proj2 (Z.eqb_neq c 92) H92).
    by rewrite (proj2 (Z.leb_gt c 31)) by lia. }
  destruct (Z.ltb_spec c 0x10000).
  - apply scanstring_u; [lia|]. unfold is_high, is_scalar in *. apply andb_false_iff. rewrite !Z.leb_gt. lia.
  - pose proof (Z.div_mod (c - 0x10000) 1024 ltac:(lia)). pose proof (Z.mod_pos_bound (c - 0x10000) 1024 ltac:(lia)).
    rewrite <- app_assoc, scanstring_pair by lia. f_equal. unfold join_surrogates. lia.
Qed.

Lemma scanstring_chars cs rest :
  Forall is_scalar cs → scanstring (escape_chars cs ++ 34 :: rest) = Ok (cs, rest).
Proof.
  induction 1 as [|c cs Hc _ IH]; [done|]. cbn [escape_chars]. rewrite <- app_assoc.
  assert (Hne : ∃ q l, escape_chars cs ++ 34 :: rest = q :: l) by (destruct (escape_chars cs) as [|q l]; eauto).
  destruct Hne as (q & l & Hl). rewrite Hl, scanstring_char, <- Hl, IH by done. done.
Qed.

(** ** Numbers *)

Lemma codes_app s t : codes (s +:+ t) = codes s ++ codes t.
Proof. unfold codes. by rewrite list_byte_app, fmap_app. Qed.

Lemma text_of_codes s : Forall is_ascii (codes s) → text_of (codes s) = s.
Proof.
  intros Ha. apply list_byte_inj. rewrite text_of_ascii by done. unfold codes.
  rewrite <- list_fmap_compose. transitivity (id <$> String.list_byte_of_string s); [|apply list_fmap_id].
  apply list_fmap_ext. intros i b _. apply z2b_b2z.
Qed.

Definition digits (l : list Z) : Prop := Forall (λ c, is_dig c = true) l.

Definition int_shape (l : list Z) : Prop := l = [48] ∨ ∃ c ds, l = c :: ds ∧ 49 <= c <= 57 ∧ digits ds.
Definition frac_shape (l : list Z) : Prop := l = [] ∨ ∃ d ds, l = 46 :: d :: ds ∧ digits (d :: ds).
Definition exp_shape (l : list Z) : Prop :=
  l = [] ∨ ∃ s d ds, l = 101 :: s :: d :: ds ∧ (s = 43 ∨ s = 45) ∧ digits (d :: ds).

(** What may follow a number: it ends there. *)
Definition ends_number (l : list Z) : Prop :=
  match l with c :: _ => is_dig c = false ∧ c ≠ 46 ∧ c ≠ 101 ∧ c ≠ 69 | [] => True end.

Lemma span_digits_app ds rest :
  digits ds → match rest with c :: _ => is_dig c = false | [] => True end → span_digits (ds ++ rest) = (ds, rest).
Proof.
  intros Hds Hr. induction Hds as [|c ds Hc _ IH]; cbn.
  - destruct rest as [|c rest]; [done|]. cbn. by rewrite Hr.
  - by rewrite Hc, IH.
Qed.

Lemma dig_range c : is_dig c = true ↔ 48 <= c <= 57.
Proof. unfold is_dig. rewrite andb_true_iff, !Z.leb_le. done. Qed.

Lemma dig_range_false c : c < 48 ∨ 57 < c → is_dig c = false.
Proof. intros Hc. apply not_true_is_false. rewrite dig_range. lia. Qed.

(** Each part of a number is found before what follows it. *)
Lemma scan_int_shape int rest :
  int_shape int → match rest with c :: _ => is_dig c = false | [] => True end → scan_int (int ++ rest) = Some (int, rest).
Proof.
  intros [->|(c & ds & -> & Hc & Hds)] Hr; [done|]. cbn [app scan_int].
  rewrite (proj2 (Z.eqb_neq c 48)), (proj2 (dig_range c)), span_digits_app by (done || lia). done.
Qed.

Lemma scan_frac_shape frac rest :
  frac_shape frac → match rest with c :: _ => is_dig c = false ∧ c ≠ 46 | [] => True end →
  scan_frac (frac ++ rest) = (frac, rest).
Proof.
  intros [->|(d & ds & -> & Hds)] Hr.
  - cbn [app]. destruct rest as [|c [|d rest]]; [done..|]. unfold scan_frac. by rewrite (proj2 (Z.eqb_neq c 46)) by apply Hr.
  - cbn [app scan_frac]. rewrite (Forall_inv Hds). change (d :: ds ++ rest) with ((d :: ds) ++ rest).
    cbn [andb]. rewrite span_digits_app; [done..|]. by destruct rest; [|destruct Hr].
Qed.

Lemma scan_exp_shape exp rest : exp_shape exp → ends_number rest → scan_exp (exp ++ rest) = (exp, rest).
Proof.
  intros [->|(s & d & ds & -> & Hs & Hds)] Hr.
  - cbn [app]. destruct rest as [|c rest]; [done|]. destruct Hr as (_ & _ & H1 & H2). unfold scan_exp.
    by rewrite (proj2 (Z.eqb_neq c 101) H1), (proj2 (Z.eqb_neq c 69) H2).
  - cbn [app scan_exp]. change (101 =? 101) with true. cbn [orb].
    assert (Hsg : scan_exp_sign (s :: d :: ds ++ rest) = ([s], (d :: ds) ++ rest)).
    { cbn. by destruct Hs as [-> | ->]. }
    rewrite Hsg, span_digits_app; [done..|]. by destruct rest; [|destruct Hr].
Qed.

(** *** Printed integers *)

Lemma b2z_ascii a : b2z (byte_of_ascii a) = Z.of_N (N_of_ascii a).
Proof. by destruct a as [[] [] [] [] [] [] [] []]. Qed.

Lemma codes_chars s : codes s = (λ a, Z.of_N (N_of_ascii a)) <$> chars s.
Proof.
  unfold codes. change (String.list_byte_of_string s) with (byte_of_ascii <$> chars s).
  rewrite <- list_fmap_compose. apply list_fmap_ext. intros i a _. apply b2z_ascii.
Qed.

Lemma digit_code a : is_digit a → is_dig (Z.of_N (N_of_ascii a)) = true.
Proof.
  intros [d Hd]. unfold digit_val in Hd. case_match eqn:E; [|done].
  apply andb_true_iff in E as [E1%N.leb_le E2%N.leb_le]. apply dig_range. lia.
Qed.

(** The first digit of a positive number is not 0. *)
Lemma pretty_go_head x s :
  (0 < x)%N → ∃ a l, chars (pretty_N_go x s) = a :: l ++ chars s ∧
    49 <= Z.of_N (N_of_ascii a) <= 57 ∧ Forall is_digit l.
Proof.
  revert s. induction (N.lt_wf_0 x) as [x _ IH]. intros s Hx. rewrite pretty_N_go_step by done.
  pose proof (N.mod_lt x 10 ltac:(done)) as Hm. pose proof (N.div_mod x 10 ltac:(done)) as Hdm.
  destruct (N.eq_0_gt_0_cases (x `div` 10)) as [H0|H0].
  - rewrite H0, pretty_N_go_0. exists (pretty_N_char (x `mod` 10)), []. split; [done|]. split; [|constructor].
    assert (Hin : (x `mod` 10)%N ∈ [1; 2; 3; 4; 5; 6; 7; 8; 9]%N) by (rewrite !elem_of_cons; lia).
    repeat (apply elem_of_cons in Hin as [->|Hin]; [done|]). by apply elem_of_nil in Hin.
  - destruct (IH (x `div` 10)%N (N.div_lt x 10 Hx ltac:(done)) (String (pretty_N_char (x `mod` 10)) s) H0)
      as (a & l & Hl & Ha & Hds).
    exists a, (l ++ [pretty_N_char (x `mod` 10)]). rewrite Hl. split; [cbn; by rewrite <- app_assoc|].
    split; [done|]. apply Forall_app. split; [done|]. constructor; [|done]. eexists. by apply pretty_N_char_digit.
Qed.

Lemma pos_shape p : int_shape (codes (pretty (Npos p))).
Proof.
  unfold pretty, pretty_N. rewrite decide_False by done. destruct (pretty_go_head (Npos p) "" eq_refl) as (a & l & Hl & Ha & Hds).
  right. rewrite codes_chars, Hl. cbn [chars]. rewrite app_nil_r. do 2 eexists. split; [reflexivity|]. split; [done|].
  apply Forall_fmap. eapply Forall_impl; [exact Hds|]. intros b. apply digit_code.
Qed.

(** A printed integer: its sign and its digits *)
Lemma pretty_shape (z : Z) : ∃ sign int, codes (pretty z) = sign ++ int ∧ (sign = [] ∨ sign = [45]) ∧ int_shape int ∧
  (length int <= String.length (pretty z))%nat.
Proof.
  assert (Hlen : ∀ s, length (codes s) = String.length s)
    by (intros s; unfold codes; rewrite length_fmap; apply length_list_byte).
  destruct z as [|p|p].
  - exists [], [48]. split; [done|]. split; [auto|]. split; [by left|cbn; lia].
  - exists [], (codes (pretty (Npos p))). split; [done|]. split; [auto|]. split; [apply pos_shape|by rewrite Hlen].
  - exists [45], (codes (pretty (Npos p))).
    change (pretty (Zneg p)) with ("-" +:+ pretty (Npos p)). split; [by rewrite codes_app|]. split; [auto|].
    split; [apply pos_shape|]. rewrite Hlen. exact (Nat.le_succ_diag_r _).
Qed.

Lemma int_shape_ascii int : int_shape int → Forall is_ascii int ∧ ∃ c t, int = c :: t ∧ 48 <= c <= 57.
Proof.
  unfold is_ascii. intros [->|(c & ds & -> & Hc & Hds)].
  - split; [constructor; [lia|constructor]|]. exists 48, []. split; [done|lia].
  - split; [|exists c, ds; split; [done|lia]]. constructor; [lia|].
    eapply Forall_impl; [exact Hds|]. intros d Hd%dig_range. lia.
Qed.

Section roundtrip.
Context `{PyFloat}.

(** The scanner on a number of known parts *)
Lemma scan_number_parts sign int frac exp rest :
  (sign = [] ∨ sign = [45]) → int_shape int → frac_shape frac → exp_shape exp → ends_number rest →
  scan_number (sign ++ int ++ frac ++ exp ++ rest) =
  match frac ++ exp with
  | [] => if (INT_MAX_STR_DIGITS <? length int)%nat then Raise digits_error
          else match int_of_string (text_of (sign ++ int)) with
               | Some z => Ok (JInt z, rest) | None => Raise expecting_value end
  | _ => match float_of_text (text_of (sign ++ int ++ frac ++ exp)) with
         | Some q => Ok (JFloat q, rest) | None => Raise non_finite end
  end.
Proof.
  intros Hs Hi Hf He Hr. unfold scan_number.
  destruct (int_shape_ascii int Hi) as (_ & c & t & Hc & Hcr).
  assert (Hsign : scan_sign (sign ++ int ++ frac ++ exp ++ rest) = (sign, int ++ frac ++ exp ++ rest)).
  { destruct Hs as [-> | ->]; [|done]. rewrite Hc. cbn. by rewrite (proj2 (Z.eqb_neq c 45)) by lia. }
  assert (Hexp : match exp ++ rest with c :: _ => is_dig c = false ∧ c ≠ 46 | [] => True end).
  { destruct He as [->|(s & d & ds & -> & _)]; [|done]. destruct rest as [|c' rest]; [done|]. cbn. split; apply Hr. }
  rewrite Hsign, scan_int_shape; [|done|].
  - by rewrite scan_frac_shape, scan_exp_shape.
  - destruct Hf as [->|(d & ds & -> & _)]; [|done]. cbn. destruct (exp ++ rest); [done|apply Hexp].
Qed.

Lemma after_head c p c' l : c ≠ c' → after (c :: p) (c' :: l) = None.
Proof. intros Hc. cbn. by rewrite (proj2 (Z.eqb_neq c c')). Qed.

Lemma expect_head c c' l : c' ≠ c → expect c (c' :: l) = None.
Proof. intros Hc. cbn. by rewrite (proj2 (Z.eqb_neq c' c)). Qed.

(** What starts like a number is neither a string, a container nor a literal. *)
Lemma scan_atom_number c l : (c = 45 ∨ 48 <= c <= 57) → (c = 45 → match l with d :: _ => d ≠ 73 | [] => True end) →
  scan_atom (c :: l) = scan_number (c :: l).
Proof.
  intros Hc Hl. unfold scan_atom.
  change (codes "null") with [110; 117; 108; 108]. change (codes "true") with [116; 114; 117; 101].
  change (codes "false") with [102; 97; 108; 115; 101]. change (codes "NaN") with [78; 97; 78].
  change (codes "Infinity") with [73; 110; 102; 105; 110; 105; 116; 121].
  change (codes "-Infinity") with [45; 73; 110; 102; 105; 110; 105; 116; 121].
  rewrite !after_head by lia. destruct (decide (c = 45)) as [->|Hne]; [|by rewrite after_head by congruence].
  cbn [after]. rewrite Z.eqb_refl. specialize (Hl eq_refl). destruct l as [|d l]; [done|].
  by rewrite (proj2 (Z.eqb_neq 73 d)) by congruence.
Qed.

Lemma scan_once_atom n c l : c ≠ 34 → c ≠ 123 → c ≠ 91 → scan_once n (c :: l) = scan_atom (c :: l).
Proof. intros H1 H2 H3. destruct n; cbn [scan_once]; by rewrite !expect_head. Qed.

Lemma scan_once_number n sign int l :
  (sign = [] ∨ sign = [45]) → int_shape int → scan_once n (sign ++ int ++ l) = scan_number (sign ++ int ++ l).
Proof.
  intros Hs Hi. destruct (int_shape_ascii int Hi) as (_ & c & t & -> & Hc).
  destruct Hs as [-> | ->]; cbn [app]; rewrite scan_once_atom by lia; apply scan_atom_number; lia.
Qed.

Lemma scan_once_int n z rest :
  (String.length (pretty z) <= INT_MAX_STR_DIGITS)%nat → ends_number rest →
  scan_once n (codes (pretty z) ++ rest) = Ok (JInt z, rest).
Proof.
  intros Hlen Hr. destruct (pretty_shape z) as (sign & int & Hz & Hs & Hi & Hl).
  assert (Ht : text_of (sign ++ int) = pretty z).
  { rewrite <- Hz. apply text_of_codes. rewrite Hz. apply Forall_app. split; [|by apply int_shape_ascii].
    destruct Hs as [-> | ->]; [done|]. by repeat constructor. }
  rewrite Hz, <- app_assoc, scan_once_number by done.
  pose proof (scan_number_parts sign int [] [] rest Hs Hi (or_introl eq_refl) (or_introl eq_refl) Hr) as Hp.
  cbn [app] in Hp. rewrite Hp.
  rewrite (proj2 (Nat.ltb_ge _ _)) by lia. by rewrite Ht, int_of_string_pretty.
Qed.

(** ** Values *)

(** What Python keeps of a dict written with repeated keys: the place of the
    first, the value of the last *)
Fixpoint canon (v : json) : json :=
  match v with
  | JList l => JList (List.map canon l)
  | JObj d => JObj (List.fold_left (λ acc kx, set_key kx.1 kx.2 acc) (List.map (λ '(k, x), (k, canon x)) d) [])
  | _ => v
  end.

Fixpoint depth (v : json) : nat :=
  match v with
  | JList l => S (List.fold_right (λ x n, Nat.max (depth x) n) 0%nat l)
  | JObj d => S (List.fold_right (λ '(_, x) n, Nat.max (depth x) n) 0%nat d)
  | _ => 0
  end.
End roundtrip.

(** What is documented of floats: their text is a float literal, and reads back
    as the same float. *)
Class FloatLaws `{PyFloat} := {
  is_float : Qc → Prop;
  repr_shape : ∀ q, is_float q → ∃ sign int frac exp, codes (float_repr q) = sign ++ int ++ frac ++ exp ∧
    frac ++ exp ≠ [] ∧ (sign = [] ∨ sign = [45]) ∧ int_shape int ∧ frac_shape frac ∧ exp_shape exp;
  repr_back : ∀ q, is_float q → float_of_text (float_repr q) = Some q
}.

Section values.
Context `{FloatLaws}.

(** A value whose texts are proper and whose numbers are within the limits *)
Fixpoint dumpable (v : json) : Prop :=
  match v with
  | JInt z => (String.length (pretty z) <= INT_MAX_STR_DIGITS)%nat
  | JFloat q => is_float q
  | JStr s => proper_text s
  | JList l => List.fold_right (λ x P, dumpable x ∧ P) True l
  | JObj d => List.fold_right (λ '(k, x) P, (proper_text k ∧ dumpable x) ∧ P) True d
  | _ => True
  end.

Lemma parts_ascii sign int frac exp :
  (sign = [] ∨ sign = [45]) → int_shape int → frac_shape frac → exp_shape exp →
  Forall (λ c, 32 < c < 127) (sign ++ int ++ frac ++ exp).
Proof.
  assert (Hdig : ∀ ds, digits ds → Forall (λ c, 32 < c < 127) ds).
  { intros ds Hds. eapply Forall_impl; [exact Hds|]. intros c Hc%dig_range. lia. }
  intros Hs Hi Hf He. repeat (apply Forall_app; split).
  - destruct Hs as [-> | ->]; [done|]. constructor; [lia|done].
  - destruct Hi as [->|(c & ds & -> & Hc & Hds)]; constructor; [lia|done|lia|auto].
  - destruct Hf as [->|(d & ds & -> & Hds)]; [done|]. constructor; [lia|auto].
  - destruct He as [->|(s & d & ds & -> & Hs' & Hds)]; [done|]. constructor; [lia|]. constructor; [lia|auto].
Qed.

Lemma scan_once_float n q rest :
  is_float q → ends_number rest → scan_once n (codes (float_repr q) ++ rest) = Ok (JFloat q, rest).
Proof.
  intros Hq Hr. destruct (repr_shape q Hq) as (sign & int & frac & exp & Hz & Hne & Hs & Hi & Hf & He).
  assert (Ht : text_of (sign ++ int ++ frac ++ exp) = float_repr q).
  { rewrite <- Hz. apply text_of_codes. rewrite Hz. eapply Forall_impl; [by apply parts_ascii|]. unfold is_ascii. lia. }
  rewrite Hz, <- !app_assoc, scan_once_number by done. rewrite scan_number_parts by done. rewrite Ht, repr_back by done.
  by destruct (frac ++ exp).
Qed.

(** *** White space and separators *)

Lemma skip_ws_app w l : Forall (λ c, is_ws c = true) w → skip_ws (w ++ l) = skip_ws l.
Proof. unfold skip_ws. induction 1 as [|c w Hc _ IH]; [done|]. cbn. by rewrite Hc. Qed.

Lemma skip_ws_head c l : is_ws c = false → skip_ws (c :: l) = c :: l.
Proof. unfold skip_ws. cbn. by intros ->. Qed.

Lemma newline_indent_ws indent level : Forall (λ c, is_ws c = true) (newline_indent indent level).
Proof.
  destruct indent as [k|]; [|done]. constructor; [done|]. apply Forall_forall. intros c Hc%list_elem_of_In.
  by apply repeat_spec in Hc as ->.
Qed.

(** After an element comes a separator or the end of the line. *)
Lemma newline_ends indent level c l : (c = 93 ∨ c = 125) → ends_number (newline_indent indent level ++ c :: l).
Proof. destruct indent; cbn; [done|]. intros [-> | ->]; done. Qed.

Lemma separator_parts indent level : ∃ w, item_separator indent level = 44 :: w ∧ Forall (λ c, is_ws c = true) w.
Proof. destruct indent as [k|]; eexists; (split; [reflexivity|]); [apply newline_indent_ws|by repeat constructor]. Qed.

(** A written value starts with a character that is no white space and closes
    nothing. *)
Definition starts (l : list Z) : Prop := ∃ c t, l = c :: t ∧ is_ws c = false ∧ c ≠ 93 ∧ c ≠ 125.

Lemma range_starts c t : 48 <= c <= 57 ∨ c = 45 → starts (c :: t).
Proof.
  intros Hc. exists c, t. split; [done|]. unfold is_ws. repeat (rewrite (proj2 (Z.eqb_neq c _)) by lia). split; [done|lia].
Qed.

Lemma number_starts sign int l : (sign = [] ∨ sign = [45]) → int_shape int → starts (sign ++ int ++ l).
Proof.
  intros Hs (_ & c & t & -> & Hc)%int_shape_ascii. destruct Hs as [-> | ->]; apply range_starts; auto.
Qed.

Lemma dump_starts indent level v : dumpable v → starts (dump_value indent level v).
Proof.
  destruct v as [|[]|z|q|s|l|d]; cbn [dump_value]; intros Hv; try (by do 2 eexists).
  - destruct (pretty_shape z) as (sign & int & -> & Hs & Hi & _). rewrite <- (app_nil_r int). by apply number_starts.
  - destruct (repr_shape q Hv) as (sign & int & frac & exp & -> & _ & Hs & Hi & _). by apply number_starts.
  - unfold bracketed. destruct (List.map _ l); by do 2 eexists.
  - unfold bracketed. destruct (List.map _ d); by do 2 eexists.
Qed.

Lemma starts_skip l r : starts l → skip_ws (l ++ r) = l ++ r.
Proof. intros (c & t & -> & Hc & _). by apply skip_ws_head. Qed.

(** *** The loops *)

Section loops.
Variables (scan : list Z → res (json * list Z)) (indent : option nat) (level outer : nat).

(** Reading back one value, whatever follows *)
Definition reads (v : json) : Prop :=
  starts (dump_value indent level v) ∧
  ∀ rest, ends_number rest → scan (dump_value indent level v ++ rest) = Ok (canon v, rest).

Lemma scan_elements_dump items fuel acc rest :
  items ≠ [] → Forall reads items → (length items <= fuel)%nat →
  scan_elements scan fuel acc
    (join_codes (item_separator indent level) (List.map (dump_value indent level) items) ++
     newline_indent indent outer ++ 93 :: rest) = Ok (rev acc ++ List.map canon items, rest).
Proof.
  revert fuel acc. induction items as [|v items IH]; intros fuel acc Hne Hall Hfuel; [done|].
  apply Forall_cons in Hall as [[_ Hv] Hall]. destruct fuel as [|fuel]; [cbn in Hfuel; lia|]. cbn [scan_elements].
  destruct items as [|v' items].
  - cbn [List.map join_codes]. rewrite Hv by (apply newline_ends; auto). rewrite ret_bind. cbn [fst snd].
    by rewrite skip_ws_app by apply newline_indent_ws.
  - destruct (separator_parts indent level) as (w & Hsep & Hw).
    change (join_codes ?sep (List.map ?f (v :: v' :: items))) with (f v ++ sep ++ join_codes sep (List.map f (v' :: items))).
    rewrite <- !app_assoc. rewrite Hsep at 1. rewrite Hv by done. rewrite ret_bind. cbn [fst snd app]. rewrite skip_ws_head by done. cbn [expect Z.eqb Pos.eqb].
    rewrite skip_ws_app by done.
    assert (Hs : starts (join_codes (item_separator indent level) (List.map (dump_value indent level) (v' :: items)))).
    { apply Forall_cons in Hall as [[(c & t & Hc & Hr) _] _]. cbn [List.map]. rewrite Hc.
      destruct (List.map (dump_value indent level) items); do 2 eexists; (split; [reflexivity|done]). }
    rewrite (starts_skip _ _ Hs), IH by first [done|cbn [length] in *; lia]. cbn [rev]. by rewrite <- app_assoc.
Qed.

Definition member_codes (kx : string * json) : list Z :=
  encode_string kx.1 ++ [58; 32] ++ dump_value indent level kx.2.

Definition insert_all (d acc : dict) : dict := List.fold_left (λ acc kx, set_key kx.1 kx.2 acc) d acc.

(** One member is read back. *)
Lemma scan_member k rest :
  proper_text k → scanstring (escape_chars (code_points k) ++ 34 :: rest) = Ok (code_points k, rest) ∧
    text_of (code_points k) = k.
Proof. intros [Hk Hs]%text_of_code_points. split; [by apply scanstring_chars|done]. Qed.

Lemma scan_members_dump d fuel acc rest :
  d ≠ [] → Forall (λ kx, proper_text kx.1 ∧ reads kx.2) d → (length d <= fuel)%nat →
  scan_members scan fuel acc
    (join_codes (item_separator indent level) (List.map member_codes d) ++
     newline_indent indent outer ++ 125 :: rest) =
  Ok (insert_all (List.map (λ '(k, x), (k, canon x)) d) acc, rest).
Proof.
  revert fuel acc. induction d as [|[k x] d IH]; intros fuel acc Hne Hall Hfuel; [done|].
  apply Forall_cons in Hall as [[Hk [Hst Hx]] Hall]. cbn [fst snd] in Hk, Hst, Hx.
  destruct fuel as [|fuel]; [cbn in Hfuel; lia|]. cbn [scan_members].
  set (tail := match d with [] => newline_indent indent outer ++ 125 :: rest
    | _ => item_separator indent level ++ join_codes (item_separator indent level) (List.map member_codes d) ++
           newline_indent indent outer ++ 125 :: rest end).
  assert (Hl : join_codes (item_separator indent level) (List.map member_codes ((k, x) :: d)) ++
     newline_indent indent outer ++ 125 :: rest =
    34 :: escape_chars (code_points k) ++ 34 :: 58 :: 32 :: dump_value indent level x ++ tail).
  { subst tail. destruct d as [|kx d].
    - cbn [List.map join_codes]. unfold member_codes, encode_string. cbn. by rewrite <- !app_assoc.
    - change (join_codes ?sep (List.map ?f (?v :: kx :: d))) with (f v ++ sep ++ join_codes sep (List.map f (kx :: d))).
      unfold member_codes at 1, encode_string. cbn [fst snd app]. by rewrite <- !app_assoc. }
  rewrite Hl. cbn [expect Z.eqb Pos.eqb]. destruct (scan_member k (58 :: 32 :: dump_value indent level x ++ tail) Hk) as [Hscan Htext].
  rewrite Hscan, ret_bind. cbn [fst snd]. rewrite skip_ws_head by done. cbn [expect Z.eqb Pos.eqb].
  change (32 :: ?l) with ([32] ++ l) at 1. rewrite skip_ws_app by (by repeat constructor). rewrite starts_skip by done.
  rewrite Hx, ret_bind, Htext; [|subst tail; destruct d; [apply newline_ends; auto|by destruct indent]].
  cbn [fst snd]. subst tail. destruct d as [|kx d].
  - by rewrite skip_ws_app by apply newline_indent_ws.
  - destruct (separator_parts indent level) as (w & Hsep & Hw).
    assert (Hsk : ∀ l, skip_ws (item_separator indent level ++ l) = 44 :: w ++ l) by (intros l; by rewrite Hsep).
    rewrite Hsk. cbn [expect Z.eqb Pos.eqb]. rewrite skip_ws_app by done.
    assert (Hs : starts (join_codes (item_separator indent level) (List.map member_codes (kx :: d)))).
    { cbn [List.map]. destruct (List.map member_codes d); do 2 eexists; (split; [reflexivity|done]). }
    rewrite (starts_skip _ _ Hs), IH by first [done|cbn [length] in *; lia]. done.
Qed.
End loops.

(** *** Reading back *)

Lemma dumpable_list l : dumpable (JList l) ↔ Forall dumpable l.
Proof. cbn. induction l as [|x l IH]; cbn; [split; [constructor|done]|]. by rewrite IH, Forall_cons. Qed.

Lemma dumpable_obj d : dumpable (JObj d) ↔ Forall (λ kx, proper_text kx.1 ∧ dumpable kx.2) d.
Proof. cbn. induction d as [|[k x] d IH]; cbn; [split; [constructor|done]|]. by rewrite IH, Forall_cons. Qed.

Lemma depth_list l n : (depth (JList l) <= S n)%nat → Forall (λ x, (depth x <= n)%nat) l.
Proof.
  cbn. intros Hl%le_S_n. induction l as [|x l IH]; [constructor|]. cbn in Hl. constructor; [lia|]. apply IH. lia.
Qed.

Lemma depth_obj d n : (depth (JObj d) <= S n)%nat → Forall (λ kx, (depth kx.2 <= n)%nat) d.
Proof.
  cbn. intros Hl%le_S_n. induction d as [|[k x] d IH]; [constructor|]. cbn in Hl. constructor; [cbn; lia|]. apply IH. lia.
Qed.

Lemma join_codes_length sep ls : Forall starts ls → (length ls <= length (join_codes sep ls))%nat.
Proof.
  induction 1 as [|l ls (c & t & -> & _) _ IH]; [done|]. destruct ls as [|l' ls]; [cbn; lia|].
  change (join_codes sep ((c :: t) :: l' :: ls)) with ((c :: t) ++ sep ++ join_codes sep (l' :: ls)).
  rewrite !length_app. cbn [length] in *. lia.
Qed.

Lemma join_codes_starts sep l ls : starts l → starts (join_codes sep (l :: ls)).
Proof. intros (c & t & -> & Hc). destruct ls; do 2 eexists; (split; [reflexivity|done]). Qed.

(** The loop of a container, entered behind its opening bracket *)
Lemma container_entry close ls indent outer level rest :
  ls ≠ [] → Forall starts ls → (close = 93 ∨ close = 125) →
  let body := join_codes (item_separator indent level) ls ++ newline_indent indent outer ++ close :: rest in
  skip_ws (newline_indent indent level ++ body) = body ∧ expect close body = None ∧ (length ls <= S (length body))%nat.
Proof.
  intros Hne Hall Hclose body. destruct ls as [|l ls]; [done|]. pose proof (Forall_inv Hall) as Hl. subst body.
  destruct (join_codes_starts (item_separator indent level) l ls Hl) as (c & t & Hc & Hw & H93 & H125).
  split; [|split].
  - rewrite skip_ws_app by apply newline_indent_ws. apply starts_skip. by apply join_codes_starts.
  - rewrite Hc. apply expect_head. destruct Hclose as [-> | ->]; done.
  - rewrite length_app. pose proof (join_codes_length (item_separator indent level) (l :: ls) Hall). lia.
Qed.

Lemma bracketed_app open close indent level ls rest :
  ls ≠ [] → bracketed open close indent level ls ++ rest =
  open :: newline_indent indent (S level) ++ join_codes (item_separator indent (S level)) ls ++
  newline_indent indent level ++ close :: rest.
Proof. intros Hne. unfold bracketed. destruct ls; [done|]. cbn. by rewrite <- !app_assoc. Qed.

Lemma scan_once_dump v : ∀ n indent level, dumpable v → (depth v <= n)%nat →
  ∀ rest, ends_number rest → scan_once n (dump_value indent level v ++ rest) = Ok (canon v, rest).
Proof.
  induction v as [|b|z|q|s|l IH|d IH] using json_ind; intros n indent level Hv Hd rest Hr.
  - by destruct n.
  - by destruct b, n.
  - by apply scan_once_int.
  - by apply scan_once_float.
  - cbn [dump_value]. unfold encode_string. cbn [app]. rewrite <- app_assoc. cbn [app].
    destruct (text_of_code_points s Hv) as [Ht Hs].
    destruct n; cbn [scan_once expect Z.eqb Pos.eqb]; rewrite scanstring_chars, ret_bind by done; cbn [fst snd]; by rewrite Ht.
  - destruct n as [|n]; [cbn in Hd; lia|]. apply depth_list in Hd. apply dumpable_list in Hv.
    cbn [dump_value]. destruct (decide (l = [])) as [->|Hne]; [done|].
    assert (Hmap : List.map (dump_value indent (S level)) l ≠ []) by (by destruct l).
    rewrite bracketed_app by done. cbn [scan_once expect Z.eqb Pos.eqb]. unfold scan_array.
    assert (Hreads : Forall (reads (scan_once n) indent (S level)) l).
    { apply Forall_forall. intros x Hx. rewrite Forall_forall in IH, Hv, Hd. split; [by apply dump_starts, Hv|].
      apply IH; auto. }
    destruct (container_entry 93 (List.map (dump_value indent (S level)) l) indent level (S level) rest Hmap) as (-> & -> & Hlen).
    { apply Forall_forall. intros y (x & <- & Hx)%list_elem_of_In%in_map_iff. apply dump_starts.
      rewrite Forall_forall in Hv. by apply Hv, list_elem_of_In. }
    { by left. }
    rewrite length_map in Hlen. by rewrite scan_elements_dump.
  - destruct n as [|n]; [cbn in Hd; lia|]. apply depth_obj in Hd. apply dumpable_obj in Hv.
    cbn [dump_value]. destruct (decide (d = [])) as [->|Hne]; [done|].
    replace (List.map _ d) with (List.map (member_codes indent (S level)) d) by (apply map_ext; by intros []).
    assert (Hmap : List.map (member_codes indent (S level)) d ≠ []) by (by destruct d).
    rewrite bracketed_app by done. cbn [scan_once expect Z.eqb Pos.eqb]. unfold scan_object.
    assert (Hreads : Forall (λ kx, proper_text kx.1 ∧ reads (scan_once n) indent (S level) kx.2) d).
    { apply Forall_forall. intros x Hx. rewrite Forall_forall in IH, Hv, Hd. split; [by apply Hv|].
      split; [by apply dump_starts, Hv|]. apply IH; [done|by apply Hv|auto]. }
    destruct (container_entry 125 (List.map (member_codes indent (S level)) d) indent level (S level) rest Hmap) as (-> & -> & Hlen).
    { apply Forall_forall. intros y (x & <- & _)%list_elem_of_In%in_map_iff. by do 2 eexists. }
    { by right. }
    rewrite length_map in Hlen. by rewrite scan_members_dump.
Qed.

(** *** Written text is printable *)

Definition printable (c : Z) : Prop := 32 <= c <= 126.

(** Printable, or a line break of an indented text *)
Definition writes (indent : option nat) (c : Z) : Prop := printable c ∨ is_Some indent ∧ c = 10.

Lemma u_escape_printable c : 0 <= c < 0x10000 → Forall printable (u_escape c).
Proof.
  intros Hc. assert (Hh : ∀ d, 0 <= d < 16 → printable (hex_digit d)).
  { intros d Hd. unfold printable, hex_digit. destruct (Z.ltb_spec d 10); lia. }
  assert (Hb : 0 <= c / 4096 < 16) by (split; [apply Z.div_pos; lia|apply Z.div_lt_upper_bound; lia]).
  unfold u_escape. repeat constructor; try (unfold printable; lia); apply Hh; try done; apply Z.mod_pos_bound; lia.
Qed.

Lemma escape_char_printable c : is_scalar c → Forall printable (escape_char c).
Proof.
  intros Hc. assert (Hr : 0 <= c < 0x110000) by (unfold is_scalar in Hc; lia). unfold escape_char.
  repeat (case_match; [by repeat constructor|]).
  destruct ((32 <=? c) && (c <=? 126)) eqn:Hp.
  { apply andb_true_iff in Hp as [?%Z.leb_le ?%Z.leb_le]. by repeat constructor. }
  destruct (Z.ltb_spec c 0x10000); [apply u_escape_printable; lia|].
  pose proof (Z.div_mod (c - 0x10000) 1024 ltac:(lia)). pose proof (Z.mod_pos_bound (c - 0x10000) 1024 ltac:(lia)).
  apply Forall_app. split; apply u_escape_printable; lia.
Qed.

Lemma encode_string_printable s : proper_text s → Forall printable (encode_string s).
Proof.
  intros [_ Hs]%text_of_code_points. constructor; [unfold printable; lia|]. apply Forall_app.
  split; [|by repeat constructor]. induction Hs as [|c cs Hc _ IH]; [constructor|]. cbn.
  apply Forall_app. split; [by apply escape_char_printable|done].
Qed.

Lemma printable_writes indent l : Forall printable l → Forall (writes indent) l.
Proof. intros Hl. eapply Forall_impl; [exact Hl|]. by left. Qed.

Lemma newline_writes indent level : Forall (writes indent) (newline_indent indent level).
Proof.
  destruct indent as [k|]; [|constructor]. constructor; [right; eauto|]. apply Forall_forall.
  intros c ->%list_elem_of_In%repeat_spec. by left.
Qed.

Lemma separator_writes indent level : Forall (writes indent) (item_separator indent level).
Proof.
  destruct indent as [k|]; [constructor; [by left|apply newline_writes]|]. apply printable_writes. by repeat constructor.
Qed.

Lemma join_codes_writes indent sep ls :
  Forall (writes indent) sep → Forall (Forall (writes indent)) ls → Forall (writes indent) (join_codes sep ls).
Proof.
  intros Hsep. induction 1 as [|l ls Hl _ IH]; [constructor|]. destruct ls as [|l' ls]; [done|].
  change (Forall (writes indent) (l ++ sep ++ join_codes sep (l' :: ls))). by repeat (apply Forall_app; split).
Qed.

Lemma bracketed_writes open close indent level ls :
  printable open → printable close → Forall (Forall (writes indent)) ls →
  Forall (writes indent) (bracketed open close indent level ls).
Proof.
  intros Ho Hc Hls. unfold bracketed. destruct ls as [|l ls]; [constructor; [by left|constructor; [by left|done]]|].
  constructor; [by left|]. apply Forall_app. split; [apply newline_writes|]. apply Forall_app.
  split; [apply join_codes_writes; [apply separator_writes|done]|]. apply Forall_app.
  split; [apply newline_writes|]. constructor; [by left|done].
Qed.

Lemma dump_writes v : ∀ indent level, dumpable v → Forall (writes indent) (dump_value indent level v).
Proof.
  assert (Hnum : ∀ indent sign int frac exp, (sign = [] ∨ sign = [45]) → int_shape int → frac_shape frac → exp_shape exp →
    Forall (writes indent) (sign ++ int ++ frac ++ exp)).
  { intros. apply printable_writes. eapply Forall_impl; [by apply parts_ascii|]. unfold printable. lia. }
  induction v as [|b|z|q|s|l IH|d IH] using json_ind; intros indent level Hv; cbn [dump_value].
  - apply printable_writes. by repeat constructor.
  - apply printable_writes. destruct b; by repeat constructor.
  - destruct (pretty_shape z) as (sign & int & -> & Hs & Hi & _). rewrite <- (app_nil_r int).
    apply (Hnum indent sign int [] []); try done; by left.
  - destruct (repr_shape q Hv) as (sign & int & frac & exp & -> & _ & Hs & Hi & Hf & He). by apply Hnum.
  - by apply printable_writes, encode_string_printable.
  - apply dumpable_list in Hv. apply bracketed_writes; [unfold printable; lia..|].
    apply Forall_map, Forall_forall. intros x Hx.
    exact (proj1 (Forall_forall _ _) IH x Hx indent (S level) (proj1 (Forall_forall _ _) Hv x Hx)).
  - apply dumpable_obj in Hv. apply bracketed_writes; [unfold printable; lia..|].
    apply Forall_map, Forall_forall. intros [k x] Hx. destruct (proj1 (Forall_forall _ _) Hv _ Hx) as [Hk Hx'].
    apply Forall_app. split; [by apply printable_writes, encode_string_printable|].
    apply Forall_app. split; [by apply printable_writes; repeat constructor|].
    exact (proj1 (Forall_forall _ _) IH _ Hx indent (S level) Hx').
Qed.

Lemma dump_cps indent level v : dumpable v → Forall is_ascii (dump_value indent level v).
Proof.
  intros Hv. eapply Forall_impl; [by apply dump_writes|]. unfold writes, printable, is_ascii.
  intros c [?|[_ ->]]; lia.
Qed.

Lemma code_points_dumps indent v : dumpable v → code_points (dumps indent v) = dump_value indent 0 v.
Proof.
  intros Hv. apply code_points_text_of. eapply Forall_impl; [by apply dump_cps|]. unfold is_ascii, is_cp. lia.
Qed.

(** ** The theorems *)

(** No dict holds a key twice. *)
Fixpoint distinct (v : json) : Prop :=
  match v with
  | JList l => List.fold_right (λ x P, distinct x ∧ P) True l
  | JObj d => NoDup d.*1 ∧ List.fold_right (λ '(_, x) P, distinct x ∧ P) True d
  | _ => True
  end.

Lemma set_key_new k x d : k ∉ d.*1 → set_key k x d = d ++ [(k, x)].
Proof.
  induction d as [|[k' x'] d IH]; [done|]. cbn. rewrite not_elem_of_cons. intros [Hne Hn].
  rewrite (proj2 (String.eqb_neq k' k)) by congruence. by rewrite IH.
Qed.

Lemma insert_all_distinct d acc : NoDup (acc ++ d).*1 → insert_all d acc = acc ++ d.
Proof.
  revert acc. induction d as [|[k x] d IH]; intros acc Hnd; [by rewrite app_nil_r|].
  cbn. rewrite set_key_new.
  - rewrite IH; rewrite <- app_assoc; done.
  - rewrite fmap_app, fmap_cons in Hnd. apply NoDup_app in Hnd as (_ & Hn & _).
    intros Hk. apply (Hn k Hk). by left.
Qed.

Lemma canon_distinct v : distinct v → canon v = v.
Proof.
  induction v as [| | | | |l IH|d IH] using json_ind; try done; cbn.
  - intros Hd. f_equal. induction IH as [|x l Hx _ IHl]; [done|]. cbn in *. destruct Hd as [? ?]. f_equal; auto.
  - intros [Hnd Hd]. assert (Hm : List.map (λ '(k, x), (k, canon x)) d = d).
    { clear Hnd. induction IH as [|[k x] d Hx _ IHd]; [done|]. cbn in *. destruct Hd as [? ?]. rewrite Hx, IHd by done. done. }
    rewrite Hm. f_equal. exact (insert_all_distinct d [] Hnd).
Qed.

(** A test for values without floats *)
Definition properb (s : string) : bool :=
  let l := String.list_byte_of_string s in bool_decide (utf8_replace l = l).

Lemma properb_ok s : properb s = true → proper_text s.
Proof. intros Hs%bool_decide_eq_true. unfold proper_text. rewrite <- Hs. apply utf8_replace_is_valid. Qed.

Fixpoint plain (v : json) : bool :=
  match v with
  | JInt z => (String.length (pretty z) <=? INT_MAX_STR_DIGITS)%nat
  | JFloat _ => false
  | JStr s => properb s
  | JList l => forallb plain l
  | JObj d => bool_decide (NoDup d.*1) && forallb (λ '(k, x), properb k && plain x) d
  | _ => true
  end.

Lemma plain_ok v : plain v = true → dumpable v ∧ distinct v.
Proof.
  induction v as [| |z| |s|l IH|d IH] using json_ind; try done; cbn.
  - by intros ?%Nat.leb_le.
  - by intros ?%properb_ok.
  - intros Hl. induction IH as [|x l Hx _ IHl]; [done|]. cbn in *. apply andb_true_iff in Hl as [? ?].
    destruct Hx, IHl; auto.
  - intros [Hnd Hd]%andb_true_iff. apply bool_decide_eq_true in Hnd.
    assert (Hall : dumpable (JObj d) ∧ List.fold_right (λ '(_, x) P, distinct x ∧ P) True d); [|by destruct Hall].
    clear Hnd. induction IH as [|[k x] d Hx _ IHd]; [done|]. cbn in *.
    apply andb_true_iff in Hd as [[?%properb_ok ?]%andb_true_iff ?]. destruct Hx, IHd; auto.
Qed.

(** A value that can be sent: [json.dumps] writes it and [json.loads] reads it *)
Definition sendable (v : json) : Prop := dumpable v ∧ (depth v <= recursion_limit)%nat.

(** What [json.dumps] writes, [json.loads] reads back, with or without
    indentation and white space after it. *)
Lemma loads_written indent v w :
  sendable v → Forall (λ c, is_ws c = true) w → loads (text_of (dump_value indent 0 v ++ w)) = Ok (canon v).
Proof.
  intros [Hv Hd] Hw. pose proof (dump_cps indent 0 v Hv) as Ha. unfold loads. rewrite code_points_text_of.
  2: { apply Forall_app. split; (eapply Forall_impl; [eassumption|]); unfold is_ascii, is_cp; [lia|].
       intros c Hc. unfold is_ws in Hc. rewrite !orb_true_iff, !Z.eqb_eq in Hc. lia. }
  destruct (dump_starts indent 0 v Hv) as (c & t & Hc & Hws & _).
  assert (Hb : c ≠ 0xFEFF). { intros ->. rewrite Hc in Ha. apply Forall_inv in Ha. unfold is_ascii in Ha. lia. }
  rewrite Hc. change ((c :: t) ++ w) with (c :: t ++ w). rewrite expect_head by done.
  unfold decode. rewrite skip_ws_head by done. change (c :: t ++ w) with ((c :: t) ++ w). rewrite <- Hc.
  rewrite scan_once_dump; [|done..|].
  - rewrite ret_bind. cbn [snd]. rewrite <- (app_nil_r w), skip_ws_app by done. done.
  - destruct Hw as [|c' w' Hc' _]; [done|]. unfold is_ws in Hc'. rewrite !orb_true_iff, !Z.eqb_eq in Hc'. cbn. unfold is_dig.
    destruct Hc' as [[[-> | ->] | ->] | ->]; done.
Qed.

(** Every value that can be sent comes back as it was, up to repeated keys of a
    dict, of which a Python dict has none. *)
Lemma json_roundtrip indent v :
  sendable v → loads (dumps indent v) = Ok (canon v) ∧ (distinct v → canon v = v).
Proof.
  intros Hv. split; [|apply canon_distinct]. unfold dumps. rewrite <- (app_nil_r (dump_value _ _ _)).
  by apply loads_written.
Qed.
End values.

(** Reading a text ends: within the recursion limit, the bounds of the
    scanner's loops are enough for every text, so that [json.loads] returns a
    value or raises one of Python's errors. *)
Lemma loads_terminates `{PyFloat} s :
  (∃ v, loads s = Ok v) ∨ ∃ e, loads s = Raise e ∧ e ≠ out_of_fuel.
Proof.
  pose proof (loads_fuel s) as Hf. destruct (loads s) as [v|e]; [left; eauto|right]. exists e. split; [done|congruence].
Qed.

(** *** A concrete float *)

Section some_floats.
Local Open Scope string_scope.

(** Three floats with the texts [repr] gives them *)
Definition some_floats : list (string * Qc) := [("0.5", Q2Qc (QArith_base.Qmake 1 2)); ("-2.25", Q2Qc (QArith_base.Qmake (-9) 4)); ("1e+22", Q2Qc (QArith_base.inject_Z (10 ^ 22)))].

Definition some_py_float : PyFloat := {|
  float_of_text s := snd <$> List.find (λ e, String.eqb e.1 s) some_floats;
  float_repr q := default "" (fst <$> List.find (λ e, bool_decide (e.2 = q)) some_floats);
  recursion_limit := 1000
|}.
#[local] Existing Instance some_py_float.

Definition some_float_laws : @FloatLaws some_py_float.
Proof.
  unshelve eapply Build_FloatLaws; [exact (λ q, q ∈ (some_floats.*2 : list Qc))|..].
  - intros q Hq. cbn [some_floats fmap list_fmap snd] in Hq. rewrite !elem_of_cons in Hq. destruct Hq as [-> | [-> | [-> | Hq]]].
    + exists [], [48], [46; 53], []. split; [by vm_compute|]. split; [done|]. split; [by left|]. split; [by left|].
      split; [right; exists 53, []; split; [done|by repeat constructor]|by left].
    + exists [45], [50], [46; 50; 53], []. split; [by vm_compute|]. split; [done|]. split; [by right|].
      split; [right; exists 50, []; split; [done|split; [lia|constructor]]|].
      split; [right; exists 50, [53]; split; [done|by repeat constructor]|by left].
    + exists [], [49], [], [101; 43; 50; 50]. split; [by vm_compute|]. split; [done|]. split; [by left|].
      split; [right; exists 49, []; split; [done|split; [lia|constructor]]|]. split; [by left|]. right.
      exists 43, 50, [50]. split; [done|]. split; [by left|by repeat constructor].
    + by apply not_elem_of_nil in Hq.
  - intros q Hq. cbn [some_floats fmap list_fmap snd] in Hq. rewrite !elem_of_cons in Hq.
    destruct Hq as [-> | [-> | [-> | Hq]]]; [by vm_compute..|by apply not_elem_of_nil in Hq].
Defined.
End some_floats.
