(* ===== verification/Jwks.v ===== *)
(** The JWKS cache of [agent/ita_verifier.py]: [_fetch_jwks], [get_jwks] and
    the forced refresh, and what the cache may hold. *)

From S2P Require Import Prelude PyText PyValue Policy World.

Open Scope Z_scope.

Definition ITA_JWKS_URL : string := "https://portal.trustauthority.intel.com/certs".

(** 24 hours, in nanoseconds *)
Definition _JWKS_TTL : Z := 86400 * 10 ^ 9.

(** The cached key set may be served at time [now]. *)
Definition is_fresh (c : jwks_cache) (now : Z) : bool :=
  match cache_data c with
  | Some _ => now - cache_ts c <=? _JWKS_TTL
  | None => false
  end.

Section jwks.
Context `{Host}.

(** The body and the count of its keys, which is logged. *)
Definition _fetch_jwks (url : string) : ST world exn json :=
  data ← http_get url;
  keys ← lift (py_get data "keys" (JList []));
  lift (py_len keys);;
  mret data.

Definition cached_data (c : jwks_cache) : json :=
  match cache_data c with Some d => d | None => JNull end.

Definition get_jwks : ST world exn json :=
  now ← time_time;
  c ← get_cache;
  if is_fresh c now then mret (cached_data c)
  else
    (* with _JWKS_LOCK *)
    c ← get_cache;
    if negb (is_fresh c now) then
      data ← _fetch_jwks ITA_JWKS_URL;
      set_cache (JwksCache (Some data) now);;
      mret data
    else mret (cached_data c).

(** [_JWKS_CACHE["timestamp"] = 0] *)
Definition expire_jwks : ST world exn unit :=
  c ← get_cache; set_cache (JwksCache (cache_data c) 0).

(** ** Sequential behaviour *)

(** What one call of [get_jwks] did, from the world before it. *)
Inductive jwks_outcome (w : world) : res json → world → Prop :=
| jwks_cached d :
    cache_data (w_jwks w) = Some d →
    clock (w_tick w) - cache_ts (w_jwks w) <= _JWKS_TTL →
    jwks_outcome w (Ok d) (World (S (w_tick w)) (w_jwks w) (w_log w ++ [ReadClock (clock (w_tick w))]))
| jwks_fetched d :
    is_fresh (w_jwks w) (clock (w_tick w)) = false →
    http_get_json (S (w_tick w)) ITA_JWKS_URL = Ok d →
    jwks_outcome w (Ok d) (World (S (S (w_tick w))) (JwksCache (Some d) (clock (w_tick w)))
      (w_log w ++ [ReadClock (clock (w_tick w)); Downloaded ITA_JWKS_URL d]))
| jwks_failed e :
    is_fresh (w_jwks w) (clock (w_tick w)) = false →
    jwks_outcome w (Raise e) (World (S (S (w_tick w))) (w_jwks w) (w_log w ++ [ReadClock (clock (w_tick w))]))
| jwks_unusable d e :
    is_fresh (w_jwks w) (clock (w_tick w)) = false →
    http_get_json (S (w_tick w)) ITA_JWKS_URL = Ok d →
    jwks_outcome w (Raise e) (World (S (S (w_tick w))) (w_jwks w)
      (w_log w ++ [ReadClock (clock (w_tick w)); Downloaded ITA_JWKS_URL d])).

Lemma get_jwks_outcome w : let '(r, w') := get_jwks w in jwks_outcome w r w'.
Proof.
  unfold get_jwks, time_time, get_cache, _fetch_jwks, http_get, set_cache, tick, learn. st_unfold. cbn.
  destruct (is_fresh (w_jwks w) (clock (w_tick w))) eqn:Hf; cbn.
  - unfold is_fresh in Hf. unfold cached_data. destruct (cache_data (w_jwks w)) eqn:Hd; [|done].
    apply jwks_cached; [done|lia].
  - rewrite Hf. cbn. destruct (http_get_json (S (w_tick w)) ITA_JWKS_URL) as [d|e] eqn:Hg; cbn;
      [|by apply jwks_failed].
    rewrite <- app_assoc.
    destruct (py_get d "keys" (JList [])) as [keys|e]; cbn; [|by apply jwks_unusable].
    destruct (py_len keys) as [n|e]; cbn; [by apply jwks_fetched|by apply jwks_unusable].
Qed.

Lemma get_jwks_hit w d :
  cache_data (w_jwks w) = Some d → is_fresh (w_jwks w) (clock (w_tick w)) = true →
  get_jwks w = (Ok d, World (S (w_tick w)) (w_jwks w) (w_log w ++ [ReadClock (clock (w_tick w))])).
Proof.
  intros Hc Hf. unfold get_jwks, time_time, tick, learn, get_cache. st_unfold. cbn [w_tick w_jwks].
  rewrite Hf. unfold cached_data. by rewrite Hc.
Qed.

Lemma get_jwks_miss w o ks :
  is_fresh (w_jwks w) (clock (w_tick w)) = false →
  http_get_json (S (w_tick w)) ITA_JWKS_URL = Ok (JObj o) → lookup_key "keys" o = Some (JList ks) →
  get_jwks w = (Ok (JObj o), World (S (S (w_tick w))) (JwksCache (Some (JObj o)) (clock (w_tick w)))
    (w_log w ++ [ReadClock (clock (w_tick w)); Downloaded ITA_JWKS_URL (JObj o)])).
Proof.
  intros Hf Hd Hk. unfold get_jwks, time_time, tick, learn, get_cache. st_unfold. cbn [w_tick w_jwks].
  rewrite Hf. cbn [w_jwks]. rewrite Hf. cbn [negb].
  unfold _fetch_jwks, http_get, tick, learn, set_cache. st_unfold. cbn [w_tick w_jwks w_log]. rewrite Hd.
  cbn [py_get]. rewrite Hk, <- app_assoc. done.
Qed.

(** ** Where the key set comes from

    What the process does to the world: the interactions with the host, and the
    two functions that write the cache. *)
Inductive world_step : world → world → Prop :=
| ws_tick w r w' : tick w = (r, w') → world_step w w'
| ws_clock w r w' : time_time w = (r, w') → world_step w w'
| ws_download url w r w' : http_get url w = (r, w') → world_step w w'
| ws_handshake h p w r w' : tls_certificate h p w = (r, w') → world_step w w'
| ws_file path c w r w' : learn (LoadedFile path c) w = (r, w') → world_step w w'
| ws_jwks w r w' : get_jwks w = (r, w') → world_step w w'
| ws_expire w r w' : expire_jwks w = (r, w') → world_step w w'.

(** The cached key set was downloaded from ITA by this process, and the log
    holds answers of the host only. *)
Record genuine (w : world) : Prop := {
  ge_keys : ∀ ks, cache_data (w_jwks w) = Some ks → Downloaded ITA_JWKS_URL ks ∈ w_log w;
  ge_log : Forall answered (w_log w)
}.

Lemma genuine_init : genuine init_world.
Proof. by split. Qed.

Lemma genuine_log w n c l :
  genuine w → cache_data c = cache_data (w_jwks w) → Forall answered l → genuine (World n c (w_log w ++ l)).
Proof.
  intros [Hk Hl] Hc Ha. split; cbn; [|by apply Forall_app].
  intros ks Hks. rewrite Hc in Hks. apply elem_of_app. left. by apply Hk.
Qed.

Lemma genuine_tick w n c : genuine w → cache_data c = cache_data (w_jwks w) → genuine (World n c (w_log w)).
Proof. intros Hg Hc. rewrite <- (app_nil_r (w_log w)). by apply genuine_log. Qed.

Lemma genuine_step w w' : world_step w w' → genuine w → genuine w' ∧ w_log w `prefix_of` w_log w'.
Proof.
  intros Hs Hg. split.
  - destruct Hs as [w r w' Hs|w r w' Hs|url w r w' Hs|h p w r w' Hs|path c w r w' Hs|w r w' Hs|w r w' Hs].
    + injection Hs as _ <-. by apply genuine_tick.
    + injection Hs as _ <-. apply genuine_log; [done..|]. repeat constructor. by eexists.
    + unfold http_get, tick, learn in Hs. st_unfold. cbn in Hs. destruct (http_get_json _ url) eqn:Hd; injection Hs as _ <-.
      * apply genuine_log; [done..|]. repeat constructor. by eexists.
      * by apply genuine_tick.
    + unfold tls_certificate, tick, learn in Hs. st_unfold. cbn in Hs. destruct (tls_peer_certificate _ h p) eqn:Hd; injection Hs as _ <-.
      * apply genuine_log; [done..|]. repeat constructor. by eexists.
      * by apply genuine_tick.
    + injection Hs as _ <-. apply genuine_log; [done..|]. by repeat constructor.
    + pose proof (get_jwks_outcome w) as Ho. rewrite Hs in Ho.
      assert (Hnow : answered (ReadClock (clock (w_tick w)))) by (by eexists).
      destruct Ho as [d Hc Ht|d Hf Hd|e Hf|d e Hf Hd].
      * by apply genuine_log; [..|constructor].
      * split; cbn; [|apply Forall_app; split; [apply (ge_log w Hg)|constructor; [done|]; repeat constructor; by eexists]].
        intros ks [= <-]. apply elem_of_app. right. apply elem_of_cons. right. apply list_elem_of_here.
      * by apply genuine_log; [..|constructor].
      * apply genuine_log; [done..|]. constructor; [done|]. repeat constructor. by eexists.
    + injection Hs as _ <-. by apply genuine_tick.
  - destruct Hs as [w r w' Hs|w r w' Hs|url w r w' Hs|h p w r w' Hs|path c w r w' Hs|w r w' Hs|w r w' Hs].
    + by injection Hs as _ <-.
    + injection Hs as _ <-. by eexists.
    + unfold http_get, tick, learn in Hs. st_unfold. cbn in Hs.
      destruct (http_get_json _ url); injection Hs as _ <-; [by eexists|done].
    + unfold tls_certificate, tick, learn in Hs. st_unfold. cbn in Hs.
      destruct (tls_peer_certificate _ h p); injection Hs as _ <-; [by eexists|done].
    + injection Hs as _ <-. by eexists.
    + pose proof (get_jwks_outcome w) as Ho. rewrite Hs in Ho. destruct Ho; by eexists.
    + by injection Hs as _ <-.
Qed.

Lemma genuine_steps w w' : rtc world_step w w' → genuine w → genuine w' ∧ w_log w `prefix_of` w_log w'.
Proof.
  induction 1 as [w|w w1 w2 Hs _ IH]; intros Hg; [done|].
  destruct (genuine_step w w1 Hs Hg) as [Hg1 Hp]. destruct (IH Hg1). split; [done|]. by etrans.
Qed.

(** Calls that are made of such steps *)
Definition stepping {A : Type} (m : ST world exn A) : Prop := ∀ w, rtc world_step w (m w).2.

Lemma stepping_run {A : Type} (m : ST world exn A) w r w' : stepping m → m w = (r, w') → rtc world_step w w'.
Proof. intros Hm Hr. specialize (Hm w). by rewrite Hr in Hm. Qed.

Lemma stepping_ret {A : Type} (a : A) : stepping (mret a).
Proof. intros w. apply rtc_refl. Qed.
Lemma stepping_raise {A : Type} e : stepping (raise e : ST world exn A).
Proof. intros w. apply rtc_refl. Qed.
Lemma stepping_lift {A : Type} (r : res A) : stepping (lift r).
Proof. intros w. apply rtc_refl. Qed.
Lemma stepping_bind {A B : Type} (m : ST world exn A) (f : A → ST world exn B) :
  stepping m → (∀ a, stepping (f a)) → stepping (m ≫= f).
Proof.
  intros Hm Hf w. specialize (Hm w). rewrite st_bind_eq. destruct (m w) as [[a|e] w1]; [|done].
  etrans; [exact Hm|apply Hf].
Qed.
Lemma stepping_try {A : Type} (m : ST world exn A) (h : exn → option (ST world exn A)) :
  stepping m → (∀ e k, h e = Some k → stepping k) → stepping (try_except m h).
Proof.
  intros Hm Hh w. specialize (Hm w). unfold try_except. destruct (m w) as [[a|e] w1]; [done|].
  destruct (h e) as [k|] eqn:He; [|done]. etrans; [exact Hm|by apply (Hh e)].
Qed.
Lemma stepping_clock : stepping time_time.
Proof. intros w. eapply rtc_once, ws_clock, surjective_pairing. Qed.
Lemma stepping_jwks : stepping get_jwks.
Proof. intros w. eapply rtc_once, ws_jwks, surjective_pairing. Qed.
Lemma stepping_expire : stepping expire_jwks.
Proof. intros w. eapply rtc_once, ws_expire, surjective_pairing. Qed.
Lemma stepping_handshake h p : stepping (tls_certificate h p).
Proof. intros w. eapply rtc_once, (ws_handshake h p), surjective_pairing. Qed.
End jwks.

(** Take a call apart down to its steps. *)
Ltac stepping :=
  repeat match goal with
  | |- stepping (_ ≫= _) => apply stepping_bind; [|intros ?]
  | |- stepping (mret _) => apply stepping_ret
  | |- stepping (raise _) => apply stepping_raise
  | |- stepping (lift _) => apply stepping_lift
  | |- stepping time_time => apply stepping_clock
  | |- stepping get_jwks => apply stepping_jwks
  | |- stepping expire_jwks => apply stepping_expire
  | |- stepping (tls_certificate _ _) => apply stepping_handshake
  | |- stepping _ => case_match
  end.
