(* ===== verification/JwksThreads.v ===== *)
(** [get_jwks] run by several threads: double-checked locking on
    [_JWKS_CACHE] and [_JWKS_LOCK].

    Each read or write of the shared dict is a step of its own, so the fast
    path, which takes no lock, sees every intermediate state of a writer. *)

From S2P Require Import Prelude PyText PyValue Policy World Jwks.
From stdpp Require Import relations.

Open Scope Z_scope.

(** Where a thread is in [get_jwks]; [now] is the time it read on entry. *)
Inductive pc :=
| Idle
| Started (now : Z)      (* about to test [data is not None] *)
| SawData (now : Z)      (* about to test the timestamp *)
| FastHit                (* about to return the data, without the lock *)
| Waiting (now : Z)      (* at [with _JWKS_LOCK] *)
| Locked (now : Z)       (* lock held, about to test again *)
| Fetching (now : Z)     (* lock held, in [_fetch_jwks] *)
| Stored (now : Z)       (* lock held, data written, timestamp not yet *)
| Leaving                (* lock held, about to return the data *)
| Returned (d : option json)
| Failed.

Record threads_state := TState {
  pcs : gmap nat pc;
  lock : option nat;
  shared : jwks_cache;
  downloads : list json    (* what completed downloads returned, in order *)
}.

(** Completed downloads so far *)
Definition fetches (s : threads_state) : nat := length (downloads s).

Definition init_threads (n : nat) : threads_state :=
  TState (gset_to_gmap Idle (set_seq 0 n)) None (JwksCache None 0) [].

Definition move (s : threads_state) (t : nat) (p : pc) : threads_state :=
  TState (<[t := p]> (pcs s)) (lock s) (shared s) (downloads s).
Definition with_lock (s : threads_state) (l : option nat) : threads_state :=
  TState (pcs s) l (shared s) (downloads s).
Definition with_shared (s : threads_state) (c : jwks_cache) : threads_state :=
  TState (pcs s) (lock s) c (downloads s).

(** Case analysis on the thread that moved. *)
Ltac thread_cases :=
  repeat match goal with
  | H : <[?t := _]> _ !! ?t' = Some _ |- _ =>
      apply lookup_insert_Some in H as [[? ?]|[? H]]; simplify_eq
  end.

Section steps.
(** The readings the clock may give, and whether some verifier may expire the
    cache (the unknown [kid] path). *)
Context (clock_ok : Z → Prop) (may_expire : bool).

Inductive tstep : threads_state → threads_state → Prop :=
| step_enter s t now :
    pcs s !! t = Some Idle → clock_ok now → tstep s (move s t (Started now))
| step_data s t now :
    pcs s !! t = Some (Started now) →
    tstep s (move s t (match cache_data (shared s) with Some _ => SawData now | None => Waiting now end))
| step_timestamp s t now :
    pcs s !! t = Some (SawData now) →
    tstep s (move s t (if now - cache_ts (shared s) <=? _JWKS_TTL then FastHit else Waiting now))
| step_fast_return s t :
    pcs s !! t = Some FastHit → tstep s (move s t (Returned (cache_data (shared s))))
| step_acquire s t now :
    pcs s !! t = Some (Waiting now) → lock s = None →
    tstep s (with_lock (move s t (Locked now)) (Some t))
| step_recheck s t now :
    pcs s !! t = Some (Locked now) →
    tstep s (move s t (if is_fresh (shared s) now then Leaving else Fetching now))
| step_fetched s t now d :
    pcs s !! t = Some (Fetching now) →
    tstep s (TState (<[t := Stored now]> (pcs s)) (lock s)
               (JwksCache (Some d) (cache_ts (shared s))) (downloads s ++ [d]))
| step_fetch_failed s t now :
    pcs s !! t = Some (Fetching now) → tstep s (with_lock (move s t Failed) None)
| step_stamp s t now :
    pcs s !! t = Some (Stored now) →
    tstep s (with_shared (move s t Leaving) (JwksCache (cache_data (shared s)) now))
| step_leave s t :
    pcs s !! t = Some Leaving →
    tstep s (with_lock (move s t (Returned (cache_data (shared s)))) None)
| step_again s t p :
    pcs s !! t = Some p → (p = Failed ∨ ∃ d, p = Returned d) → tstep s (move s t Idle)
| step_expire s :
    may_expire = true → lock s = None →
    tstep s (with_shared s (JwksCache (cache_data (shared s)) 0)).

(** Holding the lock; having passed a test that the data is there. *)
Definition in_section (p : pc) : bool :=
  match p with Locked _ | Fetching _ | Stored _ | Leaving => true | _ => false end.
Definition past_data (p : pc) : bool :=
  match p with SawData _ | FastHit | Stored _ | Leaving => true | _ => false end.
(** What a call returned was downloaded before. *)
Definition good_return (l : list json) (p : pc) : Prop :=
  match p with Returned d => ∃ j, d = Some j ∧ j ∈ l | _ => True end.

Record tinv (s : threads_state) : Prop := TInv {
  inv_mutex : ∀ t p, pcs s !! t = Some p → in_section p = true → lock s = Some t;
  inv_data : ∀ t p, pcs s !! t = Some p → past_data p = true → is_Some (cache_data (shared s));
  inv_held : ∀ t, lock s = Some t → ∃ p, pcs s !! t = Some p ∧ in_section p = true;
  inv_origin : ∀ j, cache_data (shared s) = Some j → j ∈ downloads s;
  inv_return : ∀ t p, pcs s !! t = Some p → good_return (downloads s) p
}.

Lemma lookup_set_seq_idle n t p :
  pcs (init_threads n) !! t = Some p → p = Idle.
Proof. cbn. intros H. apply lookup_gset_to_gmap_Some in H as [_ <-]. done. Qed.

Lemma tinv_init n : tinv (init_threads n).
Proof. split; cbn; try done; intros t p ->%lookup_set_seq_idle; done. Qed.

Lemma good_return_app l l' p : good_return l p → good_return (l ++ l') p.
Proof. destruct p as [| | | | | | | | |d|]; cbn; try done. intros (j & -> & Hj). exists j. split; [done|]. apply elem_of_app. by left. Qed.

(** The data there is, is one a call may return. *)
Lemma cached_return s : tinv s → is_Some (cache_data (shared s)) → good_return (downloads s) (Returned (cache_data (shared s))).
Proof. intros Hi [j Hj]. exists j. split; [done|]. by apply (inv_origin s Hi). Qed.

(** The thread that moves stays in its section, or outside. *)
Lemma held_move s t p q :
  tinv s → pcs s !! t = Some p → in_section q = in_section p →
  ∀ t', lock s = Some t' → ∃ r, <[t := q]> (pcs s) !! t' = Some r ∧ in_section r = true.
Proof.
  intros Hi Hp Hq t' Hl. destruct (inv_held s Hi t' Hl) as (r & Hr & Hs). destruct (decide (t = t')) as [<-|Hne].
  - exists q. rewrite lookup_insert_eq. split; [done|]. congruence.
  - exists r. by rewrite lookup_insert_ne.
Qed.

Lemma mutex_step s s' : tinv s → tstep s s' → ∀ t p, pcs s' !! t = Some p → in_section p = true → lock s' = Some t.
Proof.
  intros Hi Hs. pose proof (inv_mutex s Hi) as Hm. destruct Hs; cbn; intros t' p' Hl Hp; thread_cases; cbn in *; eauto; try done.
  all: try (repeat case_match; cbn in *; simplify_eq; eauto; done).
  - rewrite (Hm _ _ Hl Hp) in *. done.
  - rewrite (Hm _ _ Hl Hp) in Hm. exfalso. specialize (Hm _ _ H eq_refl). congruence.
  - rewrite (Hm _ _ Hl Hp) in Hm. exfalso. specialize (Hm _ _ H eq_refl). congruence.
Qed.

Lemma held_step s s' : tinv s → tstep s s' → ∀ t, lock s' = Some t → ∃ p, pcs s' !! t = Some p ∧ in_section p = true.
Proof.
  intros Hi Hs. destruct Hs as [s t now H|s t now H|s t now H|s t H|s t now H Hf|s t now H|s t now d H|s t now H|s t now H
    |s t H|s t p H Hp|s He Hf]; cbn; intros t' Hl; try done;
    try (eapply (held_move s); [done|exact H| |exact Hl]; cbn; by repeat case_match).
  - injection Hl as <-. eexists. split; [apply lookup_insert_eq|done].
  - eapply (held_move s); [done|exact H| |exact Hl]. by destruct Hp as [->|[d ->]].
  - congruence.
Qed.

Lemma tinv_step s s' : tinv s → tstep s s' → tinv s'.
Proof.
  intros Hi Hs. split; [by eapply mutex_step| |by eapply held_step| |].
  - pose proof (inv_data s Hi) as Hd. destruct Hs; cbn; intros t' p' Hl Hp; thread_cases; cbn in *; eauto; try done.
    all: try (repeat case_match; cbn in *; simplify_eq; eauto; done).
    by destruct (is_fresh _ _) eqn:Hf; unfold is_fresh in Hf; case_match.
  - pose proof (inv_origin s Hi) as Ho. destruct Hs; cbn; try done.
    intros j [= <-]. apply elem_of_app. right. by apply list_elem_of_singleton.
  - pose proof (inv_return s Hi) as Hr. pose proof (λ t p Hp Hd, cached_return s Hi (inv_data s Hi t p Hp Hd)) as Hc.
    destruct Hs; cbn; intros t' p' Hl; thread_cases; cbn; eauto using good_return_app;
      try (by repeat case_match); by eapply Hc.
Qed.
End steps.

Lemma tinv_reachable clock_ok may_expire n s :
  rtc (tstep clock_ok may_expire) (init_threads n) s → tinv s.
Proof.
  revert s. apply rtc_ind_r; [apply tinv_init|]. eauto using tinv_step.
Qed.

(** ** One download per window *)

Definition window (a now : Z) : Prop := a <= now <= a + _JWKS_TTL.

Definition pc_now (p : pc) : option Z :=
  match p with
  | Started n | SawData n | Waiting n | Locked n | Fetching n | Stored n => Some n
  | _ => None
  end.

(** At most one thread is in the section, so at most one of the two. *)
Record single (a : Z) (s : threads_state) : Prop := Single {
  sg_base : tinv s;
  sg_now : ∀ t p now, pcs s !! t = Some p → pc_now p = Some now → window a now;
  sg_count :
    (fetches s = 0%nat ∧ cache_data (shared s) = None) ∨
    (fetches s = 1%nat ∧ is_Some (cache_data (shared s)) ∧
     (∀ t now, pcs s !! t ≠ Some (Fetching now)) ∧
     ((∃ t now, pcs s !! t = Some (Stored now)) ∨ window a (cache_ts (shared s))))
}.

Lemma fresh_in_window a c now :
  is_Some (cache_data c) → window a (cache_ts c) → window a now → is_fresh c now = true.
Proof. intros [d Hd] H1 H2. unfold is_fresh, window in *. rewrite Hd. lia. Qed.

Lemma single_init a n : single a (init_threads n).
Proof.
  split; [apply tinv_init| |by left].
  intros t p now ->%lookup_set_seq_idle. done.
Qed.

(** Two threads cannot both be inside the section. *)
Lemma section_unique s t t' p p' :
  tinv s → pcs s !! t = Some p → pcs s !! t' = Some p' →
  in_section p = true → in_section p' = true → t = t' ∧ p = p'.
Proof.
  intros Hi Hp Hp' H H'. pose proof (inv_mutex s Hi _ _ Hp H).
  pose proof (inv_mutex s Hi _ _ Hp' H'). by simplify_eq.
Qed.

Lemma single_now_step a s s' :
  (∀ t p now, pcs s !! t = Some p → pc_now p = Some now → window a now) →
  tstep (window a) false s s' →
  ∀ t p now, pcs s' !! t = Some p → pc_now p = Some now → window a now.
Proof.
  intros Hn Hs t' p' now' Hl Hp. destruct Hs; cbn in *; try done; thread_cases; eauto;
    cbn in *; repeat case_match; cbn in *; simplify_eq; eauto.
Qed.

Definition quiet (a : Z) (m : gmap nat pc) (c : jwks_cache) : Prop :=
  (∀ t now, m !! t ≠ Some (Fetching now)) ∧
  ((∃ t now, m !! t = Some (Stored now)) ∨ window a (cache_ts c)).

(** A thread that neither leaves [Stored] nor starts a download. *)
Lemma quiet_move a m c t p q :
  m !! t = Some p → (∀ n, p ≠ Stored n) → (∀ n, q ≠ Fetching n) →
  quiet a m c → quiet a (<[t := q]> m) c.
Proof.
  intros Hp Hns Hnf [H1 H2]. split.
  - intros t' now [[_ Hq]|[_ Hl]]%lookup_insert_Some; [by apply (Hnf now)|by apply (H1 t' now)].
  - destruct H2 as [(t' & now & Ht')|?]; [left|by right].
    exists t', now. rewrite lookup_insert_ne; [done|]. intros <-. simplify_eq. by apply (Hns now).
Qed.

Lemma single_step a s s' : single a s → tstep (window a) false s s' → single a s'.
Proof.
  intros [Hi Hn Hc] Hs. split; [by eapply tinv_step|by eapply single_now_step|].
  destruct Hs as [| | | | |s t now H|s t now d H|s t now H|s t now H| |s t p H Hp|]; cbn in *; try done.
  all: destruct Hc as [[Hf Hd]|(Hf & Hd & Hq)]; [try by left|try (right; split; [done|split; [done|]])].
  all: try (eapply quiet_move; [eassumption|done|by repeat case_match|done]).
  - (* the second test: fresh, because the stamp is in the window *)
    destruct Hq as [Hnf [(t' & n' & Ht')|Hw]].
    + by destruct (section_unique s t t' _ _ Hi H Ht' eq_refl eq_refl) as [_ [=]].
    + rewrite (fresh_in_window a) by eauto. eapply quiet_move; [done..|]. split; [done|by right].
  - (* the first download *)
    right. split; [unfold fetches in *; cbn; rewrite length_app; cbn; lia|]. split; [done|]. split.
    + intros t' n' Ht'. thread_cases; try done.
      by destruct (section_unique s t t' _ _ Hi H Ht' eq_refl eq_refl).
    + left. exists t, now. apply lookup_insert_eq.
  - (* no download is running once one has completed *)
    by destruct (proj1 Hq t now).
  - (* the stamp is this thread's reading *)
    split; [|right; by eapply Hn].
    intros t' n' Ht'. thread_cases; try done. by apply (proj1 Hq t' n').
  - eapply quiet_move; [done|by destruct Hp as [->|[? ->]]|done..].
Qed.

(** The counting invariant along every run. *)
Lemma single_reachable a n s :
  rtc (tstep (window a) false) (init_threads n) s → single a s.
Proof. revert s. apply rtc_ind_r; [apply single_init|]. eauto using single_step. Qed.

(** C27: while every thread that enters [get_jwks] reads a time within one TTL
    window and no refresh is forced, the key set is downloaded at most once,
    however many threads miss the cache together. *)
Theorem jwks_single_download a n s :
  rtc (tstep (window a) false) (init_threads n) s → (fetches s <= 1)%nat.
Proof.
  intros Hr. destruct (sg_count a s (single_reachable a n s Hr)) as [[-> _]|(-> & _)]; lia.
Qed.

(** C28: whatever the clock reads and whenever the cache is expired, every call of
    [get_jwks] that returns hands out a key set that a download of some thread
    had returned before: neither the fast path, which takes no lock, nor the
    locked one ever hands out an empty cache or anything else. The lock is held
    exactly when a thread is between taking and leaving it, by that thread alone:
    also a failed download gives it back. *)
Theorem jwks_threads_safe clock_ok may_expire n s :
  rtc (tstep clock_ok may_expire) (init_threads n) s →
  (∀ t d, pcs s !! t = Some (Returned d) → ∃ j, d = Some j ∧ j ∈ downloads s) ∧
  (∀ t, lock s = Some t ↔ ∃ p, pcs s !! t = Some p ∧ in_section p = true).
Proof.
  intros Hi%tinv_reachable. split.
  - intros t d Ht. exact (inv_return s Hi t _ Ht).
  - intros t. split; [apply (inv_held s Hi)|]. intros (p & Hp & Hs). by eapply inv_mutex.
Qed.

(** A run of two threads: both miss, one downloads, the other, which waited,
    finds the data on its second test. *)
Definition after_download : threads_state :=
  let s0 := move (move (init_threads 2) 0 (Started 5)) 1 (Started 7) in
  let s1 := move (move s0 0 (Waiting 5)) 1 (Waiting 7) in
  let s2 := move (with_lock (move s1 0 (Locked 5)) (Some 0%nat)) 0 (Fetching 5) in
  let s3 := TState (<[0%nat := Stored 5]> (pcs s2)) (lock s2) (JwksCache (Some (JObj [])) 0) [JObj []] in
  let s4 := with_shared (move s3 0 Leaving) (JwksCache (Some (JObj [])) 5) in
  with_lock (move s4 0 (Returned (Some (JObj [])))) None.
Definition after_waiter : threads_state :=
  let s1 := move (with_lock (move after_download 1 (Locked 7)) (Some 1%nat)) 1 Leaving in
  with_lock (move s1 1 (Returned (Some (JObj [])))) None.

Lemma two_thread_run (clock_ok : Z → Prop) may_expire :
  clock_ok 5 → clock_ok 7 → rtc (tstep clock_ok may_expire) (init_threads 2) after_waiter.
Proof.
  intros H5 H7.
  eapply rtc_l; [by apply (step_enter _ _ _ 0 5)|].
  eapply rtc_l; [by apply (step_enter _ _ _ 1 7)|].
  eapply rtc_l; [by apply (step_data _ _ _ 0 5)|].
  eapply rtc_l; [by apply (step_data _ _ _ 1 7)|].
  eapply rtc_l; [by apply (step_acquire _ _ _ 0 5)|].
  eapply rtc_l; [by apply (step_recheck _ _ _ 0 5)|].
  eapply rtc_l; [by apply (step_fetched _ _ _ 0 5 (JObj []))|].
  eapply rtc_l; [by apply (step_stamp _ _ _ 0 5)|].
  eapply rtc_l; [by apply (step_leave _ _ _ 0)|].
  eapply rtc_l; [by apply (step_acquire _ _ _ 1 7)|].
  eapply rtc_l; [by apply (step_recheck _ _ _ 1 7)|].
  eapply rtc_l; [by apply (step_leave _ _ _ 1)|].
  apply rtc_refl.
Qed.

Lemma jwks_single_download_witness : (fetches after_waiter <= 1)%nat.
Proof.
  apply (jwks_single_download 0 2 after_waiter). apply two_thread_run; unfold window; vm_compute; done.
Defined.

Lemma jwks_threads_safe_witness :
  pcs after_waiter !! 1%nat = Some (Returned (Some (JObj []))) ∧ downloads after_waiter = [JObj []] ∧
  (∀ t d, pcs after_waiter !! t = Some (Returned d) → ∃ j, d = Some j ∧ j ∈ downloads after_waiter).
Proof.
  split; [vm_compute; reflexivity|]. split; [vm_compute; reflexivity|].
  apply (jwks_threads_safe (λ _, True) true 2 after_waiter). by apply two_thread_run.
Defined.
