(* ===== verification/Examples.v ===== *)
(** A small concrete environment: a host, an X.509 library and a JWT library
    given by plain functions. The theorems of the other files quantify over
    every environment; this one shows that their assumptions can be met, and
    lets the definitions run. *)

From S2P Require Import Prelude PyText Base64 Sha256 PyValue External Attestation Policy World.

Open Scope Z_scope.

(** A certificate is its bytes, the first two of which are its public key; its
    extension holds the token ["tok"]. *)
Definition demo_x509 : X509 := {|
  Cert := list byte;
  load_pem_x509_certificate := Ok;
  load_der_x509_certificate := Ok;
  cert_pem_bytes c := c;
  extension_for_oid c oid := Ok (Some (der_octet_string (String.list_byte_of_string "tok")));
  spki_der c := Ok (take 2 c);
  validity_dates _ := Ok ("2026-01-01", "2027-01-01") |}.

Definition demo_cert : list byte := [x01; x02].

(** The claims of a production workload bound to [demo_cert]. *)
Definition demo_claims : dict :=
  [("iss", JStr "https://portal.trustauthority.intel.com");
   ("hwmodel", JStr "INTEL_TDX"); ("secboot", JBool true); ("dbgstat", JStr "disabled-since-boot");
   ("swname", JStr "CONFIDENTIAL_SPACE"); ("swversion", JList [JStr "preview"; JStr "260700"]);
   ("tdx", JObj [("cvm_compliance_status", JStr "gcp_compliant_cvm")]);
   ("eat_nonce", JList [JStr (_base64url_encode_nopad (sha256 demo_cert)); JStr "other"]);
   ("google_service_accounts", JList [JStr "sa@proj"]);
   ("submods", JObj
      [("confidential_space", JObj [("support_attributes", JList [JStr "LATEST"; JStr "STABLE"])]);
       ("container", JObj [("image_digest", JStr "sha256:aa")]);
       ("gce", JObj [("project_id", JStr "proj")])])].

Definition demo_policy : ItaPolicy := {|
  expected_image_digests := [JStr "sha256:bb"; JStr "sha256:aa"];
  expected_project_id := JStr "proj";
  expected_service_account := JStr "sa@proj";
  min_cs_version := 260500;
  allow_debug := JBool false;
  allow_memory_monitoring := JBool false;
  clock_skew_seconds := 300 |}.

(** A key set lists its key ids. *)
Definition demo_keyset (d : json) : res (list (jwk string)) :=
  keys ← py_get d "keys" (JList []);
  ks ← py_iter keys;
  Ok (List.map (λ k, Jwk k (match k with JStr s => s | _ => "" end)) ks).

(** Tokens are signed by the key ["k2"]. *)
Definition demo_jwt : PyJWT := {|
  JwtKey := string;
  PyJWKSet_from_dict := demo_keyset;
  get_unverified_header token := Ok [("alg", JStr "RS256"); ("kid", JStr "k2")];
  jwt_decode now token k algorithms audience options leeway :=
    if String.eqb k "k2" && String.eqb token "tok" then Ok demo_claims
    else Raise (Exn DecodeError [Txt "Signature verification failed"]) |}.

(** One second passes between any two interactions. *)
Definition demo_clock (n : nat) : Z := 1750000000 * 10 ^ 9 + Z.of_nat n * 10 ^ 9.

Definition demo_keys (ks : list string) : json := JObj [("keys", JList (JStr <$> ks))].

(** ITA serves both keys. *)
Definition demo_host (env : environ) : Host := {|
  os_environ := env;
  clock := demo_clock;
  http_get_json n url := Ok (demo_keys ["k1"; "k2"]);
  tls_peer_certificate n host port := Ok (Some demo_cert) |}.

(** A world whose cache holds a fresh key set from before a key rotation. *)
Definition stale_world : world := World 0 (JwksCache (Some (demo_keys ["k1"])) (demo_clock 0)) [].
