(* ===== verification/ItaVerifier.v ===== *)
(** [agent/ita_verifier.py]: verification of an Intel Trust Authority token.

    The checks on the claims run on whatever JSON the token holds: a claim of an
    unexpected type either fails its check or raises, exactly as in the code. *)

From S2P Require Import Prelude PyText Base64 Sha256 PyValue External Policy World Jwks Examples.

Open Scope Z_scope.

Definition ITA_ISSUER : string := "https://portal.trustauthority.intel.com".
Definition EXPECTED_HWMODEL : string := "INTEL_TDX".
Definition EXPECTED_SWNAME : string := "CONFIDENTIAL_SPACE".
Definition EXPECTED_CVM_COMPLIANCE : string := "gcp_compliant_cvm".
Definition EXPECTED_AUDIENCE : string := "ztab_tls".

Definition VALID_DBG_STATES : list string := ["disabled-since-boot"; "disabled"; "enabled"].

(** ** The checks on the claims *)

Definition _verify_issuer (claims : dict) : res bool :=
  iss ← py_get (JObj claims) "iss" (JStr "");
  Ok (py_eq iss (JStr ITA_ISSUER)).

Definition is_True (v : json) : bool := match v with JBool true => true | _ => false end.

Definition _verify_hw_claims (claims : dict) (policy : ItaPolicy) : res bool :=
  hwmodel ← py_get (JObj claims) "hwmodel" (JStr "");
  if negb (py_eq hwmodel (JStr EXPECTED_HWMODEL)) then Ok false else
  secboot ← py_get (JObj claims) "secboot" (JBool false);
  if negb (is_True secboot) then Ok false else
  dbgstat ← py_get (JObj claims) "dbgstat" (JStr "");
  dbg_ok ← (if negb (truthy (allow_debug policy))
            then in_set dbgstat (JStr <$> ["disabled"; "disabled-since-boot"])
            else in_set dbgstat (JStr <$> VALID_DBG_STATES));
  if negb dbg_ok then Ok false else
  if negb (truthy (allow_debug policy)) then
    submods ← py_get (JObj claims) "submods" (JObj []);
    cs ← py_get submods "confidential_space" (JObj []);
    attrs ← py_get cs "support_attributes" (JList []);
    debug ← py_in (JStr "DEBUG") attrs;
    Ok (negb debug)
  else Ok true.

(** [for v in swversion_list: try int(str(v)) >= minimum], skipping what is no
    integer. *)
Definition version_meets (minimum : Z) (v : json) : bool :=
  match py_int_str v with
  | Ok n => minimum <=? n
  | Raise _ => false
  end.

(** A single version is read as a list of one. *)
Definition swversion_list (v : json) : list json :=
  match v with JList l => l | _ => [v] end.

Definition _verify_platform_identity (claims : dict) (policy : ItaPolicy) : res bool :=
  swname ← py_get (JObj claims) "swname" (JStr "");
  if negb (py_eq swname (JStr EXPECTED_SWNAME)) then Ok false else
  tdx ← py_get (JObj claims) "tdx" (JObj []);
  cvm_status ← py_get tdx "cvm_compliance_status" (JStr "");
  if negb (py_eq cvm_status (JStr EXPECTED_CVM_COMPLIANCE)) then Ok false else
  submods ← py_get (JObj claims) "submods" (JObj []);
  cs ← py_get submods "confidential_space" (JObj []);
  mon_ok ← (if negb (truthy (allow_memory_monitoring policy)) then
              mon ← py_get cs "monitoring_enabled" (JObj []);
              memory ← py_get mon "memory" JNull;
              Ok (negb (is_True memory))
            else Ok true);
  if negb mon_ok then Ok false else
  swversion ← py_get (JObj claims) "swversion" (JList []);
  if min_cs_version policy =? 0 then Ok true
  else Ok (existsb (version_meets (min_cs_version policy)) (swversion_list swversion)).

(** The three parts of the container check, in the order they run. *)
Definition digest_check (submods : json) (policy : ItaPolicy) : res bool :=
  container ← py_get submods "container" (JObj []);
  actual_digest ← py_get container "image_digest" (JStr "");
  if negb (truthy actual_digest) then Ok false else
  listed ← in_set actual_digest (expected_image_digests policy);
  if negb listed then
    py_sorted (expected_image_digests policy);; (* for the log message *)
    Ok false
  else Ok true.

Definition project_check (submods : json) (policy : ItaPolicy) : res bool :=
  if truthy (expected_project_id policy) then
    gce ← py_get submods "gce" (JObj []);
    pid ← py_get gce "project_id" (JStr "");
    Ok (py_eq pid (expected_project_id policy))
  else Ok true.

Definition account_check (claims : dict) (policy : ItaPolicy) : res bool :=
  if truthy (expected_service_account policy) then
    accounts ← py_get (JObj claims) "google_service_accounts" (JList []);
    py_in (expected_service_account policy) accounts
  else Ok true.

Definition _verify_container_identity (claims : dict) (policy : ItaPolicy) : res bool :=
  submods ← py_get (JObj claims) "submods" (JObj []);
  digest_ok ← digest_check submods policy;
  if negb digest_ok then Ok false else
  project_ok ← project_check submods policy;
  if negb project_ok then Ok false else
  account_check claims policy.

(** ** Key binding *)

Section x509.
Context `{X509}.

Definition _extract_pubkey_from_cert (cert_pem : list byte) : res (list byte) :=
  cert ← load_pem_x509_certificate cert_pem;
  spki_der cert.

Definition _compute_pubkey_hash_b64url (cert_pem : list byte) : res string :=
  spki ← _extract_pubkey_from_cert cert_pem;
  Ok (_base64url_encode_nopad (sha256 spki)).

(** [eat_nonce] is a text or a list of them. *)
Definition nonce_value (eat_nonce : json) : json :=
  match eat_nonce with
  | JList (v :: _) => v
  | JList [] => JStr ""
  | _ => eat_nonce
  end.

Definition _verify_key_binding (claims : dict) (cert_pem : list byte) : res bool :=
  eat_nonce ← py_get (JObj claims) "eat_nonce" (JStr "");
  if negb (truthy eat_nonce) then Ok false else
  expected_nonce ← _compute_pubkey_hash_b64url cert_pem;
  Ok (py_eq (nonce_value eat_nonce) (JStr expected_nonce)).
End x509.

(** ** Verbose logging (test environment only)

    The records a call writes; building them can raise. *)

Definition log_line : Type := list frag.

Section verbose.
Context `{X509}.

(** [x5c[0]], decoded: any failure inside the inner [try] leaves no dates. *)
Definition x5c_validity (x5c : json) : list frag :=
  let first :=
    match x5c with
    | JList (JStr s :: _) => Some s
    | JStr s => head (text_chars s)
    | _ => None
    end in
  match first ≫= b64decode_text with
  | None => []
  | Some der =>
      match cert ← load_der_x509_certificate der; validity_dates cert with
      | Ok (nbf, naf) => [Txt ", Valid: "; Txt nbf; Txt " -> "; Txt naf]
      | Raise _ => []
      end
  end.

Definition key_lines (active_kid : json) (i : nat) (k : json) : res (list log_line) :=
  kid ← py_get k "kid" (JStr "<none>");
  alg ← py_get k "alg" (JStr "<none>");
  x5c ← py_get k "x5c" (JList []);
  let valid := if truthy x5c then x5c_validity x5c else [] in
  let match_mark := if py_eq kid active_kid then [Txt " [ACTIVE SIGNER]"] else [] in
  Ok [[Txt "    Key "; Val (JInt (Z.of_nat (S i))); Txt ": alg="; Val alg] ++ valid ++ match_mark;
      [Txt "           kid="; Val kid]].

Fixpoint keys_lines (active_kid : json) (i : nat) (ks : list json) : res (list log_line) :=
  match ks with
  | [] => Ok []
  | k :: ks' =>
      here ← key_lines active_kid i k;
      rest ← keys_lines active_kid (S i) ks';
      Ok (here ++ rest)
  end.

Definition _log_verbose_jwks_info (jwks_data active_kid : json) : res (list log_line) :=
  keys ← py_get jwks_data "keys" (JList []);
  n ← py_len keys;
  ks ← py_iter keys;
  rest ← keys_lines active_kid 0 ks;
  Ok ([Txt "  [VERBOSE] JWKS Key Inventory ("; Val (JInt (Z.of_nat n)); Txt " keys):"] :: rest).
End verbose.

Definition get_or (v : json) (k : string) (default : json) : json :=
  match v with JObj d => match lookup_key k d with Some x => x | None => default end | _ => default end.

Definition _log_verbose_claims_info (claims : dict) : list log_line :=
  let submods := get_or (JObj claims) "submods" (JObj []) in
  let gpu_claims := match submods with JObj _ => get_or submods "nvidia_gpu" JNull | _ => JNull end in
  let swversion := get_or (JObj claims) "swversion" (JStr "<none>") in
  let tdx := get_or (JObj claims) "tdx" (JObj []) in
  let cvm_status :=
    match tdx with
    | JObj _ => get_or tdx "cvm_compliance_status" (JStr "<none>")
    | _ => JStr "<none>"
    end in
  [[Txt "  [VERBOSE] Claims Summary:"];
   [Txt "    - CS Image Version: "; Val swversion];
   (if truthy gpu_claims
    then [Txt "    - GPU Claims: PRESENT ("; Val gpu_claims; Txt ")"]
    else [Txt "    - GPU Claims: None present (submods.nvidia_gpu not populated)"]);
   [Txt "    - HW Model: "; Val (get_or (JObj claims) "hwmodel" (JStr "<none>"))];
   [Txt "    - CVM Compliance: "; Val cvm_status];
   [Txt "  [VERBOSE] Full Token Claims JSON:"];
   [Val (JObj claims)]].

(** ** The verifier *)

Definition ALGORITHMS : list string :=
  ["RS256"; "RS384"; "RS512"; "PS256"; "PS384"; "PS512"; "ES256"; "ES384"].

Definition DECODE_OPTIONS : jwt_options := JwtOptions true true false true.

Definition find_key {K : Type} (kid : json) (keys : list (jwk K)) : option (jwk K) :=
  List.find (λ k, py_eq (key_id k) kid) keys.

Section verifier.
Context `{Host, X509, PyJWT}.

(** The key that signed the token: from the cached key set, or, when the cache
    does not know it, from a freshly downloaded one. *)
Definition signing_key (jwks_data kid : json) (keys : list (jwk JwtKey))
  : ST world exn (option (jwk JwtKey)) :=
  match find_key kid keys with
  | Some k => mret (Some k)
  | None =>
      expire_jwks;;
      jwks_data ← get_jwks;
      keys ← lift (PyJWKSet_from_dict jwks_data);
      mret (find_key kid keys)
  end.

(** Step 1, the body of the [try]; [None] is its [return False]. *)
Definition signed_claims (policy : ItaPolicy) (token : string) : ST world exn (option dict) :=
  jwks_data ← get_jwks;
  keys ← lift (PyJWKSet_from_dict jwks_data);
  header ← lift (get_unverified_header token);
  let kid := get_or (JObj header) "kid" JNull in
  if negb (truthy kid) then mret None else
  (if is_test os_environ
   then lift (_log_verbose_jwks_info jwks_data kid);; mret tt
   else mret tt);;
  matching_key ← signing_key jwks_data kid keys;
  match matching_key with
  | None => mret None
  | Some k =>
      now ← time_time;
      claims ← lift (jwt_decode now token (key k) ALGORITHMS EXPECTED_AUDIENCE
                       DECODE_OPTIONS (clock_skew_seconds policy));
      (if is_test os_environ
       then lift (Ok (_log_verbose_claims_info claims));; mret tt
       else mret tt);;
      mret (Some claims)
  end.

(** Every [except] clause of step 1 logs and returns [False]. *)
Definition jwt_failure (e : exn) : option (ST world exn (option dict)) :=
  match exn_type e with
  | ExpiredSignatureError => Some (mret None)
  | InvalidAudienceError => Some (mret None)
  | DecodeError => Some (mret None)
  | _ => if is_exception e then Some (mret None) else None
  end.

(** Steps 2 to 6, on the claims of a token whose signature was verified. *)
Definition check_claims (policy : ItaPolicy) (claims : dict) (cert_pem : list byte) : res bool :=
  issuer ← _verify_issuer claims;
  if negb issuer then Ok false else
  hw ← _verify_hw_claims claims policy;
  if negb hw then Ok false else
  platform ← _verify_platform_identity claims policy;
  if negb platform then Ok false else
  binding ← _verify_key_binding claims cert_pem;
  if negb binding then Ok false else
  container ← _verify_container_identity claims policy;
  if negb container then Ok false else
  Ok true.

(** The callable [create_ita_verifier(policy)] returns. *)
Definition ita_verifier (policy : ItaPolicy) (token : string) (cert_pem : list byte)
  : ST world exn bool :=
  claims ← try_except (signed_claims policy token) jwt_failure;
  match claims with
  | None => mret false
  | Some claims => lift (check_claims policy claims cert_pem)
  end.
End verifier.

(** ** What an accepted token says *)

(** The object at a key; the code reads an absent one as empty. *)
Definition dict_at (d : dict) (k : string) (o : dict) : Prop :=
  lookup_key k d = Some (JObj o) ∨ (lookup_key k d = None ∧ o = []).

Definition no_debug_attribute (cs : dict) : Prop :=
  match lookup_key "support_attributes" cs with
  | None => True
  | Some (JList l) => JStr "DEBUG" ∉ l
  | Some (JStr s) => contains "DEBUG" s = false
  | Some (JObj o) => lookup_key "DEBUG" o = None
  | Some _ => False
  end.

Record hw_trusted (p : ItaPolicy) (claims : dict) : Prop := {
  ht_model : lookup_key "hwmodel" claims = Some (JStr EXPECTED_HWMODEL);
  ht_secboot : lookup_key "secboot" claims = Some (JBool true);
  ht_dbgstat : ∃ s, lookup_key "dbgstat" claims = Some (JStr s) ∧
    (s = "disabled" ∨ s = "disabled-since-boot" ∨ (s = "enabled" ∧ truthy (allow_debug p) = true));
  ht_attributes : truthy (allow_debug p) = false →
    ∃ submods cs, dict_at claims "submods" submods ∧
      dict_at submods "confidential_space" cs ∧ no_debug_attribute cs
}.

(** Some reported version is an integer not below the floor. *)
Definition version_floor (minimum : Z) (swversion : option json) : Prop :=
  ∃ v n, match swversion with
         | Some (JList l) => v ∈ l
         | Some w => v = w
         | None => False
         end ∧ py_int_str v = Ok n ∧ minimum <= n.

Record platform_trusted (p : ItaPolicy) (claims : dict) : Prop := {
  pt_swname : lookup_key "swname" claims = Some (JStr EXPECTED_SWNAME);
  pt_cvm : ∃ tdx, lookup_key "tdx" claims = Some (JObj tdx) ∧
    lookup_key "cvm_compliance_status" tdx = Some (JStr EXPECTED_CVM_COMPLIANCE);
  pt_submods : ∃ submods, dict_at claims "submods" submods ∧
    (truthy (allow_memory_monitoring p) = false →
     ∃ cs mon, dict_at submods "confidential_space" cs ∧ dict_at cs "monitoring_enabled" mon ∧
       lookup_key "memory" mon ≠ Some (JBool true));
  pt_version : min_cs_version p = 0 ∨ version_floor (min_cs_version p) (lookup_key "swversion" claims)
}.

Record container_trusted (p : ItaPolicy) (claims : dict) : Prop := {
  ct_submods : ∃ submods, dict_at claims "submods" submods ∧
    (∃ container digest, dict_at submods "container" container ∧
       lookup_key "image_digest" container = Some digest ∧ truthy digest = true ∧
       in_set digest (expected_image_digests p) = Ok true) ∧
    (truthy (expected_project_id p) = true →
       ∃ gce, dict_at submods "gce" gce ∧
         py_eq (get_or (JObj gce) "project_id" (JStr "")) (expected_project_id p) = true);
  ct_account : truthy (expected_service_account p) = true →
    py_in (expected_service_account p)
      (get_or (JObj claims) "google_service_accounts" (JList [])) = Ok true
}.

(** The nonce is the claim itself or the head of a list. *)
Definition nonce_claim (claims : dict) (s : string) : Prop :=
  lookup_key "eat_nonce" claims = Some (JStr s) ∨
  ∃ l, lookup_key "eat_nonce" claims = Some (JList (JStr s :: l)).

Record trusted_claims `{X509} (p : ItaPolicy) (cert_pem : list byte) (claims : dict) : Prop := {
  tc_issuer : lookup_key "iss" claims = Some (JStr ITA_ISSUER);
  tc_hw : hw_trusted p claims;
  tc_platform : platform_trusted p claims;
  tc_binding : ∃ spki, _extract_pubkey_from_cert cert_pem = Ok spki ∧
    nonce_claim claims (_base64url_encode_nopad (sha256 spki));
  tc_container : container_trusted p claims
}.

(** ** The checks decide it *)

Lemma guard_Ok (b : bool) (r : res bool) :
  (if negb b then Ok false else r) = Ok true ↔ b = true ∧ r = Ok true.
Proof. destruct b; cbn; [|split; [done|by intros [? _]]]. by split; [|intros [_ ?]]. Qed.

Lemma claim_eq claims k s :
  s ≠ "" →
  py_eq (get_or (JObj claims) k (JStr "")) (JStr s) = true ↔ lookup_key k claims = Some (JStr s).
Proof.
  intros Hs. cbn. rewrite py_eq_str_r. destruct (lookup_key k claims); split; congruence.
Qed.

Lemma py_get_obj claims k d : py_get (JObj claims) k d = Ok (get_or (JObj claims) k d).
Proof. done. Qed.

(** Reading through an object that may be absent. *)
Lemma bind_dict_at {A : Type} claims k (f : json → res A) (a : A) :
  (∀ v, (∀ o, v ≠ JObj o) → f v ≠ Ok a) →
  f (get_or (JObj claims) k (JObj [])) = Ok a ↔ ∃ o, dict_at claims k o ∧ f (JObj o) = Ok a.
Proof.
  intros Hf. unfold dict_at. cbn. destruct (lookup_key k claims) as [v|].
  - split.
    + intros Hv. destruct v as [| | | | | |o]; try (exfalso; eapply Hf; [|exact Hv]; discriminate). eauto.
    + by intros (o & [[= ->]|[[=] _]] & ?).
  - split; [eauto|]. by intros (o & [[=]|[_ ->]] & ?).
Qed.

Lemma get_bind_not_obj {A : Type} v k d (g : json → res A) (a : A) :
  (∀ o, v ≠ JObj o) → (x ← py_get v k d; g x) ≠ Ok a.
Proof. intros Hv. destruct v; cbn; try done. by destruct (Hv kvs). Qed.

Lemma dbgstat_ok (allowed : bool) v :
  (if negb allowed then in_set v (JStr <$> ["disabled"; "disabled-since-boot"])
   else in_set v (JStr <$> VALID_DBG_STATES)) = Ok true ↔
  ∃ s, v = JStr s ∧
    (s = "disabled" ∨ s = "disabled-since-boot" ∨ (s = "enabled" ∧ allowed = true)).
Proof.
  split.
  - intros Hv. destruct allowed; apply in_set_texts in Hv as (s & -> & Hs);
      exists s; (split; [done|]); unfold VALID_DBG_STATES in Hs;
      rewrite !elem_of_cons, elem_of_nil in Hs; intuition.
  - intros (s & -> & Hs). destruct allowed; cbn [negb];
      apply in_set_str; rewrite list_elem_of_fmap; exists s; (split; [done|]);
      unfold VALID_DBG_STATES; rewrite !elem_of_cons; intuition discriminate.
Qed.

Lemma no_debug_ok cs :
  (debug ← py_in (JStr "DEBUG") (get_or (JObj cs) "support_attributes" (JList [])); Ok (negb debug))
    = Ok true ↔ no_debug_attribute cs.
Proof.
  unfold no_debug_attribute. cbn [get_or].
  destruct (lookup_key _ cs) as [[| | | |s|l|o]|]; cbn -[py_eq]; try (split; done).
  - by destruct (contains _ s).
  - rewrite <- existsb_py_eq_str. destruct (existsb _ l); cbn; split; congruence.
  - by destruct (lookup_key _ o).
Qed.

Ltac run_get := repeat first [rewrite py_get_obj | rewrite ret_bind]; cbv beta.

Lemma secboot_ok claims :
  is_True (get_or (JObj claims) "secboot" (JBool false)) = true ↔
  lookup_key "secboot" claims = Some (JBool true).
Proof.
  cbn. destruct (lookup_key "secboot" claims) as [[|[]| | | | |]|]; cbn; split; congruence.
Qed.

(** The part of the hardware check that a debug policy skips. *)
Lemma attributes_ok claims :
  (submods ← py_get (JObj claims) "submods" (JObj []);
   cs ← py_get submods "confidential_space" (JObj []);
   attrs ← py_get cs "support_attributes" (JList []);
   debug ← py_in (JStr "DEBUG") attrs;
   Ok (negb debug)) = Ok true ↔
  ∃ submods cs, dict_at claims "submods" submods ∧ dict_at submods "confidential_space" cs ∧
    no_debug_attribute cs.
Proof.
  run_get. rewrite (bind_dict_at claims "submods"
    (λ submods, cs ← py_get submods _ _; attrs ← py_get cs _ _; debug ← py_in _ attrs; Ok (negb debug)))
    by (intros; by apply get_bind_not_obj).
  apply exist_proper. intros submods. run_get.
  rewrite (bind_dict_at submods "confidential_space"
    (λ cs, attrs ← py_get cs _ _; debug ← py_in _ attrs; Ok (negb debug)))
    by (intros; by apply get_bind_not_obj).
  setoid_rewrite no_debug_ok. firstorder.
Qed.

Lemma hw_claims_ok claims p : _verify_hw_claims claims p = Ok true ↔ hw_trusted p claims.
Proof.
  unfold _verify_hw_claims. run_get. rewrite guard_Ok, claim_eq by done.
  run_get. rewrite guard_Ok, secboot_ok. run_get. rewrite bind_Ok.
  split.
  - intros (H1 & H2 & b & Hb & Hr). apply guard_Ok in Hr as [-> Hr].
    apply dbgstat_ok in Hb as (s & Hs & Hs'). split; [done|done| |].
    + exists s. split; [|done]. cbn in Hs. destruct (lookup_key "dbgstat" claims); [congruence|].
      injection Hs as <-. by destruct Hs' as [?|[?|[? _]]].
    + intros Hd. rewrite Hd in Hr. by apply attributes_ok.
  - intros [H1 H2 (s & Hs & Hs') Ha]. split; [done|]. split; [done|]. exists true. split.
    + apply dbgstat_ok. exists s. cbn. by rewrite Hs.
    + cbn [negb]. destruct (truthy (allow_debug p)); [done|]. cbn [negb]. by apply attributes_ok, Ha.
Qed.

Lemma monitoring_ok cs :
  (mon ← py_get cs "monitoring_enabled" (JObj []);
   memory ← py_get mon "memory" JNull;
   Ok (negb (is_True memory))) = Ok true ↔
  ∃ o mon, cs = JObj o ∧ dict_at o "monitoring_enabled" mon ∧ lookup_key "memory" mon ≠ Some (JBool true).
Proof.
  destruct cs as [| | | | | |o]; try (split; [done|by intros (? & ? & [=] & _)]).
  run_get. rewrite (bind_dict_at o "monitoring_enabled"
    (λ mon, memory ← py_get mon _ _; Ok (negb (is_True memory))))
    by (intros; by apply get_bind_not_obj).
  assert (Hm : ∀ mon, (memory ← py_get (JObj mon) "memory" JNull; Ok (negb (is_True memory))) = Ok true
    ↔ lookup_key "memory" mon ≠ Some (JBool true)).
  { intros mon. cbn. destruct (lookup_key "memory" mon) as [[|[]| | | | |]|]; cbn; split; congruence. }
  setoid_rewrite Hm. split; [intros (mon & ? & ?); eauto|intros (? & mon & [= <-] & ?); eauto].
Qed.

Lemma versions_ok minimum v :
  existsb (version_meets minimum) (swversion_list v) = true ↔
  ∃ w n, match v with JList l => w ∈ l | u => w = u end ∧ py_int_str w = Ok n ∧ minimum <= n.
Proof.
  assert (Hw : ∀ w, version_meets minimum w = true ↔ ∃ n, py_int_str w = Ok n ∧ minimum <= n).
  { intros w. unfold version_meets. destruct (py_int_str w) as [n|e].
    - rewrite Z.leb_le. split; [eauto|by intros (? & [= ->] & ?)].
    - split; [done|by intros (? & ? & _)]. }
  rewrite existsb_exists. split.
  - intros (w & Hin%list_elem_of_In & (n & Hn & Hle)%Hw). exists w, n. split; [|done].
    destruct v; try done; by apply list_elem_of_singleton in Hin.
  - intros (w & n & Hin & Hn & Hle). exists w. rewrite Hw, <- list_elem_of_In. split; [|eauto].
    destruct v; subst; try done; by apply list_elem_of_singleton.
Qed.

Lemma version_claim_ok minimum claims :
  existsb (version_meets minimum) (swversion_list (get_or (JObj claims) "swversion" (JList []))) = true ↔
  version_floor minimum (lookup_key "swversion" claims).
Proof.
  rewrite versions_ok. unfold version_floor. cbn.
  destruct (lookup_key "swversion" claims) as [v|]; [done|].
  split; intros (w & n & Hw & _); [by apply elem_of_nil in Hw|done].
Qed.

Lemma cvm_ok claims :
  (tdx ← py_get (JObj claims) "tdx" (JObj []);
   cvm ← py_get tdx "cvm_compliance_status" (JStr "");
   Ok (py_eq cvm (JStr EXPECTED_CVM_COMPLIANCE))) = Ok true ↔
  ∃ tdx, lookup_key "tdx" claims = Some (JObj tdx) ∧
    lookup_key "cvm_compliance_status" tdx = Some (JStr EXPECTED_CVM_COMPLIANCE).
Proof.
  run_get. rewrite (bind_dict_at claims "tdx" (λ tdx, cvm ← py_get tdx _ _; Ok (py_eq cvm _)))
    by (intros; by apply get_bind_not_obj).
  assert (Hc : ∀ tdx, (cvm ← py_get (JObj tdx) "cvm_compliance_status" (JStr "");
    Ok (py_eq cvm (JStr EXPECTED_CVM_COMPLIANCE))) = Ok true ↔
    lookup_key "cvm_compliance_status" tdx = Some (JStr EXPECTED_CVM_COMPLIANCE)).
  { intros tdx. rewrite <- claim_eq by done. run_get. split; [by intros [= ?]|by intros ->]. }
  setoid_rewrite Hc. split.
  - intros (tdx & [?|[? ->]] & ?); [eauto|done].
  - intros (tdx & ? & ?). exists tdx. split; [by left|done].
Qed.

(** The monitoring check and the lookup of its object. *)
Lemma monitoring_claim_ok claims (skip : bool) :
  (submods ← py_get (JObj claims) "submods" (JObj []);
   cs ← py_get submods "confidential_space" (JObj []);
   if negb skip then
     mon ← py_get cs "monitoring_enabled" (JObj []);
     memory ← py_get mon "memory" JNull;
     Ok (negb (is_True memory))
   else Ok true) = Ok true ↔
  ∃ submods, dict_at claims "submods" submods ∧
    (skip = false → ∃ cs mon, dict_at submods "confidential_space" cs ∧
       dict_at cs "monitoring_enabled" mon ∧ lookup_key "memory" mon ≠ Some (JBool true)).
Proof.
  run_get. rewrite (bind_dict_at claims "submods" (λ submods, cs ← py_get submods _ _; if negb skip then _ else _))
    by (intros; by apply get_bind_not_obj).
  apply exist_proper. intros submods. apply and_iff_compat_l. run_get.
  destruct skip; cbn [negb]; [done|].
  rewrite (bind_dict_at submods "confidential_space" (λ cs, mon ← py_get cs _ _; _))
    by (intros; by apply get_bind_not_obj).
  setoid_rewrite monitoring_ok. split.
  - intros (cs & Hcs & o & mon & [= <-] & ?) _. eauto.
  - intros H. destruct (H eq_refl) as (cs & mon & ? & ? & ?). exists cs. eauto 8.
Qed.

Lemma platform_ok claims p : _verify_platform_identity claims p = Ok true ↔ platform_trusted p claims.
Proof.
  assert (Hst : _verify_platform_identity claims p = Ok true ↔
    lookup_key "swname" claims = Some (JStr EXPECTED_SWNAME) ∧
    (∃ tdx, lookup_key "tdx" claims = Some (JObj tdx) ∧
       lookup_key "cvm_compliance_status" tdx = Some (JStr EXPECTED_CVM_COMPLIANCE)) ∧
    (∃ submods, dict_at claims "submods" submods ∧
      (truthy (allow_memory_monitoring p) = false → ∃ cs mon, dict_at submods "confidential_space" cs ∧
       dict_at cs "monitoring_enabled" mon ∧ lookup_key "memory" mon ≠ Some (JBool true))) ∧
    (min_cs_version p = 0 ∨ version_floor (min_cs_version p) (lookup_key "swversion" claims))).
  { rewrite <- cvm_ok, <- monitoring_claim_ok, <- version_claim_ok, <- (claim_eq claims "swname") by done.
    unfold _verify_platform_identity. run_get. rewrite guard_Ok. apply and_iff_compat_l.
    destruct (py_get (get_or _ "tdx" _) _ _) as [cvm|e]; [|rewrite !raise_bind; split; [done|by intros [? _]]].
    rewrite !ret_bind, guard_Ok. cbv beta.
    destruct (py_eq cvm _); [|split; [by intros [? _]|by intros [[=] _]]]. run_get.
    destruct (py_get (get_or _ "submods" _) _ _) as [cs|e]; [|rewrite !raise_bind; split; [by intros [_ ?]|by intros (_ & ? & _)]].
    rewrite !ret_bind. destruct (if negb _ then _ else _) as [[]|e];
      [|rewrite ?ret_bind, ?raise_bind; split; [by intros [_ ?]|by intros (_ & ? & _)]..].
    rewrite ret_bind. cbn [negb]. run_get.
    destruct (Z.eqb_spec (min_cs_version p) 0); [intuition|].
    split; [intros (_ & Hv); injection Hv as Hv; auto|].
    intros (_ & _ & [?|Hv]); [done|]. by rewrite Hv. }
  rewrite Hst. split; [intros (? & ? & ? & ?); by split|by intros []].
Qed.

Lemma encode_nonempty data : data ≠ [] → _base64url_encode_nopad data ≠ "".
Proof.
  intros Hd He. apply Hd, encode_nopad_inj. by rewrite He.
Qed.

Lemma nonce_nonempty spki : _base64url_encode_nopad (sha256 spki) ≠ "".
Proof.
  apply encode_nonempty. intros H. pose proof (length_sha256 spki) as Hl. by rewrite H in Hl.
Qed.

Lemma nonce_ok claims n :
  n ≠ "" →
  let eat_nonce := get_or (JObj claims) "eat_nonce" (JStr "") in
  truthy eat_nonce = true ∧ py_eq (nonce_value eat_nonce) (JStr n) = true ↔ nonce_claim claims n.
Proof.
  intros Hn. cbn. unfold nonce_claim. rewrite py_eq_str_r.
  destruct (lookup_key "eat_nonce" claims) as [[| | | |s|[|v l]|]|]; cbn;
    try (split; [by intros [_ [=]]|intros [[=]|[? [=]]]]).
  - split; [intros [_ [= ->]]; by left|intros [[= ->]|[? [=]]]].
    split; [by rewrite (proj2 (String.eqb_neq _ _))|done].
  - split; [intros [_ ->]; right; by exists l|by intros [[=]|[? [= -> ->]]]].
Qed.

Lemma binding_ok `{X509} claims cert_pem :
  _verify_key_binding claims cert_pem = Ok true ↔
  ∃ spki, _extract_pubkey_from_cert cert_pem = Ok spki ∧
    nonce_claim claims (_base64url_encode_nopad (sha256 spki)).
Proof.
  unfold _verify_key_binding, _compute_pubkey_hash_b64url. run_get. rewrite guard_Ok.
  destruct (_extract_pubkey_from_cert cert_pem) as [spki|e];
    [|rewrite !raise_bind; split; [by intros [_ ?]|by intros (? & ? & _)]].
  rewrite !ret_bind. split.
  - intros [Ht [= Hn]]. exists spki. split; [done|]. apply nonce_ok; [apply nonce_nonempty|done].
  - intros (? & [= <-] & [Ht ->]%nonce_ok); [done|apply nonce_nonempty].
Qed.

Lemma listed_Ok (listed : res bool) (log : res (list json)) :
  (b ← listed; if negb b then log;; Ok false else Ok true) = Ok true ↔ listed = Ok true.
Proof. destruct listed as [[]|]; [done| |done]. split; [|done]. by destruct log. Qed.

Lemma digest_check_ok submods p :
  digest_check (JObj submods) p = Ok true ↔
  ∃ container digest, dict_at submods "container" container ∧
    lookup_key "image_digest" container = Some digest ∧ truthy digest = true ∧
    in_set digest (expected_image_digests p) = Ok true.
Proof.
  unfold digest_check. run_get.
  rewrite (bind_dict_at submods "container" (λ c, d ← py_get c _ _; if negb (truthy d) then _ else
    listed ← in_set d _; _)) by (intros; by apply get_bind_not_obj).
  apply exist_proper. intros container. run_get. rewrite guard_Ok, listed_Ok. cbn [get_or].
  destruct (lookup_key "image_digest" container) as [d|].
  - split; [intros (? & ? & ?); eauto|by intros (? & ? & [= <-] & ?)].
  - split; [by intros (? & ? & _)|by intros (? & ? & [=] & _)].
Qed.

Lemma project_check_ok submods p :
  project_check (JObj submods) p = Ok true ↔
  (truthy (expected_project_id p) = true →
     ∃ gce, dict_at submods "gce" gce ∧
       py_eq (get_or (JObj gce) "project_id" (JStr "")) (expected_project_id p) = true).
Proof.
  unfold project_check. destruct (truthy (expected_project_id p)); [|split; [done|by intros _]]. run_get.
  rewrite (bind_dict_at submods "gce" (λ gce, pid ← py_get gce _ _; Ok (py_eq pid _)))
    by (intros; by apply get_bind_not_obj).
  split.
  - intros (gce & Hg & He) _. exists gce. split; [done|]. revert He. run_get. by intros [= ?].
  - intros H. destruct (H eq_refl) as (gce & Hg & He). exists gce. split; [done|]. run_get. by rewrite He.
Qed.

Lemma account_check_ok claims p :
  account_check claims p = Ok true ↔
  (truthy (expected_service_account p) = true →
     py_in (expected_service_account p)
       (get_or (JObj claims) "google_service_accounts" (JList [])) = Ok true).
Proof.
  unfold account_check. destruct (truthy (expected_service_account p)); [|split; [done|by intros _]].
  run_get. split; [done|]. intros H. by apply H.
Qed.

Lemma guard_bind_Ok (m r : res bool) :
  (b ← m; if negb b then Ok false else r) = Ok true ↔ m = Ok true ∧ r = Ok true.
Proof.
  destruct m as [b|e]; [rewrite ret_bind, guard_Ok|].
  - split; [by intros [-> ?]|by intros [[= ->] ?]].
  - split; [done|by intros [? _]].
Qed.

Lemma container_ok claims p :
  _verify_container_identity claims p = Ok true ↔ container_trusted p claims.
Proof.
  unfold _verify_container_identity. rewrite py_get_obj, ret_bind.
  rewrite (bind_dict_at claims "submods" (λ submods, d ← digest_check submods p; if negb d then _ else
    pr ← project_check submods p; _)) by (intros [] Hv; try done; by destruct (Hv kvs)).
  split.
  - intros (submods & Hs & H). rewrite !guard_bind_Ok, digest_check_ok, project_check_ok, account_check_ok in H.
    destruct H as (? & ? & ?). split; eauto.
  - intros [(submods & Hs & Hd & Hp) Ha]. exists submods. split; [done|].
    by rewrite !guard_bind_Ok, digest_check_ok, project_check_ok, account_check_ok.
Qed.

Lemma check_claims_ok `{X509} p claims cert_pem :
  check_claims p claims cert_pem = Ok true ↔ trusted_claims p cert_pem claims.
Proof.
  unfold check_claims. rewrite !guard_bind_Ok, hw_claims_ok, platform_ok, binding_ok, container_ok.
  assert (Hi : _verify_issuer claims = Ok true ↔ lookup_key "iss" claims = Some (JStr ITA_ISSUER)).
  { rewrite <- claim_eq by done. unfold _verify_issuer. run_get. split; [by intros [= ?]|by intros ->]. }
  rewrite Hi. split; [intros (? & ? & ? & ? & ? & _); by split|by intros []].
Qed.

(** ** The verifier *)

Lemma dict_at_fun d k o1 o2 : dict_at d k o1 → dict_at d k o2 → o1 = o2.
Proof. intros [H1|[H1 ->]] [H2|[H2 ->]]; congruence. Qed.

(** Among well-formed digests, membership pins down the text itself. *)
Lemma digest_in_policy v ds :
  Forall digest_ok ds → in_set v ds = Ok true →
  ∃ s, v = JStr s ∧ String.prefix "sha256:" s = true ∧ JStr s ∈ ds.
Proof.
  unfold in_set. intros Hds Hv. destruct (hashable v); [|done]. injection Hv as Hv.
  apply existsb_exists in Hv as (x & Hx%list_elem_of_In & He).
  rewrite Forall_forall in Hds. destruct (Hds x Hx) as (s & -> & Hs).
  apply py_eq_str_r in He as ->. eauto.
Qed.

Section accept.
Context `{Host, X509, PyJWT}.

(** A key set served to a call that started in [w] and ended in [w']: the
    cached one while it is fresh, or one downloaded during the call. *)
Definition trusted_keyset (w w' : world) (d : json) : Prop :=
  (cache_data (w_jwks w) = Some d ∧ clock (w_tick w) - cache_ts (w_jwks w) <= _JWKS_TTL) ∨
  ∃ n, (w_tick w <= n < w_tick w')%nat ∧ http_get_json n ITA_JWKS_URL = Ok d ∧
    Downloaded ITA_JWKS_URL d ∈ w_log w'.

(** Time passes, and the log grows. *)
Definition after (w w' : world) : Prop := (w_tick w <= w_tick w')%nat ∧ w_log w `prefix_of` w_log w'.

#[local] Instance after_preorder : PreOrder after.
Proof. split; [by split|]. intros w1 w2 w3 [? ?] [? ?]. split; [lia|by etrans]. Qed.

Lemma after_log w w' i : after w w' → i ∈ w_log w → i ∈ w_log w'.
Proof. intros [_ [l ->]] Hi. apply elem_of_app. by left. Qed.

(** The token's signature was verified, with an accepted algorithm, audience
    and validity period, under a key of a trusted key set that carries the
    token's key id. *)
Record signed_by_ita (p : ItaPolicy) (token : string) (w w' : world) (claims : dict) : Prop := {
  sb_key : ∃ d keys k header kid n,
    trusted_keyset w w' d ∧ PyJWKSet_from_dict d = Ok keys ∧ k ∈ keys ∧
    get_unverified_header token = Ok header ∧ lookup_key "kid" header = Some kid ∧
    truthy kid = true ∧ py_eq (key_id k) kid = true ∧ (w_tick w <= n < w_tick w')%nat ∧
    ReadClock (clock n) ∈ w_log w' ∧
    jwt_decode (clock n) token (key k) ALGORITHMS EXPECTED_AUDIENCE DECODE_OPTIONS
      (clock_skew_seconds p) = Ok claims
}.

Lemma get_jwks_keyset w d w' :
  get_jwks w = (Ok d, w') →
  trusted_keyset w w' d ∧ cache_data (w_jwks w') = Some d ∧ after w w'.
Proof.
  intros Hg. pose proof (get_jwks_outcome w) as Ho. rewrite Hg in Ho.
  inversion Ho as [d' Hc Ht|d' Hf Hh| |]; subst; cbn.
  - split; [by left|]. split; [done|]. split; cbn; [lia|by eexists].
  - split; [right|split; [done|split; cbn; [lia|by eexists]]]. exists (S (w_tick w)). split; [cbn; lia|]. split; [done|].
    apply elem_of_app. right. apply elem_of_cons. right. apply list_elem_of_here.
Qed.

(** The world after [_JWKS_CACHE["timestamp"] = 0]. *)
Definition expired (w : world) : world := World (w_tick w) (JwksCache (cache_data (w_jwks w)) 0) (w_log w).

Lemma expire_run w : expire_jwks w = (Ok tt, expired w).
Proof. done. Qed.

Lemma find_key_spec {K : Type} kid (keys : list (jwk K)) k :
  find_key kid keys = Some k → k ∈ keys ∧ py_eq (key_id k) kid = true.
Proof. intros [? ?]%List.find_some. by rewrite list_elem_of_In. Qed.

Lemma keyset_later w w1 w2 d :
  trusted_keyset w w1 d → after w1 w2 → trusted_keyset w w2 d.
Proof.
  intros [?|(n & Hn & Hd & Hl)] Ha; [by left|right]. exists n. split; [destruct Ha; lia|]. split; [done|by eapply after_log].
Qed.

(** A key the verifier uses comes from a trusted key set: the one already
    cached when the call began, or one downloaded since. *)
Lemma signing_key_trusted w w1 d kid keys k w2 :
  trusted_keyset w w1 d → cache_data (w_jwks w1) = Some d → after w w1 →
  PyJWKSet_from_dict d = Ok keys → signing_key d kid keys w1 = (Ok (Some k), w2) →
  after w1 w2 ∧ ∃ d' keys',
    trusted_keyset w w2 d' ∧ PyJWKSet_from_dict d' = Ok keys' ∧ k ∈ keys' ∧ py_eq (key_id k) kid = true.
Proof.
  intros Hd Hcache Htick Hkeys Hs. unfold signing_key in Hs.
  destruct (find_key kid keys) as [k'|] eqn:Hf.
  - inv_st. apply find_key_spec in Hf as [? ?]. split; [done|]. by exists d, keys.
  - rewrite (st_bind_run _ _ _ _ _ (expire_run w1)) in Hs.
    apply st_bind_Ok in Hs as (d' & w3 & Hg & Hs).
    apply st_bind_Ok in Hs as (keys' & w4 & [= Hk' ->] & [= Hf' ->]).
    apply find_key_spec in Hf' as [? ?].
    apply get_jwks_keyset in Hg as (Hk & _ & Hlt). change (after w1 w2) in Hlt. split; [done|].
    exists d', keys'. split; [|done]. destruct Hk as [[Hc _]|(n & Hn & Hh)].
    + cbn in Hc. rewrite Hcache in Hc. injection Hc as <-. by eapply keyset_later.
    + right. exists n. cbn in Hn. destruct Htick. split; [lia|done].
Qed.

(** The verbose log touches neither the clock nor the cache. *)
Lemma verbose_run (b : bool) d kid (w : world) (r : res unit) w' :
  (if b then lift (_log_verbose_jwks_info d kid);; mret tt else mret tt) w = (r, w') → w' = w.
Proof.
  destruct b; [|by intros [= _ ->]]. st_unfold. destruct (_log_verbose_jwks_info d kid); congruence.
Qed.

Lemma claims_log_run (b : bool) claims (w : world) :
  (if b then lift (Ok (_log_verbose_claims_info claims));; mret tt else mret tt) w = (Ok tt : res unit, w).
Proof. by destruct b. Qed.

(** The claims of step 1 are those of a token signed by ITA. *)
Lemma signed_claims_signed p token w claims w' :
  signed_claims p token w = (Ok (Some claims), w') → signed_by_ita p token w w' claims.
Proof.
  intros Hs. unfold signed_claims in Hs.
  apply st_bind_Ok in Hs as (d & w1 & Hg & Hs).
  apply get_jwks_keyset in Hg as (Hd & Hcache & Htick).
  apply st_bind_Ok in Hs as (keys & wk & [= Hk ->] & Hs).
  apply st_bind_Ok in Hs as (header & wh & [= Hh ->] & Hs).
  destruct (truthy (get_or (JObj header) "kid" JNull)) eqn:Ht; [|done]. cbn [negb] in Hs.
  apply st_bind_Ok in Hs as ([] & wl & ->%verbose_run & Hs).
  apply st_bind_Ok in Hs as ([k|] & w2 & Hsk & Hs); [|done].
  apply st_bind_Ok in Hs as (now & w3 & [= <- <-] & Hs).
  apply st_bind_Ok in Hs as (claims' & w4 & [= Hj <-] & Hs).
  rewrite (st_bind_run _ _ _ _ _ (claims_log_run _ _ _)) in Hs. injection Hs as -> <-.
  eapply signing_key_trusted in Hsk as (Hle & d' & keys' & Hd' & Hk' & Hin & He); try done.
  split. exists d', keys', k, header, (get_or (JObj header) "kid" JNull), (w_tick w2). cbn [w_tick w_log].
  split; [eapply keyset_later; [done|split; cbn; [lia|by eexists]]|].
  assert (Hkid : lookup_key "kid" header = Some (get_or (JObj header) "kid" JNull)).
  { cbn in Ht |- *. by destruct (lookup_key "kid" header). }
  repeat (split; [done|]). destruct Htick, Hle. split; [lia|]. split; [|done].
  apply elem_of_app. right. apply list_elem_of_here.
Qed.

(** The token was verified, at a time the process read off its clock, under a
    key of a key set it downloaded from ITA. *)
Definition vouched (p : ItaPolicy) (token : string) (log : list interaction) (claims : dict) : Prop :=
  ∃ ks keys k header kid now,
    Downloaded ITA_JWKS_URL ks ∈ log ∧ PyJWKSet_from_dict ks = Ok keys ∧ k ∈ keys ∧
    get_unverified_header token = Ok header ∧ lookup_key "kid" header = Some kid ∧
    truthy kid = true ∧ py_eq (key_id k) kid = true ∧ ReadClock now ∈ log ∧
    jwt_decode now token (key k) ALGORITHMS EXPECTED_AUDIENCE DECODE_OPTIONS (clock_skew_seconds p) = Ok claims.

Lemma signed_vouched p token w w' claims :
  genuine w → w_log w `prefix_of` w_log w' → signed_by_ita p token w w' claims → vouched p token (w_log w') claims.
Proof.
  intros Hg [l Hl] [(d & keys & k & header & kid & n & Hd & Hk & Hin & Hh & Hkid & Ht & He & _ & Hc & Hj)].
  exists d, keys, k, header, kid, (clock n). split; [|tauto].
  destruct Hd as [[Hd _]|(m & _ & _ & Hd)]; [|done]. rewrite Hl. apply elem_of_app. left. by apply (ge_keys w Hg).
Qed.

Lemma vouched_mono p token log log' claims :
  log `prefix_of` log' → vouched p token log claims → vouched p token log' claims.
Proof.
  intros [l ->] (ks & keys & k & header & kid & now & Hd & Hk & Hin & Hh & Hkid & Ht & He & Hc & Hj).
  exists ks, keys, k, header, kid, now. rewrite !elem_of_app. tauto.
Qed.

Lemma ita_verifier_stepping p token cert_pem : stepping (ita_verifier p token cert_pem).
Proof.
  unfold ita_verifier. apply stepping_bind; [|intros claims; stepping].
  apply stepping_try; [unfold signed_claims, signing_key; stepping|].
  intros e k Hk. unfold jwt_failure in Hk. destruct (exn_type e); repeat case_match; simplify_eq; apply stepping_ret.
Qed.

(** Every exception of step 1 that is an [Exception] becomes a rejection. *)
Lemma jwt_failure_some e :
  is_exception e = true → jwt_failure e = Some (mret None).
Proof. unfold jwt_failure, is_exception. by destruct (exn_type e). Qed.

Lemma jwt_failure_none e : is_exception e = false → jwt_failure e = None.
Proof. unfold jwt_failure, is_exception. by destruct (exn_type e). Qed.

Lemma ita_accepts p token cert_pem w w' :
  ita_verifier p token cert_pem w = (Ok true, w') →
  ∃ claims, signed_by_ita p token w w' claims ∧ trusted_claims p cert_pem claims.
Proof.
  unfold ita_verifier. intros Hv. apply st_bind_Ok in Hv as ([claims|] & w1 & Hc & Hv); [|done].
  injection Hv as Hv <-. exists claims. split; [|by apply check_claims_ok].
  unfold try_except in Hc. destruct (signed_claims p token w) as [[o|e] w2] eqn:Hs.
  - injection Hc as -> ->. by apply signed_claims_signed.
  - destruct (is_exception e) eqn:He; [rewrite jwt_failure_some in Hc by done|rewrite jwt_failure_none in Hc by done]; done.
Qed.

(** C1: soundness of the ITA verifier. Whenever it answers [True], the token's
    signature was verified, with an accepted algorithm, the fixed audience and
    the configured leeway, under a key with the token's key id from a key set
    that was fresh in the cache or downloaded from ITA during the call; and the
    signed claims satisfy every rule of the policy: issuer, hardware model,
    secure boot, debug state, platform software and version floor, container
    identity, and the nonce binds the certificate's public key. *)
Theorem ita_verifier_sound p token cert_pem w w' :
  ita_verifier p token cert_pem w = (Ok true, w') →
  ∃ claims, signed_by_ita p token w w' claims ∧ trusted_claims p cert_pem claims.
Proof. apply ita_accepts. Qed.

(** A first lookup that knows the key, and a decode that accepts the token. *)
Record key_served (p : ItaPolicy) (token : string) (w : world) (claims : dict) : Prop := {
  ks_fetch : ∃ d w1 keys header k,
    get_jwks w = (Ok d, w1) ∧ PyJWKSet_from_dict d = Ok keys ∧
    get_unverified_header token = Ok header ∧
    truthy (get_or (JObj header) "kid" JNull) = true ∧
    find_key (get_or (JObj header) "kid" JNull) keys = Some k ∧
    (is_test os_environ = true → is_ok (_log_verbose_jwks_info d (get_or (JObj header) "kid" JNull)) = true) ∧
    jwt_decode (clock (w_tick w1)) token (key k) ALGORITHMS EXPECTED_AUDIENCE DECODE_OPTIONS
      (clock_skew_seconds p) = Ok claims
}.

Lemma signed_claims_served p token w claims :
  key_served p token w claims → ∃ w', signed_claims p token w = (Ok (Some claims), w').
Proof.
  intros [(d & w1 & keys & header & k & Hg & Hk & Hh & Ht & Hf & Hl & Hj)].
  unfold signed_claims. rewrite (st_bind_run _ _ _ _ _ Hg).
  eexists. rewrite Hk, (st_bind_run _ _ _ _ _ (lift_run _ _)), Hh, (st_bind_run _ _ _ _ _ (lift_run _ _)), Ht.
  cbn [negb]. assert (Hv : ∀ s : world, (if is_test os_environ then
      lift (_log_verbose_jwks_info d (get_or (JObj header) "kid" JNull));; mret tt else mret tt) s = (Ok tt, s : world)).
  { intros s. destruct (is_test os_environ); [|done]. specialize (Hl eq_refl).
    apply is_ok_true in Hl as [ls Hls]. st_unfold. by rewrite Hls. }
  rewrite (st_bind_run _ _ _ _ _ (Hv w1)). unfold signing_key. rewrite Hf.
  rewrite (st_bind_run (mret (Some k)) _ _ _ _ eq_refl), (st_bind_run time_time _ _ _ _ eq_refl), Hj.
  rewrite (st_bind_run _ _ _ _ _ (lift_run _ _)), (st_bind_run _ _ _ _ _ (claims_log_run _ _ _)). done.
Qed.

(** C10: completeness. A token whose key the key set knows and whose decoding
    succeeds is accepted as soon as its claims satisfy the policy: no
    legitimate workload is turned away. *)
Theorem ita_verifier_complete p token cert_pem w claims :
  key_served p token w claims → trusted_claims p cert_pem claims →
  ∃ w', ita_verifier p token cert_pem w = (Ok true, w').
Proof.
  intros [w' Hs]%signed_claims_served Ht%check_claims_ok. exists w'.
  unfold ita_verifier, try_except. st_unfold. rewrite Hs. by rewrite Ht.
Qed.

(** C14: step 1 fails closed. When the key set cannot be had, the token cannot
    be parsed, its key is unknown or its signature, audience or dates are
    refused, the verifier answers [False]: only a [SystemExit] raised inside a
    library escapes. *)
Theorem ita_verifier_fails_closed p token cert_pem w :
  (∀ claims w', signed_claims p token w ≠ (Ok (Some claims), w')) →
  (∀ e w', signed_claims p token w = (Raise e, w') → is_exception e = true) →
  ∃ w', ita_verifier p token cert_pem w = (Ok false, w').
Proof.
  intros Hno He. unfold ita_verifier, try_except. st_unfold.
  destruct (signed_claims p token w) as [[[claims|]|e] w1] eqn:Hs.
  - by destruct (Hno claims w1).
  - by exists w1.
  - rewrite jwt_failure_some by eauto. by exists w1.
Qed.

(** C12: an accepted token binds one public key. Two certificates accepted with
    the same signed claims have public keys with the same SHA-256 digest: a
    token cannot be replayed under another key without a hash collision. *)
Theorem key_binding_unique p q cert1 cert2 claims spki1 spki2 :
  check_claims p claims cert1 = Ok true → check_claims q claims cert2 = Ok true →
  _extract_pubkey_from_cert cert1 = Ok spki1 → _extract_pubkey_from_cert cert2 = Ok spki2 →
  sha256 spki1 = sha256 spki2.
Proof.
  intros Hc1%check_claims_ok Hc2%check_claims_ok Hx1 Hx2. destruct (tc_binding _ _ _ Hc1) as (s1 & Hs1 & Hn1).
  destruct (tc_binding _ _ _ Hc2) as (s2 & Hs2 & Hn2).
  rewrite Hx1 in Hs1. injection Hs1 as <-. rewrite Hx2 in Hs2. injection Hs2 as <-.
  apply encode_nopad_inj.
  destruct Hn1 as [Hn1|[l1 Hn1]], Hn2 as [Hn2|[l2 Hn2]]; congruence.
Qed.

(** C13: key rotation. When the cached key set does not know the token's key,
    the verifier discards it, downloads the key set again (the clock being more
    than a cache lifetime past the epoch, as any wall clock is) and uses the key
    it finds there: a rotated key is honoured at once instead of after the
    cache's 24 hours. *)
Theorem key_rotation p token w d keys o' ks' keys' header k claims :
  (∀ n, _JWKS_TTL < clock n) →
  cache_data (w_jwks w) = Some d → is_fresh (w_jwks w) (clock (w_tick w)) = true →
  PyJWKSet_from_dict d = Ok keys → get_unverified_header token = Ok header →
  truthy (get_or (JObj header) "kid" JNull) = true →
  find_key (get_or (JObj header) "kid" JNull) keys = None →
  is_test os_environ = false →
  http_get_json (S (S (w_tick w))) ITA_JWKS_URL = Ok (JObj o') →
  lookup_key "keys" o' = Some (JList ks') →
  PyJWKSet_from_dict (JObj o') = Ok keys' →
  find_key (get_or (JObj header) "kid" JNull) keys' = Some k →
  jwt_decode (clock (3 + w_tick w)) token (key k) ALGORITHMS EXPECTED_AUDIENCE DECODE_OPTIONS
    (clock_skew_seconds p) = Ok claims →
  signed_claims p token w =
    (Ok (Some claims), World (4 + w_tick w) (JwksCache (Some (JObj o')) (clock (S (w_tick w))))
      (w_log w ++ [ReadClock (clock (w_tick w)); ReadClock (clock (S (w_tick w)));
                   Downloaded ITA_JWKS_URL (JObj o'); ReadClock (clock (3 + w_tick w))])).
Proof.
  intros Hclock Hc Hfresh Hk Hh Ht Hf Htest Hd' Hn Hk' Hf' Hj.
  unfold signed_claims. rewrite (st_bind_run _ _ _ _ _ (get_jwks_hit _ _ Hc Hfresh)).
  rewrite Hk, (st_bind_run _ _ _ _ _ (lift_run _ _)), Hh, (st_bind_run _ _ _ _ _ (lift_run _ _)), Ht, Htest.
  cbn [negb]. rewrite (st_bind_run (mret tt) _ _ tt _ eq_refl).
  set (w1 := World (S (w_tick w)) (w_jwks w) (w_log w ++ [ReadClock (clock (w_tick w))])).
  assert (Hs : signing_key d (get_or (JObj header) "kid" JNull) keys w1 =
    (Ok (Some k), World (3 + w_tick w) (JwksCache (Some (JObj o')) (clock (S (w_tick w))))
      (w_log w1 ++ [ReadClock (clock (S (w_tick w))); Downloaded ITA_JWKS_URL (JObj o')]))).
  { unfold signing_key. rewrite Hf, (st_bind_run _ _ _ _ _ (expire_run w1)).
    assert (Hold : is_fresh (w_jwks (expired w1)) (clock (w_tick (expired w1))) = false).
    { unfold is_fresh. cbn. rewrite Hc. specialize (Hclock (S (w_tick w))). lia. }
    rewrite (st_bind_run _ _ _ _ _ (get_jwks_miss _ _ _ Hold Hd' Hn)).
    rewrite Hk', (st_bind_run _ _ _ _ _ (lift_run _ _)), Hf'. done. }
  rewrite (st_bind_run _ _ _ _ _ Hs), (st_bind_run time_time _ _ _ _ eq_refl). cbn [w_tick w_jwks w_log w1].
  by rewrite Hj, (st_bind_run _ _ _ _ _ (lift_run _ _)), <- !app_assoc.
Qed.

(** C11: what a production client is promised. Outside the test environment, a
    policy that passed [validate] accepts only claims of a machine with
    debugging disabled and no debug attribute, memory monitoring off, a
    reported version at or above a positive floor, and an image digest of the
    form [sha256:...] listed in the policy. *)
Theorem production_hardened p cert_pem claims env :
  is_test env = false → ita_validate env p = Ok tt →
  check_claims p claims cert_pem = Ok true →
  (∃ s, lookup_key "dbgstat" claims = Some (JStr s) ∧ s ≠ "enabled") ∧
  (∃ submods cs mon container digest,
     dict_at claims "submods" submods ∧ dict_at submods "confidential_space" cs ∧
     no_debug_attribute cs ∧
     dict_at cs "monitoring_enabled" mon ∧ lookup_key "memory" mon ≠ Some (JBool true) ∧
     dict_at submods "container" container ∧
     lookup_key "image_digest" container = Some (JStr digest) ∧
     String.prefix "sha256:" digest = true ∧ JStr digest ∈ expected_image_digests p) ∧
  0 < min_cs_version p ∧ version_floor (min_cs_version p) (lookup_key "swversion" claims).
Proof.
  intros Ht (_ & Hd & Hv & Hb)%ita_validate_ok [_ Hhw Hpl _ Hct]%check_claims_ok.
  destruct Hb as [?|[Hdebug Hmem]]; [congruence|].
  destruct Hhw as [_ _ (s & Hs & Hs') Hattr], Hpl as [_ _ (sm1 & Hsm1 & Hmon) Hver].
  destruct Hct as [(sm2 & Hsm2 & (c & d & Hc & Hd1 & Ht1 & Hin) & _) _].
  destruct (Hattr Hdebug) as (sm3 & cs & Hsm3 & Hcs & Hno).
  destruct (Hmon Hmem) as (cs' & mon & Hcs' & Hmon' & Hm).
  assert (sm1 = sm3) as <- by eauto using dict_at_fun.
  assert (sm1 = sm2) as <- by eauto using dict_at_fun.
  assert (cs' = cs) as -> by eauto using dict_at_fun.
  apply digest_in_policy in Hin as (ds & -> & Hpre & Hin'); [|done].
  split; [|split; [|split; [done|]]].
  - exists s. split; [done|]. destruct Hs' as [->|[->|[_ ?]]]; congruence.
  - exists sm1, cs, mon, c, ds. repeat (split; [done|]). done.
  - destruct Hver; [lia|done].
Qed.
End accept.

(** ** The order of the digests does not matter *)

Lemma in_set_ext v l m : (∀ x, x ∈ l ↔ x ∈ m) → in_set v l = in_set v m.
Proof.
  intros Hlm. unfold in_set. destruct (hashable v); [|done]. f_equal.
  apply eq_true_iff_eq. rewrite !existsb_exists.
  setoid_rewrite <- list_elem_of_In. by setoid_rewrite Hlm.
Qed.

Lemma container_trusted_ext claims p q :
  policy_equiv p q → container_trusted p claims → container_trusted q claims.
Proof.
  intros [Hd Hpr Hac _ _ _ _] [(sm & Hsm & (c & d & Hc & Hd1 & Ht & Hin) & Hp) Ha].
  split; [|by rewrite <- Hac]. exists sm. split; [done|]. split; [|by rewrite <- Hpr].
  exists c, d. by rewrite <- (in_set_ext d _ _ Hd).
Qed.

#[global] Instance trusted_claims_proper `{X509} :
  Proper (policy_equiv ==> eq ==> eq ==> iff) trusted_claims.
Proof.
  assert (Hone : ∀ p q cert claims, policy_equiv p q → trusted_claims p cert claims → trusted_claims q cert claims).
  { intros p q cert claims Hpq [Hi Hh Hp Hb Hc]. split; [done| | |done|by eapply container_trusted_ext].
    - destruct Hpq as [_ _ _ _ Hde _ _]. destruct Hh as [? ? Hs Ha]. rewrite Hde in *. by split.
    - destruct Hpq as [_ _ _ Hv _ Hmo _]. destruct Hp as [? ? Hs Ha]. rewrite Hv, Hmo in *. by split. }
  intros p q Hpq cert ? <- claims ? <-. split; apply Hone; [done|by symmetry].
Qed.

(** Whether the claims are accepted depends on the set of digests only, not on
    the order in which the set is iterated. *)
#[global] Instance check_claims_proper `{X509} :
  Proper (policy_equiv ==> eq ==> eq ==> iff) (λ p claims cert, check_claims p claims cert = Ok true).
Proof. intros p q Hpq claims ? <- cert ? <-. by rewrite !check_claims_ok, Hpq. Qed.

(** ** Concrete runs *)

Section demo.
#[local] Existing Instance demo_x509.
#[local] Existing Instance demo_jwt.

Lemma demo_trusted : trusted_claims demo_policy demo_cert demo_claims.
Proof. apply check_claims_ok. vm_compute. reflexivity. Defined.
End demo.

Lemma ita_verifier_sound_witness :
  ∃ w' claims,
    ita_verifier (H:=demo_host ∅) (H0:=demo_x509) (H1:=demo_jwt) demo_policy "tok" demo_cert init_world
      = (Ok true, w') ∧
    signed_by_ita (H:=demo_host ∅) (H1:=demo_jwt) demo_policy "tok" init_world w' claims ∧
    trusted_claims (H:=demo_x509) demo_policy demo_cert claims.
Proof.
  pose (r := ita_verifier (H:=demo_host ∅) (H0:=demo_x509) (H1:=demo_jwt) demo_policy "tok" demo_cert init_world).
  assert (Hr : r = (Ok true, snd r)) by (vm_compute; reflexivity).
  exists (snd r).
  destruct (ita_verifier_sound (H:=demo_host ∅) (H0:=demo_x509) (H1:=demo_jwt)
    demo_policy "tok" demo_cert init_world (snd r) Hr) as (claims & ? & ?).
  exists claims. auto.
Defined.

Lemma demo_served :
  key_served (H:=demo_host ∅) (H0:=demo_x509) (H1:=demo_jwt) demo_policy "tok" init_world demo_claims.
Proof.
  split. eexists _, _, _, _, _. repeat (split; [vm_compute; reflexivity|]). done.
Defined.

Lemma ita_verifier_complete_witness :
  ∃ w', ita_verifier (H:=demo_host ∅) (H0:=demo_x509) (H1:=demo_jwt) demo_policy "tok" demo_cert init_world
          = (Ok true, w').
Proof.
  apply (ita_verifier_complete (H:=demo_host ∅) (H0:=demo_x509) (H1:=demo_jwt)
    demo_policy "tok" demo_cert init_world demo_claims); [apply demo_served|apply demo_trusted].
Defined.

(** A forged token is rejected, not raised about. *)
Lemma ita_verifier_fails_closed_witness :
  ∃ w', ita_verifier (H:=demo_host ∅) (H0:=demo_x509) (H1:=demo_jwt) demo_policy "forged" demo_cert init_world
          = (Ok false, w').
Proof.
  apply (ita_verifier_fails_closed (H:=demo_host ∅) (H0:=demo_x509) (H1:=demo_jwt)).
  - intros claims w'. vm_compute. discriminate.
  - intros e w'. vm_compute. by intros [= <- <-].
Defined.

(** A renewed certificate of the same key. *)
Lemma key_binding_unique_witness :
  ∃ k1 k2, _extract_pubkey_from_cert (H:=demo_x509) demo_cert = Ok k1 ∧
    _extract_pubkey_from_cert (H:=demo_x509) (demo_cert ++ [x07]) = Ok k2 ∧ sha256 k1 = sha256 k2.
Proof.
  exists demo_cert, demo_cert. split; [reflexivity|]. split; [reflexivity|].
  apply (key_binding_unique (H0:=demo_x509) demo_policy demo_policy demo_cert (demo_cert ++ [x07]) demo_claims);
    vm_compute; reflexivity.
Defined.

Lemma key_rotation_witness :
  signed_claims (H:=demo_host ∅) (H0:=demo_x509) (H1:=demo_jwt) demo_policy "tok" stale_world =
    (Ok (Some demo_claims), World 4 (JwksCache (Some (demo_keys ["k1"; "k2"])) (demo_clock 1))
      [ReadClock (demo_clock 0); ReadClock (demo_clock 1);
       Downloaded ITA_JWKS_URL (demo_keys ["k1"; "k2"]); ReadClock (demo_clock 3)]).
Proof.
  eapply (key_rotation (H:=demo_host ∅) (H0:=demo_x509) (H1:=demo_jwt) demo_policy "tok" stale_world);
    [intros n; cbn; unfold demo_clock, _JWKS_TTL; lia|vm_compute; reflexivity..].
Defined.

Lemma production_hardened_witness :
  0 < min_cs_version demo_policy ∧
  version_floor (min_cs_version demo_policy) (lookup_key "swversion" demo_claims).
Proof.
  destruct (production_hardened (H0:=demo_x509) demo_policy demo_cert demo_claims ∅) as (_ & _ & ?);
    [reflexivity|reflexivity|vm_compute; reflexivity|done].
Defined.
