(* ===== verification/Rpc.v ===== *)
(** The session service as its clients see it: the messages of
    [tee/session_manager.proto], the generated stub and the gRPC channels.

    A channel is its immutable description (number, target, pinned root
    certificates); whether it is still open is part of the state, as is the
    trace of the calls made so far, which the code does not keep and the
    theorems speak about. *)

From S2P Require Import Prelude PyText PyValue Policy World.

Open Scope Z_scope.

(** ** Messages *)

Record SessionPolicy := {
  policy_class : string;
  input_schema_json : string;
  output_schema_json : string;
  expected_participants : Z;
  timeout_seconds : Z;
  sdp_signature : string;
  signature_key_id : string
}.

Inductive rpc_request :=
| EchoRequest (message : string)
| CreateSessionRequest (policy : SessionPolicy) (client_nonce : string)
| JoinSessionRequest (invitation_token role client_nonce : string)
| AcceptPolicyRequest (participant_token : string)
| SubmitInputRequest (participant_token input_json : string)
| GetResultRequest (participant_token : string)
| GetSessionStatusRequest (participant_token : string).

(** Enum fields of proto3 are open: any integer may arrive. *)
Record CreateSessionResponse := {
  cr_invitation_token : string; cr_state : Z; cr_participant_token : string }.
Record JoinSessionResponse := {
  jr_state : Z; jr_policy : SessionPolicy; jr_participant_token : string }.
Record AcceptPolicyResponse := { ar_state : Z }.
Record SubmitInputResponse := { sr_state : Z; sr_remaining_inputs : Z }.
Record GetResultResponse := {
  gr_state : Z; gr_result_json : string; gr_error_code : Z; gr_error_detail : string }.
Record GetSessionStatusResponse := {
  st_state : Z; st_participants_joined : Z; st_participants_accepted : Z; st_inputs_received : Z }.

Definition response (r : rpc_request) : Type :=
  match r with
  | EchoRequest _ => string
  | CreateSessionRequest _ _ => CreateSessionResponse
  | JoinSessionRequest _ _ _ => JoinSessionResponse
  | AcceptPolicyRequest _ => AcceptPolicyResponse
  | SubmitInputRequest _ _ => SubmitInputResponse
  | GetResultRequest _ => GetResultResponse
  | GetSessionStatusRequest _ => GetSessionStatusResponse
  end.

Definition SEALED : Z := 2.
Definition CLOSED : Z := 4.
Definition ABORTED : Z := 5.

(** [Enum.Name(number)]: [ValueError] for a number that has no name. *)
Definition enum_name (enum : string) (names : list string) (n : Z) : res string :=
  match (if n <? 0 then None else names !! Z.to_nat n) with
  | Some s => Ok s
  | None => Raise (Exn ValueError [Txt ("Enum " +:+ enum +:+ " has no name defined for value "); Val (JInt n)])
  end.

Definition SessionState_Name : Z → res string :=
  enum_name "SessionState"
    ["SESSION_STATE_UNSPECIFIED"; "OPEN"; "SEALED"; "CALCULATING"; "CLOSED"; "ABORTED"].

Definition SessionError_Name : Z → res string :=
  enum_name "SessionError"
    ["SESSION_ERROR_UNSPECIFIED"; "SESSION_NOT_FOUND"; "SESSION_FULL"; "SESSION_SEALED";
     "INPUT_SCHEMA_VIOLATION"; "JOIN_TIMEOUT"; "INPUT_TIMEOUT"; "LLM_GENERATION_FAILED";
     "OUTPUT_LEAKAGE_DETECTED"; "OUTPUT_SCHEMA_VIOLATION"; "RESOURCE_EXHAUSTED";
     "INVALID_PARTICIPANT_TOKEN"].

(** [f"{code}"] of a [grpc.StatusCode] *)
Definition status_name (c : status_code) : string :=
  "StatusCode." +:+
  match c with
  | OK => "OK" | CANCELLED => "CANCELLED" | UNKNOWN => "UNKNOWN"
  | INVALID_ARGUMENT => "INVALID_ARGUMENT" | DEADLINE_EXCEEDED => "DEADLINE_EXCEEDED"
  | NOT_FOUND => "NOT_FOUND" | ALREADY_EXISTS => "ALREADY_EXISTS"
  | PERMISSION_DENIED => "PERMISSION_DENIED" | RESOURCE_EXHAUSTED => "RESOURCE_EXHAUSTED"
  | FAILED_PRECONDITION => "FAILED_PRECONDITION" | ABORTED_CODE => "ABORTED"
  | OUT_OF_RANGE => "OUT_OF_RANGE" | UNIMPLEMENTED => "UNIMPLEMENTED" | INTERNAL => "INTERNAL"
  | UNAVAILABLE => "UNAVAILABLE" | DATA_LOSS => "DATA_LOSS" | UNAUTHENTICATED => "UNAUTHENTICATED"
  end.

(** ** Channels *)

Record grpc_channel := GrpcChannel {
  ch_id : nat;
  ch_host : json;
  ch_port : Z;
  ch_roots : list byte
}.

Abbreviation metadata := (list (string * json)).

(** The protobuf runtime and the gRPC channel. A field setter checks its
    value's type and range; [None] leaves the field at its default. A call is
    told whether its channel was closed. *)
Class Grpc := {
  string_field : json → res string;
  int32_field : Z → res Z;
  rpc : nat → grpc_channel → bool → ∀ r : rpc_request, option metadata → res (response r)
}.

(** A call made: its channel, whether that was closed, and what was sent. *)
Record rpc_event := RpcEvent {
  ev_channel : grpc_channel;
  ev_closed : bool;
  ev_request : rpc_request;
  ev_metadata : option metadata
}.

Record net := Net {
  n_world : world;
  n_next : nat;
  n_closed : gset nat;
  n_rpcs : list rpc_event
}.

Definition init_net : net := Net init_world 0 ∅ [].

(** A call on the world below. *)
Definition on_world {A : Type} (m : ST world exn A) : ST net exn A :=
  zoom n_world (λ w s, Net w (n_next s) (n_closed s) (n_rpcs s)) m.

(** [grpc.secure_channel(target, ssl_channel_credentials(root_certificates))] *)
Definition secure_channel (host : json) (port : Z) (root_certificates : list byte)
  : ST net exn grpc_channel :=
  λ s, (Ok (GrpcChannel (n_next s) host port root_certificates),
        Net (n_world s) (S (n_next s)) (n_closed s) (n_rpcs s)).

(** [channel.close()]; closing twice is harmless. *)
Definition close_channel (ch : grpc_channel) : ST net exn unit :=
  modify (λ s, Net (n_world s) (n_next s) ({[ch_id ch]} ∪ n_closed s) (n_rpcs s)).

(** [stub.Method(request, metadata)] on the channel the stub was made for *)
Definition call `{Grpc} (ch : grpc_channel) (r : rpc_request) (md : option metadata)
  : ST net exn (response r) :=
  n ← on_world tick;
  s ← get_state;
  let closed := bool_decide (ch_id ch ∈ n_closed s) in
  modify (λ s, Net (n_world s) (n_next s) (n_closed s) (n_rpcs s ++ [RpcEvent ch closed r md]));;
  lift (rpc n ch closed r md).
