(* ===== verification/Client.v ===== *)
(** [agent/client.py] and [agent/verifier_factory.py]: the attested channel and
    the verifiers it may be given. *)

From S2P Require Import Prelude PyText Base64 Sha256 PyValue External Attestation Policy World Jwks ItaVerifier Rpc Examples.

Open Scope Z_scope.

(** [AttestationVerifier = Callable[[str, bytes], bool]] *)
Abbreviation AttestationVerifier := (string → list byte → ST world exn bool).

(** ** The abstract policy

    The abstract base class [VerifierPolicy], and what the rest of the agent
    relies on: a policy that validates yields a verifier that, outside the test
    environment, accepts only what [certified] describes. *)
Class VerifierPolicy `{Host} (P : Type) := {
  verifier_type : P → string;
  validate : P → res unit;
  create_verifier : P → AttestationVerifier;
  to_dict : P → res dict
}.

Section client.
Context `{Host, X509, PyJWT}.

Definition noop_verifier : AttestationVerifier := λ token cert_pem,
  if negb (is_test os_environ) then
    raise (Exn RuntimeError
      [Txt "noop_verifier is strictly forbidden outside test environments. Set ZTAB_TEST_ENVIRONMENT=1 to allow in test harnesses, or use create_ita_verifier() for production."])
  else mret true.

#[global] Instance ItaPolicy_verifier : VerifierPolicy ItaPolicy := {|
  verifier_type _ := "ita";
  validate := ita_validate os_environ;
  create_verifier p := ita_verifier p;
  to_dict := ita_to_dict |}.

(** The class of a policy value decides its methods. *)
#[global] Instance policy_verifier : VerifierPolicy verifier_policy := {|
  verifier_type p := match p with NoopPolicy => "noop" | Ita p => verifier_type p end;
  validate p := match p with NoopPolicy => noop_validate os_environ | Ita p => validate p end;
  create_verifier p := match p with NoopPolicy => noop_verifier | Ita p => create_verifier p end;
  to_dict := policy_to_dict |}.

(** ** [verifier_factory.py] *)

Definition get_verifier {P : Type} `{!VerifierPolicy P} (policy : P) : res AttestationVerifier :=
  validate policy;;
  Ok (create_verifier policy).

(** ** [ZtabChannel] *)

Definition _fetch_server_cert_pem (host : json) (port : Z) : ST world exn (list byte) :=
  der_cert ← tls_certificate host port;
  match der_cert with
  | None => raise (Exn RuntimeError [Txt "Server did not present a certificate."])
  | Some der =>
      cert ← lift (load_der_x509_certificate der);
      mret (cert_pem_bytes cert)
  end.

Record ZtabChannel := {
  host : json;
  port : Z;
  verifier : AttestationVerifier;
  zc_channel : option grpc_channel;
  attestation_token : option string;
  _cert_pem : option (list byte)
}.

Definition ZtabChannel_init (h : json) (p : Z) (v : option AttestationVerifier) : res ZtabChannel :=
  match v with
  | None => Raise (Exn ValueError
      [Txt "A verifier is required. Use create_ita_verifier() for production, or noop_verifier with ZTAB_TEST_ENVIRONMENT=1 for local testing."])
  | Some v => Ok {| host := h; port := p; verifier := v;
                    zc_channel := None; attestation_token := None; _cert_pem := None |}
  end.

(** The object and the network it lives in. *)
Record client_state := ClientState { cs_net : net; self : ZtabChannel }.

Definition on_net {A : Type} (m : ST net exn A) : ST client_state exn A :=
  zoom cs_net (λ n s, ClientState n (self s)) m.

Definition set_cert (c : list byte) : ST client_state exn unit :=
  modify (λ s, ClientState (cs_net s)
    {| host := host (self s); port := port (self s); verifier := verifier (self s);
       zc_channel := zc_channel (self s); attestation_token := attestation_token (self s);
       _cert_pem := Some c |}).
Definition set_token (t : option string) : ST client_state exn unit :=
  modify (λ s, ClientState (cs_net s)
    {| host := host (self s); port := port (self s); verifier := verifier (self s);
       zc_channel := zc_channel (self s); attestation_token := t; _cert_pem := _cert_pem (self s) |}).
Definition set_channel (c : option grpc_channel) : ST client_state exn unit :=
  modify (λ s, ClientState (cs_net s)
    {| host := host (self s); port := port (self s); verifier := verifier (self s);
       zc_channel := c; attestation_token := attestation_token (self s); _cert_pem := _cert_pem (self s) |}).

Definition connect : ST client_state exn grpc_channel :=
  s ← get_state;
  let h := host (self s) in
  let p := port (self s) in
  let v := verifier (self s) in
  cert_pem ← on_net (on_world (_fetch_server_cert_pem h p));
  set_cert cert_pem;;
  token ← lift (extract_attestation_token cert_pem);
  set_token token;;
  match token with
  | None => raise (Exn RuntimeError
      [Txt ("Server certificate does not contain an attestation extension (OID " +:+ ATTESTATION_OID +:+ ").")])
  | Some token =>
      accepted ← on_net (on_world (v token cert_pem));
      if negb accepted then raise (Exn RuntimeError [Txt "Attestation verification failed."])
      else
        channel ← on_net (secure_channel h p cert_pem);
        set_channel (Some channel);;
        mret channel
  end.

Definition close : ST client_state exn unit :=
  s ← get_state;
  match zc_channel (self s) with
  | None => mret tt
  | Some ch =>
      on_net (close_channel ch);;
      set_channel None
  end.

Definition enter : ST client_state exn unit := connect;; mret tt.
Definition exit : ST client_state exn unit := close.

(** ** What a channel certifies *)

(** The world of a client *)
Abbreviation world_of s := (n_world (cs_net s)).

(** The channel trusts exactly the certificate that its host and port presented
    in a handshake of the log. *)
Definition presented (log : list interaction) (ch : grpc_channel) : Prop :=
  ∃ der cert, Presented (ch_host ch) (ch_port ch) (Some der) ∈ log ∧
    load_der_x509_certificate der = Ok cert ∧ ch_roots ch = cert_pem_bytes cert.

(** The verifier accepted the token of that certificate, at a moment whose log
    the present one extends. *)
Record accepted_by (v : AttestationVerifier) (log : list interaction) (ch : grpc_channel) : Prop := {
  ab_presented : presented log ch;
  ab_verified : ∃ token w w', genuine w ∧ w_log w' `prefix_of` log ∧
    extract_attestation_token (ch_roots ch) = Ok (Some token) ∧ v token (ch_roots ch) w = (Ok true, w')
}.

Lemma presented_mono log log' ch : log `prefix_of` log' → presented log ch → presented log' ch.
Proof. intros [l ->] (der & cert & Hp & Hc). exists der, cert. split; [apply elem_of_app; by left|done]. Qed.

Lemma accepted_mono v log log' ch : log `prefix_of` log' → accepted_by v log ch → accepted_by v log' ch.
Proof.
  intros Hl [Hp (token & w & w' & Hg & Hw & Hx)]. split; [by eapply presented_mono|].
  exists token, w, w'. split; [done|]. split; [by etrans|done].
Qed.

(** A verifier touches the world only through the clock, the network and
    [get_jwks]. *)
Definition orderly (v : AttestationVerifier) : Prop := ∀ token cert_pem, stepping (v token cert_pem).

(** What one call of [connect] did. *)
Record connected (s : client_state) (ch : grpc_channel) (s' : client_state) : Prop := {
  co_host : ch_host ch = host (self s);
  co_port : ch_port ch = port (self s);
  co_fresh : ch_id ch = n_next (cs_net s);
  co_accepted : orderly (verifier (self s)) → genuine (world_of s) →
    accepted_by (verifier (self s)) (w_log (world_of s')) ch;
  co_channel : zc_channel (self s') = Some ch;
  co_token : extract_attestation_token (ch_roots ch) = Ok (attestation_token (self s'));
  co_cert : _cert_pem (self s') = Some (ch_roots ch);
  co_next : n_next (cs_net s') = S (n_next (cs_net s))
}.

(** The parts of the state a call of [connect] never changes. *)
Record same_object (s s' : client_state) : Prop := {
  so_host : host (self s') = host (self s);
  so_port : port (self s') = port (self s);
  so_verifier : verifier (self s') = verifier (self s);
  so_closed : n_closed (cs_net s') = n_closed (cs_net s);
  so_rpcs : n_rpcs (cs_net s') = n_rpcs (cs_net s);
  so_world : orderly (verifier (self s)) → rtc world_step (world_of s) (world_of s')
}.

(** A failed reconnect leaves an earlier channel in place. *)
Record not_connected (s s' : client_state) : Prop := {
  nc_channel : zc_channel (self s') = zc_channel (self s);
  nc_next : n_next (cs_net s') = n_next (cs_net s)
}.

Lemma fetch_cert_stepping h p : stepping (_fetch_server_cert_pem h p).
Proof. unfold _fetch_server_cert_pem. stepping. Qed.

Lemma fetch_cert_run h p w r w' :
  _fetch_server_cert_pem h p w = (r, w') →
  match r with
  | Ok pem => ∃ der cert, Presented h p (Some der) ∈ w_log w' ∧
      load_der_x509_certificate der = Ok cert ∧ pem = cert_pem_bytes cert
  | Raise _ => True
  end.
Proof.
  unfold _fetch_server_cert_pem, tls_certificate, tick, learn. st_unfold.
  destruct (tls_peer_certificate (w_tick w) h p) as [[der|]|e] eqn:Ht; [|by intros [= <- _]..].
  cbn. destruct (load_der_x509_certificate der) as [cert|e] eqn:Hl; intros [= <- <-]; [|done]. exists der, cert.
  split; [|done]. apply elem_of_app. right. apply list_elem_of_here.
Qed.

Lemma connect_outcome s :
  let '(r, s') := connect s in
  same_object s s' ∧
  match r with Ok ch => connected s ch s' | Raise _ => not_connected s s' end.
Proof.
  destruct s as [[w nx cl ev] [h p v zc tok cp]].
  unfold connect, on_net, on_world, zoom, set_cert, set_token, set_channel, secure_channel. st_unfold.
  cbn -[_fetch_server_cert_pem extract_attestation_token].
  pose proof (fetch_cert_stepping h p w) as Hfs.
  destruct (_fetch_server_cert_pem h p w) as [[pem|e] w1] eqn:Hf; [|by repeat split].
  cbn -[extract_attestation_token] in Hfs |- *. apply fetch_cert_run in Hf.
  destruct (extract_attestation_token pem) as [[token|]|e] eqn:Hx; [|by repeat split..].
  cbn. assert (Hvs : orderly v → rtc world_step w1 (v token pem w1).2) by (intros Hv; apply Hv).
  assert (Hws : orderly v → rtc world_step w (v token pem w1).2) by (intros Hv; etrans; [exact Hfs|by apply Hvs]).
  destruct (v token pem w1) as [[[]|e] w2] eqn:Hv; cbn in *; [|by repeat split..].
  split; [by repeat split|]. split; cbn; try done. intros Ho Hg.
  destruct (genuine_steps w w1 Hfs Hg) as [Hg1 _]. destruct (genuine_steps w1 w2 (Hvs Ho) Hg1) as [_ Hp].
  split; [|by exists token, w1, w2]. destruct Hf as (der & cert & Hpr & Hc). exists der, cert. split; [|done].
  destruct Hp as [l ->]. apply elem_of_app. by left.
Qed.

(** ** Pinning, over every sequence of operations

    Between two operations on the object the rest of the process may do
    anything to the network; it touches the key set only through [get_jwks]. *)
Inductive client_step : client_state → client_state → Prop :=
| step_connect s r s' : connect s = (r, s') → client_step s s'
| step_close s r s' : close s = (r, s') → client_step s s'
| step_enter s r s' : enter s = (r, s') → client_step s s'
| step_exit s r s' : exit s = (r, s') → client_step s s'
| step_other s n : rtc world_step (world_of s) (n_world n) → client_step s (ClientState n (self s)).

Record pinned (h : json) (p : Z) (v : AttestationVerifier) (s : client_state) : Prop := {
  pi_host : host (self s) = h;
  pi_port : port (self s) = p;
  pi_verifier : verifier (self s) = v;
  pi_genuine : genuine (world_of s);
  pi_channel : ∀ ch, zc_channel (self s) = Some ch →
    ch_host ch = h ∧ ch_port ch = p ∧ accepted_by v (w_log (world_of s)) ch
}.

Lemma connect_pinned h p v s r s' : orderly v → pinned h p v s → connect s = (r, s') → pinned h p v s'.
Proof.
  intros Hv [<- <- <- Hg Hc] He. pose proof (connect_outcome s) as Ho. rewrite He in Ho.
  destruct Ho as [[? ? ? _ _ Hw] Ho]. destruct (genuine_steps _ _ (Hw Hv) Hg) as [Hg' Hl].
  split; try done. intros ch Hch. destruct r as [ch'|e].
  - destruct Ho as [? ? _ Ha]. assert (ch' = ch) as -> by congruence. auto.
  - destruct (Hc ch) as (? & ? & Ha); [by rewrite <- (nc_channel _ _ Ho)|].
    split; [done|]. split; [done|]. by eapply accepted_mono.
Qed.

Lemma close_run s :
  close s = (Ok tt, match zc_channel (self s) with
                    | None => s
                    | Some ch => (set_channel None (on_net (close_channel ch) s).2).2
                    end).
Proof. unfold close. st_unfold. by destruct (zc_channel (self s)). Qed.

Lemma close_pinned h p v s r s' : pinned h p v s → close s = (r, s') → pinned h p v s'.
Proof.
  intros Hp. rewrite close_run. intros [= _ <-].
  destruct (zc_channel (self s)); [|done]. by destruct Hp as [<- <- <- ? _].
Qed.

Lemma step_pinned h p v s s' : orderly v → client_step s s' → pinned h p v s → pinned h p v s'.
Proof.
  intros Hv Hst Hp. inversion Hst as [s0 r s1 He|s0 r s1 He|s0 r s1 He|s0 r s1 He|s0 n Hw]; subst.
  - by eapply connect_pinned.
  - by eapply close_pinned.
  - unfold enter in He. unfold mbind, ST_bind in He.
    destruct (connect s) as [[ch|e] s1] eqn:Hc; injection He as _ <-; by eapply connect_pinned.
  - by eapply close_pinned.
  - destruct Hp as [? ? ? Hg Hc]. destruct (genuine_steps _ _ Hw Hg) as [Hg' Hl]. split; try done.
    intros ch Hch. destruct (Hc ch Hch) as (? & ? & Ha). split; [done|]. split; [done|]. by eapply accepted_mono.
Qed.

Lemma steps_pinned h p v s s' : orderly v → rtc client_step s s' → pinned h p v s → pinned h p v s'.
Proof. intros Hv. induction 1; eauto using step_pinned. Qed.

Lemma init_pinned h p v z n :
  rtc world_step init_world (n_world n) → ZtabChannel_init h p (Some v) = Ok z → pinned h p v (ClientState n z).
Proof. intros Hw [= <-]. split; try done. by apply (genuine_steps _ _ Hw), genuine_init. Qed.

(** ** The interface between policies and channels

    What a kind of policy promises of every certificate its verifier accepts in
    production, in terms of what the process learned. The theorems on channels
    are proved against this interface; each kind of policy discharges it. *)
Class CertifiedPolicy (P : Type) `{!VerifierPolicy P} := {
  certified : P → string → list byte → list interaction → Prop;
  certified_orderly policy v : get_verifier policy = Ok v → orderly v;
  certified_mono policy token cert_pem log log' :
    log `prefix_of` log' → certified policy token cert_pem log → certified policy token cert_pem log';
  certified_sound policy v token cert_pem w w' :
    is_test os_environ = false → get_verifier policy = Ok v → genuine w →
    v token cert_pem w = (Ok true, w') → certified policy token cert_pem (w_log w')
}.

(** The Intel Trust Authority vouches for the certificate, and the policy has
    no bypass enabled. *)
Record ita_certified (p : ItaPolicy) (token : string) (cert_pem : list byte) (log : list interaction) : Prop := {
  ic_claims : ∃ claims, vouched p token log claims ∧ trusted_claims p cert_pem claims;
  ic_valid : ita_validate os_environ p = Ok tt;
  ic_no_debug : truthy (allow_debug p) = false ∧ truthy (allow_memory_monitoring p) = false
}.

Lemma ita_orderly (p : ItaPolicy) v : get_verifier p = Ok v → orderly v.
Proof.
  intros Hv. unfold get_verifier in Hv. apply bind_Ok in Hv as ([] & _ & [= <-]).
  intros token cert_pem. apply ita_verifier_stepping.
Qed.

Lemma ita_certified_mono p token cert_pem log log' :
  log `prefix_of` log' → ita_certified p token cert_pem log → ita_certified p token cert_pem log'.
Proof. intros Hl [(claims & Hv & Ht) ? ?]. split; [|done..]. exists claims. split; [by eapply vouched_mono|done]. Qed.

Lemma ita_certified_sound (p : ItaPolicy) v token cert_pem w w' :
  is_test os_environ = false → get_verifier p = Ok v → genuine w →
  v token cert_pem w = (Ok true, w') → ita_certified p token cert_pem (w_log w').
Proof.
  intros Ht Hv Hg Ha. pose proof (stepping_run _ w _ w' (ita_orderly p v Hv token cert_pem) Ha) as Hs.
  unfold get_verifier in Hv. apply bind_Ok in Hv as ([] & Hval & [= <-]). cbn in Hval, Ha.
  destruct (ita_accepts _ _ _ _ _ Ha) as (claims & Hsig & Hcl).
  split; [|done|by apply ita_validate_ok in Hval as (_ & _ & _ & [?|?]); [congruence|]].
  exists claims. split; [|done]. eapply signed_vouched; [done| |done]. by apply genuine_steps.
Qed.

#[global] Instance ItaPolicy_certified : CertifiedPolicy ItaPolicy := {|
  certified := ita_certified; certified_orderly := ita_orderly;
  certified_mono := ita_certified_mono; certified_sound := ita_certified_sound |}.

(** The test-only verifier certifies nothing: it is refused in production. *)
Definition policy_certifies (p : verifier_policy) (token : string) (cert_pem : list byte) (log : list interaction) : Prop :=
  match p with NoopPolicy => False | Ita p => ita_certified p token cert_pem log end.

#[global] Program Instance policy_certified : CertifiedPolicy verifier_policy := {|
  certified := policy_certifies |}.
Next Obligation.
  intros [|p] v Hv; [|by apply (ita_orderly p)]. unfold get_verifier in Hv. apply bind_Ok in Hv as ([] & _ & [= <-]).
  intros token cert_pem. cbn. unfold noop_verifier. stepping.
Qed.
Next Obligation. intros [|p] token cert_pem log log' Hl; [done|]. by apply ita_certified_mono. Qed.
Next Obligation.
  intros [|p] v token cert_pem w w' Ht Hv Hg Ha.
  - unfold get_verifier, validate, policy_verifier, noop_validate in Hv. by rewrite Ht in Hv.
  - by eapply (ita_certified_sound p).
Qed.

(** A channel opened for a policy: its host presented the certificate it trusts,
    and the policy certifies that certificate, by what the log holds. *)
Definition certified_channel {P : Type} `{CertifiedPolicy P} (policy : P) (log : list interaction)
    (ch : grpc_channel) : Prop :=
  presented log ch ∧
  ∃ token, extract_attestation_token (ch_roots ch) = Ok (Some token) ∧ certified policy token (ch_roots ch) log.

Lemma accepted_certified {P : Type} `{CertifiedPolicy P} (policy : P) v log ch :
  is_test os_environ = false → get_verifier policy = Ok v → accepted_by v log ch →
  certified_channel policy log ch.
Proof.
  intros Ht Hv [Hp (token & w & w' & Hg & Hl & Hx & Ha)]. split; [done|]. exists token. split; [done|].
  eapply certified_mono; [done|]. by eapply certified_sound.
Qed.

(** In production a certified channel is that of an ITA policy. *)
Lemma certified_ita (policy : verifier_policy) log ch :
  certified_channel policy log ch → ∃ ita, policy = Ita ita ∧ certified_channel ita log ch.
Proof. intros (Hp & token & Hx & Hc). destruct policy as [|ita]; [done|]. exists ita. split; [done|]. split; eauto. Qed.

(** C3: certificate pinning. Outside the test environment, take a channel object
    created for any policy, and any sequence of connects and closes on it, some
    of which may fail, with the rest of the process acting in between. If the
    object then holds a gRPC channel, that channel leads to the object's host
    and port and trusts only a certificate which that host and port presented to
    this process; the policy is an ITA policy without bypass; and the
    certificate carries a token that was verified, at a time this process read
    off its clock, under a key from a key set this process downloaded from ITA's
    address, with claims that bind the certificate's key and satisfy the policy.
    In particular a failed reconnect cannot leave behind a channel to a server
    that was not verified. *)
Theorem channel_pinned (policy : verifier_policy) h p v z n s ch :
  is_test os_environ = false → get_verifier policy = Ok v →
  ZtabChannel_init h p (Some v) = Ok z → rtc world_step init_world (n_world n) →
  rtc client_step (ClientState n z) s → zc_channel (self s) = Some ch →
  ch_host ch = h ∧ ch_port ch = p ∧ presented (w_log (world_of s)) ch ∧
  ∃ ita token, policy = Ita ita ∧
    extract_attestation_token (ch_roots ch) = Ok (Some token) ∧
    ita_certified ita token (ch_roots ch) (w_log (world_of s)).
Proof.
  intros Ht Hv Hz Hw Hs Hch.
  destruct (steps_pinned h p v _ _ (certified_orderly policy v Hv) Hs (init_pinned h p v z n Hw Hz)) as [_ _ _ _ Hc].
  destruct (Hc ch Hch) as (? & ? & Ha). split; [done|]. split; [done|].
  destruct (certified_ita _ _ _ (accepted_certified policy v _ ch Ht Hv Ha)) as (ita & -> & Hp & token & Hx & Hcert).
  split; [done|]. by exists ita, token.
Qed.

(** The behaviour of one [connect]. On success the returned channel is the
    one the object holds, is freshly created, points at the object's host and
    port, pins the certificate the server presented, and the verifier accepted
    the token the object now records. On failure no channel is created and the
    object keeps the one it had. Neither sends a call nor closes a channel. *)
Lemma connect_behaviour s r s' :
  connect s = (r, s') →
  same_object s s' ∧
  match r with Ok ch => connected s ch s' | Raise _ => not_connected s s' end.
Proof. intros He. pose proof (connect_outcome s) as Ho. by rewrite He in Ho. Qed.

(** The test verifier cannot be used in production: neither the factory
    nor a direct call gets past it. *)
Lemma noop_forbidden token cert_pem w :
  is_test os_environ = false →
  (∃ e, get_verifier NoopPolicy = Raise e ∧ exn_type e = RuntimeError) ∧
  (∃ e, noop_verifier token cert_pem w = (Raise e, w) ∧ exn_type e = RuntimeError).
Proof.
  intros Ht. split.
  - unfold get_verifier, validate, policy_verifier, noop_validate. rewrite Ht. by eexists.
  - unfold noop_verifier. rewrite Ht. by eexists.
Qed.
End client.

Section demo.
#[local] Instance demo_host_prod : Host := demo_host ∅.
#[local] Existing Instance demo_x509.
#[local] Existing Instance demo_jwt.

Definition demo_object : ZtabChannel := {|
  host := JStr "tee.example"; port := 8000; verifier := ita_verifier demo_policy;
  zc_channel := None; attestation_token := None; _cert_pem := None |}.

Definition demo_start : client_state := ClientState init_net demo_object.

Lemma channel_pinned_witness :
  ∃ s ch, connect demo_start = (Ok ch, s) ∧
    ∃ token, extract_attestation_token (ch_roots ch) = Ok (Some token) ∧
      ita_certified demo_policy token (ch_roots ch) (w_log (n_world (cs_net s))).
Proof.
  pose (r := connect demo_start).
  pose (ch := GrpcChannel 0 (JStr "tee.example") 8000 demo_cert).
  assert (Hr1 : r.1 = Ok ch) by (vm_compute; reflexivity).
  assert (Hr : r = (Ok ch, r.2)) by (rewrite <- Hr1; apply surjective_pairing).
  exists (r.2), ch. split; [exact Hr|].
  destruct (channel_pinned (Ita demo_policy) (JStr "tee.example") 8000 (ita_verifier demo_policy)
    demo_object init_net r.2 ch) as (_ & _ & _ & ita & token & [= <-] & Hx & Hc).
  - reflexivity.
  - reflexivity.
  - reflexivity.
  - apply rtc_refl.
  - eapply rtc_once, step_connect. exact Hr.
  - vm_compute. reflexivity.
  - eauto.
Defined.

Lemma connect_behaviour_witness :
  ∃ s, connected demo_start (GrpcChannel 0 (JStr "tee.example") 8000 demo_cert) s.
Proof.
  pose (r := connect demo_start). exists r.2.
  assert (Hr1 : r.1 = Ok (GrpcChannel 0 (JStr "tee.example") 8000 demo_cert)) by (vm_compute; reflexivity).
  refine (proj2 (connect_behaviour demo_start
    (Ok (GrpcChannel 0 (JStr "tee.example") 8000 demo_cert)) r.2 _)).
  rewrite <- Hr1. apply surjective_pairing.
Defined.

Lemma noop_forbidden_witness :
  ∃ e, get_verifier NoopPolicy = Raise e ∧ exn_type e = RuntimeError.
Proof. apply (noop_forbidden "tok" demo_cert init_world). reflexivity. Defined.
End demo.
