(* ===== verification/Backends.v ===== *)
(** [agent/mcp_server.py], first part: the state of the MCP server, the backend
    configuration and its reloading. *)

From S2P Require Import Prelude PyText PyValue External Policy World ItaVerifier Rpc Client.

Open Scope Z_scope.

(** ** Output values

    What the server builds to send: JSON values in which some texts are
    formatted from values ([OFmt]) or are themselves the serialization of a
    value ([ODumps], [json.dumps]). *)
Unset Elimination Schemes.
Inductive out :=
| OVal (v : json)
| OFmt (text : list frag)
| ODict (kvs : list (string * out))
| OList (l : list out)
| ODumps (o : out).
Set Elimination Schemes.

Abbreviation OStr s := (OVal (JStr s)).

(** ** The state of the server *)

(** [_CHANNEL_CACHE]: backend id to (channel wrapper, stub); a stub is the
    channel it was made for. Ids are compared with [==]. *)
Abbreviation channel_cache := (list (json * (ZtabChannel * grpc_channel))).
Record mcp := Mcp {
  m_net : net;
  _backends_mtime_ns : Z;
  _backends_config : option json;
  _CHANNEL_CACHE : channel_cache;
  _PROTO_OUT : list out
}.

Definition init_mcp : mcp := Mcp init_net 0 None [] [].

Definition net_m {A : Type} (m : ST net exn A) : ST mcp exn A :=
  zoom m_net (λ n s, Mcp n (_backends_mtime_ns s) (_backends_config s) (_CHANNEL_CACHE s) (_PROTO_OUT s)) m.
Definition tick_m : ST mcp exn nat := net_m (on_world tick).
Definition learn_m (i : interaction) : ST mcp exn unit := net_m (on_world (learn i)).

Definition set_cache_m (c : channel_cache) : ST mcp exn unit :=
  modify (λ s, Mcp (m_net s) (_backends_mtime_ns s) (_backends_config s) c (_PROTO_OUT s)).
Definition set_config (config : option json) (mtime : Z) : ST mcp exn unit :=
  modify (λ s, Mcp (m_net s) mtime config (_CHANNEL_CACHE s) (_PROTO_OUT s)).

(** Run a method on a channel object; the object after it comes back with the
    result. *)
Definition with_object {A : Type} (z : ZtabChannel) (m : ST client_state exn A)
  : ST net exn (A * ZtabChannel) :=
  λ n, match m (ClientState n z) with
       | (Ok a, s) => (Ok (a, self s), cs_net s)
       | (Raise e, s) => (Raise e, cs_net s)
       end.

Section backends.
Context `{Host, X509, PyJWT, Files}.

(** ** Validation of [backends.json] *)

Definition required_fields : list string := ["backend_id"; "host"; "port"; "verifier"].

Fixpoint check_fields (i : nat) (b : json) (fields : list string) : res unit :=
  match fields with
  | [] => Ok tt
  | field :: fields' =>
      present ← py_in (JStr field) b;
      if negb present then
        who ← py_get b "backend_id" (JInt (Z.of_nat i));
        Raise (Exn ValueError [Txt "Backend '"; Val who; Txt "' missing required field '"; Txt field; Txt "'"])
      else check_fields i b fields'
  end.

(** The loop over the backends: the ids seen and the warnings printed. *)
Fixpoint check_backends (config_path : string) (i : nat) (bs seen_ids : list json)
  : res (list json * list log_line) :=
  match bs with
  | [] => Ok (seen_ids, [])
  | b :: bs' =>
      check_fields i b required_fields;;
      bid ← py_get b "backend_id" JNull;
      duplicate ← (if truthy bid then in_set bid seen_ids else Ok false);
      let seen := if truthy bid then bid :: seen_ids else seen_ids in
      rest ← check_backends config_path (S i) bs' seen;
      Ok (rest.1,
          (if (duplicate : bool) then
             [[Txt "[ztab] WARNING: "; Txt config_path; Txt ": duplicate backend_id '"; Val bid; Txt "'"]]
           else []) ++ rest.2)
  end.

Definition _validate_backends (config : json) (config_path : string) : res (list log_line) :=
  backends ← py_get config "backends" JNull;
  match backends with
  | JList bs =>
      checked ← check_backends config_path 0 bs [];
      default ← py_get config "default_backend" JNull;
      known ← (if truthy default then in_set default checked.1 else Ok true);
      Ok (checked.2 ++
          (if (known : bool) then []
           else [[Txt "[ztab] WARNING: "; Txt config_path; Txt ": default_backend '"; Val default;
                  Txt "' does not match any backend_id"]]))
  | _ => Ok [[Txt "[ztab] WARNING: "; Txt config_path; Txt ": 'backends' must be a list"]]
  end.

(** ** Loading *)

Definition _load_backends_from (config_path : string) : ST mcp exn (option json) :=
  config ← try_except (n ← tick_m; c ← lift (load_json_file n config_path);
                       learn_m (LoadedFile config_path c);; mret (Some c))
             (λ e, if is_exception e then Some (mret None) else None);
  match config with
  | None => mret None
  | Some config =>
      lift (_validate_backends config config_path);;
      mret (Some config)
  end.

Definition _backends_config_path : string :=
  match os_environ !! "ZTAB_BACKENDS_FILE" with
  | Some path => if String.eqb path "" then expanduser "~/.ztab/backends.json" else path
  | None => expanduser "~/.ztab/backends.json"
  end.

(** Close every cached channel, ignoring failures. *)
Fixpoint close_all (entries : channel_cache) : ST mcp exn unit :=
  match entries with
  | [] => mret tt
  | (_, (channel, _)) :: rest =>
      try_except (net_m (with_object channel close);; mret tt)
        (λ e, if is_exception e then Some (mret tt) else None);;
      close_all rest
  end.

Definition flush_channels : ST mcp exn unit :=
  s ← get_state;
  close_all (_CHANNEL_CACHE s);;
  set_cache_m [].

Definition is_set (c : option json) : bool := match c with Some _ => true | None => false end.

Definition _get_backends : ST mcp exn (option json) :=
  n ← tick_m;
  match stat_mtime_ns n _backends_config_path with
  | Raise e => if bool_decide (exn_type e = FileNotFoundError) then mret None else raise e
  | Ok mtime =>
      s ← get_state;
      if negb (mtime =? _backends_mtime_ns s) then
        new_config ← _load_backends_from _backends_config_path;
        s ← get_state;
        (if is_set (_backends_config s) && is_set new_config then flush_channels else mret tt);;
        set_config new_config mtime;;
        mret new_config
      else mret (_backends_config s)
  end.

(** ** Lookup *)

Fixpoint find_backend (bid : json) (bs : list json) : res (option json) :=
  match bs with
  | [] => Ok None
  | b :: bs' =>
      id ← py_get b "backend_id" JNull;
      if py_eq id bid then Ok (Some b) else find_backend bid bs'
  end.

Fixpoint backend_ids (bs : list json) : res (list json) :=
  match bs with
  | [] => Ok []
  | b :: bs' => id ← py_get b "backend_id" JNull; ids ← backend_ids bs'; Ok (id :: ids)
  end.

(** [', '.join(l)]: every element must be a text. *)
Fixpoint join_texts (i : nat) (l : list json) : res (list frag) :=
  match l with
  | [] => Ok []
  | JStr s :: l' =>
      rest ← join_texts (S i) l';
      Ok ((if Nat.eqb i 0 then [] else [Txt ", "]) ++ Txt s :: rest)
  | v :: _ => Raise (Exn TypeError [Txt "sequence item "; Val (JInt (Z.of_nat i));
                Txt (": expected str instance, " +:+ type_name v +:+ " found")])
  end.

Definition select_backend (config backend_id : json) : res json :=
  default ← py_get config "default_backend" JNull;
  let bid := if truthy backend_id then backend_id else default in
  if negb (truthy bid) then
    Raise (Exn ValueError [Txt "No backend_id provided and no default_backend configured."])
  else
    backends ← py_get config "backends" (JList []);
    bs ← py_iter backends;
    found ← find_backend bid bs;
    match found with
    | Some b => Ok b
    | None =>
        available ← backend_ids bs;
        names ← join_texts 0 available;
        Raise (Exn ValueError ([Txt "Unknown backend '"; Val bid; Txt "'. Available backends: "] ++ names))
    end.

Definition _get_backend_info (backend_id : json) : ST mcp exn json :=
  config ← _get_backends;
  match config with
  | Some c =>
      if truthy c then lift (select_backend c backend_id)
      else raise (Exn ValueError [Txt "Backend configuration is missing. Please ensure ~/.ztab/backends.json exists or ZTAB_BACKENDS_FILE is set."])
  | None => raise (Exn ValueError [Txt "Backend configuration is missing. Please ensure ~/.ztab/backends.json exists or ZTAB_BACKENDS_FILE is set."])
  end.
End backends.
