(* ===== verification/McpServer.v ===== *)
(** [agent/mcp_server.py], second part: the tools, their handlers, the dispatch
    of requests and the main loop. *)

From S2P Require Import Prelude PyText Base64 PyValue External Attestation Policy World ItaVerifier Rpc Client Backends.

Open Scope Z_scope.

Definition SERVER_NAME : string := "ztab".
Definition SERVER_VERSION : string := "0.2.0".
Definition PROTOCOL_VERSION : string := "2024-11-05".

(** ** Tool definitions *)

Definition TOOLS : list json :=
  [JObj [("name", JStr "ztab_list_backends");
         ("description", JStr "List the available TEE backends configured on this host.");
         ("inputSchema", JObj [("type", JStr "object"); ("properties", JObj []); ("additionalProperties", JBool false)])];
   JObj [("name", JStr "ztab_test_connection");
         ("description", JStr "Connect to a ZTAB TEE server, verify its TLS certificate, extract and parse the remote attestation token (JWT), and make a secure gRPC Echo RPC call to verify the channel. ");
         ("inputSchema", JObj [("type", JStr "object");
               ("properties", JObj [("message", JObj [("type", JStr "string"); ("description", JStr "Test message for Echo RPC")]);
                     ("backend", JObj [("type", JStr "string"); ("description", JStr "Backend ID to use (optional)")])]);
               ("required", JList [JStr "message"])])];
   JObj [("name", JStr "ztab_create_session");
         ("description", JStr "Create a new multi-agent session on the ZTAB TEE server. Returns an invitation_token (to share with other participants) and a participant_token (secret, for your own use in subsequent RPCs). The creator automatically counts as one participant.");
         ("inputSchema", JObj [("type", JStr "object");
               ("properties", JObj [("policy_class", JObj [("type", JStr "string"); ("description", JStr "Policy class name (e.g., 'ScheduleOverlap')")]);
                     ("expected_participants", JObj [("type", JStr "integer");
                           ("description", JStr "Total number of participants (including creator). Must be >= 2.")]);
                     ("timeout_seconds", JObj [("type", JStr "integer"); ("description", JStr "Per-state timeout in seconds (default: 300)")]);
                     ("backend", JObj [("type", JStr "string"); ("description", JStr "Backend ID to use (optional)")])]);
               ("required", JList [JStr "policy_class"; JStr "expected_participants"])])];
   JObj [("name", JStr "ztab_join_session");
         ("description", JStr "Join an existing session on the ZTAB TEE server using an invitation_token received from the session creator. Returns the session policy for review and a participant_token for subsequent RPCs. After reviewing the policy, call ztab_accept_policy.");
         ("inputSchema", JObj [("type", JStr "object");
               ("properties", JObj [("invitation_token", JObj [("type", JStr "string"); ("description", JStr "Invitation token received from session creator")]);
                     ("role", JObj [("type", JStr "string"); ("description", JStr "Role for role-based policies (Phase 2+)")]);
                     ("backend", JObj [("type", JStr "string"); ("description", JStr "Backend ID to use (optional)")])]);
               ("required", JList [JStr "invitation_token"])])];
   JObj [("name", JStr "ztab_accept_policy");
         ("description", JStr "Accept the policy of a session you've joined. Must be called after join_session and before submit_input. When all participants accept, the session transitions to SEALED.");
         ("inputSchema", JObj [("type", JStr "object");
               ("properties", JObj [("participant_token", JObj [("type", JStr "string"); ("description", JStr "Your participant token")]);
                     ("backend", JObj [("type", JStr "string"); ("description", JStr "Backend ID to use (optional)")])]);
               ("required", JList [JStr "participant_token"])])];
   JObj [("name", JStr "ztab_submit_input");
         ("description", JStr "Submit your private input to a SEALED session. The input must be valid JSON conforming to the session's input schema. When all participants submit, the TEE processes the inputs via LLM.");
         ("inputSchema", JObj [("type", JStr "object");
               ("properties", JObj [("participant_token", JObj [("type", JStr "string"); ("description", JStr "Your participant token")]);
                     ("input_json", JObj [("type", JStr "string"); ("description", JStr "JSON string with your private input data")]);
                     ("backend", JObj [("type", JStr "string"); ("description", JStr "Backend ID to use (optional)")])]);
               ("required", JList [JStr "participant_token"; JStr "input_json"])])];
   JObj [("name", JStr "ztab_get_result");
         ("description", JStr "Get the result of a completed session. Returns the LLM-generated result if the session is CLOSED, error details if ABORTED, or current state if still in progress.");
         ("inputSchema", JObj [("type", JStr "object");
               ("properties", JObj [("participant_token", JObj [("type", JStr "string"); ("description", JStr "Your participant token")]);
                     ("backend", JObj [("type", JStr "string"); ("description", JStr "Backend ID to use (optional)")])]);
               ("required", JList [JStr "participant_token"])])];
   JObj [("name", JStr "ztab_get_session_status");
         ("description", JStr "Get the current status of a session: state, how many participants have joined, accepted, and submitted input.");
         ("inputSchema", JObj [("type", JStr "object");
               ("properties", JObj [("participant_token", JObj [("type", JStr "string"); ("description", JStr "Your participant token")]);
                     ("backend", JObj [("type", JStr "string"); ("description", JStr "Backend ID to use (optional)")])]);
               ("required", JList [JStr "participant_token"])])]].

(** [{t["name"]: t.get("inputSchema", {}) for t in TOOLS}] *)
Definition _TOOL_SCHEMAS : dict :=
  omap (λ t, match get_or t "name" JNull with
             | JStr name => Some (name, get_or t "inputSchema" (JObj []))
             | _ => None
             end) TOOLS.

(** [{"status": "error", "message": text}] *)
Definition error_result (text : list frag) : out :=
  ODict [("status", OStr "error"); ("message", OFmt text)].

Definition commas (l : list json) : list frag :=
  match join_texts 0 l with Ok fs => fs | Raise _ => [] end.

(** [[r for r in required if r not in arguments]] *)
Fixpoint missing_args (required : list json) (arguments : json) : res (list json) :=
  match required with
  | [] => Ok []
  | r :: required' =>
      present ← py_in r arguments;
      rest ← missing_args required' arguments;
      Ok (if (present : bool) then rest else r :: rest)
  end.

Definition _validate_required_args (tool_name arguments : json) : res (option out) :=
  let schema := match tool_name with
                | JStr t => get_or (JObj _TOOL_SCHEMAS) t (JObj [])
                | _ => JObj []
                end in
  required ← py_get schema "required" (JList []);
  names ← py_iter required;
  missing ← missing_args names arguments;
  match missing with
  | [] => Ok None
  | _ =>
      props ← py_get schema "properties" (JObj []);
      all_props ← py_iter props;
      Ok (Some (error_result
        ([Txt (if (1 <? length missing)%nat then "Missing required arguments: " else "Missing required argument: ")]
         ++ commas missing ++ [Txt ". Required arguments for "; Val tool_name; Txt ": "]
         ++ commas names ++ [Txt ". All accepted arguments: "] ++ commas all_props ++ [Txt "."])))
  end.

Section mcp_server.
Context `{Host, X509, PyJWT, Files, PyJson, Grpc}.

(** ** Tokens for display *)

(** [s.replace(a, b)] for single characters *)
Fixpoint replace_char (a b : ascii) (s : string) : string :=
  match s with
  | EmptyString => EmptyString
  | String c s' => String (if Ascii.eqb c a then b else c) (replace_char a b s')
  end.

(** Lengths are in bytes: they differ from Python's only for texts that are not
    ASCII, which do not decode whatever their padding. *)
Definition decode_jwt_payload (token : string) : option json :=
  match split_on "." token with
  | _ :: payload_b64 :: _ =>
      let padded := payload_b64 +:+ eq_pad (4 - String.length payload_b64 `mod` 4) in
      match b64decode_text (replace_char "_" "/" (replace_char "-" "+" padded)) with
      | None => None
      | Some data => match json_loads_bytes data with Ok v => Some v | Raise _ => None end
      end
  | _ => None
  end.

(** ** Policies and stubs *)

Definition digests_of (v : json) : res (list json) :=
  match v with
  | JList l => frozenset l
  | _ => if truthy v then frozenset [v] else Ok []
  end.

Definition _build_policy_from_backend (backend : json) : res verifier_policy :=
  verifier_name ← py_get backend "verifier" (JStr "");
  if py_eq verifier_name (JStr "noop") then Ok NoopPolicy else
  digest_val ← py_get backend "expected_digest" (JStr "");
  digests ← digests_of digest_val;
  debug ← py_get backend "allow_debug_tee" (JBool false);
  monitoring ← py_get backend "allow_memory_monitoring" (JBool false);
  project ← py_get backend "expected_project_id" (JStr "");
  account ← py_get backend "expected_service_account" (JStr "");
  digest ← py_get backend "expected_image_digest" JNull;
  digests ← (if truthy digest then frozenset [digest] else Ok digests);
  min_cs ← py_get backend "min_cs_version" JNull;
  version ← (if py_eq min_cs JNull || py_eq min_cs (JStr "")
             then Ok _MIN_CS_VERSION_DEFAULT else py_int min_cs);
  Ok (Ita {| expected_image_digests := digests;
             expected_project_id := project;
             expected_service_account := account;
             min_cs_version := version;
             allow_debug := debug;
             allow_memory_monitoring := monitoring;
             clock_skew_seconds := 300 |}).

Definition _get_stub (h : json) (p : Z) (policy : verifier_policy)
  : ST net exn (ZtabChannel * grpc_channel) :=
  v ← lift (get_verifier policy);
  channel_wrapper ← lift (ZtabChannel_init h p (Some v));
  r ← with_object channel_wrapper connect;
  mret (r.2, r.1).

(** ** The channel cache *)

Definition cache_lookup (bid : json) (c : channel_cache) : option (ZtabChannel * grpc_channel) :=
  snd <$> List.find (λ e, py_eq e.1 bid) c.

Definition cache_remove (bid : json) (c : channel_cache) : channel_cache :=
  List.filter (λ e, negb (py_eq e.1 bid)) c.

(** [bid in _CHANNEL_CACHE] and the like hash their argument first. *)
Definition hash_key (bid : json) : ST mcp exn unit :=
  if hashable bid then mret tt else raise (unhashable bid).

Definition backend_port (backend : json) : res Z :=
  p ← py_get backend "port" (JInt 8000); py_int p.

Definition _get_cached_stub (arguments : json) : ST mcp exn (ZtabChannel * grpc_channel * json) :=
  wanted ← lift (py_get arguments "backend" JNull);
  backend ← _get_backend_info wanted;
  bid ← lift (py_getitem backend "backend_id");
  hash_key bid;;
  s ← get_state;
  (match cache_lookup bid (_CHANNEL_CACHE s) with
   | Some _ => mret tt
   | None =>
       policy ← lift (_build_policy_from_backend backend);
       h ← lift (py_get backend "host" (JStr "localhost"));
       p ← lift (backend_port backend);
       entry ← net_m (_get_stub h p policy);
       s ← get_state;
       set_cache_m (_CHANNEL_CACHE s ++ [(bid, entry)])
   end);;
  s ← get_state;
  match cache_lookup bid (_CHANNEL_CACHE s) with
  | Some (channel, stub) => mret (channel, stub, backend)
  | None => raise (Exn KeyError [Val bid])
  end.

Definition _evict_backend (arguments : json) : ST mcp exn unit :=
  wanted ← lift (py_get arguments "backend" JNull);
  backend ← _get_backend_info wanted;
  bid ← lift (py_getitem backend "backend_id");
  hash_key bid;;
  s ← get_state;
  match cache_lookup bid (_CHANNEL_CACHE s) with
  | None => mret tt
  | Some (channel, _) =>
      set_cache_m (cache_remove bid (_CHANNEL_CACHE s));;
      try_except (net_m (with_object channel close);; mret tt)
        (λ e, if is_exception e then Some (mret tt) else None)
  end.

Definition _common_args (arguments : json) : ST mcp exn (json * Z * verifier_policy) :=
  wanted ← lift (py_get arguments "backend" JNull);
  backend ← _get_backend_info wanted;
  h ← lift (py_get backend "host" (JStr "localhost"));
  p ← lift (backend_port backend);
  policy ← lift (_build_policy_from_backend backend);
  mret (h, p, policy).

(** ** Handlers *)

Fixpoint sanitize (bs : list json) : res (list out) :=
  match bs with
  | [] => Ok []
  | b :: bs' =>
      v ← py_get b "verifier" JNull;
      id ← py_get b "backend_id" JNull;
      name ← py_get b "name" JNull;
      description ← py_get b "description" JNull;
      rest ← sanitize bs';
      Ok (ODict [("backend_id", OVal id); ("name", OVal name); ("description", OVal description);
                 ("security_level",
                   OStr (if negb (py_eq v (JStr "noop")) then "production" else "development"))] :: rest)
  end.

Definition missing_config : out :=
  error_result [Txt "Backend configuration is missing."].

Definition run_list_backends (_arguments : json) : ST mcp exn out :=
  config ← _get_backends;
  match config with
  | Some c =>
      if truthy c then
        backends ← lift (py_get c "backends" (JList []));
        bs ← lift (py_iter backends);
        sanitized ← lift (sanitize bs);
        default ← lift (py_get c "default_backend" JNull);
        mret (ODict [("status", OStr "success"); ("backends", OList sanitized);
                     ("default_backend", OVal default)])
      else mret missing_config
  | None => mret missing_config
  end.

(** [f"gRPC error {e.code()}: {e.details()}"] *)
Definition grpc_error (c : status_code) (e : exn) : out :=
  error_result ([Txt "gRPC error "; Txt (status_name c); Txt ": "] ++ exn_msg e).

Definition connectivity_failure (e : exn) : option (ST mcp exn out) :=
  match rpc_code e with
  | Some c => Some (mret (grpc_error c e))
  | None => if is_exception e then Some (mret (error_result (Txt "Connection error: " :: exn_msg e))) else None
  end.

Definition run_connectivity_test (h : json) (p : Z) (message : json) (policy : verifier_policy)
  : ST mcp exn out :=
  r ← net_m (_get_stub h p policy);
  let channel_wrapper := r.1 in
  let stub := r.2 in
  try_finally
    (try_except
       (m ← lift (string_field message);
        echo ← net_m (call stub (EchoRequest m) None);
        let token := attestation_token channel_wrapper in
        let claims := match token with
                      | Some t => if String.eqb t "" then None else decode_jwt_payload t
                      | None => None
                      end in
        mret (ODict [("status", OStr "success");
                     ("message", OStr "ZTAB connectivity test passed.");
                     ("tls_handshake", OStr "OK (CN=ztab-tee)");
                     ("attestation_token_present", OVal (JBool (match token with Some _ => true | None => false end)));
                     ("attestation_claims", OVal (match claims with Some c => c | None => JNull end));
                     ("echo_response", OStr echo)]))
       connectivity_failure)
    (net_m (with_object channel_wrapper close);; mret tt).

(** [except grpc.RpcError]: a stale channel is evicted, any RPC error is
    reported. *)
Definition rpc_failure (arguments : json) (e : exn) : option (ST mcp exn out) :=
  match rpc_code e with
  | Some c =>
      Some ((if bool_decide (c = UNAVAILABLE) then _evict_backend arguments else mret tt);;
            mret (grpc_error c e))
  | None => None
  end.

(** [arguments.get("client_nonce", str(uuid.uuid4()))] *)
Definition client_nonce_of (arguments : json) : ST mcp exn string :=
  n ← tick_m;
  v ← lift (py_get arguments "client_nonce" (JStr (uuid4 n)));
  lift (string_field v).

Definition text_arg (arguments : json) (k : string) : res string :=
  v ← py_getitem arguments k; string_field v.

Definition run_create_session (arguments : json) : ST mcp exn out :=
  r ← _get_cached_stub arguments;
  let stub := r.1.2 in
  let backend_info := r.2 in
  try_except
    (class ← lift (py_getitem arguments "policy_class");
     participants ← lift (v ← py_getitem arguments "expected_participants"; py_int v);
     timeout ← lift (v ← py_get arguments "timeout_seconds" (JInt 300); py_int v);
     class ← lift (string_field class);
     participants ← lift (int32_field participants);
     timeout ← lift (int32_field timeout);
     creator_token ← lift (py_get backend_info "creator_token" (JStr ""));
     let md := if truthy creator_token then Some [("x-ztab-creator-token", creator_token)] else None in
     nonce ← client_nonce_of arguments;
     resp ← net_m (call stub (CreateSessionRequest
              {| policy_class := class; input_schema_json := ""; output_schema_json := "";
                 expected_participants := participants; timeout_seconds := timeout;
                sdp_signature := ""; signature_key_id := "" |} nonce) md);
     state ← lift (SessionState_Name (cr_state resp));
     mret (ODict [("status", OStr "success");
                  ("invitation_token", OStr (cr_invitation_token resp));
                  ("state", OStr state);
                  ("participant_token", OStr (cr_participant_token resp));
                  ("instructions", OStr "Share invitation_token with other participants. Keep your participant_token secret.")]))
    (rpc_failure arguments).

Definition run_join_session (arguments : json) : ST mcp exn out :=
  r ← _get_cached_stub arguments;
  let stub := r.1.2 in
  try_except
    (invitation ← lift (py_getitem arguments "invitation_token");
     role ← lift (py_get arguments "role" (JStr ""));
     n ← tick_m;
     nonce ← lift (py_get arguments "client_nonce" (JStr (uuid4 n)));
     invitation ← lift (string_field invitation);
     role ← lift (string_field role);
     nonce ← lift (string_field nonce);
     resp ← net_m (call stub (JoinSessionRequest invitation role nonce) None);
     state ← lift (SessionState_Name (jr_state resp));
     mret (ODict [("status", OStr "success");
                  ("state", OStr state);
                  ("policy_class", OStr (policy_class (jr_policy resp)));
                  ("expected_participants", OVal (JInt (expected_participants (jr_policy resp))));
                  ("participant_token", OStr (jr_participant_token resp));
                  ("instructions", OStr "Review the policy, then call ztab_accept_policy.")]))
    (rpc_failure arguments).

Definition run_accept_policy (arguments : json) : ST mcp exn out :=
  r ← _get_cached_stub arguments;
  let stub := r.1.2 in
  try_except
    (token ← lift (text_arg arguments "participant_token");
     resp ← net_m (call stub (AcceptPolicyRequest token) None);
     state ← lift (SessionState_Name (ar_state resp));
     mret (ODict [("status", OStr "success"); ("state", OStr state);
                  ("instructions",
                    OStr (if ar_state resp =? SEALED
                          then "All participants accepted. Submit your input now."
                          else "Waiting for other participants to accept."))]))
    (rpc_failure arguments).

Definition run_submit_input (arguments : json) : ST mcp exn out :=
  r ← _get_cached_stub arguments;
  let stub := r.1.2 in
  try_except
    (token ← lift (py_getitem arguments "participant_token");
     input ← lift (py_getitem arguments "input_json");
     token ← lift (string_field token);
     input ← lift (string_field input);
     resp ← net_m (call stub (SubmitInputRequest token input) None);
     state ← lift (SessionState_Name (sr_state resp));
     mret (ODict [("status", OStr "success"); ("state", OStr state);
                  ("remaining_inputs", OVal (JInt (sr_remaining_inputs resp)));
                  ("instructions",
                    if sr_remaining_inputs resp =? 0
                    then OStr "All inputs received. Call ztab_get_result."
                    else OFmt [Txt "Waiting for "; Val (JInt (sr_remaining_inputs resp)); Txt " more input(s)."])]))
    (rpc_failure arguments).

(** The entries [run_get_result] adds to status and state. *)
Definition result_entries (resp : GetResultResponse) (state : string) : res (list (string * out)) :=
  if gr_state resp =? CLOSED then
    match json_loads (gr_result_json resp) with
    | Ok v => Ok [("result", OVal v)]
    | Raise e =>
        if bool_decide (exn_type e = JSONDecodeError)
        then Ok [("result_raw", OStr (gr_result_json resp))]
        else Raise e
    end
  else if gr_state resp =? ABORTED then
    code ← SessionError_Name (gr_error_code resp);
    Ok [("error_code", OStr code); ("error_detail", OStr (gr_error_detail resp))]
  else Ok [("instructions", OFmt [Txt "Result not yet available. State is "; Txt state; Txt "."])].

Definition run_get_result (arguments : json) : ST mcp exn out :=
  r ← _get_cached_stub arguments;
  let stub := r.1.2 in
  try_except
    (token ← lift (text_arg arguments "participant_token");
     resp ← net_m (call stub (GetResultRequest token) None);
     state ← lift (SessionState_Name (gr_state resp));
     entries ← lift (result_entries resp state);
     mret (ODict ([("status", OStr "success"); ("state", OStr state)] ++ entries)))
    (rpc_failure arguments).

Definition run_get_session_status (arguments : json) : ST mcp exn out :=
  r ← _get_cached_stub arguments;
  let stub := r.1.2 in
  try_except
    (token ← lift (text_arg arguments "participant_token");
     resp ← net_m (call stub (GetSessionStatusRequest token) None);
     state ← lift (SessionState_Name (st_state resp));
     mret (ODict [("status", OStr "success"); ("state", OStr state);
                  ("participants_joined", OVal (JInt (st_participants_joined resp)));
                  ("participants_accepted", OVal (JInt (st_participants_accepted resp)));
                  ("inputs_received", OVal (JInt (st_inputs_received resp)))]))
    (rpc_failure arguments).

(** ** Dispatch *)

Definition test_connection_handler (args : json) : ST mcp exn out :=
  c ← _common_args args;
  message ← lift (py_get args "message" (JStr "Test"));
  run_connectivity_test c.1.1 c.1.2 message c.2.

Definition TOOL_HANDLERS : list (string * (json → ST mcp exn out)) :=
  [("ztab_list_backends", run_list_backends);
   ("ztab_test_connection", test_connection_handler);
   ("ztab_create_session", run_create_session);
   ("ztab_join_session", run_join_session);
   ("ztab_accept_policy", run_accept_policy);
   ("ztab_submit_input", run_submit_input);
   ("ztab_get_result", run_get_result);
   ("ztab_get_session_status", run_get_session_status)].

(** [TOOL_HANDLERS.get(tool_name)] *)
Definition find_handler (tool_name : json) : res (option (json → ST mcp exn out)) :=
  if hashable tool_name then
    Ok (match tool_name with
        | JStr t => snd <$> List.find (λ h, String.eqb h.1 t) TOOL_HANDLERS
        | _ => None
        end)
  else Raise (unhashable tool_name).

Definition tool_failure (e : exn) : option (ST mcp exn out) :=
  if is_value_error e then Some (mret (error_result (exn_msg e)))
  else if is_exception e then Some (mret (error_result (Txt "Tool execution failed: " :: exn_msg e)))
  else None.

(** [tools/call]: the result dict of a tool. *)
Definition call_tool (tool_name arguments : json) : ST mcp exn out :=
  handler ← lift (find_handler tool_name);
  match handler with
  | None => mret (error_result [Txt "Unknown tool: "; Val tool_name])
  | Some handler =>
      validation_error ← lift (_validate_required_args tool_name arguments);
      match validation_error with
      | Some o => mret o
      | None => try_except (handler arguments) tool_failure
      end
  end.

(** A result, or [_NOT_HANDLED]. *)
Inductive handled := NotHandled | Handled (o : out).

Definition handle_request (method params : json) : ST mcp exn handled :=
  if py_eq method (JStr "initialize") then
    mret (Handled (ODict
      [("protocolVersion", OStr PROTOCOL_VERSION);
       ("capabilities", OVal (JObj [("tools", JObj [])]));
       ("serverInfo", OVal (JObj [("name", JStr SERVER_NAME); ("version", JStr SERVER_VERSION)]))]))
  else if py_eq method (JStr "notifications/initialized") then mret (Handled (OVal JNull))
  else if py_eq method (JStr "tools/list") then mret (Handled (OVal (JObj [("tools", JList TOOLS)])))
  else if py_eq method (JStr "tools/call") then
    tool_name ← lift (py_get params "name" (JStr ""));
    arguments ← lift (py_get params "arguments" (JObj []));
    result ← call_tool tool_name arguments;
    mret (Handled (ODict [("content", OList [ODict [("type", OStr "text"); ("text", ODumps result)]])]))
  else mret NotHandled.

(** ** The main loop *)

Definition emit (o : out) : ST mcp exn unit :=
  modify (λ s, Mcp (m_net s) (_backends_mtime_ns s) (_backends_config s) (_CHANNEL_CACHE s) (_PROTO_OUT s ++ [o])).

Definition error_response (msg_id : json) (code : Z) (message : list frag) : out :=
  ODict [("jsonrpc", OStr "2.0"); ("id", OVal msg_id);
         ("error", ODict [("code", OVal (JInt code)); ("message", OFmt message)])].

Definition exn_name (c : exn_class) : string :=
  match c with
  | ValueError => "ValueError" | JSONDecodeError => "JSONDecodeError" | TypeError => "TypeError"
  | AttributeError => "AttributeError" | KeyError => "KeyError" | IndexError => "IndexError"
  | OverflowError => "OverflowError" | RuntimeError => "RuntimeError" | OSError => "OSError"
  | FileNotFoundError => "FileNotFoundError" | ExpiredSignatureError => "ExpiredSignatureError"
  | InvalidAudienceError => "InvalidAudienceError" | DecodeError => "DecodeError"
  | RpcError _ => "RpcError" | OtherException name => name | SystemExit _ => "SystemExit"
  end.

Definition is_null (v : json) : bool := match v with JNull => true | _ => false end.

Definition respond (method msg_id : json) (result : handled) : ST mcp exn unit :=
  if is_null msg_id then mret tt
  else match result with
       | NotHandled => emit (error_response msg_id (-32601) [Txt "Method not found: "; Val method])
       | Handled o => emit (ODict [("jsonrpc", OStr "2.0"); ("id", OVal msg_id); ("result", o)])
       end.

(** One message: [handle_request] and its response. [None] marks an exception
    that was reported and consumed. The messages on standard error are left
    out. *)
Definition process_message (msg : json) : ST mcp exn unit :=
  method ← lift (py_get msg "method" (JStr ""));
  params ← lift (py_get msg "params" (JObj []));
  msg_id ← lift (py_get msg "id" JNull);
  result ← try_except (r ← handle_request method params; mret (Some r))
    (λ e, if is_exception e then
       Some ((if is_null msg_id then mret tt
              else emit (error_response msg_id (-32603)
                     ([Txt "Internal error: "; Txt (exn_name (exn_type e)); Txt ": "] ++ exn_msg e)));;
             mret None)
     else None);
  match result with
  | None => mret tt
  | Some r => respond method msg_id r
  end.

(** One line of input. *)
Definition process_line (line : string) : ST mcp exn unit :=
  let line := strip line in
  if String.eqb line "" then mret tt
  else match json_loads line with
       | Raise e => if bool_decide (exn_type e = JSONDecodeError) then mret tt else raise e
       | Ok msg => process_message msg
       end.

(** [readline] returns the lines in turn, then the empty text at end of file. *)
Fixpoint main (lines : list string) : ST mcp exn unit :=
  match lines with
  | [] => mret tt
  | line :: lines' =>
      if String.eqb line "" then mret tt
      else process_line line;; main lines'
  end.
End mcp_server.
