(* ===== verification/DemoServer.v ===== *)
(** A concrete configuration file, input reader and session service for the MCP
    server, with which its definitions run. *)

From S2P Require Import Prelude PyText Base64 PyValue External Attestation Policy World ItaVerifier Rpc Client Backends McpServer Examples.

Open Scope Z_scope.

Definition demo_backend : json :=
  JObj [("backend_id", JStr "b1"); ("name", JStr "First"); ("host", JStr "tee.example");
        ("port", JStr "8443"); ("verifier", JStr "ita"); ("expected_digest", JStr "sha256:aa");
        ("creator_token", JStr "s3cret")].

Definition demo_config : json :=
  JObj [("default_backend", JStr "b1"); ("backends", JList [demo_backend])].

(** The file is there, with the modification times and contents given. *)
Definition demo_files (mtime : nat → Z) (content : nat → res json) : Files := {|
  stat_mtime_ns n path := Ok (mtime n);
  load_json_file n path := content n;
  expanduser path := path;
  uuid4 n := "uuid" |}.

Definition steady_files : Files := demo_files (λ _, 1) (λ _, Ok demo_config).

(** [tools/call] of a tool, as a message. *)
Definition tool_message (id : json) (tool : string) (args : dict) : json :=
  JObj [("jsonrpc", JStr "2.0"); ("id", id); ("method", JStr "tools/call");
        ("params", JObj [("name", JStr tool); ("arguments", JObj args)])].

(** Input lines are named rather than spelled out. *)
Definition demo_json : PyJson := {|
  json_loads s :=
    if String.eqb s "create" then
      Ok (tool_message (JInt 1) "ztab_create_session"
            [("policy_class", JStr "ScheduleOverlap"); ("expected_participants", JInt 2)])
    else if String.eqb s "status" then
      Ok (tool_message (JInt 2) "ztab_get_session_status" [("participant_token", JStr "pt")])
    else if String.eqb s "test" then
      Ok (tool_message (JInt 3) "ztab_test_connection" [("message", JStr "hi")])
    else if String.eqb s "list" then Ok (tool_message (JInt 4) "ztab_list_backends" [])
    else if String.eqb s "initialized" then Ok (JObj [("method", JStr "notifications/initialized")])
    else if String.eqb s "discover" then Ok (JObj [("id", JInt 5); ("method", JStr "server/discover")])
    else if String.eqb s "batch" then Ok (JList [JObj [("id", JInt 6)]])
    else Raise (Exn JSONDecodeError [Txt "Expecting value"]);
  json_loads_bytes bs := Ok (JObj []) |}.

Definition demo_policy_message : SessionPolicy := {|
  policy_class := "ScheduleOverlap"; input_schema_json := ""; output_schema_json := "";
  expected_participants := 2; timeout_seconds := 300;
                sdp_signature := ""; signature_key_id := "" |}.

Definition demo_answer (r : rpc_request) : response r :=
  match r with
  | EchoRequest m => m
  | CreateSessionRequest _ _ => {| cr_invitation_token := "it"; cr_state := 1; cr_participant_token := "pt" |}
  | JoinSessionRequest _ _ _ => {| jr_state := 1; jr_policy := demo_policy_message; jr_participant_token := "pt2" |}
  | AcceptPolicyRequest _ => {| ar_state := 2 |}
  | SubmitInputRequest _ _ => {| sr_state := 3; sr_remaining_inputs := 0 |}
  | GetResultRequest _ => {| gr_state := 4; gr_result_json := "{}"; gr_error_code := 0; gr_error_detail := "" |}
  | GetSessionStatusRequest _ =>
      {| st_state := 2; st_participants_joined := 2; st_participants_accepted := 2; st_inputs_received := 1 |}
  end.

(** The service answers while [up]. *)
Definition demo_grpc (up : bool) : Grpc := {|
  string_field v :=
    match v with
    | JStr s => Ok s
    | JNull => Ok ""
    | _ => Raise (Exn TypeError [Txt "bad argument type for built-in operation"])
    end;
  int32_field n :=
    if (-2147483648 <=? n) && (n <=? 2147483647) then Ok n
    else Raise (Exn ValueError [Txt "Value out of range: "; Val (JInt n)]);
  rpc n ch closed r md :=
    if closed then Raise (Exn ValueError [Txt "Cannot invoke RPC on closed channel!"])
    else if up then Ok (demo_answer r)
    else Raise (Exn (RpcError UNAVAILABLE) [Txt "failed to connect to all addresses"]) |}.

(** The server in production on some input lines. *)
Definition demo_main (up : bool) (lines : list string) : res unit * mcp :=
  main (H:=demo_host ∅) (H0:=demo_x509) (H1:=demo_jwt) (H2:=steady_files) (H3:=demo_json)
    (H4:=demo_grpc up) lines init_mcp.
