(* ===== verification/McpChannels.v ===== *)
(** The channels of the MCP server: every call it ever makes goes over an open
    channel that was attested under the policy of a configured backend.

    The proof is an invariant of the server's state, preserved by every handler
    on every path, exceptions included. *)

From S2P Require Import Prelude PyText Base64 PyValue External Attestation Policy World Jwks ItaVerifier Rpc Client Backends McpServer Examples DemoServer.

Open Scope Z_scope.

Lemma union_shuffle (x : nat) (a b : gset nat) : a ∪ ({[x]} ∪ ∅ ∪ b) = {[x]} ∪ a ∪ b.
Proof. by rewrite union_empty_r_L, (assoc_L (∪)), (comm_L (∪) a). Qed.

Section channels.
Context `{Host, X509, PyJWT, Files, PyJson, Grpc}.

(** ** The invariant *)

Definition log_of (s : mcp) : list interaction := w_log (n_world (m_net s)).

(** The entry stands in a configuration file that the server loaded and that
    passed validation. *)
Definition configured (log : list interaction) (backend : json) : Prop :=
  ∃ config v bs, LoadedFile _backends_config_path config ∈ log ∧
    is_ok (_validate_backends config _backends_config_path) = true ∧
    py_get config "backends" (JList []) = Ok v ∧ py_iter v = Ok bs ∧ backend ∈ bs.

(** The channel leads to the host and port of the entry, and its certificate was
    accepted by the verifier of the policy the same entry describes. *)
Definition attested_entry (log : list interaction) (backend : json) (ch : grpc_channel) : Prop :=
  configured log backend ∧
  py_get backend "host" (JStr "localhost") = Ok (ch_host ch) ∧ backend_port backend = Ok (ch_port ch) ∧
  ∃ policy v, _build_policy_from_backend backend = Ok policy ∧ get_verifier policy = Ok v ∧ accepted_by v log ch.

Definition attested (log : list interaction) (ch : grpc_channel) : Prop := ∃ backend, attested_entry log backend ch.

Lemma configured_mono log log' backend : log `prefix_of` log' → configured log backend → configured log' backend.
Proof.
  intros [l ->] (config & v & bs & Hl & Hc). exists config, v, bs. split; [apply elem_of_app; by left|done].
Qed.

Lemma attested_entry_mono log log' backend ch :
  log `prefix_of` log' → attested_entry log backend ch → attested_entry log' backend ch.
Proof.
  intros Hl (Hc & Hh & Hp & policy & v & Hb & Hv & Ha). split; [by eapply configured_mono|]. split; [done|]. split; [done|].
  exists policy, v. split; [done|]. split; [done|]. by eapply accepted_mono.
Qed.

Lemma attested_mono log log' ch : log `prefix_of` log' → attested log ch → attested log' ch.
Proof. intros Hl [backend Ha]. exists backend. by eapply attested_entry_mono. Qed.

Definition good_event (log : list interaction) (ev : rpc_event) : Prop :=
  ev_closed ev = false ∧ attested log (ev_channel ev).

Definition wrapper_of (e : json * (ZtabChannel * grpc_channel)) : ZtabChannel := fst (snd e).
Definition stub_of (e : json * (ZtabChannel * grpc_channel)) : grpc_channel := snd (snd e).

Definition cached_ids (c : channel_cache) : list nat := (λ e, ch_id (stub_of e)) <$> c.

(** A cached wrapper holds the channel its stub was made for, which is open and
    attested for an entry with the id it is cached under. *)
Definition good_entry (n : net) (e : json * (ZtabChannel * grpc_channel)) : Prop :=
  zc_channel (wrapper_of e) = Some (stub_of e) ∧
  (∃ backend, attested_entry (w_log (n_world n)) backend (stub_of e) ∧ py_getitem backend "backend_id" = Ok e.1) ∧
  (ch_id (stub_of e) ∉ n_closed n) ∧ (ch_id (stub_of e) < n_next n)%nat.

Record net_ok (n : net) : Prop := {
  no_genuine : genuine (n_world n);
  no_events : Forall (good_event (w_log (n_world n))) (n_rpcs n);
  no_closed : ∀ i, i ∈ n_closed n → (i < n_next n)%nat
}.

(** The configuration was loaded and passed validation. *)
Definition in_force (log : list interaction) (c : option json) : Prop :=
  ∀ config, c = Some config → LoadedFile _backends_config_path config ∈ log ∧
    is_ok (_validate_backends config _backends_config_path) = true.

Lemma in_force_mono log log' c : log `prefix_of` log' → in_force log c → in_force log' c.
Proof. intros [l ->] Hc config He. destruct (Hc config He). split; [apply elem_of_app; by left|done]. Qed.

(** With the responses written so far, which only the main loop adds to. *)
Record Inv (o : list out) (s : mcp) : Prop := {
  inv_net : net_ok (m_net s);
  inv_entries : Forall (good_entry (m_net s)) (_CHANNEL_CACHE s);
  inv_ids : NoDup (cached_ids (_CHANNEL_CACHE s));
  inv_config : in_force (log_of s) (_backends_config s);
  inv_out : _PROTO_OUT s = o
}.

Lemma Inv_init : Inv [] init_mcp.
Proof.
  split; [split; [apply genuine_init|constructor|by intros ? ?%elem_of_empty]|constructor|constructor|by intros ?|done].
Qed.

(** ** Steps that touch neither channels nor output *)

(** The state after steps of the world below. *)
Definition at_world (w : world) (s : mcp) : mcp :=
  Mcp (Net w (n_next (m_net s)) (n_closed (m_net s)) (n_rpcs (m_net s)))
    (_backends_mtime_ns s) (_backends_config s) (_CHANNEL_CACHE s) (_PROTO_OUT s).

(** Facts that such steps do not change. *)
Definition net_local (P : mcp → Prop) : Prop :=
  ∀ s w, rtc world_step (n_world (m_net s)) w → P s → P (at_world w s).

Lemma good_events_mono log log' evs : log `prefix_of` log' → Forall (good_event log) evs → Forall (good_event log') evs.
Proof. intros Hl Hev. eapply Forall_impl; [exact Hev|]. intros ev [? Ha]. split; [done|by eapply attested_mono]. Qed.

Lemma good_entry_mono n n' e :
  w_log (n_world n) `prefix_of` w_log (n_world n') → n_closed n' = n_closed n → (n_next n <= n_next n')%nat →
  good_entry n e → good_entry n' e.
Proof.
  intros Hl Hc Hn (? & (backend & ? & ?) & ? & ?). split; [done|].
  split; [exists backend; split; [by eapply attested_entry_mono|done]|]. rewrite Hc. split; [done|lia].
Qed.

Lemma Inv_local o : net_local (Inv o).
Proof.
  intros s w Hw [[Hg Hev Hcl] Hen Hid Hco Ho]. destruct (genuine_steps _ _ Hw Hg) as [Hg' Hl].
  split; cbn; [split; cbn; [done|by eapply good_events_mono|done]| |done|by eapply in_force_mono|done].
  eapply Forall_impl; [exact Hen|]. intros e. by apply good_entry_mono.
Qed.

Lemma hoare_on_world {A : Type} P (m : ST world exn A) :
  net_local P → stepping m → hoare P (net_m (on_world m)) (λ _, P) P.
Proof.
  intros HP Hm s Hs. unfold net_m, on_world, zoom. specialize (Hm (n_world (m_net s))).
  destruct (m (n_world (m_net s))) as [[a|e] w]; by apply (HP s w).
Qed.

Lemma bind_lift {S A B : Type} (P : S → Prop) (r : res A) (f : A → ST S exn B) Q R :
  (∀ s, P s → R s) → (∀ a, r = Ok a → hoare P (f a) Q R) → hoare P (lift r ≫= f) Q R.
Proof.
  intros HR Hf s Hs. unfold mbind, ST_bind, lift. destruct r as [a|e]; [by apply Hf|by apply HR].
Qed.

Lemma bind_keep {S A B : Type} (P R : S → Prop) (m : ST S exn A) (f : A → ST S exn B) Q :
  hoare P m (λ _, P) R → (∀ a, hoare P (f a) Q R) → hoare P (m ≫= f) Q R.
Proof. intros Hm Hf. eapply hoare_bind; [exact Hm|exact Hf]. Qed.

Lemma bind_get {S B : Type} (P R : S → Prop) (f : S → ST S exn B) Q :
  (∀ s0, P s0 → hoare (λ s, s = s0) (f s0) Q R) → hoare P (get_state ≫= f) Q R.
Proof. intros Hf s Hs. by apply (Hf s Hs). Qed.

(** ** Closing *)

Definition closing (n : net) (ids : list nat) : net :=
  Net (n_world n) (n_next n) (list_to_set ids ∪ n_closed n) (n_rpcs n).

Lemma close_object z ch n :
  zc_channel z = Some ch → ∃ z', with_object z close n = (Ok (tt, z'), closing n [ch_id ch]).
Proof.
  intros Hz. unfold with_object. rewrite close_run. cbn [self]. rewrite Hz.
  eexists. unfold closing. cbn. by rewrite union_empty_r_L.
Qed.

Lemma close_all_run c s :
  Forall (λ e, zc_channel (wrapper_of e) = Some (stub_of e)) c →
  close_all c s = (Ok tt, Mcp (closing (m_net s) (cached_ids c)) (_backends_mtime_ns s)
    (_backends_config s) (_CHANNEL_CACHE s) (_PROTO_OUT s)).
Proof.
  intros Hc. revert s. induction Hc as [|[bid [z ch]] c Hz Hc IH]; intros s; cbn [close_all].
  - destruct s as [[w nx cl ev] mt cf ca po]. cbn. unfold closing. cbn. by rewrite union_empty_l_L.
  - destruct (close_object z ch (m_net s) Hz) as [z' Hz'].
    unfold net_m, zoom. st_unfold. rewrite Hz'. rewrite IH. f_equal. cbn.
    unfold closing. cbn. by rewrite union_shuffle.
Qed.

Lemma inv_wrappers o s : Inv o s → Forall (λ e, zc_channel (wrapper_of e) = Some (stub_of e)) (_CHANNEL_CACHE s).
Proof. intros Hi. eapply Forall_impl; [exact (inv_entries _ _ Hi)|]. by intros e []. Qed.

Lemma flush_ok o : hoare (Inv o) flush_channels (λ _, Inv o) (Inv o).
Proof.
  intros s Hi. unfold flush_channels. st_unfold. rewrite close_all_run by by eapply inv_wrappers.
  destruct Hi as [[Hg Hev Hcl] Hen Hid Hco Ho]. split; cbn; [split; cbn; [done|done|]|constructor|constructor|done|done].
  intros i [Hin|Hin]%elem_of_union; [|by apply Hcl].
  apply elem_of_list_to_set, list_elem_of_fmap in Hin as (e & -> & He).
  rewrite Forall_forall in Hen. by destruct (Hen e He) as (_ & _ & _ & ?).
Qed.

(** ** Configuration *)

Lemma stepping_tick : stepping tick.
Proof. intros w. eapply rtc_once, ws_tick, surjective_pairing. Qed.

Lemma tick_ok P : net_local P → hoare P tick_m (λ _, P) P.
Proof. intros HP. apply hoare_on_world; [done|apply stepping_tick]. Qed.

(** A file that was read is in the log. *)
Lemma learn_file_ok o path c :
  hoare (Inv o) (learn_m (LoadedFile path c)) (λ _ s, Inv o s ∧ LoadedFile path c ∈ log_of s) (Inv o).
Proof.
  intros s Hi. unfold learn_m, net_m, on_world, zoom, learn. cbn.
  split; [apply (Inv_local o s); [eapply rtc_once, (ws_file path c); reflexivity|done]|].
  apply elem_of_app. right. apply list_elem_of_here.
Qed.

(** What was read, as [_load_backends_from] knows it *)
Definition was_read (c : option json) (s : mcp) : Prop :=
  ∀ config, c = Some config → LoadedFile _backends_config_path config ∈ log_of s.

Lemma load_ok o :
  hoare (Inv o) (_load_backends_from _backends_config_path) (λ c s, in_force (log_of s) c ∧ Inv o s) (Inv o).
Proof.
  unfold _load_backends_from. apply (hoare_bind _ _ _ (λ c s, Inv o s ∧ was_read c s)).
  - eapply hoare_try; [|intros e k Hk; case_match; [injection Hk as <-; by apply hoare_ret|done]|done].
    apply bind_keep; [apply tick_ok, Inv_local|intros n].
    apply bind_lift; [done|intros c _]. eapply hoare_bind; [apply learn_file_ok|intros ?].
    apply hoare_ret. intros s [Hi Hl]. split; [done|]. by intros config [= <-].
  - intros [c|]; [|apply hoare_ret; by intros s []].
    apply bind_lift; [by intros s []|intros ws Hv]. apply hoare_ret.
    intros s [Hi Hr]. split; [|done]. intros config [= <-]. split; [by apply Hr|]. apply is_ok_true. by exists ws.
Qed.

Lemma set_config_ok o c m :
  hoare (λ s, in_force (log_of s) c ∧ Inv o s) (set_config c m) (λ _ s, in_force (log_of s) c ∧ Inv o s) (Inv o).
Proof. apply hoare_modify. by intros s [? []]. Qed.

(** Closing channels leaves the log alone. *)
Lemma flush_log o c :
  hoare (λ s, in_force (log_of s) c ∧ Inv o s) flush_channels (λ _ s, in_force (log_of s) c ∧ Inv o s) (Inv o).
Proof.
  intros s [Hc Hi]. pose proof (flush_ok o s Hi) as Hf. revert Hf. unfold flush_channels. st_unfold.
  rewrite close_all_run by by eapply inv_wrappers. done.
Qed.

Lemma get_backends_ok o :
  hoare (Inv o) _get_backends (λ c s, in_force (log_of s) c ∧ Inv o s) (Inv o).
Proof.
  unfold _get_backends. apply bind_keep; [apply tick_ok, Inv_local|intros n].
  destruct (stat_mtime_ns n _) as [mtime|e]; [|case_match; [by apply hoare_ret|by apply hoare_raise]].
  apply bind_get. intros s0 Hi0. case_match.
  - apply (hoare_conseq _ (Inv o) _ _ (λ c s, in_force (log_of s) c ∧ Inv o s) _ (Inv o)); [|by intros ? ->|done|done].
    eapply hoare_bind; [apply load_ok|intros new_config].
    eapply hoare_bind; [apply (hoare_get _ (λ _ s, in_force (log_of s) new_config ∧ Inv o s)); by intros s|intros s1]. cbv beta.
    eapply (hoare_bind _ _ _ (λ _ s, in_force (log_of s) new_config ∧ Inv o s));
      [case_match; [apply flush_log|by apply hoare_ret]|intros ?].
    eapply hoare_bind; [apply set_config_ok|intros ?]. by apply hoare_ret.
  - apply hoare_ret. intros s ->. split; [apply (inv_config _ _ Hi0)|done].
Qed.

Lemma find_backend_in bid bs b : find_backend bid bs = Ok (Some b) → b ∈ bs.
Proof.
  induction bs as [|b' bs IH]; [done|]. cbn [find_backend]. intros (id & _ & Hf)%bind_Ok.
  destruct (py_eq id bid); [injection Hf as <-; apply list_elem_of_here|]. right. by apply IH.
Qed.

(** A selected entry stands in the configuration. *)
Lemma select_configured config wanted backend log :
  in_force log (Some config) → select_backend config wanted = Ok backend → configured log backend.
Proof.
  intros Hc Hs. destruct (Hc config eq_refl) as [Hl Hv]. unfold select_backend in Hs.
  apply bind_Ok in Hs as (default & _ & Hs). cbv zeta in Hs. case_match; [done|].
  apply bind_Ok in Hs as (v & Hb & Hs). apply bind_Ok in Hs as (bs & Hbs & Hs).
  apply bind_Ok in Hs as (found & Hf & Hs). destruct found as [b|].
  - injection Hs as <-. exists config, v, bs. apply find_backend_in in Hf. done.
  - apply bind_Ok in Hs as (? & _ & Hs). by apply bind_Ok in Hs as (? & _ & ?).
Qed.

Lemma backend_info_ok o bid :
  hoare (Inv o) (_get_backend_info bid) (λ b s, configured (log_of s) b ∧ Inv o s) (Inv o).
Proof.
  unfold _get_backend_info. eapply hoare_bind; [apply get_backends_ok|].
  intros [c|]; [|apply hoare_raise; by intros s []].
  case_match; [|apply hoare_raise; by intros s []]. intros s [Hc Hi]. unfold lift.
  destruct (select_backend c bid) eqn:Hs; [|done]. split; [by eapply select_configured|done].
Qed.

(** ** Opening *)

(** An open attested channel, in the cache or not. *)
Record usable (ch : grpc_channel) (s : mcp) : Prop := {
  us_attested : attested (log_of s) ch;
  us_open : ch_id ch ∉ n_closed (m_net s);
  us_known : (ch_id ch < n_next (m_net s))%nat
}.

Lemma get_stub_outcome h p policy n :
  genuine (n_world n) →
  let '(r, n') := _get_stub h p policy n in
  n_closed n' = n_closed n ∧ n_rpcs n' = n_rpcs n ∧ rtc world_step (n_world n) (n_world n') ∧
  match r with
  | Ok (z, ch) => n_next n' = S (n_next n) ∧ ch_id ch = n_next n ∧ zc_channel z = Some ch ∧
      ch_host ch = h ∧ ch_port ch = p ∧ ∃ v, get_verifier policy = Ok v ∧ accepted_by v (w_log (n_world n')) ch
  | Raise _ => n_next n' = n_next n
  end.
Proof.
  intros Hg. unfold _get_stub. destruct (get_verifier policy) as [v|e] eqn:Hv; [|done]. st_unfold. cbn [ZtabChannel_init].
  pose proof (certified_orderly policy v Hv) as Ho'. unfold with_object.
  match goal with |- context [connect ?s] => pose proof (connect_outcome s) as Ho;
    destruct (connect s) as [[ch|e] s'] end; destruct Ho as [[] Ho]; destruct Ho; cbn in *; [|by auto].
  repeat (split; [by auto|]). eauto.
Qed.

(** The state after a new channel [ch] was made for an entry. *)
Definition fresh_for (backend : json) (ch : grpc_channel) (s : mcp) : Prop :=
  attested_entry (log_of s) backend ch ∧ usable ch s ∧ ch_id ch ∉ cached_ids (_CHANNEL_CACHE s).

Lemma get_stub_ok o backend h p policy :
  _build_policy_from_backend backend = Ok policy →
  py_get backend "host" (JStr "localhost") = Ok h → backend_port backend = Ok p →
  hoare (λ s, configured (log_of s) backend ∧ Inv o s) (net_m (_get_stub h p policy))
    (λ r s, Inv o s ∧ zc_channel r.1 = Some r.2 ∧ fresh_for backend r.2 s) (Inv o).
Proof.
  intros Hb Hh Hp s [Hc [[Hg Hev Hcl] Hen Hid Hco Ho]]. unfold net_m, zoom.
  pose proof (get_stub_outcome h p policy (m_net s) Hg) as Hst.
  destruct (_get_stub h p policy (m_net s)) as [[[z ch]|e] n']; destruct Hst as (Ec & Er & Hw & Hst);
    destruct (genuine_steps _ _ Hw Hg) as [Hg' Hl].
  - destruct Hst as (En & Ei & Hz & Hh' & Hp' & v & Hv & Ha).
    assert (Hat : attested_entry (w_log (n_world n')) backend ch).
    { split; [by eapply configured_mono|]. rewrite Hh', Hp'. split; [done|]. split; [done|]. eauto. }
    assert (Hid' : ch_id ch ∉ cached_ids (_CHANNEL_CACHE s)).
    { intros (e & He & Hin)%list_elem_of_fmap. rewrite Forall_forall in Hen.
      destruct (Hen e Hin) as (_ & _ & _ & ?). rewrite <- He in *. lia. }
    assert (Hop : ch_id ch ∉ n_closed n').
    { rewrite Ec. intros Hin%Hcl. lia. }
    split; [split; cbn; [split; [done|rewrite Er; by eapply good_events_mono|]| |done|by eapply in_force_mono|done]|].
    + intros i. rewrite Ec, En. intros Hin%Hcl. lia.
    + eapply Forall_impl; [exact Hen|]. intros e. apply good_entry_mono; [done|done|lia].
    + split; [done|]. split; [done|]. split; [split; cbn; [by exists backend|done|lia]|done].
  - split; cbn; [split; [done|rewrite Er; by eapply good_events_mono|by rewrite Ec, Hst]| |done|by eapply in_force_mono|done].
    eapply Forall_impl; [exact Hen|]. intros x. apply good_entry_mono; [done|done|lia].
Qed.

(** ** Calling *)

Lemma call_ok o ch r md (K : mcp → Prop) :
  (∀ s, K s → ∀ n mt cf po, K (Mcp n mt cf (_CHANNEL_CACHE s) po)) →
  hoare (λ s, Inv o s ∧ usable ch s ∧ K s) (net_m (call ch r md)) (λ _ s, Inv o s ∧ usable ch s ∧ K s)
    (λ s, Inv o s ∧ usable ch s ∧ K s).
Proof.
  intros HK s ([[Hg Hev Hcl] Hen Hid Hco Ho] & [Ha Hop Hkn] & Hk).
  unfold net_m, call, on_world, zoom, tick. st_unfold. cbn [n_closed n_world n_next n_rpcs].
  rewrite bool_decide_false by done.
  enough (Hgoal : Inv o (Mcp (Net (World (S (w_tick (n_world (m_net s)))) (w_jwks (n_world (m_net s))) (log_of s))
      (n_next (m_net s)) (n_closed (m_net s)) (n_rpcs (m_net s) ++ [RpcEvent ch false r md]))
    (_backends_mtime_ns s) (_backends_config s) (_CHANNEL_CACHE s) (_PROTO_OUT s))).
  { destruct (rpc _ ch false r md); (split; [exact Hgoal|]; split; [by split|by apply HK]). }
  split; cbn; [split; cbn; [by apply genuine_tick| |done]|done|done|done|done].
  apply Forall_app. split; [done|]. constructor; [by split|constructor].
Qed.

(** ** The cache *)

Lemma cache_lookup_entry bid c z ch :
  cache_lookup bid c = Some (z, ch) → ∃ bid', (bid', (z, ch)) ∈ c ∧ py_eq bid' bid = true.
Proof.
  unfold cache_lookup. destruct (List.find _ c) as [[bid' e]|] eqn:Hf; [|done]. intros [= ->].
  apply List.find_some in Hf as [Hin He]. exists bid'. by rewrite list_elem_of_In.
Qed.

Lemma Inv_usable o s bid z ch :
  Inv o s → (bid, (z, ch)) ∈ _CHANNEL_CACHE s → usable ch s.
Proof.
  intros Hi Hin. pose proof (inv_entries _ _ Hi) as Hen. rewrite Forall_forall in Hen.
  destruct (Hen _ Hin) as (_ & (backend & ? & _) & ? & ?). split; [by exists backend|done|done].
Qed.

Lemma Inv_insert o s backend bid z ch :
  Inv o s → zc_channel z = Some ch → fresh_for backend ch s → py_getitem backend "backend_id" = Ok bid →
  Inv o (Mcp (m_net s) (_backends_mtime_ns s) (_backends_config s) (_CHANNEL_CACHE s ++ [(bid, (z, ch))])
    (_PROTO_OUT s)).
Proof.
  intros [Hn Hen Hid Hco Ho] Hz (He & [Ha Hop Hkn] & Hfr) Hbid. split; cbn; [done| | |done|done].
  - apply Forall_app. split; [done|]. constructor; [|constructor]. split; [done|]. split; [by exists backend|done].
  - unfold cached_ids. rewrite fmap_app. apply NoDup_app. split; [done|]. split; [|apply NoDup_singleton].
    intros i Hi Hs. apply list_elem_of_singleton in Hs as ->. by apply Hfr.
Qed.

Lemma hash_key_ok P bid : hoare P (hash_key bid) (λ _, P) P.
Proof. unfold hash_key. case_match; [by apply hoare_ret|by apply hoare_raise]. Qed.

Definition open_new_entry (backend bid : json) : ST mcp exn unit :=
  policy ← lift (_build_policy_from_backend backend);
  h ← lift (py_get backend "host" (JStr "localhost"));
  p ← lift (backend_port backend);
  entry ← net_m (_get_stub h p policy);
  s ← get_state;
  set_cache_m (_CHANNEL_CACHE s ++ [(bid, entry)]).

Lemma open_new_entry_log backend bid s :
  genuine (n_world (m_net s)) → log_of s `prefix_of` log_of (open_new_entry backend bid s).2.
Proof.
  intros Hg. unfold open_new_entry. st_unfold.
  destruct (_build_policy_from_backend backend) as [policy|]; [|done]. destruct (py_get backend _ _) as [h|]; [|done].
  destruct (backend_port backend) as [p|]; [|done]. unfold net_m, zoom.
  pose proof (get_stub_outcome h p policy (m_net s) Hg) as Hst.
  destruct (_get_stub h p policy (m_net s)) as [[e|e] n']; destruct Hst as (_ & _ & Hw & _); by apply (genuine_steps _ _ Hw).
Qed.

Lemma open_new_entry_ok o backend bid :
  py_getitem backend "backend_id" = Ok bid →
  hoare (λ s, configured (log_of s) backend ∧ Inv o s) (open_new_entry backend bid) (λ _, Inv o) (Inv o).
Proof.
  intros Hbid. unfold open_new_entry. apply bind_lift; [by intros s []|intros policy Hb].
  apply bind_lift; [by intros s []|intros h Hh]. apply bind_lift; [by intros s []|intros p Hp].
  eapply hoare_bind; [by eapply get_stub_ok|]. intros [z ch]. apply bind_get.
  intros s0 (Hi & Hz & Hf) s ->. by eapply Inv_insert.
Qed.

(** The stub a handler works with is attested and open. *)
Definition with_stub (o : list out) (r : ZtabChannel * grpc_channel * json) (s : mcp) : Prop :=
  Inv o s ∧ usable r.1.2 s.

(** More precisely: it is attested for an entry with the id of the entry the
    request selects. *)
Definition selected_stub (o : list out) (r : ZtabChannel * grpc_channel * json) (s : mcp) : Prop :=
  with_stub o r s ∧ configured (log_of s) r.2 ∧
  ∃ backend bid bid', attested_entry (log_of s) backend r.1.2 ∧ py_getitem backend "backend_id" = Ok bid ∧
    py_getitem r.2 "backend_id" = Ok bid' ∧ py_eq bid bid' = true.

Lemma cached_stub_selected o arguments :
  hoare (Inv o) (_get_cached_stub arguments) (selected_stub o) (Inv o).
Proof.
  unfold _get_cached_stub. apply bind_lift; [done|intros wanted _].
  eapply hoare_bind; [apply backend_info_ok|intros backend].
  apply bind_lift; [by intros s []|intros bid Hbid].
  eapply hoare_bind; [eapply hoare_conseq; [apply (hash_key_ok (λ s, configured (log_of s) backend ∧ Inv o s))|done|done|by intros s []]|intros ?].
  eapply hoare_bind; [apply (hoare_get _ (λ _ s, configured (log_of s) backend ∧ Inv o s)); by intros s|intros s0]. cbv beta.
  apply (hoare_bind _ _ _ (λ _ s, configured (log_of s) backend ∧ Inv o s)).
  { case_match; [by apply hoare_ret|]. intros s Hs. pose proof (open_new_entry_ok o backend bid Hbid s Hs) as Ho.
    pose proof (open_new_entry_log backend bid s (no_genuine _ (inv_net _ _ (proj2 Hs)))) as Hl. fold (open_new_entry backend bid).
    destruct (open_new_entry backend bid s) as [[[]|e] s']; [|done]. split; [|done].
    eapply configured_mono; [exact Hl|apply Hs]. }
  intros _. apply bind_get. intros s1 [Hc Hi] s ->.
  destruct (cache_lookup bid (_CHANNEL_CACHE s1)) as [[z ch]|] eqn:Hl; [|done].
  apply cache_lookup_entry in Hl as (bid' & Hin & He). split; [split; [done|by eapply Inv_usable]|]. split; [done|].
  pose proof (inv_entries _ _ Hi) as Hen. rewrite Forall_forall in Hen.
  destruct (Hen _ Hin) as (_ & (b & Ha & Hb) & _). exists b, bid', bid. done.
Qed.

Lemma cached_stub_ok o arguments :
  hoare (Inv o) (_get_cached_stub arguments) (with_stub o) (Inv o).
Proof. eapply hoare_conseq; [apply cached_stub_selected|done|by intros r s []|done]. Qed.

(** ** Eviction *)

Lemma Inv_remove o s bid :
  Inv o s → Inv o (Mcp (m_net s) (_backends_mtime_ns s) (_backends_config s)
    (cache_remove bid (_CHANNEL_CACHE s)) (_PROTO_OUT s)).
Proof.
  intros [Hn Hen Hid Hco Ho]. split; cbn; [done| | |done|done].
  - rewrite Forall_forall in *. intros e [He _]%list_elem_of_In%filter_In. by apply Hen, list_elem_of_In.
  - revert Hid. unfold cached_ids. induction (_CHANNEL_CACHE s) as [|e c IH]; [done|].
    cbn [cache_remove List.filter fmap list_fmap]. intros [Hni Hnd]%NoDup_cons.
    inversion Hen as [|? ? ? Hen']; subst. case_match; [|by apply IH].
    cbn. apply NoDup_cons. split; [|by apply IH].
    intros (e' & He & Hin)%list_elem_of_fmap. apply Hni, list_elem_of_fmap. exists e'. split; [done|].
    apply list_elem_of_In in Hin. apply filter_In in Hin as [Hin _]. by apply list_elem_of_In.
Qed.

(** Closing a channel that is not cached. *)
Lemma close_uncached o z ch :
  zc_channel z = Some ch →
  hoare (λ s, Inv o s ∧ (ch_id ch < n_next (m_net s))%nat ∧ ch_id ch ∉ cached_ids (_CHANNEL_CACHE s))
    (net_m (with_object z close);; mret tt) (λ _, Inv o) (Inv o).
Proof.
  intros Hz s ([[Hg Hev Hcl] Hen Hid Hco Ho] & Hlt & Hni). unfold net_m, zoom. st_unfold.
  destruct (close_object z ch (m_net s) Hz) as [z' Hc]. rewrite Hc. unfold closing. cbn.
  split; cbn; [split; cbn; [done|done|]| |done|done|done].
  - intros i [Hi|Hi]%elem_of_union; [|by apply Hcl].
    rewrite union_empty_r_L in Hi. apply elem_of_singleton in Hi as ->. done.
  - rewrite Forall_forall in *. intros e He. destruct (Hen e He) as (? & ? & ? & ?).
    split; [done|]. split; [done|]. split; [|done]. cbn.
    rewrite union_empty_r_L, not_elem_of_union, not_elem_of_singleton. split; [|done].
    intros Heq. apply Hni. unfold cached_ids. rewrite <- Heq. apply list_elem_of_fmap. eauto.
Qed.

Lemma removed_id o s bid bid' z ch :
  Inv o s → (bid', (z, ch)) ∈ _CHANNEL_CACHE s → py_eq bid' bid = true →
  ch_id ch ∉ cached_ids (cache_remove bid (_CHANNEL_CACHE s)).
Proof.
  intros Hi Hin He (e & Hid & Hin')%list_elem_of_fmap.
  apply list_elem_of_In, filter_In in Hin' as [Hin'%list_elem_of_In Hne].
  assert (e = (bid', (z, ch))) as ->.
  { by apply (NoDup_fmap_eq _ _ _ _ (inv_ids _ _ Hi)). }
  cbn in Hne. by rewrite He in Hne.
Qed.

Lemma catch_exceptions {A : Type} P (m : ST mcp exn A) (a : A) R :
  hoare P m (λ _, R) R →
  hoare P (try_except m (λ e, if is_exception e then Some (mret a) else None)) (λ _, R) R.
Proof.
  intros Hm. eapply hoare_try; [exact Hm|intros e k Hk|done].
  case_match; [injection Hk as <-; by apply hoare_ret|done].
Qed.

Lemma evict_ok o arguments : hoare (Inv o) (_evict_backend arguments) (λ _, Inv o) (Inv o).
Proof.
  unfold _evict_backend. apply bind_lift; [done|intros wanted _].
  eapply (hoare_bind _ _ _ (λ _, Inv o)); [eapply hoare_conseq; [apply backend_info_ok|done|by intros b s []|done]|intros backend].
  apply bind_lift; [done|intros bid _]. apply bind_keep; [apply hash_key_ok|intros _].
  apply bind_get. intros s0 Hi.
  destruct (cache_lookup bid (_CHANNEL_CACHE s0)) as [[z ch]|] eqn:Hl; [|by apply hoare_ret; intros ? ->].
  apply cache_lookup_entry in Hl as (bid' & Hin & He).
  pose proof (inv_entries _ _ Hi) as Hen. rewrite Forall_forall in Hen.
  destruct (Hen _ Hin) as (Hz & _ & _ & Hlt).
  eapply (hoare_bind _ _ _ (λ _ s, Inv o s ∧ (ch_id ch < n_next (m_net s))%nat ∧
    ch_id ch ∉ cached_ids (_CHANNEL_CACHE s))); [|intros _; by apply catch_exceptions, (close_uncached o z ch)].
  apply hoare_modify. intros s ->. split; [by apply Inv_remove|]. split; [done|]. cbn. by eapply removed_id.
Qed.

(** ** Handlers *)

Lemma rpc_failure_ok o arguments e k :
  rpc_failure arguments e = Some k → hoare (Inv o) k (λ _, Inv o) (Inv o).
Proof.
  unfold rpc_failure. destruct (rpc_code e); [|done]. intros [= <-].
  apply bind_keep; [case_match; [apply evict_ok|by apply hoare_ret]|intros _]. by apply hoare_ret.
Qed.

(** Shape of a handler: obtain the stub, use it in [body], report RPC errors. *)
Lemma stub_handler_ok o arguments (body : ZtabChannel * grpc_channel * json → ST mcp exn out) :
  (∀ r, hoare (with_stub o r) (body r) (λ _, Inv o) (Inv o)) →
  hoare (Inv o) (r ← _get_cached_stub arguments; try_except (body r) (rpc_failure arguments))
    (λ _, Inv o) (Inv o).
Proof.
  intros Hb. eapply hoare_bind; [apply cached_stub_ok|intros r].
  eapply hoare_try; [apply Hb|intros e k; apply rpc_failure_ok|done].
Qed.

Lemma with_stub_local o r : net_local (with_stub o r).
Proof.
  intros s w Hw [Hi [Ha Ho Hk]]. split; [by apply Inv_local|]. split; [|done|done].
  eapply attested_mono; [|exact Ha]. apply (genuine_steps _ _ Hw), (no_genuine _ (inv_net _ _ Hi)).
Qed.

Lemma with_stub_Inv o r s : with_stub o r s → Inv o s.
Proof. by intros []. Qed.

Lemma stub_call_ok {B : Type} o (r : ZtabChannel * grpc_channel * json) q md (f : response q → ST mcp exn B) :
  (∀ a, hoare (with_stub o r) (f a) (λ _, Inv o) (Inv o)) →
  hoare (with_stub o r) (net_m (call r.1.2 q md) ≫= f) (λ _, Inv o) (Inv o).
Proof.
  intros Hf. eapply hoare_bind; [|exact Hf].
  eapply hoare_conseq; [apply (call_ok o r.1.2 q md (λ _, True)); done| | |].
  - by intros s [].
  - by intros a s (? & ? & _).
  - by intros s (? & _ & _).
Qed.

Lemma client_nonce_ok o r args :
  hoare (with_stub o r) (client_nonce_of args) (λ _, with_stub o r) (Inv o).
Proof.
  unfold client_nonce_of. apply bind_keep.
  - eapply hoare_conseq; [apply tick_ok, with_stub_local|done|done|intros ?; apply with_stub_Inv].
  - intros n. apply bind_lift; [intros ?; apply with_stub_Inv|intros v _].
    apply hoare_lift; [done|]. intros e s _. apply with_stub_Inv.
Qed.
End channels.

(** One step of a handler's body. *)
Ltac body_step :=
  cbv zeta;
  first
    [ apply bind_lift; [intros ?; apply with_stub_Inv|intros ? _]
    | match goal with
      | |- hoare _ (net_m (call _ ?q ?md) ≫= ?f) _ _ => apply (stub_call_ok _ _ q md f); intros ?
      end
    | apply bind_keep; [eapply hoare_conseq; [apply tick_ok, with_stub_local|done|done|intros ?; apply with_stub_Inv]|intros ?]
    | apply bind_keep; [apply client_nonce_ok|intros ?]
    | apply hoare_ret; intros ?; apply with_stub_Inv
    | apply hoare_lift; intros ? ? _; [done|apply with_stub_Inv] ].

Section handlers.
Context `{Host, X509, PyJWT, Files, PyJson, Grpc}.

(** The server keeps its invariant and writes nothing during a call. *)
Definition keeps {A : Type} (m : ST mcp exn A) : Prop := ∀ o, hoare (Inv o) m (λ _, Inv o) (Inv o).

Lemma create_session_ok args : keeps (run_create_session args).
Proof. intros o. apply (stub_handler_ok o args). intros r. repeat body_step. Qed.
Lemma join_session_ok args : keeps (run_join_session args).
Proof. intros o. apply (stub_handler_ok o args). intros r. repeat body_step. Qed.
Lemma accept_policy_ok args : keeps (run_accept_policy args).
Proof. intros o. apply (stub_handler_ok o args). intros r. repeat body_step. Qed.
Lemma submit_input_ok args : keeps (run_submit_input args).
Proof. intros o. apply (stub_handler_ok o args). intros r. repeat body_step. Qed.
Lemma get_result_ok args : keeps (run_get_result args).
Proof. intros o. apply (stub_handler_ok o args). intros r. repeat body_step. Qed.
Lemma get_session_status_ok args : keeps (run_get_session_status args).
Proof. intros o. apply (stub_handler_ok o args). intros r. repeat body_step. Qed.

Lemma list_backends_ok args : keeps (run_list_backends args).
Proof.
  intros o. unfold run_list_backends.
  eapply (hoare_bind _ _ _ (λ _, Inv o)); [eapply hoare_conseq; [apply get_backends_ok|done|by intros c s []|done]|].
  intros [c|]; [case_match|]; try by apply hoare_ret.
  repeat (apply bind_lift; [done|intros ? _]). by apply hoare_ret.
Qed.

(** The connection test opens a channel of its own and closes it on every
    path. *)
Lemma connectivity_ok o backend h p policy message :
  _build_policy_from_backend backend = Ok policy →
  py_get backend "host" (JStr "localhost") = Ok h → backend_port backend = Ok p →
  hoare (λ s, configured (log_of s) backend ∧ Inv o s) (run_connectivity_test h p message policy) (λ _, Inv o) (Inv o).
Proof.
  intros Hb Hh Hp. unfold run_connectivity_test.
  eapply hoare_bind; [by eapply get_stub_ok|]. intros [z ch]. cbv zeta. cbn [fst snd].
  set (P := λ s, Inv o s ∧ usable ch s ∧ ch_id ch ∉ cached_ids (_CHANNEL_CACHE s)).
  apply (hoare_conseq _ (λ s, zc_channel z = Some ch ∧ P s) _ _ (λ _, Inv o) _ (Inv o));
    [|by intros s (? & ? & [? [? ?]])|done|done].
  apply hoare_pure. intros Hz.
  apply (hoare_finally _ _ _ _ (λ _, P) _ P).
  - eapply hoare_try; [|intros e k Hk|done].
    + apply bind_lift; [by intros s|intros m _].
      eapply hoare_bind; [by apply (call_ok o ch (EchoRequest m) None
        (λ s, ch_id ch ∉ cached_ids (_CHANNEL_CACHE s)))|]. intros echo. by apply hoare_ret.
    + unfold connectivity_failure in Hk. repeat case_match; inv_ok; by apply hoare_ret.
  - intros a. eapply hoare_conseq; [apply (close_uncached o z ch Hz)| |done|done].
    intros s (? & [] & ?). done.
  - eapply hoare_conseq; [apply (close_uncached o z ch Hz)| |done|done].
    intros s (? & [] & ?). done.
Qed.

Lemma test_connection_ok args : keeps (test_connection_handler args).
Proof.
  intros o. unfold test_connection_handler, _common_args.
  intros s Hi. revert s Hi.
  enough (Hm : hoare (Inv o) (wanted ← lift (py_get args "backend" JNull); backend ← _get_backend_info wanted;
     h ← lift (py_get backend "host" (JStr "localhost")); p ← lift (backend_port backend);
     policy ← lift (_build_policy_from_backend backend);
     message ← lift (py_get args "message" (JStr "Test")); run_connectivity_test h p message policy)
     (λ _, Inv o) (Inv o)).
  { intros s Hi. specialize (Hm s Hi). revert Hm. st_unfold.
    destruct (py_get args "backend" JNull) as [wanted|]; [|done].
    destruct (_get_backend_info wanted s) as [[backend|] s']; [|done].
    destruct (py_get backend _ _) as [h|]; [|done]. destruct (backend_port backend) as [p|]; [|done].
    destruct (_build_policy_from_backend backend); [|done]. done. }
  apply bind_lift; [done|intros wanted _]. eapply hoare_bind; [apply backend_info_ok|intros backend].
  apply bind_lift; [by intros s []|intros h Hh]. apply bind_lift; [by intros s []|intros p Hp].
  apply bind_lift; [by intros s []|intros policy Hb]. apply bind_lift; [by intros s []|intros message _].
  by eapply connectivity_ok.
Qed.

Lemma handlers_ok name handler args : (name, handler) ∈ TOOL_HANDLERS → keeps (handler args).
Proof.
  unfold TOOL_HANDLERS. rewrite !elem_of_cons, elem_of_nil.
  intros Hin. repeat (destruct Hin as [[= -> ->]|Hin]); [..|done];
    eauto using list_backends_ok, test_connection_ok, create_session_ok, join_session_ok,
      accept_policy_ok, submit_input_ok, get_result_ok, get_session_status_ok.
Qed.

(** ** Dispatch and main loop *)

Lemma tool_failure_ok o e k : tool_failure e = Some k → hoare (Inv o) k (λ _, Inv o) (Inv o).
Proof. unfold tool_failure. repeat case_match; intros; inv_ok; by apply hoare_ret. Qed.

Lemma find_named {A : Type} (l : list (string * A)) t h :
  snd <$> List.find (λ e, String.eqb e.1 t) l = Some h → ∃ name, (name, h) ∈ l.
Proof.
  destruct (List.find _ l) as [[n h']|] eqn:E; [|done]. intros [= <-].
  apply List.find_some in E as [E _]. exists n. by apply list_elem_of_In.
Qed.

Lemma find_handler_known tool_name handler :
  find_handler tool_name = Ok (Some handler) → ∃ name, (name, handler) ∈ TOOL_HANDLERS.
Proof.
  unfold find_handler. case_match; [|done]. generalize TOOL_HANDLERS. intros l Hf.
  destruct tool_name; try done. injection Hf as Hf. by apply find_named in Hf.
Qed.

Lemma call_tool_ok tool_name args : keeps (call_tool tool_name args).
Proof.
  intros o. unfold call_tool. apply bind_lift; [done|intros [handler|] Hh; [|by apply hoare_ret]].
  apply find_handler_known in Hh as [name Hh].
  apply bind_lift; [done|intros [e|] _]; [by apply hoare_ret|].
  eapply hoare_try; [by apply (handlers_ok name)|intros e k; apply tool_failure_ok|done].
Qed.

Lemma handle_request_ok method params : keeps (handle_request method params).
Proof.
  intros o. unfold handle_request. repeat (case_match; [by apply hoare_ret|]).
  case_match; [|by apply hoare_ret]. repeat (apply bind_lift; [done|intros ? _]).
  apply bind_keep; [apply call_tool_ok|intros r]. by apply hoare_ret.
Qed.

Lemma emit_ok o x : hoare (Inv o) (emit x) (λ _, Inv (o ++ [x])) (Inv o).
Proof. apply hoare_modify. intros s [? ? ? ? <-]. by split. Qed.

(** The invariant, whatever was written. *)
Definition InvOut (s : mcp) : Prop := ∃ o, Inv o s.

Lemma emit_out x : hoare InvOut (emit x) (λ _, InvOut) InvOut.
Proof. intros s [o Hi]. exists (o ++ [x]). by apply (emit_ok o x s). Qed.

Lemma keeps_out {A : Type} (m : ST mcp exn A) : keeps m → hoare InvOut m (λ _, InvOut) InvOut.
Proof. intros Hm s [o Hi]. specialize (Hm o s Hi). destruct (m s) as [[a|e] s']; by exists o. Qed.

Lemma process_message_ok msg : hoare InvOut (process_message msg) (λ _, InvOut) InvOut.
Proof.
  unfold process_message. repeat (apply bind_lift; [done|intros ? _]). apply bind_keep.
  - eapply hoare_try; [|intros e k Hk|done].
    + apply bind_keep; [apply keeps_out, handle_request_ok|intros r]. by apply hoare_ret.
    + case_match; [injection Hk as <-|done].
      apply bind_keep; [case_match; [by apply hoare_ret|apply emit_out]|intros _]. by apply hoare_ret.
  - intros [r|]; [|by apply hoare_ret]. unfold respond. case_match; [by apply hoare_ret|].
    case_match; apply emit_out.
Qed.

Lemma process_line_ok line : hoare InvOut (process_line line) (λ _, InvOut) InvOut.
Proof.
  unfold process_line. cbv zeta. case_match; [by apply hoare_ret|].
  destruct (json_loads _); [apply process_message_ok|].
  case_match; [by apply hoare_ret|by apply hoare_raise].
Qed.

Lemma main_ok lines : hoare InvOut (main lines) (λ _, InvOut) InvOut.
Proof.
  induction lines as [|line lines IH]; cbn [main]; [by apply hoare_ret|].
  case_match; [by apply hoare_ret|]. apply bind_keep; [apply process_line_ok|intros _]. exact IH.
Qed.

Lemma main_inv lines r s : main lines init_mcp = (r, s) → InvOut s.
Proof.
  intros Hm. assert (Hi : InvOut init_mcp) by (exists []; apply Inv_init).
  pose proof (main_ok lines init_mcp Hi) as Ho. rewrite Hm in Ho. by destruct r.
Qed.

(** C2: every call the MCP server makes is attested. Run the server outside the
    test environment on any input whatsoever, with any behaviour of the network,
    the file system and the libraries, until it stops or is interrupted. Each RPC
    it sent went over a channel that was open and led to the host and port of an
    entry of a configuration file that the server had loaded and validated. The
    channel trusts only a certificate which that host and port presented to the
    server, and that certificate carries a token verified, at a time the server
    read off its clock, under a key from a key set the server had downloaded from
    ITA's address, with claims that satisfy the policy of that very entry. No
    tool, cache hit, reload, eviction or error path gives a way around
    attestation. *)
Theorem mcp_calls_attested lines r s :
  is_test os_environ = false → main lines init_mcp = (r, s) →
  Forall (λ ev, ev_closed ev = false ∧
    ∃ backend ita token,
      configured (log_of s) backend ∧
      _build_policy_from_backend backend = Ok (Ita ita) ∧
      py_get backend "host" (JStr "localhost") = Ok (ch_host (ev_channel ev)) ∧
      backend_port backend = Ok (ch_port (ev_channel ev)) ∧
      presented (log_of s) (ev_channel ev) ∧
      extract_attestation_token (ch_roots (ev_channel ev)) = Ok (Some token) ∧
      ita_certified ita token (ch_roots (ev_channel ev)) (log_of s)) (n_rpcs (m_net s)).
Proof.
  intros Ht [o [[_ Hev _] _ _ _ _]]%main_inv. eapply Forall_impl; [exact Hev|].
  intros ev [Hc (backend & Hconf & Hh & Hp & policy & v & Hb & Hv & Ha)]. split; [done|].
  destruct (certified_ita _ _ _ (accepted_certified policy v _ _ Ht Hv Ha)) as (ita & -> & Hpr & token & Hx & Hcert).
  by exists backend, ita, token.
Qed.

(** No channel is leaked into the cache closed, and no two backends share
    one: after any input every cached wrapper holds the channel of its stub,
    that channel is open, and the channel numbers are distinct. *)
Lemma mcp_cache_consistent lines r s :
  main lines init_mcp = (r, s) →
  NoDup (cached_ids (_CHANNEL_CACHE s)) ∧
  Forall (λ e, zc_channel (wrapper_of e) = Some (stub_of e) ∧
               ch_id (stub_of e) ∉ n_closed (m_net s)) (_CHANNEL_CACHE s).
Proof.
  intros [o [_ Hen Hid _ _]]%main_inv. split; [done|].
  eapply Forall_impl; [exact Hen|]. by intros e (? & _ & ? & _).
Qed.
End handlers.

(** ** A concrete session *)

Section demo.
#[local] Instance prod_host : Host := demo_host ∅.
#[local] Existing Instance demo_x509.
#[local] Existing Instance demo_jwt.
#[local] Existing Instance steady_files.
#[local] Existing Instance demo_json.
#[local] Instance grpc_up : Grpc := demo_grpc true.

Definition demo_lines : list string := ["create"; "status"; "test"].

Lemma mcp_calls_attested_witness :
  ∃ s ev, main demo_lines init_mcp = (Ok tt, s) ∧ ev ∈ n_rpcs (m_net s) ∧ ev_closed ev = false.
Proof.
  pose (r := main demo_lines init_mcp).
  assert (Hr1 : r.1 = Ok tt) by (vm_compute; reflexivity).
  assert (Hr : main demo_lines init_mcp = (Ok tt, r.2)) by (rewrite <- Hr1; apply surjective_pairing).
  pose proof (mcp_calls_attested demo_lines (Ok tt) r.2 eq_refl Hr) as Hall.
  assert (Hne : head (n_rpcs (m_net r.2)) ≠ None) by (vm_compute; discriminate).
  clearbody r.
  destruct (n_rpcs (m_net r.2)) as [|ev evs] eqn:E; [exfalso; apply Hne; reflexivity|].
  apply Forall_cons in Hall as [[Hc _] _].
  exists r.2, ev. split; [exact Hr|]. rewrite E. split; [apply elem_of_cons; left; reflexivity|exact Hc].
Defined.

Lemma mcp_cache_consistent_witness :
  ∃ s, main demo_lines init_mcp = (Ok tt, s) ∧ length (_CHANNEL_CACHE s) = 1%nat ∧
    NoDup (cached_ids (_CHANNEL_CACHE s)).
Proof.
  pose (r := main demo_lines init_mcp).
  assert (Hr1 : r.1 = Ok tt) by (vm_compute; reflexivity).
  assert (Hr : main demo_lines init_mcp = (Ok tt, r.2)) by (rewrite <- Hr1; apply surjective_pairing).
  exists r.2. split; [exact Hr|]. split; [vm_compute; reflexivity|].
  exact (proj1 (mcp_cache_consistent demo_lines (Ok tt) r.2 Hr)).
Defined.
End demo.
