(* ===== verification/McpProtocol.v ===== *)
(** The MCP server as a JSON-RPC server: what it answers, what it survives and
    what it discloses. *)

From S2P Require Import Prelude PyText Base64 PyValue External Attestation Policy World ItaVerifier Rpc Client Backends McpServer Examples DemoServer McpChannels.

Open Scope Z_scope.

Section protocol.
Context `{Host, X509, PyJWT, Files, PyJson, Grpc}.

(** ** Responses *)

(** A JSON-RPC response to request [id]: a result or an error object. *)
Inductive response_to (id : json) : out → Prop :=
| resp_result o : response_to id (ODict [("jsonrpc", OStr "2.0"); ("id", OVal id); ("result", o)])
| resp_error code message : response_to id (error_response id code message).

(** What the server writes for a message with the given [id] entry: one
    response for a request, nothing for a notification. *)
Definition answered (id : option json) (written : list out) : Prop :=
  match id with
  | None | Some JNull => written = []
  | Some id => ∃ resp, written = [resp] ∧ response_to id resp
  end.

Lemma respond_run method id result s :
  ∃ written s', respond method id result s = (Ok tt, s') ∧ _PROTO_OUT s' = _PROTO_OUT s ++ written ∧
    answered (Some id) written.
Proof.
  unfold respond. destruct (is_null id) eqn:En.
  - destruct id; try done. exists [], s. by rewrite app_nil_r.
  - assert (Ha : ∀ x, response_to id x → answered (Some id) [x]) by (intros x Hx; destruct id; try done; by exists x).
    destruct result as [|o]; eexists [_], _; (split; [reflexivity|]); (split; [reflexivity|]);
      apply Ha; constructor.
Qed.

Lemma keeps_silent {A : Type} (m : ST mcp exn A) s r s' :
  keeps m → InvOut s → m s = (r, s') → _PROTO_OUT s' = _PROTO_OUT s.
Proof.
  intros Hk [o Hi] Hm. pose proof (Hk o s Hi) as Ho. rewrite Hm in Ho.
  rewrite (inv_out _ _ Hi). destruct r; apply (inv_out _ _ Ho).
Qed.

Lemma answered_id d w :
  answered (Some (get_or (JObj d) "id" JNull)) w → answered (lookup_key "id" d) w.
Proof. cbn. by destruct (lookup_key "id" d). Qed.

(** A response to a message that raised. *)
Definition internal_error (id : json) (e : exn) : ST mcp exn (option handled) :=
  (if is_null id then mret tt
   else emit (error_response id (-32603)
          ([Txt "Internal error: "; Txt (exn_name (exn_type e)); Txt ": "] ++ exn_msg e)));;
  mret None.

Lemma internal_error_run id e s :
  ∃ written s', internal_error id e s = (Ok None, s') ∧ _PROTO_OUT s' = _PROTO_OUT s ++ written ∧
    answered (Some id) written.
Proof.
  unfold internal_error. destruct (is_null id) eqn:En.
  - destruct id; try done. exists [], s. by rewrite app_nil_r.
  - eexists [_], _. split; [reflexivity|]. split; [reflexivity|].
    destruct id; try done; (eexists; split; [reflexivity|constructor]).
Qed.

Lemma process_object d s :
  InvOut s →
  match process_message (JObj d) s with
  | (Ok _, s') => ∃ written, _PROTO_OUT s' = _PROTO_OUT s ++ written ∧ answered (lookup_key "id" d) written
  | (Raise e, s') => is_exception e = false
  end.
Proof.
  intros Hi. unfold process_message. rewrite !py_get_obj.
  set (method := get_or (JObj d) "method" (JStr "")). set (params := get_or (JObj d) "params" (JObj [])).
  set (id := get_or (JObj d) "id" JNull).
  rewrite !(st_bind_run _ _ _ _ _ (lift_run _ _)).
  destruct (handle_request method params s) as [[res|e] s1] eqn:Hh;
    pose proof (keeps_silent _ _ _ _ (handle_request_ok method params) Hi Hh) as Hs.
  - rewrite (st_bind_run _ _ s (Some res) s1) by (unfold try_except, mbind, ST_bind; by rewrite Hh).
    destruct (respond_run method id res s1) as (w & s2 & -> & Hw & Ha).
    exists w. rewrite Hw, Hs. split; [done|by apply answered_id].
  - unfold mbind at 1, ST_bind at 1, try_except, mbind at 1, ST_bind at 1. rewrite Hh.
    destruct (is_exception e) eqn:He; [|done].
    destruct (internal_error_run id e s1) as (w & s2 & Hr & Hw & Ha). unfold internal_error in Hr.
    rewrite Hr. exists w. rewrite <- Hs, <- Hw. split; [done|by apply answered_id].
Qed.

(** Every request is answered exactly once. In whatever state earlier
    input left the server, a message object with an id gets one JSON-RPC
    response carrying that id, a result or an error, and a message without an
    id gets none; the only exception that escapes is one that is no
    [Exception] (a [SystemExit] raised by a library). *)
Lemma request_answered before s d r s' :
  main before init_mcp = (Ok tt, s) → process_message (JObj d) s = (r, s') →
  match r with
  | Ok _ => ∃ written, _PROTO_OUT s' = _PROTO_OUT s ++ written ∧ answered (lookup_key "id" d) written
  | Raise e => is_exception e = false
  end.
Proof.
  intros Hm Hp. pose proof (process_object d s (main_inv _ _ _ Hm)) as Ho. rewrite Hp in Ho.
  by destruct r.
Qed.

(** ** Survival *)

(** A line the loop can take: not JSON, or a JSON object. *)
Definition well_formed_line (line : string) : Prop :=
  match json_loads (strip line) with
  | Ok (JObj _) => True
  | Ok _ => False
  | Raise e => exn_type e = JSONDecodeError
  end.

Lemma process_line_survives line s e s' :
  well_formed_line line → InvOut s → process_line line s = (Raise e, s') → is_exception e = false.
Proof.
  unfold well_formed_line, process_line. cbv zeta. intros Hw Hi.
  destruct (String.eqb (strip line) ""); [intros [=]|].
  destruct (json_loads (strip line)) as [[| | | | | |d]|e']; try by destruct Hw.
  - intros Hp. pose proof (process_object d s Hi) as Ho. by rewrite Hp in Ho.
  - rewrite bool_decide_true by done. intros [=].
Qed.

Lemma main_survives_from lines s e s' :
  Forall well_formed_line lines → InvOut s → main lines s = (Raise e, s') → is_exception e = false.
Proof.
  intros Hl. revert s. induction Hl as [|line lines Hw _ IH]; intros s Hi; cbn [main]; [intros [=]|].
  case_match; [intros [=]|]. intros [Hp|([] & s1 & Hp & Hm)]%st_bind_Raise.
  - by eapply process_line_survives.
  - eapply IH; [|exact Hm]. pose proof (process_line_ok line s Hi) as Ho. by rewrite Hp in Ho.
Qed.

(** The main loop survives every input made of lines that are not JSON or
    are JSON objects: no tool call, however wrong its parameters and whatever
    the network does, stops the server with an [Exception]. *)
Lemma main_survives lines e s' :
  Forall well_formed_line lines → main lines init_mcp = (Raise e, s') → is_exception e = false.
Proof. intros Hl. apply main_survives_from; [done|]. exists []. apply Inv_init. Qed.

(** A line that is valid JSON but no object, such as a JSON-RPC batch,
    does stop it: [msg.get] raises outside the [try], nothing is answered and
    the remaining input is not read. *)
Lemma non_object_stops_server line rest v s :
  String.eqb line "" = false → String.eqb (strip line) "" = false →
  json_loads (strip line) = Ok v → (∀ d, v ≠ JObj d) →
  main (line :: rest) s = (Raise (attribute_error v "get"), s).
Proof.
  intros Hne Hs Hj Hv. cbn [main]. rewrite Hne. unfold process_line. cbv zeta. rewrite Hs, Hj.
  unfold process_message. unfold mbind, ST_bind, lift.
  destruct v; try reflexivity. by destruct (Hv kvs).
Qed.

(** ** Tool calls that never reach a handler *)

(** The required arguments of a tool, from its schema. *)
Definition required_of (t : string) : list string :=
  match get_or (get_or (JObj _TOOL_SCHEMAS) t (JObj [])) "required" (JList []) with
  | JList l => omap text_of l
  | _ => []
  end.

Definition schema_ok (v : json) : bool :=
  match v with
  | JObj _ =>
      match get_or v "required" (JList []), get_or v "properties" (JObj []) with
      | JList l, JObj _ => forallb (λ r, match r with JStr _ => true | _ => false end) l
      | _, _ => false
      end
  | _ => false
  end.

Lemma schemas_ok t : schema_ok (get_or (JObj _TOOL_SCHEMAS) t (JObj [])) = true.
Proof.
  assert (Hall : forallb (λ kv, schema_ok kv.2) _TOOL_SCHEMAS = true) by (vm_compute; reflexivity).
  cbn [get_or]. destruct (lookup_key t _TOOL_SCHEMAS) as [v|] eqn:Hl; [|done].
  apply lookup_key_elem, list_elem_of_In in Hl. rewrite forallb_forall in Hall. apply (Hall _ Hl).
Qed.

Lemma omap_text_of l :
  forallb (λ r, match r with JStr _ => true | _ => false end) l = true → JStr <$> omap text_of l = l.
Proof.
  induction l as [|v l IH]; [done|]. cbn. intros [Hv Hl]%andb_true_iff. destruct v; try done.
  cbn. by rewrite IH.
Qed.

Lemma missing_texts names args :
  missing_args (JStr <$> names) (JObj args) =
  Ok (JStr <$> List.filter (λ r, bool_decide (lookup_key r args = None)) names).
Proof.
  induction names as [|r names IH]; [done|].
  rewrite fmap_cons. cbn [missing_args py_in hashable List.filter]. rewrite ret_bind, IH, ret_bind.
  destruct (lookup_key r args); [rewrite bool_decide_false by done|rewrite bool_decide_true by done]; done.
Qed.

Lemma filter_present names args :
  forallb (λ r, bool_decide (lookup_key r args ≠ None)) names =
  match List.filter (λ r, bool_decide (lookup_key r args = None)) names with [] => true | _ => false end.
Proof.
  induction names as [|r names IH]; [done|]. cbn. rewrite IH.
  destruct (lookup_key r args);
    [rewrite bool_decide_true, bool_decide_false by done|rewrite bool_decide_false, bool_decide_true by auto]; done.
Qed.

(** Argument validation. A call of a known tool with an argument object is
    dispatched to the tool's handler exactly when every argument its schema
    requires is present; otherwise it yields an error result, and the server's
    state is untouched: nothing is connected, sent or loaded. *)
Lemma tool_arguments_validated t handler args s :
  find_handler (JStr t) = Ok (Some handler) →
  if forallb (λ r, bool_decide (lookup_key r args ≠ None)) (required_of t)
  then call_tool (JStr t) (JObj args) s = try_except (handler (JObj args)) tool_failure s
  else ∃ text, call_tool (JStr t) (JObj args) s = (Ok (error_result text), s).
Proof.
  intros Hf. unfold call_tool. rewrite Hf, (st_bind_run _ _ _ _ _ (lift_run _ _)).
  unfold _validate_required_args, required_of. pose proof (schemas_ok t) as Hok.
  set (schema := get_or (JObj _TOOL_SCHEMAS) t (JObj [])) in *.
  destruct schema as [| | | | | |sch]; try done. cbn [schema_ok] in Hok. rewrite !py_get_obj, !ret_bind.
  destruct (get_or (JObj sch) "required" (JList [])) as [| | | | |l|]; try done.
  destruct (get_or (JObj sch) "properties" (JObj [])) as [| | | | | |props]; try done.
  apply omap_text_of in Hok. cbn [py_iter]. rewrite ret_bind.
  replace (missing_args l (JObj args)) with
    (Ok (E:=exn) (JStr <$> List.filter (λ r, bool_decide (lookup_key r args = None)) (omap text_of l)))
    by (by rewrite <- missing_texts, Hok).
  rewrite ret_bind, filter_present. clear Hok.
  destruct (List.filter _ (omap text_of l)) as [|r rest]; [done|].
  cbn [fmap list_fmap py_iter]. rewrite ret_bind. by eexists.
Qed.

(** ** Disclosure *)

(** What a backend entry shows to the agent: its id, name and description, and
    whether its verifier is the test one. *)
Definition same_public (b b' : dict) : Prop :=
  lookup_key "backend_id" b = lookup_key "backend_id" b' ∧
  lookup_key "name" b = lookup_key "name" b' ∧
  lookup_key "description" b = lookup_key "description" b' ∧
  (lookup_key "verifier" b = Some (JStr "noop") ↔ lookup_key "verifier" b' = Some (JStr "noop")).

Lemma noop_or (b : dict) :
  py_eq (get_or (JObj b) "verifier" JNull) (JStr "noop") = true ↔ lookup_key "verifier" b = Some (JStr "noop").
Proof. cbn. rewrite py_eq_str_r. destruct (lookup_key "verifier" b); split; congruence. Qed.

Lemma sanitize_public bs bs' :
  Forall2 same_public bs bs' → sanitize (JObj <$> bs) = sanitize (JObj <$> bs').
Proof.
  induction 1 as [|b b' bs bs' (Hi & Hn & Hd & Hv) _ IH]; [done|].
  rewrite !fmap_cons. cbn [sanitize]. rewrite !py_get_obj, !ret_bind, IH.
  assert (Hg : ∀ k, lookup_key k b = lookup_key k b' → get_or (JObj b) k JNull = get_or (JObj b') k JNull)
    by (intros k Hk; cbn; by rewrite Hk).
  rewrite (Hg _ Hi), (Hg _ Hn), (Hg _ Hd).
  replace (py_eq (get_or (JObj b) "verifier" JNull) (JStr "noop"))
    with (py_eq (get_or (JObj b') "verifier" JNull) (JStr "noop")); [done|].
  apply eq_true_iff_eq. by rewrite !noop_or.
Qed.

(** The result of [ztab_list_backends] for a loaded configuration. *)
Definition listing (config : json) : res out :=
  backends ← py_get config "backends" (JList []);
  bs ← py_iter backends;
  sanitized ← sanitize bs;
  default ← py_get config "default_backend" JNull;
  Ok (ODict [("status", OStr "success"); ("backends", OList sanitized); ("default_backend", OVal default)]).

Lemma list_backends_run args s c s1 :
  _get_backends s = (Ok (Some c), s1) → truthy c = true → run_list_backends args s = (listing c, s1).
Proof.
  intros Hg Ht. unfold run_list_backends, listing. rewrite (st_bind_run _ _ _ _ _ Hg), Ht.
  st_unfold. destruct (py_get c "backends" (JList [])) as [bk|]; [|done].
  destruct (py_iter bk) as [bs|]; [|done]. destruct (sanitize bs); [|done].
  by destruct (py_get c "default_backend" JNull).
Qed.

(** C33: [ztab_list_backends] discloses nothing else. Two configurations whose
    entries agree on id, name, description and on being a test backend, and
    that name the same default, produce the same result: hosts, ports, expected
    digests, accounts and creator tokens cannot be learned from it. *)
Theorem list_backends_noninterference args s1 s1' s2 s2' c1 c2 bs1 bs2 :
  _get_backends s1 = (Ok (Some (JObj c1)), s1') → _get_backends s2 = (Ok (Some (JObj c2)), s2') →
  lookup_key "backends" c1 = Some (JList (JObj <$> bs1)) →
  lookup_key "backends" c2 = Some (JList (JObj <$> bs2)) →
  Forall2 same_public bs1 bs2 → lookup_key "default_backend" c1 = lookup_key "default_backend" c2 →
  (run_list_backends args s1).1 = (run_list_backends args s2).1.
Proof.
  intros Hg1 Hg2 Hb1 Hb2 Hpub Hd.
  rewrite (list_backends_run args _ _ _ Hg1), (list_backends_run args _ _ _ Hg2);
    [|by destruct c2|by destruct c1]. cbn [fst]. unfold listing. cbn [py_get].
  rewrite Hb1, Hb2, !ret_bind. cbn [py_iter]. rewrite !ret_bind, (sanitize_public _ _ Hpub), Hd. done.
Qed.

(** ** Token display *)

Lemma list_byte_replace a b s :
  String.list_byte_of_string (replace_char a b s) =
  (λ x, if Ascii.eqb (ascii_of_byte x) a then byte_of_ascii b else x) <$> String.list_byte_of_string s.
Proof.
  induction s as [|c s IH]; [done|]. cbn [replace_char]. rewrite !list_byte_cons, IH, fmap_cons. f_equal.
  rewrite ascii_of_byte_of_ascii. by destruct (Ascii.eqb c a).
Qed.

(** Replacing the two URL-safe characters and decoding is the URL-safe
    decoding. *)
Lemma replaced_urlsafe s :
  b64decode_text (replace_char "_" "/" (replace_char "-" "+" s)) = urlsafe_b64decode s.
Proof.
  unfold b64decode_text, urlsafe_b64decode. rewrite !list_byte_replace, <- list_fmap_compose.
  match goal with |- context [?f ∘ ?g] => set (h := f ∘ g) end.
  assert (Hh : ∀ b, h b = of_urlsafe b ∧ is_ascii_byte (h b) = is_ascii_byte b).
  { intros b. assert (Hc : (bool_decide (h b = of_urlsafe b) && bool_decide (is_ascii_byte (h b) = is_ascii_byte b)) = true)
      by (revert b; apply byte_check; vm_compute; reflexivity).
    apply andb_true_iff in Hc as [Hc1 Hc2]. by apply bool_decide_eq_true in Hc1, Hc2. }
  generalize (String.list_byte_of_string s) as bs. intros bs.
  replace (h <$> bs) with (of_urlsafe <$> bs) by (apply list_fmap_ext; intros ? b _; symmetry; apply Hh).
  replace (forallb is_ascii_byte (of_urlsafe <$> bs)) with (forallb is_ascii_byte bs); [done|].
  induction bs as [|b bs IH]; [done|]. cbn. rewrite IH. f_equal. rewrite <- (proj1 (Hh b)). symmetry. apply Hh.
Qed.

Definition no_dot (s : string) : Prop := "."%char ∉ String.list_ascii_of_string s.

Lemma split_no_dot h t : no_dot h → split_on "." (h +:+ "." +:+ t) = h :: split_on "." t.
Proof.
  unfold no_dot. induction h as [|c h IH]; intros Hh; [done|].
  cbn in Hh. apply not_elem_of_cons in Hh as [Hc Hh]. specialize (IH Hh).
  change (String c h +:+ "." +:+ t) with (String c (h +:+ "." +:+ t)). cbn [split_on].
  rewrite IH. destruct (Ascii.eqb_spec c "."); [congruence|done].
Qed.

Lemma encode_no_dot data : no_dot (_base64url_encode_nopad data).
Proof.
  intros Hin. assert (Hb : x2e ∈ String.list_byte_of_string (_base64url_encode_nopad data)).
  { revert Hin. generalize (_base64url_encode_nopad data). intros s. induction s as [|c s IH]; [by intros ?%elem_of_nil|].
    cbn [String.list_ascii_of_string]. rewrite list_byte_cons, !elem_of_cons. intros [<-|?]; auto. }
  rewrite encode_nopad_core in Hb. apply list_elem_of_fmap in Hb as (c & Hc & Hin').
  pose proof (b64_core_data data) as Hd. rewrite Forall_forall in Hd. destruct (Hd c Hin') as [Hv _].
  assert (Hchk : ∀ b, (bool_decide (b64_val b = None) || bool_decide (to_urlsafe b ≠ x2e)) = true)
    by (apply byte_check; vm_compute; reflexivity).
  specialize (Hchk c). apply orb_true_iff in Hchk as [Hk|Hk]; apply bool_decide_eq_true in Hk; congruence.
Qed.

(** The connection test displays the payload that was signed. For a token
    in JWS compact form whose middle part is the unpadded base64url encoding of
    some bytes, [decode_jwt_payload] hands exactly those bytes to the JSON
    parser, although it adds up to four pads instead of up to three. *)
Lemma jwt_payload_displayed header payload signature :
  no_dot header →
  decode_jwt_payload (header +:+ "." +:+ _base64url_encode_nopad payload +:+ "." +:+ signature) =
  match json_loads_bytes payload with Ok v => Some v | Raise _ => None end.
Proof.
  intros Hh. unfold decode_jwt_payload.
  rewrite split_no_dot, split_no_dot by (done || apply encode_no_dot).
  destruct (split_on "." signature) eqn:E; cbv zeta;
    rewrite replaced_urlsafe, urlsafe_b64decode_core; try done;
    rewrite length_encode_nopad; unfold pads_needed;
    pose proof (Nat.mod_upper_bound (length (b64_core payload)) 4);
    pose proof (Nat.Div0.mod_le (4 - length (b64_core payload) `mod` 4) 4); lia.
Qed.
End protocol.

(** ** Concrete runs *)

Section demo.
#[local] Instance prod_host : Host := demo_host ∅.
#[local] Existing Instance demo_x509.
#[local] Existing Instance demo_jwt.
#[local] Existing Instance steady_files.
#[local] Existing Instance demo_json.
#[local] Instance grpc_up : Grpc := demo_grpc true.

(** An unknown method is answered with an error. *)
Lemma request_answered_witness :
  ∃ s s' written, main ["create"] init_mcp = (Ok tt, s) ∧
    process_message (JObj [("id", JInt 5); ("method", JStr "server/discover")]) s = (Ok tt, s') ∧
    _PROTO_OUT s' = _PROTO_OUT s ++ written ∧ answered (Some (JInt 5)) written.
Proof.
  pose (r := main ["create"] init_mcp).
  pose (r' := process_message (JObj [("id", JInt 5); ("method", JStr "server/discover")]) r.2).
  assert (H1 : r.1 = Ok tt) by (vm_compute; reflexivity).
  assert (H1' : r'.1 = Ok tt) by (vm_compute; reflexivity).
  assert (Hr : main ["create"] init_mcp = (Ok tt, r.2)) by (rewrite <- H1; apply surjective_pairing).
  assert (Hr' : process_message (JObj [("id", JInt 5); ("method", JStr "server/discover")]) r.2 = (Ok tt, r'.2))
    by (rewrite <- H1'; apply surjective_pairing).
  destruct (request_answered ["create"] r.2 _ (Ok tt) r'.2 Hr Hr') as (written & Hw & Ha).
  exists r.2, r'.2, written. split; [exact Hr|]. split; [exact Hr'|]. split; [exact Hw|exact Ha].
Defined.

(** A library may still exit the process. *)
Definition exiting_files : Files := {|
  stat_mtime_ns n path := Raise (Exn (SystemExit 1) []);
  load_json_file n path := Ok JNull;
  expanduser path := path;
  uuid4 n := "" |}.

Definition listing_json : PyJson := {|
  json_loads s := Ok (tool_message (JInt 1) "ztab_list_backends" []);
  json_loads_bytes bs := Ok JNull |}.

Lemma main_survives_witness :
  ∃ e s', main (H2:=exiting_files) (H3:=listing_json) ["list"] init_mcp = (Raise e, s') ∧ is_exception e = false.
Proof.
  pose (r := main (H2:=exiting_files) (H3:=listing_json) ["list"] init_mcp).
  assert (H1 : r.1 = Raise (Exn (SystemExit 1) [])) by (vm_compute; reflexivity).
  assert (Hr : main (H2:=exiting_files) (H3:=listing_json) ["list"] init_mcp = (Raise (Exn (SystemExit 1) []), r.2))
    by (rewrite <- H1; apply surjective_pairing).
  exists (Exn (SystemExit 1) []), r.2. split; [exact Hr|].
  apply (main_survives (H2:=exiting_files) (H3:=listing_json) ["list"] _ r.2); [|exact Hr].
  constructor; [exact I|constructor].
Defined.

Lemma non_object_stops_server_witness :
  main (H3:=demo_json) ["batch"; "create"] init_mcp =
    (Raise (attribute_error (JList [JObj [("id", JInt 6)]]) "get"), init_mcp).
Proof.
  apply (non_object_stops_server (H3:=demo_json) "batch" ["create"] (JList [JObj [("id", JInt 6)]]) init_mcp);
    [vm_compute; reflexivity..|discriminate].
Defined.

Lemma tool_arguments_validated_witness :
  ∃ text, call_tool (JStr "ztab_create_session") (JObj [("policy_class", JStr "ScheduleOverlap")]) init_mcp
    = (Ok (error_result text), init_mcp).
Proof.
  exact (tool_arguments_validated "ztab_create_session" run_create_session
    [("policy_class", JStr "ScheduleOverlap")] init_mcp eq_refl).
Defined.

(** The same backend with another host and another creator token. *)
Definition other_backend : dict :=
  [("backend_id", JStr "b1"); ("name", JStr "First"); ("host", JStr "elsewhere"); ("port", JInt 1);
   ("verifier", JStr "ita"); ("creator_token", JStr "another")].
Definition other_config : dict := [("default_backend", JStr "b1"); ("backends", JList [JObj other_backend])].
Definition loaded (c : json) : mcp := Mcp init_net 1 (Some c) [] [].

Lemma list_backends_noninterference_witness :
  (run_list_backends (JObj []) (loaded demo_config)).1 =
  (run_list_backends (JObj []) (loaded (JObj other_config))).1.
Proof.
  eapply (list_backends_noninterference (JObj []) (loaded demo_config) _ (loaded (JObj other_config)) _
    _ _ [_] [_]); [reflexivity|reflexivity|reflexivity|reflexivity| |reflexivity].
  constructor; [|constructor]. split; [reflexivity|]. split; [reflexivity|]. split; [reflexivity|].
  vm_compute. split; intros [=].
Defined.

Lemma jwt_payload_displayed_witness :
  decode_jwt_payload (H3:=demo_json) ("h" +:+ "." +:+ _base64url_encode_nopad [x7b; x7d] +:+ "." +:+ "sig")
    = Some (JObj []).
Proof.
  rewrite (jwt_payload_displayed (H3:=demo_json) "h" [x7b; x7d] "sig"); [reflexivity|].
  intros [Hin|Hin%elem_of_nil]%elem_of_cons; [discriminate|exact Hin].
Defined.
End demo.
