(* ===== verification/McpWire.v ===== *)
(** The MCP server on its two streams: standard input is read line by line and
    parsed by [json.loads], every response is written by [json.dumps] as one
    line of standard output. *)

From S2P Require Import Prelude PyText PyValue External Policy World ItaVerifier Rpc Client Backends McpServer McpChannels McpProtocol Examples DemoServer Utf8 Unicode Json JsonProps.

Open Scope Z_scope.

Definition newline : ascii := "010".
Definition nl : string := String newline EmptyString.

(** ** Reading *)

(** The lines [readline] returns in turn, each with its end of line. The text is
    the one [sys.stdin] hands out, in which every end of line is a newline. *)
Fixpoint readlines (s : string) : list string :=
  match s with
  | EmptyString => []
  | String a s' =>
      if Ascii.eqb a newline then nl :: readlines s'
      else match readlines s' with
           | [] => [String a EmptyString]
           | l :: ls => String a l :: ls
           end
  end.

Definition one_line (t : string) : Prop := newline ∉ String.list_ascii_of_string t.

Lemma readlines_line t rest : one_line t → readlines (t +:+ nl +:+ rest) = (t +:+ nl) :: readlines rest.
Proof.
  unfold one_line. induction t as [|a t IH]; intros Ht; [done|]. cbn in Ht. apply not_elem_of_cons in Ht as [Ha Ht].
  change (String a t +:+ nl +:+ rest) with (String a (t +:+ nl +:+ rest)). cbn [readlines].
  rewrite (IH Ht). destruct (Ascii.eqb_spec a newline) as [->|_]; done.
Qed.

Lemma readlines_lines ts : Forall one_line ts →
  readlines (String.concat "" ((λ t, t +:+ nl) <$> ts)) = (λ t, t +:+ nl) <$> ts.
Proof.
  induction 1 as [|t ts Ht _ IH]; [done|].
  by rewrite !fmap_cons, concat_cons, str_app_assoc, readlines_line, IH.
Qed.

(** ** Texts of ASCII characters *)

Lemma text_of_app cs cs' : text_of (cs ++ cs') = text_of cs +:+ text_of cs'.
Proof.
  unfold text_of. replace (text_bytes (cs ++ cs')) with (text_bytes cs ++ text_bytes cs')
    by (induction cs as [|c cs IH]; [done|cbn; by rewrite <- app_assoc, IH]).
  induction (text_bytes cs) as [|b bs IH]; [done|]. exact (f_equal (String (ascii_of_byte b)) IH).
Qed.

Lemma ascii_of_z2b c : is_ascii c → N_of_ascii (ascii_of_byte (z2b c)) = Z.to_N c.
Proof.
  intros Hc. unfold is_ascii in Hc.
  assert (Hall : forallb (λ k, (N_of_ascii (ascii_of_byte (z2b (Z.of_nat k))) =? Z.to_N (Z.of_nat k))%N) (seq 0 128) = true)
    by (vm_compute; reflexivity).
  rewrite forallb_forall in Hall. specialize (Hall (Z.to_nat c) ltac:(apply in_seq; lia)).
  apply N.eqb_eq in Hall. by rewrite Z2Nat.id in Hall by lia.
Qed.

Lemma chars_text_of cs : Forall is_ascii cs →
  String.list_ascii_of_string (text_of cs) = (λ c, ascii_of_byte (z2b c)) <$> cs.
Proof.
  intros Hcs. pose proof (text_of_ascii cs Hcs) as Hb. unfold String.list_byte_of_string in Hb.
  apply (f_equal (fmap ascii_of_byte)) in Hb. rewrite <- !list_fmap_compose in Hb.
  etransitivity; [|exact Hb]. rewrite <- (list_fmap_id (String.list_ascii_of_string _)) at 1.
  apply list_fmap_ext. intros _ a _. symmetry. apply ascii_of_byte_of_ascii.
Qed.

Lemma text_chars_ascii s :
  Forall (λ a, is_cont a = false) (String.list_ascii_of_string s) →
  text_chars s = (λ a, String a EmptyString) <$> String.list_ascii_of_string s.
Proof.
  induction s as [|a s IH]; [done|]. cbn [String.list_ascii_of_string text_chars]. intros [_ Hs]%Forall_cons.
  rewrite (IH Hs). destruct (String.list_ascii_of_string s) as [|b l]; [done|].
  apply Forall_inv in Hs. rewrite fmap_cons. cbn. by rewrite Hs.
Qed.

Lemma concat_chars l : String.concat "" ((λ a, String a EmptyString) <$> l) = String.string_of_list_ascii l.
Proof. induction l as [|a l IH]; [done|]. rewrite fmap_cons, concat_cons, IH. done. Qed.

Lemma strip_list_line {A : Type} (f : A → bool) a m b n :
  f a = false → f b = false → f n = true → strip_list f (a :: m ++ [b; n]) = a :: m ++ [b].
Proof.
  intros Ha Hb Hn. unfold strip_list. cbn [drop_while]. rewrite Ha.
  change (a :: m ++ [b; n]) with ((a :: m) ++ [b] ++ [n]). rewrite !rev_app_distr. cbn [rev app drop_while].
  rewrite Hn, Hb. cbn [rev]. by rewrite rev_app_distr, rev_involutive.
Qed.

(** [strip] only removes the end of line after a text between braces. *)
Lemma strip_braces m :
  Forall is_ascii (123 :: m ++ [125]) → strip (text_of (123 :: m ++ [125]) +:+ nl) = text_of (123 :: m ++ [125]).
Proof.
  intros Ha. change nl with (text_of [10]). rewrite <- text_of_app.
  change ((123 :: m ++ [125]) ++ [10]) with (123 :: (m ++ [125]) ++ [10]). rewrite <- app_assoc. cbn [app].
  assert (Hm : Forall is_ascii (123 :: m ++ [125; 10])).
  { apply (Forall_app_2 _ (123 :: m ++ [125]) [10]) in Ha; [|by repeat constructor].
    cbn [app] in Ha. by rewrite <- app_assoc in Ha. }
  unfold strip. rewrite text_chars_ascii; rewrite (chars_text_of _ Hm).
  - rewrite !fmap_cons, !fmap_app, !fmap_cons, !fmap_nil. rewrite strip_list_line by (vm_compute; reflexivity).
    rewrite <- (String.string_of_list_ascii_of_string (text_of _)), chars_text_of by
      (apply (Forall_app _ (123 :: m) [125; 10]) in Hm as [? Hm]; apply (Forall_app_2 _ (123 :: m) [125]); [done|by repeat constructor]).
    by rewrite <- concat_chars, !fmap_cons, !fmap_app, !fmap_cons, !fmap_nil.
  - apply Forall_fmap. eapply Forall_impl; [exact Hm|]. intros c Hc. unfold is_cont.
    cbn. rewrite ascii_of_z2b by done. apply N.eqb_neq. unfold is_ascii in Hc.
    pose proof (N.Div0.div_lt_upper_bound (Z.to_N c) 64 2). lia.
Qed.

(** What is written is one line that [strip] leaves as it is. *)
Section written.
Context `{FloatLaws}.

Lemma dumps_one_line v : dumpable v → one_line (dumps None v).
Proof.
  intros Hv. unfold one_line, dumps. rewrite chars_text_of by (by apply dump_cps).
  intros (c & Hc & Hin)%list_elem_of_fmap.
  pose proof (proj1 (Forall_forall _ _) (dump_writes v None 0 Hv) c Hin) as [Hp|[[? [=]] _]].
  apply (f_equal N_of_ascii) in Hc. unfold printable in Hp. rewrite ascii_of_z2b in Hc by (unfold is_ascii; lia).
  change (N_of_ascii newline) with 10%N in Hc. lia.
Qed.

(** The text of a dict is delimited by braces. *)
Lemma dump_braces d : ∃ m, dump_value None 0 (JObj d) = 123 :: m ++ [125].
Proof. cbn [dump_value]. unfold bracketed. case_match; [by exists []|]. cbn [newline_indent app]. eauto. Qed.

Lemma strip_dumps d : dumpable (JObj d) → strip (dumps None (JObj d) +:+ nl) = dumps None (JObj d).
Proof.
  intros Hv. destruct (dump_braces d) as [m Hm]. pose proof (dump_cps None 0 _ Hv) as Ha.
  unfold dumps. rewrite Hm in *. by apply strip_braces.
Qed.
End written.

(** ** The server *)

Section wire.
Context `{Host, X509, PyJWT, Files, Grpc, FloatLaws}.
(** [json.loads] of bytes, and the text of a formatted string *)
Variable loads_bytes : list byte → res json.
Variable fmt : list frag → string.

#[local] Instance wire_json : PyJson := {| json_loads := loads; json_loads_bytes := loads_bytes |}.

(** The Python value behind an output value *)
Fixpoint render (o : out) : json :=
  match o with
  | OVal v => v
  | OFmt text => JStr (fmt text)
  | ODict kvs => JObj (List.map (λ '(k, x), (k, render x)) kvs)
  | OList l => JList (List.map render l)
  | ODumps o => JStr (dumps (Some 2%nat) (render o))
  end.

(** [_PROTO_OUT.write(json.dumps(response) + newline)] *)
Definition write_response (o : out) : string := dumps None (render o) +:+ nl.
Definition stdout (s : mcp) : string := String.concat "" (write_response <$> _PROTO_OUT s).

(** A client that writes its messages the same way *)
Definition client_input (msgs : list dict) : string :=
  String.concat "" ((λ d, dumps None (JObj d) +:+ nl) <$> msgs).

Definition message_ok (d : dict) : Prop := sendable (JObj d) ∧ distinct (JObj d).

Lemma process_message_line d s : message_ok d → process_line (dumps None (JObj d) +:+ nl) s = process_message (JObj d) s.
Proof.
  intros [Hs Hd]. unfold process_line. cbv zeta. rewrite strip_dumps by apply Hs.
  replace (String.eqb (dumps None (JObj d)) "") with false.
  - cbn [json_loads wire_json]. by rewrite (proj1 (json_roundtrip None _ Hs)), canon_distinct.
  - unfold dumps. destruct (dump_braces d) as [m ->]. done.
Qed.

Lemma line_not_empty d : String.eqb (dumps None (JObj d) +:+ nl) "" = false.
Proof. unfold dumps. destruct (dump_braces d) as [m ->]. done. Qed.

Lemma main_messages msgs s : Forall message_ok msgs → InvOut s →
  match main ((λ d, dumps None (JObj d) +:+ nl) <$> msgs) s with
  | (Raise e, _) => is_exception e = false
  | (Ok _, s') => ∃ written, _PROTO_OUT s' = _PROTO_OUT s ++ concat written ∧
      Forall2 (λ d w, answered (lookup_key "id" d) w) msgs written
  end.
Proof.
  intros Hm. revert s. induction Hm as [|d msgs Hd _ IH]; intros s Hi.
  { exists []. by rewrite app_nil_r. }
  rewrite fmap_cons. cbn [main]. rewrite line_not_empty. unfold mbind, ST_bind. rewrite process_message_line by done.
  pose proof (process_object d s Hi) as Ho. pose proof (process_message_ok (JObj d) s Hi) as Hi'.
  destruct (process_message (JObj d) s) as [[[]|e] s1]; [|done]. destruct Ho as (w & Hw & Ha).
  specialize (IH s1 Hi'). destruct (main _ s1) as [[u|e] s']; [|done]. destruct IH as (ws & Hws & Has).
  exists (w :: ws). split; [by rewrite Hws, Hw, <- app_assoc|by constructor].
Qed.

Lemma client_reads s : Forall (λ o, sendable (render o)) (_PROTO_OUT s) →
  loads <$> readlines (stdout s) = (λ o, Ok (canon (render o))) <$> _PROTO_OUT s.
Proof.
  intros Hs. unfold stdout.
  replace (write_response <$> _PROTO_OUT s) with ((λ t, t +:+ nl) <$> ((λ o, dumps None (render o)) <$> _PROTO_OUT s))
    by (by rewrite <- list_fmap_compose).
  rewrite readlines_lines.
  - rewrite <- !list_fmap_compose. apply Forall_fmap_ext_1. eapply Forall_impl; [exact Hs|]. intros o Ho.
    cbn. unfold dumps. change nl with (text_of [10]). rewrite <- text_of_app.
    apply loads_written; [done|]. by repeat constructor.
  - apply Forall_fmap. eapply Forall_impl; [exact Hs|]. intros o Ho. apply dumps_one_line, Ho.
Qed.

(** C16: the server speaks JSON-RPC over lines. In whatever state earlier input
    left it, a client that writes each of its message objects with [json.dumps]
    as one line gets, in order, exactly one response with the same id to each
    message with an id and nothing for the others; the only exception that
    escapes is one that is no [Exception]. When the responses can be sent, the
    client, reading standard output line by line, parses exactly the responses
    written: no response spans two lines or shares one. *)
Theorem wire_protocol before s msgs r s' :
  main before init_mcp = (Ok tt, s) → Forall message_ok msgs →
  main (readlines (client_input msgs)) s = (r, s') →
  match r with
  | Raise e => is_exception e = false
  | Ok _ =>
      (∃ written, _PROTO_OUT s' = _PROTO_OUT s ++ concat written ∧
         Forall2 (λ d w, answered (lookup_key "id" d) w) msgs written) ∧
      (Forall (λ o, sendable (render o)) (_PROTO_OUT s') →
       loads <$> readlines (stdout s') = (λ o, Ok (canon (render o))) <$> _PROTO_OUT s')
  end.
Proof.
  intros Hb Hm. unfold client_input.
  replace ((λ d, dumps None (JObj d) +:+ nl) <$> msgs) with ((λ t, t +:+ nl) <$> ((λ d, dumps None (JObj d)) <$> msgs))
    by (by rewrite <- list_fmap_compose).
  rewrite readlines_lines, <- list_fmap_compose.
  2: { apply Forall_fmap. eapply Forall_impl; [exact Hm|]. intros d [Hd _]. apply dumps_one_line, Hd. }
  intros Hr. pose proof (main_messages msgs s Hm (main_inv _ _ _ Hb)) as Ho.
  change ((λ d, dumps None (JObj d) +:+ nl) <$> msgs) with (((λ t, t +:+ nl) ∘ (λ d, dumps None (JObj d))) <$> msgs) in Ho.
  rewrite Hr in Ho. destruct r; [|done]. split; [exact Ho|apply client_reads].
Qed.

(** *** Limits of the parser *)

(** A message object that has only an id, given by its text *)
Definition with_id (l : list Z) : string := text_of (123 :: ([34; 105; 100; 34; 58; 32] ++ l) ++ [125]).

Lemma scan_object_id (scan : list Z → res (json * list Z)) c l e :
  is_ws c = false → scan (c :: l) = Raise e → scan_object scan (34 :: 105 :: 100 :: 34 :: 58 :: 32 :: c :: l) = Raise e.
Proof.
  intros Hc Hs. unfold scan_object. rewrite skip_ws_head by done. rewrite expect_head by done.
  cbn [scan_members expect Z.eqb Pos.eqb]. rewrite (eq_refl : scanstring (105 :: 100 :: 34 :: _) = Ok ([105; 100], _)).
  rewrite ret_bind. cbn [snd]. rewrite skip_ws_head by done. cbn [expect Z.eqb Pos.eqb].
  change (skip_ws (32 :: c :: l)) with (skip_ws (c :: l)). by rewrite skip_ws_head, Hs.
Qed.

Lemma with_id_fails l rest s e :
  Forall is_ascii l → match l with c :: _ => is_ws c = false | [] => False end →
  match recursion_limit with O => e = recursion_error | S n => scan_once n (l ++ [125]) = Raise e end →
  exn_type e ≠ JSONDecodeError → main ((with_id l +:+ nl) :: rest) s = (Raise e, s).
Proof.
  intros Ha Hl He Hne. cbn [main].
  assert (Hall : Forall is_ascii (123 :: ([34; 105; 100; 34; 58; 32] ++ l) ++ [125])).
  { constructor; [done|]. repeat (apply Forall_app; split); try done; by repeat constructor. }
  replace (String.eqb (with_id l +:+ nl) "") with false by done.
  unfold process_line. cbv zeta. unfold with_id. rewrite strip_braces by done.
  replace (String.eqb (text_of _) "") with false by done. cbn [json_loads wire_json].
  assert (Hr : loads (text_of (123 :: ([34; 105; 100; 34; 58; 32] ++ l) ++ [125])) = Raise e).
  { unfold loads. rewrite code_points_text_of by
      (eapply Forall_impl; [exact Hall|]; unfold is_ascii, is_cp; lia). cbn [app expect Z.eqb Pos.eqb].
    unfold decode. rewrite skip_ws_head by done. destruct recursion_limit as [|n]; [by subst e|].
    destruct l as [|c l]; [done|]. cbn [app] in *.
    match goal with |- context [scan_once (S n) (123 :: ?t)] =>
      change (scan_once (S n) (123 :: t)) with (scan_object (scan_once n) t) end. by rewrite (scan_object_id _ _ _ e). }
  rewrite Hr, bool_decide_false by done. done.
Qed.
Lemma scan_once_nested n k t : (n < k)%nat → scan_once n (repeat 91 k ++ t) = Raise recursion_error.
Proof.
  revert k. induction n as [|n IH]; intros [|k] Hk; try lia; [done|]. cbn [repeat app].
  match goal with |- context [scan_once (S n) (91 :: ?l)] =>
    change (scan_once (S n) (91 :: l)) with (scan_array (scan_once n) l) end.
  destruct k as [|k]; [lia|]. unfold scan_array. cbn [repeat app]. rewrite skip_ws_head, expect_head by done.
  cbn [scan_elements]. by rewrite (IH (S k) ltac:(lia) : scan_once n (91 :: repeat 91 k ++ t) = _).
Qed.

(** C38: lines that stop the server. A line that is valid JSON but no object,
    such as a JSON-RPC batch, makes [msg.get] raise outside the [try]; an id of
    more than 4300 digits, or one that nests deeper than the recursion limit,
    makes [json.loads] raise [ValueError] and [RecursionError], which the handler
    of [JSONDecodeError] does not catch. In each case nothing is answered and
    the remaining input is not read. *)
Theorem lines_stop_server rest s :
  (∀ line v, String.eqb line "" = false → String.eqb (strip line) "" = false →
     loads (strip line) = Ok v → (∀ d, v ≠ JObj d) →
     main (line :: rest) s = (Raise (attribute_error v "get"), s)) ∧
  (∀ c ds, 49 <= c <= 57 → digits ds → (INT_MAX_STR_DIGITS <= length ds)%nat → (0 < recursion_limit)%nat →
     main ((with_id (c :: ds) +:+ nl) :: rest) s = (Raise digits_error, s)) ∧
  (∀ k, (recursion_limit <= k)%nat → (0 < k)%nat →
     main ((with_id (repeat 91 k ++ repeat 93 k) +:+ nl) :: rest) s = (Raise recursion_error, s)).
Proof.
  split; [|split].
  - intros line v Hne Hs Hl Hv. exact (non_object_stops_server line rest v s Hne Hs Hl Hv).
  - intros c ds Hc Hds Hlen Hlim.
    assert (Hi : int_shape (c :: ds)) by (right; by exists c, ds).
    apply with_id_fails; [by apply int_shape_ascii| | |done].
    { unfold is_ws. by repeat (rewrite (proj2 (Z.eqb_neq c _)) by lia). }
    destruct recursion_limit as [|n]; [lia|].
    rewrite (scan_once_number n [] (c :: ds) [125] (or_introl eq_refl) Hi).
    pose proof (scan_number_parts [] (c :: ds) [] [] [125] (or_introl eq_refl) Hi (or_introl eq_refl) (or_introl eq_refl)) as Hp.
    etransitivity; [apply Hp; done|]. by rewrite (proj2 (Nat.ltb_lt _ _)) by (cbn [length]; lia).
  - intros k Hk Hpos. apply with_id_fails; [| | |done].
    + apply Forall_app. split; apply Forall_forall; intros x ->%list_elem_of_In%repeat_spec; done.
    + destruct k; [lia|done].
    + destruct recursion_limit as [|n]; [done|]. rewrite <- app_assoc. by apply scan_once_nested.
Qed.
End wire.

(** ** Concrete runs *)

Section demo.
#[local] Instance wire_host : Host := demo_host ∅.
#[local] Existing Instance demo_x509.
#[local] Existing Instance demo_jwt.
#[local] Existing Instance steady_files.
#[local] Instance wire_grpc : Grpc := demo_grpc true.
#[local] Existing Instance some_py_float.
#[local] Existing Instance some_float_laws.

(** Texts as they are, other values left out *)
Definition demo_fmt (l : list frag) : string :=
  String.concat "" ((λ f, match f with Txt s => s | Val (JStr s) => s | Val _ => "?" end) <$> l).

Definition demo_messages : list dict :=
  [[("jsonrpc", JStr "2.0"); ("id", JInt 7); ("method", JStr "tools/list")];
   [("jsonrpc", JStr "2.0"); ("method", JStr "notifications/initialized")];
   [("jsonrpc", JStr "2.0"); ("id", JStr "café"); ("method", JStr "server/discover")]].

Lemma demo_messages_ok : Forall message_ok demo_messages.
Proof.
  assert (Hp : forallb (λ d, plain (JObj d) && (depth (JObj d) <=? 1000)%nat) demo_messages = true) by (vm_compute; reflexivity).
  rewrite forallb_forall in Hp. apply Forall_forall. intros d Hd%list_elem_of_In.
  apply Hp, andb_true_iff in Hd as [[Hs Hd]%plain_ok Hl%Nat.leb_le]. split; [split|]; done.
Qed.

(** After a line that is no JSON, two requests and a notification: two lines
    come back. *)
Lemma wire_protocol_witness :
  let j := wire_json (λ _, Ok JNull) in
  let s := (main (H3:=j) ["x"] init_mcp).2 in
  let s' := (main (H3:=j) (readlines (client_input demo_messages)) s).2 in
  main (H3:=j) (readlines (client_input demo_messages)) s = (Ok tt, s') ∧
  loads <$> readlines (stdout demo_fmt s') = (λ o, Ok (canon (render demo_fmt o))) <$> _PROTO_OUT s' ∧
  length (_PROTO_OUT s') = 2%nat.
Proof.
  intros j s s'. assert (H0 : (main (H3:=j) ["x"] init_mcp).1 = Ok tt) by (vm_compute; reflexivity).
  assert (Hb : main (H3:=j) ["x"] init_mcp = (Ok tt, s)) by (rewrite <- H0; apply surjective_pairing).
  assert (H1 : (main (H3:=j) (readlines (client_input demo_messages)) s).1 = Ok tt) by (vm_compute; reflexivity).
  assert (Hr : main (H3:=j) (readlines (client_input demo_messages)) s = (Ok tt, s'))
    by (rewrite <- H1; apply surjective_pairing).
  split; [exact Hr|]. split; [|vm_compute; reflexivity].
  apply (wire_protocol (λ _, Ok JNull) demo_fmt ["x"] s demo_messages (Ok tt) s' Hb demo_messages_ok Hr).
  assert (Hp : forallb (λ o, plain (render demo_fmt o) && (depth (render demo_fmt o) <=? 1000)%nat) (_PROTO_OUT s') = true)
    by (vm_compute; reflexivity).
  rewrite forallb_forall in Hp. apply Forall_forall. intros o Ho%list_elem_of_In.
  apply Hp, andb_true_iff in Ho as [[Hs _]%plain_ok Hl%Nat.leb_le]. split; done.
Defined.

Lemma lines_stop_server_witness :
  main (H3:=wire_json (λ _, Ok JNull)) ["[]"; "x"] init_mcp = (Raise (attribute_error (JList []) "get"), init_mcp) ∧
  main (H3:=wire_json (λ _, Ok JNull)) [with_id (49 :: repeat 48 4300) +:+ nl; "x"] init_mcp = (Raise digits_error, init_mcp) ∧
  main (H3:=wire_json (λ _, Ok JNull)) [with_id (repeat 91 1000 ++ repeat 93 1000) +:+ nl; "x"] init_mcp = (Raise recursion_error, init_mcp).
Proof.
  assert (Hds : digits (repeat 48 4300)).
  { apply Forall_forall. intros x Hx%list_elem_of_In. apply repeat_spec in Hx as ->. reflexivity. }
  assert (Hlen : (INT_MAX_STR_DIGITS <= length (repeat 48 4300))%nat) by (rewrite repeat_length; apply Nat.le_refl).
  assert (Hlim : (0 < recursion_limit)%nat) by (apply Nat.ltb_lt; vm_compute; reflexivity).
  assert (Hc : 49 <= 49 <= 57) by lia.
  assert (Hk : (recursion_limit <= 1000)%nat) by apply Nat.le_refl.
  assert (Hj : loads (strip "[]") = Ok (JList [])) by (vm_compute; reflexivity).
  assert (Hv : ∀ d, JList [] ≠ JObj d) by discriminate.
  destruct (lines_stop_server (λ _, Ok JNull) ["x"] init_mcp) as (Ho & Hd & Hn).
  split; [exact (Ho "[]" (JList []) eq_refl eq_refl Hj Hv)|].
  split; [exact (Hd 49 (repeat 48 4300) Hc Hds Hlen Hlim)|exact (Hn 1000%nat Hk Hlim)].
Defined.
End demo.
