(* ===== verification/McpReload.v ===== *)
(** The backend configuration of the MCP server over time: validation,
    selection and reloading. *)

From S2P Require Import Prelude PyText Base64 PyValue External Attestation Policy World ItaVerifier Rpc Client Backends McpServer Examples DemoServer McpChannels.

Open Scope Z_scope.

Section reload.
Context `{Host, X509, PyJWT, Files, PyJson, Grpc}.

(** ** Validation *)

(** An entry is an object with the four required fields. *)
Definition entry_ok (v : json) : Prop :=
  ∃ b, v = JObj b ∧ ∀ f, f ∈ required_fields → lookup_key f b ≠ None.

Lemma check_fields_ok i b fields :
  check_fields i (JObj b) fields = Ok tt → ∀ f, f ∈ fields → lookup_key f b ≠ None.
Proof.
  induction fields as [|g fields IH]; [by intros _ f ?%elem_of_nil|].
  cbn [check_fields py_in hashable]. rewrite ret_bind.
  destruct (lookup_key g b) eqn:Hg; [|done]. intros Hc f [->|Hf]%elem_of_cons; [by rewrite Hg|by apply IH].
Qed.

Lemma check_backends_ok path i bs seen r :
  check_backends path i bs seen = Ok r → Forall entry_ok bs.
Proof.
  revert i seen r. induction bs as [|b bs IH]; intros i seen r; [constructor|].
  cbn [check_backends]. intros Hc. apply bind_Ok in Hc as ([] & Hf & Hc).
  apply bind_Ok in Hc as (bid & Hb & Hc). apply bind_Ok in Hc as (dup & _ & Hc). cbv zeta in Hc.
  apply bind_Ok in Hc as (rest & Hr & _). constructor; [|by eapply IH].
  destruct b; try done. eexists. split; [done|]. by eapply check_fields_ok.
Qed.

(** A validated document: an object whose [backends], when they are a list,
    are all well-formed entries. *)
Lemma validate_ok config path ws :
  _validate_backends config path = Ok ws →
  ∃ c, config = JObj c ∧ ∀ bs, lookup_key "backends" c = Some (JList bs) → Forall entry_ok bs.
Proof.
  unfold _validate_backends. intros Hv. apply bind_Ok in Hv as (backends & Hb & Hv).
  destruct config as [| | | | | |c]; try done. exists c. split; [done|]. intros bs Hbs.
  cbn in Hb. rewrite Hbs in Hb. injection Hb as <-. apply bind_Ok in Hv as (r & Hr & _).
  by eapply check_backends_ok.
Qed.

(** C29: the configuration in force is always a validated one. Whatever was
    written to the file over time, and whatever requests were served, the
    configuration the server holds is an object, and each entry of its
    [backends] list is an object with an id, a host, a port and a verifier: a
    document that fails validation is never adopted. *)
Theorem config_in_force_valid lines r s config :
  main lines init_mcp = (r, s) → _backends_config s = Some config →
  ∃ c, config = JObj c ∧ ∀ bs, lookup_key "backends" c = Some (JList bs) → Forall entry_ok bs.
Proof.
  intros [o [_ _ _ Hco _]]%main_inv Hc. destruct (Hco config Hc) as [_ Hv].
  apply is_ok_true in Hv as [ws Hws]. by eapply validate_ok.
Qed.

(** ** Selection *)

Definition has_id (bid : json) (b : dict) : bool := py_eq (get_or (JObj b) "backend_id" JNull) bid.

Lemma find_backend_first bid bs :
  find_backend bid (JObj <$> bs) = Ok (JObj <$> List.find (has_id bid) bs).
Proof.
  induction bs as [|b bs IH]; [done|]. rewrite fmap_cons. cbn [find_backend List.find].
  rewrite py_get_obj, ret_bind, IH. unfold has_id at 2. by destruct (py_eq _ bid).
Qed.

Lemma join_texts_error i l e : join_texts i l = Raise e → exn_type e = TypeError.
Proof.
  revert i. induction l as [|v l IH]; intros i; [done|]. destruct v; cbn; try by intros [= <-].
  destruct (join_texts (S i) l) eqn:E; [done|]. intros [= <-]. by eapply IH.
Qed.

Lemma backend_ids_objects bs :
  backend_ids (JObj <$> bs) = Ok ((λ b, get_or (JObj b) "backend_id" JNull) <$> bs).
Proof.
  induction bs as [|b bs IH]; [done|]. rewrite !fmap_cons. cbn [backend_ids].
  by rewrite py_get_obj, ret_bind, IH, ret_bind.
Qed.

(** Backend selection. The id asked for, or else the default, picks the
    first entry that carries it; without either, or when no entry carries it,
    the request is refused with a [ValueError] (a [TypeError] when the list of
    known ids cannot be joined because one is not a text), never served by
    another backend. *)
Lemma backend_selected c bs wanted :
  lookup_key "backends" c = Some (JList (JObj <$> bs)) →
  let bid := if truthy wanted then wanted else get_or (JObj c) "default_backend" JNull in
  match select_backend (JObj c) wanted with
  | Ok v => truthy bid = true ∧
      ∃ i b, v = JObj b ∧ bs !! i = Some b ∧ has_id bid b = true ∧
        ∀ j b', (j < i)%nat → bs !! j = Some b' → has_id bid b' = false
  | Raise e => (exn_type e = ValueError ∨ exn_type e = TypeError) ∧
      (truthy bid = false ∨ Forall (λ b, has_id bid b = false) bs)
  end.
Proof.
  intros Hb bid. unfold select_backend. rewrite !py_get_obj, !ret_bind. fold bid.
  destruct (truthy bid) eqn:Ht; cbn [negb]; [|by split; [left|left]].
  cbn [get_or]. rewrite Hb. cbn [py_iter]. rewrite ret_bind, find_backend_first, ret_bind.
  destruct (List.find (has_id bid) bs) as [b|] eqn:Hf; cbn [fmap option_fmap option_map].
  - split; [done|]. apply find_first in Hf as (i & Hi & Hid & Hmin). by exists i, b.
  - rewrite backend_ids_objects, ret_bind.
    assert (Hall : Forall (λ b, has_id bid b = false) bs).
    { apply Forall_forall. intros b Hin%list_elem_of_In. by eapply List.find_none. }
    destruct (join_texts 0 _) as [names|e] eqn:Hj; [by split; [left|right]|].
    rewrite raise_bind. split; [|by right]. right. by eapply join_texts_error.
Qed.

(** ** Reloading *)

Definition now (s : mcp) : nat := w_tick (n_world (m_net s)).

(** The state after [k] interactions with the host. *)
Definition later (k : nat) (s : mcp) : mcp :=
  at_world (World (k + now s) (w_jwks (n_world (m_net s))) (log_of s)) s.

(** The state after the configuration file was read as [c]. *)
Definition with_file (c : json) (s : mcp) : mcp :=
  at_world (World (now s) (w_jwks (n_world (m_net s))) (log_of s ++ [LoadedFile _backends_config_path c])) s.

Lemma tick_m_run s : tick_m s = (Ok (now s), later 1 s).
Proof. done. Qed.

Lemma load_run s c ws :
  load_json_file (now s) _backends_config_path = Ok c →
  _validate_backends c _backends_config_path = Ok ws →
  _load_backends_from _backends_config_path s = (Ok (Some c), with_file c (later 1 s)).
Proof.
  intros Hl Hv. unfold _load_backends_from.
  rewrite (st_bind_run _ _ s (Some c) (with_file c (later 1 s))); [st_unfold; by rewrite Hv|].
  unfold try_except. rewrite (st_bind_run _ _ _ _ _ (tick_m_run s)). st_unfold. by rewrite Hl.
Qed.

(** A document that cannot be read or parsed leaves no configuration. *)
Lemma load_failed s e :
  load_json_file (now s) _backends_config_path = Raise e → is_exception e = true →
  _load_backends_from _backends_config_path s = (Ok None, later 1 s).
Proof.
  intros Hl He. unfold _load_backends_from.
  rewrite (st_bind_run _ _ s None (later 1 s)); [done|].
  unfold try_except. rewrite (st_bind_run _ _ _ _ _ (tick_m_run s)). st_unfold. by rewrite Hl, He.
Qed.

(** The state after a new configuration [c] with modification time [m] was
    adopted in [s]. *)
Definition adopted (s : mcp) (m : Z) (c : option json) : mcp :=
  if is_set (_backends_config s) && is_set c
  then Mcp (closing (m_net s) (cached_ids (_CHANNEL_CACHE s))) m c [] (_PROTO_OUT s)
  else Mcp (m_net s) m c (_CHANNEL_CACHE s) (_PROTO_OUT s).

(** The state after an access that read the file as [c], or failed to. *)
Definition read_config (c : option json) (s : mcp) : mcp :=
  match c with Some c => with_file c (later 2 s) | None => later 2 s end.

Lemma get_backends_changed o s m c :
  Inv o s → stat_mtime_ns (now s) _backends_config_path = Ok m → m ≠ _backends_mtime_ns s →
  _load_backends_from _backends_config_path (later 1 s) = (Ok c, read_config c s) →
  _get_backends s = (Ok c, adopted (read_config c s) m c).
Proof.
  intros Hi Hs Hm Hl. unfold _get_backends. rewrite (st_bind_run _ _ _ _ _ (tick_m_run s)), Hs.
  rewrite (st_bind_run get_state _ _ _ _ eq_refl). cbn [_backends_mtime_ns later at_world].
  rewrite (proj2 (Z.eqb_neq _ _)) by done. cbn [negb]. rewrite (st_bind_run _ _ _ _ _ Hl).
  rewrite (st_bind_run get_state _ _ _ _ eq_refl). unfold adopted.
  assert (Hs2 : _backends_config (read_config c s) = _backends_config s ∧ _CHANNEL_CACHE (read_config c s) = _CHANNEL_CACHE s)
    by by destruct c. destruct Hs2 as [Hb Hca]. rewrite Hb.
  destruct (is_set (_backends_config s) && is_set c) eqn:E.
  - unfold flush_channels. st_unfold. rewrite Hca.
    by rewrite close_all_run by by eapply inv_wrappers.
  - done.
Qed.

(** C25: while a configuration is in force, a change takes effect at once and
    completely. When the file's modification time differs from the one
    remembered and the file now holds a valid document, the next access adopts
    it, remembers its time, closes every cached channel and empties the cache: no
    later call uses a connection made for the old configuration. (After a
    failed load no configuration is in force, and the channels are kept.) *)
Theorem changed_config_flushes lines s old m c ws :
  main lines init_mcp = (Ok tt, s) → _backends_config s = Some old →
  stat_mtime_ns (now s) _backends_config_path = Ok m → m ≠ _backends_mtime_ns s →
  load_json_file (S (now s)) _backends_config_path = Ok c →
  _validate_backends c _backends_config_path = Ok ws →
  ∃ s', _get_backends s = (Ok (Some c), s') ∧
    _backends_config s' = Some c ∧ _backends_mtime_ns s' = m ∧ _CHANNEL_CACHE s' = [] ∧
    ∀ e, e ∈ _CHANNEL_CACHE s → ch_id (stub_of e) ∈ n_closed (m_net s').
Proof.
  intros [o Hi]%main_inv Hold Hs Hm Hl Hv.
  rewrite (get_backends_changed o s m (Some c) Hi Hs Hm) by by apply (load_run (later 1 s) c ws).
  eexists. split; [reflexivity|]. unfold adopted. cbn [read_config _backends_config with_file later at_world]. rewrite Hold.
  cbn. repeat (split; [done|]). intros e He. apply elem_of_union_l, elem_of_list_to_set.
  unfold cached_ids. apply list_elem_of_fmap. eauto.
Qed.

Lemma unchanged_run s :
  stat_mtime_ns (now s) _backends_config_path = Ok (_backends_mtime_ns s) →
  _get_backends s = (Ok (_backends_config s), later 1 s).
Proof.
  intros Hs. unfold _get_backends. rewrite (st_bind_run _ _ _ _ _ (tick_m_run s)), Hs.
  rewrite (st_bind_run get_state _ _ _ _ eq_refl). cbn [_backends_mtime_ns later at_world].
  by rewrite Z.eqb_refl.
Qed.

(** An unchanged file is not read again: while the modification time is
    the remembered one, the configuration in force is served without touching
    the file's content, the cache or the channels. *)
Lemma unchanged_config_served s :
  stat_mtime_ns (now s) _backends_config_path = Ok (_backends_mtime_ns s) →
  _get_backends s = (Ok (_backends_config s), later 1 s).
Proof. apply unchanged_run. Qed.

(** C35: the flush is skipped after an unreadable document. If one access finds
    the file changed but unreadable (for instance half-written), it forgets the
    configuration and keeps the channels; the next access that finds a valid
    document, with whatever hosts, adopts it without flushing. The channels of
    the configuration before the failure stay cached and open. *)
Theorem stale_channels_after_bad_reload lines s m1 e m2 c ws :
  main lines init_mcp = (Ok tt, s) →
  stat_mtime_ns (now s) _backends_config_path = Ok m1 → m1 ≠ _backends_mtime_ns s →
  load_json_file (S (now s)) _backends_config_path = Raise e → is_exception e = true →
  stat_mtime_ns (2 + now s) _backends_config_path = Ok m2 → m2 ≠ m1 →
  load_json_file (3 + now s) _backends_config_path = Ok c →
  _validate_backends c _backends_config_path = Ok ws →
  ∃ s1 s2, _get_backends s = (Ok None, s1) ∧ _get_backends s1 = (Ok (Some c), s2) ∧
    _backends_config s2 = Some c ∧
    _CHANNEL_CACHE s2 = _CHANNEL_CACHE s ∧ n_closed (m_net s2) = n_closed (m_net s).
Proof.
  intros [o Hi]%main_inv Hs1 Hm1 Hl1 He Hs2 Hm2 Hl2 Hv.
  pose proof (get_backends_changed o s m1 None Hi Hs1 Hm1 (load_failed (later 1 s) e Hl1 He)) as Hg1.
  pose proof (get_backends_ok o s Hi) as Hi1. rewrite Hg1 in Hi1. destruct Hi1 as [_ Hi1].
  assert (Ha : adopted (later 2 s) m1 None =
    Mcp (m_net (later 2 s)) m1 None (_CHANNEL_CACHE s) (_PROTO_OUT s)).
  { unfold adopted. by rewrite andb_false_r. }
  change (read_config None s) with (later 2 s) in Hg1, Hi1. rewrite Ha in Hg1, Hi1. set (s1 := Mcp _ _ _ _ _) in *.
  pose proof (get_backends_changed o s1 m2 (Some c) Hi1 Hs2 Hm2 (load_run (later 1 s1) c ws Hl2 Hv)) as Hg2.
  exists s1. eexists. split; [exact Hg1|]. split; [exact Hg2|]. done.
Qed.

End reload.

(** ** Concrete runs *)

Section demo.
#[local] Instance prod_host : Host := demo_host ∅.
#[local] Existing Instance demo_x509.
#[local] Existing Instance demo_jwt.
#[local] Existing Instance demo_json.
#[local] Instance grpc_up : Grpc := demo_grpc true.

(** The backend moved to another host. *)
Definition moved_config : json :=
  JObj [("default_backend", JStr "b1");
        ("backends", JList [JObj [("backend_id", JStr "b1"); ("host", JStr "new.example"); ("port", JInt 8000);
                                  ("verifier", JStr "ita"); ("expected_digest", JStr "sha256:aa")]])].

(** The first request ends after eight interactions with the host; the file is
    replaced then. *)
Definition moved_files : Files :=
  demo_files (λ n, if (n <? 8)%nat then 1 else 2) (λ n, Ok (if (n <? 8)%nat then demo_config else moved_config)).

(** The same with a moment at which the file is half-written. *)
Definition torn_files : Files :=
  demo_files (λ n, if (n <? 8)%nat then 1 else if (n <? 10)%nat then 2 else 3)
    (λ n, if (n <? 8)%nat then Ok demo_config
          else if (n <? 10)%nat then Raise (Exn JSONDecodeError [Txt "Expecting value"]) else Ok moved_config).

Definition after_create (F : Files) : mcp := (main (H2:=F) ["create"] init_mcp).2.

Lemma after_create_run (F : Files) :
  (main (H2:=F) ["create"] init_mcp).1 = Ok tt → main (H2:=F) ["create"] init_mcp = (Ok tt, after_create F).
Proof. intros <-. apply surjective_pairing. Defined.

Lemma config_in_force_valid_witness :
  _backends_config (after_create steady_files) = Some demo_config ∧ ∃ c, demo_config = JObj c.
Proof.
  assert (Hc : _backends_config (after_create steady_files) = Some demo_config) by (vm_compute; reflexivity).
  split; [exact Hc|].
  destruct (config_in_force_valid (H2:=steady_files) ["create"] (Ok tt) (after_create steady_files) demo_config)
    as (c & Hd & _); [apply after_create_run; vm_compute; reflexivity|exact Hc|exists c; exact Hd].
Defined.

Lemma backend_selected_witness :
  ∃ b, select_backend demo_config JNull = Ok (JObj b) ∧ has_id (JStr "b1") b = true.
Proof.
  pose (b := match demo_backend with JObj b => b | _ => [] end).
  assert (Hs : select_backend demo_config JNull = Ok (JObj b)) by (vm_compute; reflexivity).
  exists b. split; [exact Hs|].
  pose proof (backend_selected
    [("default_backend", JStr "b1"); ("backends", JList [demo_backend])] [b] JNull eq_refl) as Hsel.
  cbv zeta in Hsel. unfold demo_config in Hs. rewrite Hs in Hsel.
  destruct Hsel as (_ & i & b' & [= <-] & _ & Hid & _). exact Hid.
Defined.

Lemma changed_config_flushes_witness :
  ∃ s', _get_backends (H2:=moved_files) (after_create moved_files) = (Ok (Some moved_config), s') ∧
    _CHANNEL_CACHE s' = [].
Proof.
  destruct (changed_config_flushes (H2:=moved_files) ["create"] (after_create moved_files)
    demo_config 2 moved_config []) as (s' & Hg & _ & _ & Hc & _);
    [apply after_create_run; vm_compute; reflexivity|vm_compute; reflexivity|vm_compute; reflexivity
    |vm_compute; discriminate|vm_compute; reflexivity|vm_compute; reflexivity|].
  exists s'. split; [exact Hg|exact Hc].
Defined.

Lemma unchanged_config_served_witness :
  ∃ s', _get_backends (H2:=steady_files) (after_create steady_files) = (Ok (Some demo_config), s').
Proof.
  eexists. etrans; [apply (unchanged_config_served (H2:=steady_files)); vm_compute; reflexivity|].
  reflexivity.
Defined.

(** The cached channel to the old host outlives the move. *)
Lemma stale_channels_after_bad_reload_witness :
  ∃ s1 s2, _get_backends (H2:=torn_files) (after_create torn_files) = (Ok None, s1) ∧
    _get_backends (H2:=torn_files) s1 = (Ok (Some moved_config), s2) ∧
    ch_host ∘ stub_of <$> _CHANNEL_CACHE s2 = [JStr "tee.example"].
Proof.
  destruct (stale_channels_after_bad_reload (H2:=torn_files) ["create"] (after_create torn_files)
    2 (Exn JSONDecodeError [Txt "Expecting value"]) 3 moved_config []) as (s1 & s2 & H1 & H2 & _ & Hc & _);
    [apply after_create_run; vm_compute; reflexivity|vm_compute; reflexivity|vm_compute; discriminate
    |vm_compute; reflexivity|reflexivity|vm_compute; reflexivity|discriminate|vm_compute; reflexivity
    |vm_compute; reflexivity|].
  exists s1, s2. split; [exact H1|]. split; [exact H2|]. rewrite Hc. vm_compute. reflexivity.
Defined.

End demo.
