(* ===== verification/McpEvict.v ===== *)
(** Eviction of unavailable channels by the handlers of the MCP server.

    A handler gets the stub of the backend the request selects, makes one call,
    and on an RPC error runs its [except] clause. *)

From S2P Require Import Prelude PyText Base64 PyValue External Attestation Policy World Jwks ItaVerifier Rpc Client Backends McpServer Examples DemoServer McpChannels McpReload.

Open Scope Z_scope.

Lemma longer_neq {A : Type} (l : list A) x : l = l ++ [x] → False.
Proof. intros Hl%(f_equal length). rewrite length_app in Hl. cbn in Hl. lia. Qed.

(** ** Bodies that make at most one call *)

Section bodies.
Context `{Host, X509, PyJWT, Files, PyJson, Grpc}.

(** The state after a call over an open channel. *)
Definition called (w : world) (ev : rpc_event) (s : mcp) : mcp :=
  Mcp (Net w (n_next (m_net s)) (n_closed (m_net s)) (n_rpcs (m_net s) ++ [ev]))
    (_backends_mtime_ns s) (_backends_config s) (_CHANNEL_CACHE s) (_PROTO_OUT s).

(** Over an open channel, the code either makes no call, or one, and an error of
    that call is its own outcome. *)
Definition one_call {A : Type} (ch : grpc_channel) (m : ST mcp exn A) : Prop :=
  ∀ s, ch_id ch ∉ n_closed (m_net s) →
  let '(r, s') := m s in
  (∃ w, s' = at_world w s) ∨
  (∃ w n q md, s' = called w (RpcEvent ch false q md) s ∧ ∀ e, rpc n ch false q md = Raise e → r = Raise e).

(** Code that leaves the state alone *)
Definition still {A : Type} (m : ST mcp exn A) : Prop := ∀ s, (m s).2 = s.

Lemma at_world_same s : at_world (n_world (m_net s)) s = s.
Proof. by destruct s as [[] ? ? ? ?]. Qed.

Lemma still_ret {A : Type} (a : A) : still (mret a).
Proof. done. Qed.
Lemma still_lift {A : Type} (r : res A) : still (lift r).
Proof. done. Qed.
Lemma still_bind {A B : Type} (m : ST mcp exn A) (f : A → ST mcp exn B) :
  still m → (∀ a, still (f a)) → still (m ≫= f).
Proof.
  intros Hm Hf s. specialize (Hm s). rewrite st_bind_eq. destruct (m s) as [[a|e] s']; cbn in Hm; subst; [apply Hf|done].
Qed.

Lemma one_ret {A : Type} ch (a : A) : one_call ch (mret a).
Proof. intros s _. left. exists (n_world (m_net s)). symmetry. apply at_world_same. Qed.
Lemma one_lift {A : Type} ch (r : res A) : one_call ch (lift r).
Proof. intros s _. left. exists (n_world (m_net s)). symmetry. apply at_world_same. Qed.

Lemma one_lift_bind {A B : Type} ch (r : res A) (f : A → ST mcp exn B) :
  (∀ a, one_call ch (f a)) → one_call ch (lift r ≫= f).
Proof.
  intros Hf s Hs. rewrite st_bind_eq. unfold lift. destruct r as [a|e]; [by apply Hf|].
  left. exists (n_world (m_net s)). symmetry. apply at_world_same.
Qed.

(** Interactions with the host come before the call. *)
Lemma one_world_bind {A B : Type} ch (m : ST mcp exn A) (f : A → ST mcp exn B) :
  (∀ s, ∃ w, (m s).2 = at_world w s) → (∀ a, one_call ch (f a)) → one_call ch (m ≫= f).
Proof.
  intros Hm Hf s Hs. rewrite st_bind_eq. destruct (Hm s) as [w Hw]. destruct (m s) as [[a|e] s1]; cbn in Hw; subst s1.
  - specialize (Hf a (at_world w s) Hs). destruct (f a (at_world w s)) as [r s'].
    destruct Hf as [[w' ->]|(w' & n & q & md & -> & Hr)]; [left; by exists w'|right; by exists w', n, q, md].
  - left. by exists w.
Qed.

Lemma one_call_bind {B : Type} ch q md (f : response q → ST mcp exn B) :
  (∀ a, still (f a)) → one_call ch (net_m (call ch q md) ≫= f).
Proof.
  intros Hf s Hs. rewrite st_bind_eq. unfold net_m, call, on_world, zoom, tick. st_unfold. cbn [n_closed n_world n_next n_rpcs].
  rewrite bool_decide_false by done. set (n := w_tick _). destruct (rpc n ch false q md) as [a|e] eqn:Hr.
  - match goal with |- context [f a ?s1] => specialize (Hf a s1); destruct (f a s1) as [r s'] end. cbn in Hf. subst s'.
    right. eexists _, n, q, md. split; [reflexivity|]. congruence.
  - right. eexists _, n, q, md. split; [reflexivity|]. congruence.
Qed.

Lemma tick_world s : ∃ w, (tick_m s).2 = at_world w s.
Proof. by eexists. Qed.

Lemma client_nonce_world args s : ∃ w, (client_nonce_of args s).2 = at_world w s.
Proof.
  unfold client_nonce_of, tick_m, net_m, on_world, zoom, tick. st_unfold.
  destruct (py_get args "client_nonce" _) as [v|]; by eexists.
Qed.
End bodies.

Ltac still :=
  repeat (cbv zeta;
    match goal with
    | |- still (_ ≫= _) => apply still_bind; [|intros ?]
    | |- still (mret _) => apply still_ret
    | |- still (lift _) => apply still_lift
    end).

(** One step of a handler's body *)
Ltac one_step :=
  cbv beta zeta;
  lazymatch goal with
  | |- one_call _ (mret _) => apply one_ret
  | |- one_call _ (lift _) => apply one_lift
  | |- one_call _ (lift _ ≫= _) => apply one_lift_bind; intros ?
  | |- one_call ?ch (net_m (call ?ch ?q ?md) ≫= ?f) => apply (one_call_bind ch q md f); intros ?; still
  | |- one_call _ (tick_m ≫= _) => apply one_world_bind; [apply tick_world|intros ?]
  | |- one_call _ (client_nonce_of _ ≫= _) => apply one_world_bind; [apply client_nonce_world|intros ?]
  end.

Section evict.
Context `{Host, X509, PyJWT, Files, PyJson, Grpc}.

(** ** The handlers *)

(** The tools that call the session service over a cached channel *)
Definition session_tools : list (string * (json → ST mcp exn out)) := drop 2 TOOL_HANDLERS.

Lemma session_tool_shape name handler arguments :
  (name, handler) ∈ session_tools →
  ∃ body : ZtabChannel * grpc_channel * json → ST mcp exn out,
    handler arguments = (r ← _get_cached_stub arguments; try_except (body r) (rpc_failure arguments)) ∧
    ∀ r, one_call r.1.2 (body r).
Proof.
  unfold session_tools, TOOL_HANDLERS. cbn [drop]. rewrite !elem_of_cons, elem_of_nil.
  intros Hin. repeat (destruct Hin as [[= -> ->]|Hin]; [eexists; (split; [reflexivity|]); intros r; repeat one_step|]).
  done.
Qed.

(** ** While the configuration file is unchanged *)

Variable m : Z.
Hypothesis Hfile : ∀ n, stat_mtime_ns n _backends_config_path = Ok m.

Definition no_config : exn :=
  Exn ValueError [Txt "Backend configuration is missing. Please ensure ~/.ztab/backends.json exists or ZTAB_BACKENDS_FILE is set."].

(** The entry a request selects from a configuration, and its id *)
Definition selected (config : option json) (arguments : json) : res json :=
  wanted ← py_get arguments "backend" JNull;
  match config with
  | Some c => if truthy c then select_backend c wanted else Raise no_config
  | None => Raise no_config
  end.
Definition selected_id (config : option json) (arguments : json) : res json :=
  backend ← selected config arguments; py_getitem backend "backend_id".

Lemma info_unchanged wanted s :
  _backends_mtime_ns s = m →
  _get_backend_info wanted s =
  (match _backends_config s with
   | Some c => if truthy c then select_backend c wanted else Raise no_config
   | None => Raise no_config
   end, later 1 s).
Proof.
  intros Hm. unfold _get_backend_info. rewrite (st_bind_run _ _ _ _ _ (unchanged_run s ltac:(by rewrite Hm))).
  destruct (_backends_config s) as [c|]; [|done]. by destruct (truthy c).
Qed.

Lemma select_run {A : Type} arguments s (f : json → ST mcp exn A) :
  _backends_mtime_ns s = m →
  (wanted ← lift (py_get arguments "backend" JNull); backend ← _get_backend_info wanted; f backend) s =
  match selected (_backends_config s) arguments with
  | Ok backend => f backend (later 1 s)
  | Raise e => (Raise e, match py_get arguments "backend" JNull with Ok _ => later 1 s | Raise _ => s end)
  end.
Proof.
  intros Hm. unfold selected. rewrite st_bind_eq. cbn [lift]. destruct (py_get arguments "backend" JNull) as [wanted|]; [|done].
  rewrite st_bind_eq, (info_unchanged wanted s Hm), ret_bind. by case_match.
Qed.

(** What obtaining the stub leaves alone. *)
Record same_but_cache (s s1 : mcp) : Prop := {
  sc_closed : n_closed (m_net s1) = n_closed (m_net s);
  sc_rpcs : n_rpcs (m_net s1) = n_rpcs (m_net s);
  sc_mtime : _backends_mtime_ns s1 = _backends_mtime_ns s;
  sc_config : _backends_config s1 = _backends_config s
}.

Lemma cached_stub_run o arguments s :
  Inv o s → _backends_mtime_ns s = m →
  let '(r, s1) := _get_cached_stub arguments s in
  same_but_cache s s1 ∧
  match r with
  | Ok (z, ch, backend) => ∃ bid, selected_id (_backends_config s) arguments = Ok bid ∧
      cache_lookup bid (_CHANNEL_CACHE s1) = Some (z, ch) ∧ hashable bid = true ∧
      cache_remove bid (_CHANNEL_CACHE s1) = cache_remove bid (_CHANNEL_CACHE s)
  | Raise _ => True
  end.
Proof.
  intros Hi Hm. unfold _get_cached_stub. rewrite (select_run arguments s _ Hm). unfold selected_id.
  destruct (selected (_backends_config s) arguments) as [backend|e];
    [|by destruct (py_get arguments "backend" JNull)]. rewrite ret_bind.
  unfold hash_key, set_cache_m. st_unfold.
  destruct (py_getitem backend "backend_id") as [bid|]; [|done]. destruct (hashable bid) eqn:Hh; [|done].
  cbn [_CHANNEL_CACHE later at_world]. destruct (cache_lookup bid (_CHANNEL_CACHE s)) as [[z ch]|] eqn:Hl.
  { cbn [_CHANNEL_CACHE later at_world]. rewrite Hl. split; [done|]. by exists bid. }
  destruct (_build_policy_from_backend backend) as [policy|]; [|done]. destruct (py_get backend _ _) as [h|]; [|done].
  destruct (backend_port backend) as [p|]; [|done]. unfold net_m, zoom.
  assert (Hg : genuine (n_world (m_net (later 1 s)))) by by apply genuine_tick; [apply (no_genuine _ (inv_net _ _ Hi))|].
  pose proof (get_stub_outcome h p policy (m_net (later 1 s)) Hg) as Hst.
  destruct (_get_stub h p policy (m_net (later 1 s))) as [[entry|e] n']; destruct Hst as (Ec & Er & _ & _);
    cbn -[cache_lookup cache_remove]; [|done].
  assert (Hnew : cache_lookup bid (_CHANNEL_CACHE s ++ [(bid, entry)]) = if py_eq bid bid then Some entry else None).
  { revert Hl. unfold cache_lookup. induction (_CHANNEL_CACHE s) as [|e c IH]; cbn; [by destruct (py_eq bid bid)|].
    destruct (py_eq e.1 bid); [done|exact IH]. }
  rewrite Hnew. destruct (py_eq bid bid) eqn:He; [|done]. destruct entry as [z ch]. split; [done|]. exists bid.
  cbn -[cache_lookup cache_remove]. split; [done|]. split; [by rewrite Hnew|]. split; [done|].
  unfold cache_remove. rewrite List.filter_app. cbn. by rewrite He, app_nil_r.
Qed.

Lemma evict_rpcs arguments s : _backends_mtime_ns s = m →
  (∀ z ch bid, cache_lookup bid (_CHANNEL_CACHE s) = Some (z, ch) → zc_channel z = Some ch) →
  n_rpcs (m_net (_evict_backend arguments s).2) = n_rpcs (m_net s).
Proof.
  intros Hm Hz. unfold _evict_backend. rewrite (select_run arguments s _ Hm).
  destruct (selected _ _) as [backend|]; [|by destruct (py_get arguments "backend" JNull)].
  unfold hash_key, set_cache_m. st_unfold. destruct (py_getitem backend "backend_id") as [bid|]; [|done].
  destruct (hashable bid); [|done]. cbn [_CHANNEL_CACHE later at_world].
  destruct (cache_lookup bid (_CHANNEL_CACHE s)) as [[z ch]|] eqn:Hl; [|done].
  unfold try_except, net_m, zoom. st_unfold. cbn. destruct (close_object z ch (m_net (later 1 s)) (Hz _ _ _ Hl)) as [z' Hc].
  cbn in Hc. by rewrite Hc.
Qed.

Lemma evict_run arguments s bid z ch :
  _backends_mtime_ns s = m → selected_id (_backends_config s) arguments = Ok bid → hashable bid = true →
  cache_lookup bid (_CHANNEL_CACHE s) = Some (z, ch) → zc_channel z = Some ch →
  ∃ s', _evict_backend arguments s = (Ok tt, s') ∧ _CHANNEL_CACHE s' = cache_remove bid (_CHANNEL_CACHE s) ∧
    n_closed (m_net s') = {[ch_id ch]} ∪ n_closed (m_net s).
Proof.
  intros Hm Hsel Hh Hl Hz. unfold _evict_backend. rewrite (select_run arguments s _ Hm).
  unfold selected_id in Hsel. destruct (selected _ _) as [backend|]; [|done]. rewrite ret_bind in Hsel.
  unfold hash_key, set_cache_m. st_unfold. rewrite Hsel, Hh. cbn [_CHANNEL_CACHE later at_world]. rewrite Hl.
  unfold try_except, net_m, zoom. st_unfold. cbn. destruct (close_object z ch (m_net (later 1 s)) Hz) as [z' Hc].
  cbn in Hc. rewrite Hc. eexists. split; [reflexivity|]. cbn. by rewrite union_empty_r_L.
Qed.

Lemma Inv_wrapper o s bid z ch :
  Inv o s → cache_lookup bid (_CHANNEL_CACHE s) = Some (z, ch) → zc_channel z = Some ch.
Proof.
  intros Hi (bid' & Hin & _)%cache_lookup_entry. pose proof (inv_wrappers _ _ Hi) as Hw. rewrite Forall_forall in Hw.
  exact (Hw _ Hin).
Qed.

Lemma cache_remove_lookup bid c : cache_lookup bid (cache_remove bid c) = None.
Proof.
  unfold cache_lookup, cache_remove. induction c as [|e c IH]; [done|]. cbn.
  destruct (py_eq e.1 bid) eqn:E; cbn; [done|by rewrite E].
Qed.

(** The [except] clause makes no call. *)
Lemma except_rpcs (body : ST mcp exn out) arguments s :
  _backends_mtime_ns (body s).2 = m →
  (∀ z ch bid, cache_lookup bid (_CHANNEL_CACHE (body s).2) = Some (z, ch) → zc_channel z = Some ch) →
  n_rpcs (m_net (try_except body (rpc_failure arguments) s).2) = n_rpcs (m_net (body s).2).
Proof.
  intros Hm Hz. unfold try_except. destruct (body s) as [[x|e] s2]; [done|]. cbn [snd] in *. unfold rpc_failure.
  destruct (rpc_code e) as [c|]; [|done]. rewrite st_bind_eq. case_bool_decide; [|done].
  pose proof (evict_rpcs arguments s2 Hm Hz) as Hr. by destruct (_evict_backend arguments s2) as [[]].
Qed.
End evict.

Section theorem.
Context `{Host, X509, PyJWT, Files, PyJson, Grpc}.

(** C26: an unavailable channel is evicted. In any state the server reaches,
    while the configuration file stays as it was last loaded, let one of the six
    tools that call the session service make its call, and let the service
    answer it with [UNAVAILABLE]. Then the tool reports that error; it has closed
    the channel it used and no other; and it has removed from the cache the entry
    of the backend the request selects and no other, so that the next call
    attests anew. *)
Theorem unavailable_evicts lines s name handler arguments r s' ev :
  main lines init_mcp = (Ok tt, s) →
  (∀ n, stat_mtime_ns n _backends_config_path = Ok (_backends_mtime_ns s)) →
  (name, handler) ∈ session_tools → handler arguments s = (r, s') →
  n_rpcs (m_net s') = n_rpcs (m_net s) ++ [ev] →
  (∀ n, ∃ e, rpc n (ev_channel ev) false (ev_request ev) (ev_metadata ev) = Raise e ∧ exn_type e = RpcError UNAVAILABLE) →
  (∃ e, r = Ok (grpc_error UNAVAILABLE e)) ∧
  n_closed (m_net s') = {[ch_id (ev_channel ev)]} ∪ n_closed (m_net s) ∧
  ∃ bid, selected_id (_backends_config s) arguments = Ok bid ∧
    _CHANNEL_CACHE s' = cache_remove bid (_CHANNEL_CACHE s) ∧ cache_lookup bid (_CHANNEL_CACHE s') = None.
Proof.
  intros [o Hi]%main_inv Hfile Hin Hrun Hev Hdown.
  destruct (session_tool_shape name handler arguments Hin) as (body & Hshape & Hone). rewrite Hshape, st_bind_eq in Hrun.
  pose proof (cached_stub_run _ Hfile o arguments s Hi eq_refl) as Hstub. pose proof (cached_stub_ok o arguments s Hi) as Hu.
  destruct (_get_cached_stub arguments s) as [[[[z ch] backend]|e] s1]; destruct Hstub as [[Hcl Hrp Hmt Hcf] Hstub].
  2:{ injection Hrun as <- <-. rewrite Hrp in Hev. by apply longer_neq in Hev. }
  destruct Hstub as (bid & Hsel & Hl & Hh & Hrem), Hu as [Hi1 [_ Hop _]]. cbn [fst snd] in Hop.
  specialize (Hone (z, ch, backend) s1 Hop). cbn [fst snd] in Hone.
  pose proof (except_rpcs _ Hfile (body (z, ch, backend)) arguments s1) as Hex.
  destruct (body (z, ch, backend) s1) as [rb s2] eqn:Hb. cbn [snd] in Hex.
  rewrite Hrun in Hex. cbn [snd] in Hex. rewrite Hev in Hex.
  destruct Hone as [[w ->]|(w & n & q & md & -> & Hr)].
  - exfalso. specialize (Hex Hmt (λ z ch bid, Inv_wrapper o s1 bid z ch Hi1)). cbn in Hex. rewrite Hrp in Hex.
    symmetry in Hex. by apply longer_neq in Hex.
  - specialize (Hex Hmt (λ z ch bid, Inv_wrapper o s1 bid z ch Hi1)). cbn in Hex. rewrite Hrp in Hex.
    apply app_inj_2 in Hex as [_ [= ->]]; [|done]. cbn [ev_channel ev_request ev_metadata] in *.
    destruct (Hdown n) as (e & He & Het). rewrite (Hr e He) in Hb. unfold try_except in Hrun. rewrite Hb in Hrun.
    unfold rpc_failure, rpc_code in Hrun. rewrite Het, st_bind_eq in Hrun. cbn [bool_decide] in Hrun.
    destruct (evict_run _ Hfile arguments (called w (RpcEvent ch false q md) s1) bid z ch) as (s3 & Hevict & Hc3 & Hn3);
      [done|cbn; by rewrite Hcf|done|done|by eapply Inv_wrapper|].
    rewrite bool_decide_true in Hrun by done. rewrite Hevict in Hrun. injection Hrun as <- <-.
    split; [by eexists|]. split; [rewrite Hn3; cbn; by rewrite Hcl|]. exists bid. split; [done|].
    rewrite Hc3. cbn [called _CHANNEL_CACHE]. rewrite Hrem. split; [done|]. apply cache_remove_lookup.
Qed.
End theorem.

(** ** A concrete failure *)

Section demo.
#[local] Instance evict_host : Host := demo_host ∅.
#[local] Existing Instance demo_x509.
#[local] Existing Instance demo_jwt.
#[local] Existing Instance steady_files.
#[local] Existing Instance demo_json.
#[local] Instance grpc_down : Grpc := demo_grpc false.

Definition status_args : json := JObj [("participant_token", JStr "pt")].

(** The server after a request that failed, and a second one *)
Definition evict_start : mcp := (main ["create"] init_mcp).2.
Definition evict_run_2 : res out * mcp := run_get_session_status status_args evict_start.
Definition evict_event : rpc_event :=
  RpcEvent (GrpcChannel 1 (JStr "tee.example") 8443 demo_cert) false (GetSessionStatusRequest "pt") None.

Lemma unavailable_evicts_witness :
  (∃ e, evict_run_2.1 = Ok (grpc_error UNAVAILABLE e)) ∧
  n_closed (m_net evict_run_2.2) = {[1%nat]} ∪ n_closed (m_net evict_start).
Proof.
  assert (Hm : (main ["create"] init_mcp).1 = Ok tt) by (vm_compute; reflexivity).
  destruct (unavailable_evicts ["create"] evict_start "ztab_get_session_status" run_get_session_status status_args
    evict_run_2.1 evict_run_2.2 evict_event) as (He & Hc & _).
  - rewrite <- Hm. apply surjective_pairing.
  - intros n. vm_compute. reflexivity.
  - apply list_elem_of_In. cbn. tauto.
  - apply surjective_pairing.
  - vm_compute. reflexivity.
  - intros n. eexists. split; reflexivity.
  - split; [exact He|exact Hc].
Defined.
End demo.
