(* ===== verification/Cli.v ===== *)
(** [agent/cli.py]: the command-line client, from the parsed arguments on.

    The definitions take the attributes of the namespace the parser returns, one
    constructor per subcommand. An attribute is a text, a number, [None] or a
    boolean, and for an option whose value is the word [--], an empty list: it
    keeps the type [json] until the code narrows it. Lines printed to standard
    output are part of the state. *)

From S2P Require Import Prelude PyText PyValue External Attestation Policy World Jwks ItaVerifier Rpc Client Backends McpServer Examples DemoServer McpChannels.

Open Scope Z_scope.

(** ** Arguments *)

(** [_add_connection_args] *)
Record connection_args := {
  a_host : json;
  a_port : json;
  a_verifier : json;
  a_expected_digest : json;
  a_allow_debug_tee : json;
  a_expected_project_id : json;
  a_expected_service_account : json;
  a_min_cs_version : json
}.

(** The subcommands and their own arguments *)
Inductive command :=
| Echo (message : json)
| CreateSession (policy participants timeout input_schema output_schema creator_token client_nonce : json)
| JoinSession (invitation_token client_nonce role : json)
| AcceptPolicy (token : json)
| SubmitInput (token input : json)
| GetResult (token : json)
| GetStatus (token : json).

(** The token argument of a command, if it has one. *)
Definition token_arg (c : command) : option json :=
  match c with
  | AcceptPolicy t | SubmitInput t _ | GetResult t | GetStatus t => Some t
  | _ => None
  end.

Record cli := Cli { c_net : net; c_out : list log_line }.

Definition init_cli : cli := Cli init_net [].

Definition net_c {A : Type} (m : ST net exn A) : ST cli exn A :=
  zoom c_net (λ n s, Cli n (c_out s)) m.

Definition print (line : log_line) : ST cli exn unit :=
  modify (λ s, Cli (c_net s) (c_out s ++ [line])).

(** A text after a line feed *)
Definition ln (s : string) : string := String "010" s.

(** [sys.exit(1)] after a message to standard error *)
Definition exit_1 (message : list frag) : exn := Exn (SystemExit 1) message.

(** [frozenset(d.strip() for d in s.split(",") if d.strip())] *)
Definition digest_list (s : string) : list string :=
  List.filter (λ d, negb (String.eqb d "")) (strip <$> split_on "," s).

(** A version floor that is no number is kept as 0: [validate], which the only
    caller runs next, refuses both at the same comparison, this one with a
    [ValueError] instead of a [TypeError], and [main] exits alike. *)
Definition _build_policy (args : connection_args) : res verifier_policy :=
  if py_eq (a_verifier args) (JStr "noop") then Ok NoopPolicy
  else if py_eq (a_verifier args) (JStr "ita") then
    digests ← (if truthy (a_expected_digest args) then
                 match a_expected_digest args with
                 | JStr s => frozenset (JStr <$> digest_list s)
                 | v => Raise (attribute_error v "split")
                 end
               else Ok []);
    Ok (Ita {| expected_image_digests := digests;
               expected_project_id := a_expected_project_id args;
               expected_service_account := a_expected_service_account args;
               min_cs_version := match a_min_cs_version args with
                                 | JNull => _MIN_CS_VERSION_DEFAULT
                                 | JInt v => v
                                 | _ => 0
                                 end;
               allow_debug := a_allow_debug_tee args;
               allow_memory_monitoring := JBool false;
               clock_skew_seconds := 300 |})
  else Raise (exit_1 [Txt "Unknown verifier: '"; Val (a_verifier args); Txt "'. Use 'noop' or 'ita'."]).

(** [v or ""] *)
Definition or_empty (v : json) : json := if truthy v then v else JStr "".

(** The port as [socket.create_connection] takes it *)
Definition socket_port (v : json) : res Z :=
  match v with JInt p => Ok p | _ => Raise (Exn OSError [Txt "Int or String expected"]) end.

Section cli.
Context `{Host, X509, PyJWT, PyJson, Grpc}.

(** [sys.stdin.read()] *)
Variable stdin_text : string.

Definition _make_stub (args : connection_args) : ST cli exn (grpc_channel * ZtabChannel) :=
  policy ← lift (_build_policy args);
  v ← lift (get_verifier policy);
  port ← lift (socket_port (a_port args));
  channel_wrapper ← lift (ZtabChannel_init (a_host args) port (Some v));
  r ← net_c (with_object channel_wrapper connect);
  match zc_channel r.2 with
  | Some ch => mret (ch, r.2)
  | None => raise (attribute_error JNull "unary_unary")
  end.

(** [stub, channel = _make_stub(args)] and [try: ... finally: channel.close()] *)
Definition with_channel (args : connection_args) (body : grpc_channel → ST cli exn unit) : ST cli exn unit :=
  r ← _make_stub args;
  try_finally (body r.1) (net_c (with_object r.2 close);; mret tt).

(** An [int32] field set from an attribute *)
Definition int32_value (v : json) : res Z :=
  match v with
  | JInt n => int32_field n
  | _ => Raise (Exn TypeError [Txt ("'" +:+ type_name v +:+ "' object cannot be interpreted as an integer")])
  end.

Definition cmd_echo (args : connection_args) (message : json) : ST cli exn unit :=
  with_channel args (λ stub,
    m ← lift (string_field message);
    print [Txt "Sending Echo request: '"; Val message; Txt "'"];;
    resp ← net_c (call stub (EchoRequest m) None);
    print [Txt "Echo response: '"; Txt resp; Txt "'"];;
    print [Txt (ln "End-to-end TLS + gRPC test PASSED.")]).

Definition cmd_create_session (args : connection_args)
    (policy participants timeout input_schema output_schema creator_token client_nonce : json) : ST cli exn unit :=
  with_channel args (λ stub,
    class ← lift (string_field policy);
    n ← lift (int32_value participants);
    t ← lift (int32_value timeout);
    inp ← (if truthy input_schema then lift (string_field input_schema) else mret "");
    outp ← (if truthy output_schema then lift (string_field output_schema) else mret "");
    let md := if truthy creator_token then Some [("x-ztab-creator-token", creator_token)] else None in
    nonce ← lift (string_field client_nonce);
    resp ← net_c (call stub (CreateSessionRequest
             {| policy_class := class; input_schema_json := inp; output_schema_json := outp;
                expected_participants := n; timeout_seconds := t;
                sdp_signature := ""; signature_key_id := "" |} nonce) md);
    print [Txt "Session created successfully."];;
    print [Txt "  invitation_token: "; Txt (cr_invitation_token resp)];;
    state ← lift (SessionState_Name (cr_state resp));
    print [Txt "  state:            "; Txt state];;
    print [Txt "  token:            "; Txt (cr_participant_token resp)];;
    print [Txt (ln "Share the invitation_token with other participants.")];;
    print [Txt "Your token is secret — use it for subsequent RPCs."]).

Definition cmd_join_session (args : connection_args) (invitation_token client_nonce role : json)
  : ST cli exn unit :=
  with_channel args (λ stub,
    inv ← lift (string_field invitation_token);
    ro ← lift (string_field (or_empty role));
    nonce ← lift (string_field (or_empty client_nonce));
    resp ← net_c (call stub (JoinSessionRequest inv ro nonce) None);
    print [Txt "Joined session successfully."];;
    state ← lift (SessionState_Name (jr_state resp));
    print [Txt "  state:        "; Txt state];;
    print [Txt "  policy_class: "; Txt (policy_class (jr_policy resp))];;
    print [Txt "  expected:     "; Val (JInt (expected_participants (jr_policy resp))); Txt " participants"];;
    print [Txt "  token:        "; Txt (jr_participant_token resp)];;
    print [Txt (ln "Review the policy above, then call accept-policy.")]).

Definition cmd_accept_policy (args : connection_args) (token : json) : ST cli exn unit :=
  with_channel args (λ stub,
    t ← lift (string_field token);
    resp ← net_c (call stub (AcceptPolicyRequest t) None);
    state ← lift (SessionState_Name (ar_state resp));
    print [Txt "Policy accepted."];;
    print [Txt "  state: "; Txt state];;
    if ar_state resp =? SEALED then
      print [Txt (ln "All participants have accepted. Session is SEALED.")];;
      print [Txt "You can now submit your input."]
    else print [Txt (ln "Waiting for other participants to accept.")]).

(** The input must parse; only a [JSONDecodeError] is reported here. *)
Definition check_input (input_json : json) : res unit :=
  match input_json with
  | JStr text =>
      match json_loads text with
      | Ok _ => Ok tt
      | Raise e =>
          if bool_decide (exn_type e = JSONDecodeError)
          then Raise (exit_1 (Txt "Error: Invalid JSON input: " :: exn_msg e))
          else Raise e
      end
  | v => Raise (Exn TypeError [Txt ("the JSON object must be str, bytes or bytearray, not " +:+ type_name v)])
  end.

Definition input_text (input : json) : json := if py_eq input (JStr "-") then JStr stdin_text else input.

Definition cmd_submit_input (args : connection_args) (token input : json) : ST cli exn unit :=
  with_channel args (λ stub,
    let input_json := input_text input in
    lift (check_input input_json);;
    t ← lift (string_field token);
    inp ← lift (string_field input_json);
    resp ← net_c (call stub (SubmitInputRequest t inp) None);
    state ← lift (SessionState_Name (sr_state resp));
    print [Txt "Input submitted."];;
    print [Txt "  state:     "; Txt state];;
    print [Txt "  remaining: "; Val (JInt (sr_remaining_inputs resp)); Txt " inputs needed"];;
    if sr_remaining_inputs resp =? 0 then
      print [Txt (ln "All inputs received. LLM processing has started.")];;
      print [Txt "Call get-result to retrieve the output."]
    else print [Txt (ln "Waiting for "); Val (JInt (sr_remaining_inputs resp)); Txt " more input(s)."]).

(** The result, pretty-printed when it is JSON. *)
Definition print_result (result_json : string) : ST cli exn unit :=
  print [Txt (ln "Result:")];;
  match json_loads result_json with
  | Ok v => print [Val v]
  | Raise e => if bool_decide (exn_type e = JSONDecodeError) then print [Txt result_json] else raise e
  end.

Definition cmd_get_result (args : connection_args) (token : json) : ST cli exn unit :=
  with_channel args (λ stub,
    t ← lift (string_field token);
    resp ← net_c (call stub (GetResultRequest t) None);
    state ← lift (SessionState_Name (gr_state resp));
    print [Txt "  state: "; Txt state];;
    if gr_state resp =? CLOSED then print_result (gr_result_json resp)
    else if gr_state resp =? ABORTED then
      error_name ← lift (SessionError_Name (gr_error_code resp));
      print [Txt (ln "Session ABORTED:")];;
      print [Txt "  error: "; Txt error_name];;
      print [Txt "  detail: "; Txt (gr_error_detail resp)]
    else
      print [Txt (ln "Result not yet available. Session is still "); Txt state; Txt "."];;
      print [Txt "Try again after all inputs are submitted."]).

Definition cmd_get_status (args : connection_args) (token : json) : ST cli exn unit :=
  with_channel args (λ stub,
    t ← lift (string_field token);
    resp ← net_c (call stub (GetSessionStatusRequest t) None);
    state ← lift (SessionState_Name (st_state resp));
    print [Txt "Session status:"];;
    print [Txt "  state:    "; Txt state];;
    print [Txt "  joined:   "; Val (JInt (st_participants_joined resp))];;
    print [Txt "  accepted: "; Val (JInt (st_participants_accepted resp))];;
    print [Txt "  inputs:   "; Val (JInt (st_inputs_received resp))]).

Definition run_command (args : connection_args) (c : command) : ST cli exn unit :=
  match c with
  | Echo m => cmd_echo args m
  | CreateSession p n t i o ct cn => cmd_create_session args p n t i o ct cn
  | JoinSession it cn r => cmd_join_session args it cn r
  | AcceptPolicy t => cmd_accept_policy args t
  | SubmitInput t i => cmd_submit_input args t i
  | GetResult t => cmd_get_result args t
  | GetStatus t => cmd_get_status args t
  end.

(** [hasattr(args, "token") and not args.token] *)
Definition lacks_token (c : command) : bool :=
  match token_arg c with
  | Some t => negb (truthy t)
  | None => false
  end.

Definition command_failure (e : exn) : option (ST cli exn unit) :=
  match rpc_code e with
  | Some c => Some (raise (exit_1 ([Txt (ln "gRPC error: "); Txt (status_name c); Txt ": "] ++ exn_msg e)))
  | None => if is_exception e then Some (raise (exit_1 (Txt (ln "Error: ") :: exn_msg e))) else None
  end.

(** [main()], from the namespace on; [None] is a call without subcommand. *)
Definition cli_main (parsed : option (connection_args * command)) : ST cli exn unit :=
  match parsed with
  | None => raise (exit_1 [])
  | Some (args, c) =>
      if lacks_token c then
        raise (exit_1 [Txt "Error: The --token flag or ZTAB_TOKEN environment variable is required for this command."])
      else try_except (run_command args c) command_failure
  end.

(** ** One channel, one call *)

(** The channel was attested under the policy of the arguments. *)
Definition attested_for (args : connection_args) (log : list interaction) (ch : grpc_channel) : Prop :=
  ch_host ch = a_host args ∧ a_port args = JInt (ch_port ch) ∧
  ∃ policy v, _build_policy args = Ok policy ∧ get_verifier policy = Ok v ∧ accepted_by v log ch.

Definition clog (s : cli) : list interaction := w_log (n_world (c_net s)).

(** The network after connecting, and after the one call. *)
Definition ready (l : list interaction) (ch : grpc_channel) (s : cli) : Prop :=
  n_next (c_net s) = 1%nat ∧ n_closed (c_net s) = ∅ ∧ ch_id ch = 0%nat ∧ n_rpcs (c_net s) = [] ∧ clog s = l.
Definition sent (l : list interaction) (ch : grpc_channel) (s : cli) : Prop :=
  n_next (c_net s) = 1%nat ∧ n_closed (c_net s) = ∅ ∧ ch_id ch = 0%nat ∧ clog s = l ∧
  ∃ r md, n_rpcs (c_net s) = [RpcEvent ch false r md].
Definition used (l : list interaction) (ch : grpc_channel) (s : cli) : Prop := ready l ch s ∨ sent l ch s.

(** Predicates that do not mention the printed lines. *)
Definition net_only (P : cli → Prop) : Prop := ∀ s o, P s → P (Cli (c_net s) o).

Lemma print_ok P R line : net_only P → hoare P (print line) (λ _, P) R.
Proof. intros HP. apply hoare_modify. intros s Hs. by apply HP. Qed.

Lemma cli_call_ok l ch r md : hoare (ready l ch) (net_c (call ch r md)) (λ _, sent l ch) (used l ch).
Proof.
  intros s (Hn & Hc & Hi & Hr & Hl). unfold net_c, call, on_world, zoom, tick. st_unfold. cbn.
  rewrite Hc, Hr, bool_decide_false by set_solver.
  assert (Hs : sent l ch (Cli (Net (World (S (w_tick (n_world (c_net s)))) (w_jwks (n_world (c_net s))) (clog s))
    (n_next (c_net s)) ∅ [RpcEvent ch false r md]) (c_out s)))
    by (split; [done|]; split; [done|]; split; [done|]; split; [done|]; eauto).
  destruct (rpc _ ch false r md); [exact Hs|by right].
Qed.

Lemma ready_net l ch : net_only (ready l ch). Proof. by intros s o. Qed.
Lemma sent_net l ch : net_only (sent l ch). Proof. by intros s o. Qed.

Lemma ready_used l ch s : ready l ch s → used l ch s. Proof. by left. Qed.
Lemma sent_used l ch s : sent l ch s → used l ch s. Proof. by right. Qed.

(** The last line a command prints. *)
Lemma last_print_ok l ch line : hoare (sent l ch) (print line) (λ _, used l ch) (used l ch).
Proof. apply hoare_modify. intros s Hs. right. by apply sent_net. Qed.

Lemma make_stub_ok args :
  hoare (λ s, c_net s = init_net) (_make_stub args)
    (λ r s, attested_for args (clog s) r.1 ∧ zc_channel r.2 = Some r.1 ∧ ready (clog s) r.1 s ∧ genuine (n_world (c_net s)))
    (λ s, n_next (c_net s) = 0%nat ∧ n_rpcs (c_net s) = []).
Proof.
  intros s Hs. unfold _make_stub. st_unfold.
  destruct (_build_policy args) as [policy|e] eqn:Hp; [|by rewrite Hs].
  destruct (get_verifier policy) as [v|e] eqn:Hv; [|by rewrite Hs].
  pose proof (certified_orderly policy v Hv) as Hord.
  destruct (socket_port (a_port args)) as [port|e] eqn:Hport; [|by rewrite Hs].
  assert (Hport' : a_port args = JInt port) by (unfold socket_port in Hport; by destruct (a_port args); simplify_eq).
  cbn [ZtabChannel_init]. unfold net_c, zoom, with_object. rewrite Hs.
  match goal with |- context [connect ?s0] => pose proof (connect_outcome s0) as Ho;
    destruct (connect s0) as [[ch|e] s'] end; destruct Ho as [[_ _ _ Hcl Hev Hw] Ho].
  - destruct Ho as [Hh Hpo Hf Ha Hch _ _ Hn]. cbn in *. rewrite Hch.
    destruct (genuine_steps _ _ (Hw Hord) genuine_init) as [Hg _].
    split; [|split; [done|split; [by repeat split|exact Hg]]]. split; [done|]. split; [cbn; by rewrite Hport', Hpo|].
    exists policy, v. split; [done|]. split; [done|]. apply Ha; [done|apply genuine_init].
  - destruct Ho as [_ Hn]. by split.
Qed.

(** Closing the channel on the way out of a command. *)
Lemma close_used l ch z :
  zc_channel z = Some ch →
  hoare (used l ch) (net_c (with_object z close);; mret tt)
    (λ _ s, n_next (c_net s) = 1%nat ∧ n_closed (c_net s) = {[0%nat]} ∧ clog s = l ∧
       (n_rpcs (c_net s) = [] ∨ ∃ r md, n_rpcs (c_net s) = [RpcEvent ch false r md])) (used l ch).
Proof.
  intros Hz s Hu. unfold net_c, zoom. st_unfold.
  destruct (close_object z ch (c_net s) Hz) as [z' Hc]. rewrite Hc. unfold closing. cbn.
  destruct Hu as [(Hn & Hcl & Hi & Hr & Hl)|(Hn & Hcl & Hi & Hl & Hr)]; rewrite Hcl, Hi, !union_empty_r_L; auto.
Qed.

(** What a command leaves behind: at most one call, over an attested channel,
    and no open channel. *)
Definition clean_end (args : connection_args) (s : cli) : Prop :=
  (n_next (c_net s) = 0%nat ∧ n_rpcs (c_net s) = []) ∨
  (n_next (c_net s) = 1%nat ∧ n_closed (c_net s) = {[0%nat]} ∧
   (n_rpcs (c_net s) = [] ∨
    ∃ ch r md, n_rpcs (c_net s) = [RpcEvent ch false r md] ∧ attested_for args (clog s) ch)).

Lemma with_channel_ok args body :
  (∀ l ch, hoare (ready l ch) (body ch) (λ _, used l ch) (used l ch)) →
  hoare (λ s, c_net s = init_net) (with_channel args body) (λ _, clean_end args) (clean_end args).
Proof.
  intros Hb s0 Hs0. unfold with_channel. pose proof (make_stub_ok args s0 Hs0) as Hm.
  unfold mbind, ST_bind. destruct (_make_stub args s0) as [[[ch z]|e] s1]; [|by left].
  cbn [fst snd] in *. destruct Hm as (Ha & Hz & Hr & _).
  assert (Hend : ∀ s, n_next (c_net s) = 1%nat ∧ n_closed (c_net s) = {[0%nat]} ∧ clog s = clog s1 ∧
      (n_rpcs (c_net s) = [] ∨ ∃ r md, n_rpcs (c_net s) = [RpcEvent ch false r md]) → clean_end args s).
  { intros s (? & ? & Hl & [?|(r & md & ?)]); right; (split; [done|]); (split; [done|]); [by left|right].
    exists ch, r, md. by rewrite Hl. }
  unfold try_finally. specialize (Hb (clog s1) ch s1 Hr).
  destruct (body ch s1) as [[[]|e] s2]; pose proof (close_used (clog s1) ch z Hz s2 Hb) as Hc;
    unfold net_c, zoom in *; st_unfold;
    destruct (close_object z ch (c_net s2) Hz) as [z' Hcl]; rewrite Hcl in *; by apply Hend.
Qed.
End cli.

(** One step of a command's body, before and after its call. *)
Ltac cli_step :=
  cbv zeta;
  first
    [ apply bind_lift; [intros ?; first [apply ready_used|apply sent_used]|intros ? _]
    | match goal with
      | |- hoare _ (net_c (call ?ch ?q ?md) ≫= ?f) _ _ =>
          lazymatch goal with |- hoare (ready ?l ch) _ _ _ =>
            apply (hoare_bind _ (net_c (call ch q md)) f (λ _, sent l ch)); [apply cli_call_ok|intros ?] end
      end
    | apply bind_keep; [apply print_ok; first [apply ready_net|apply sent_net]|intros _]
    | apply last_print_ok
    | apply hoare_raise; intros ?; apply sent_used ].

Section commands.
Context `{Host, X509, PyJWT, PyJson, Grpc}.
Variable stdin_text : string.

Lemma optional_schema_ok l ch (b : bool) (r : res string) :
  hoare (ready l ch) (if b then lift r else mret "") (λ _, ready l ch) (used l ch).
Proof. destruct b; [|by apply hoare_ret]. apply hoare_lift; [done|]. intros e s _. apply ready_used. Qed.

Lemma run_command_ok args c :
  hoare (λ s, c_net s = init_net) (run_command stdin_text args c) (λ _, clean_end args) (clean_end args).
Proof.
  destruct c; apply with_channel_ok; intros l ch;
    repeat (cli_step || (apply bind_keep; [apply optional_schema_ok|intros ?]) || case_match).
Qed.

Lemma cli_main_ok args c :
  hoare (λ s, c_net s = init_net) (cli_main stdin_text (Some (args, c))) (λ _, clean_end args) (clean_end args).
Proof.
  unfold cli_main. case_match; [apply hoare_raise; intros s Hs; left; by rewrite Hs|].
  eapply hoare_try; [apply run_command_ok|intros e k Hk|done].
  unfold command_failure in Hk. repeat case_match; inv_ok; by apply hoare_raise.
Qed.

(** C15: outside the test environment, a command of the CLI, whatever its
    arguments and however it ends, makes at most one call. The call goes to the
    host and port of the arguments, over an open channel that trusts only the
    certificate they presented; that certificate carries a token verified, at a
    time the process read off its clock, under a key from a key set it downloaded
    from ITA's address, with claims that satisfy the policy of the arguments. The
    channel is closed when the command ends, also after an error or an exit. *)
Theorem cli_call_attested args c r s :
  is_test os_environ = false → cli_main stdin_text (Some (args, c)) init_cli = (r, s) →
  (∀ i, (i < n_next (c_net s))%nat → i ∈ n_closed (c_net s)) ∧
  (n_rpcs (c_net s) = [] ∨
   ∃ ch q md ita token, n_rpcs (c_net s) = [RpcEvent ch false q md] ∧
     ch_host ch = a_host args ∧ JInt (ch_port ch) = a_port args ∧
     _build_policy args = Ok (Ita ita) ∧ presented (clog s) ch ∧
     extract_attestation_token (ch_roots ch) = Ok (Some token) ∧
     ita_certified ita token (ch_roots ch) (clog s)).
Proof.
  intros Ht Hm. pose proof (cli_main_ok args c init_cli eq_refl) as Ho. rewrite Hm in Ho.
  assert (Hc : clean_end args s) by by destruct r. clear Ho.
  destruct Hc as [[-> ->]|(-> & -> & Hev)]; [split; [lia|by left]|].
  split; [intros i Hi; apply elem_of_singleton; lia|].
  destruct Hev as [?|(ch & q & md & Hev & Hh & Hp & policy & v & Hb & Hv & Ha)]; [by left|right].
  destruct (certified_ita _ _ _ (accepted_certified policy v _ ch Ht Hv Ha)) as (ita & -> & Hpr & token & Hx & Hcert).
  by exists ch, q, md, ita, token.
Qed.

(** The process exits in order. [main] returns, or exits through
    [SystemExit]: no other exception reaches the interpreter. A call without
    subcommand or without a needed token exits with status 1 before anything is
    connected. *)
Lemma cli_exits parsed s0 r s :
  cli_main stdin_text parsed s0 = (r, s) →
  (∀ e, r = Raise e → is_exception e = false) ∧
  (match parsed with None => True | Some (_, c) => lacks_token c = true end →
   s = s0 ∧ ∃ text, r = Raise (exit_1 text)).
Proof.
  destruct parsed as [[args c]|]; cbn [cli_main]; [|intros [= <- <-]; split; [by intros e [= <-]|eauto]].
  destruct (lacks_token c) eqn:Hl; [intros [= <- <-]; split; [by intros e [= <-]|eauto]|].
  unfold try_except, command_failure.
  destruct (run_command stdin_text args c s0) as [[[]|e] s1]; [by intros [= <- <-]|].
  destruct (rpc_code e); [intros [= <- <-]; split; [by intros e' [= <-]|done]|].
  destruct (is_exception e) eqn:He; intros [= <- <-]; (split; [|done]); by intros e' [= <-].
Qed.

(** Input that is not JSON never leaves the machine. [submit_input] with a
    text (or, for ["-"], a standard input) that does not parse makes no call
    and exits with status 1, unless connecting already failed. *)
Lemma invalid_input_not_sent args token input text e :
  input_text stdin_text input = JStr text → json_loads text = Raise e →
  exn_type e = JSONDecodeError →
  let '(r, s) := run_command stdin_text args (SubmitInput token input) init_cli in
  n_rpcs (c_net s) = [] ∧ ∃ e', r = Raise e' ∧
    (n_next (c_net s) = 1%nat → exn_type e' = SystemExit 1).
Proof.
  intros Hin Hj He. cbn [run_command]. unfold cmd_submit_input, with_channel.
  pose proof (make_stub_ok args init_cli eq_refl) as Hm. unfold mbind at 1, ST_bind at 1.
  destruct (_make_stub args init_cli) as [[[ch z]|e'] s1].
  - destruct Hm as (_ & Hz & (Hn & Hc & Hi & Hr & _) & _). cbn [fst snd] in *.
    unfold try_finally. cbv zeta. unfold check_input. rewrite Hin, Hj, bool_decide_true by done.
    unfold net_c, zoom. st_unfold. destruct (close_object z ch (c_net s1) Hz) as [z' Hcl]. rewrite Hcl.
    split; [done|]. by eexists.
  - destruct Hm as [Hn Hr]. split; [done|]. eexists. split; [done|]. by rewrite Hn.
Qed.
End commands.

(** ** Concrete runs *)

Section demo.
#[local] Instance prod_host : Host := demo_host ∅.
#[local] Existing Instance demo_x509.
#[local] Existing Instance demo_jwt.
#[local] Existing Instance demo_json.
#[local] Instance grpc_up : Grpc := demo_grpc true.

Definition demo_args : connection_args := {|
  a_host := JStr "tee.example"; a_port := JInt 8000; a_verifier := JStr "ita";
  a_expected_digest := JStr " sha256:aa , sha256:bb,"; a_allow_debug_tee := JBool false;
  a_expected_project_id := JStr ""; a_expected_service_account := JStr ""; a_min_cs_version := JNull |}.

Definition demo_cli (c : command) : res unit * cli := cli_main "" (Some (demo_args, c)) init_cli.

Lemma demo_cli_run c r : (demo_cli c).1 = r → cli_main "" (Some (demo_args, c)) init_cli = (r, (demo_cli c).2).
Proof. intros <-. apply surjective_pairing. Defined.

Lemma cli_call_attested_witness :
  ∃ s, demo_cli (GetStatus (JStr "pt")) = (Ok tt, s) ∧ length (n_rpcs (c_net s)) = 1%nat ∧
    ∀ i, (i < n_next (c_net s))%nat → i ∈ n_closed (c_net s).
Proof.
  pose (s := (demo_cli (GetStatus (JStr "pt"))).2).
  assert (Hr : cli_main "" (Some (demo_args, GetStatus (JStr "pt"))) init_cli = (Ok tt, s))
    by (apply demo_cli_run; vm_compute; reflexivity).
  exists s. split; [exact Hr|]. split; [vm_compute; reflexivity|].
  exact (proj1 (cli_call_attested "" demo_args (GetStatus (JStr "pt")) (Ok tt) s eq_refl Hr)).
Defined.

Lemma cli_exits_witness : ∃ text, demo_cli (GetResult (JStr "")) = (Raise (exit_1 text), init_cli).
Proof.
  pose (s := (demo_cli (GetResult (JStr ""))).2). pose (r := (demo_cli (GetResult (JStr ""))).1).
  assert (Hr : cli_main "" (Some (demo_args, GetResult (JStr ""))) init_cli = (r, s))
    by (apply demo_cli_run; reflexivity).
  destruct (proj2 (cli_exits "" _ init_cli r s Hr) eq_refl) as (Hs & text & Ht).
  exists text. unfold demo_cli. rewrite Hr, Hs, Ht. reflexivity.
Defined.

Lemma invalid_input_not_sent_witness :
  n_rpcs (c_net (run_command "" demo_args (SubmitInput (JStr "pt") (JStr "nonsense")) init_cli).2) = [].
Proof.
  pose proof (invalid_input_not_sent "" demo_args (JStr "pt") (JStr "nonsense") "nonsense"
    (Exn JSONDecodeError [Txt "Expecting value"]) eq_refl eq_refl eq_refl) as Hw.
  destruct (run_command "" demo_args (SubmitInput (JStr "pt") (JStr "nonsense")) init_cli) as [r s].
  exact (proj1 Hw).
Defined.
End demo.
