(* ===== verification/ArgParse.v ===== *)
(** Python's [argparse], as far as [agent/cli.py] uses it: parsers whose
    arguments are options with one value or none, the help option, and one level
    of subparsers.

    [parse_options] says what the declarations ask for, given the options as
    pairs of a name and a value: defaults, conversion, choices, required
    options. [parse_known_args] and [parse_args] are the algorithm of CPython
    3.11 on the words of the command line: classification of the words
    ([_parse_optional], with abbreviations), consumption of options with their
    values and of extra words, the subparser action. Texts of messages are
    shortened. *)

From S2P Require Import Prelude PyText PyValue.

Open Scope Z_scope.

(** ** Declarations *)

Inductive opt_kind := KText | KInt | KFlag.

Record opt := Opt {
  o_name : string;
  o_kind : opt_kind;
  o_default : json;
  o_required : bool;
  o_choices : option (list string);
  o_short : option string
}.

Definition text_opt (name default : string) : opt := Opt name KText (JStr default) false None None.
Definition int_opt (name : string) (default : json) : opt := Opt name KInt default false None None.
Definition needed_opt (name : string) : opt := Opt name KText JNull true None None.

(** ** Options by name *)

(** [parser.error(...)] *)
Definition usage_error (text : string) : exn := Exn (SystemExit 2) [Txt text].

Definition chosen (o : opt) (s : string) : bool :=
  match o_choices o with None => true | Some l => existsb (String.eqb s) l end.

Definition convert (o : opt) (value : option string) : res json :=
  match o_kind o, value with
  | KText, Some s => if chosen o s then Ok (JStr s) else Raise (usage_error "invalid choice")
  | KInt, Some s => match int_of_string s with
                    | Some z => Ok (JInt z)
                    | None => Raise (usage_error "invalid int value")
                    end
  | KFlag, None => Ok (JBool true)
  | KFlag, Some _ => Raise (usage_error "ignored explicit argument")
  | _, None => Raise (usage_error "expected one argument")
  end.

(** [_get_values] drops the word [--] from the words of an argument; an option
    that lost its one value stores the list of the values left, an empty one,
    unconverted and unchecked. *)
Definition get_values (o : opt) (value : option string) : res json :=
  match o_kind o, value with
  | KFlag, _ | _, None => convert o value
  | _, Some s => if String.eqb s "--" then Ok (JList []) else convert o value
  end.

Abbreviation given := (list (string * option string)).

Fixpoint store_options (opts : list opt) (g : given) (ns : dict) : res dict :=
  match g with
  | [] => Ok ns
  | (name, value) :: g' =>
      match List.find (λ o, String.eqb (o_name o) name) opts with
      | None => Raise (usage_error "unrecognized arguments")
      | Some o => v ← get_values o value; store_options opts g' (set_key name v ns)
      end
  end.

Definition defaults (opts : list opt) : dict := (λ o, (o_name o, o_default o)) <$> opts.

Definition parse_options (opts : list opt) (g : given) : res dict :=
  ns ← store_options opts g (defaults opts);
  if forallb (λ o, negb (o_required o) || existsb (String.eqb (o_name o)) (fst <$> g)) opts
  then Ok ns else Raise (usage_error "the following arguments are required").

(** ** The words of the command line *)

Inductive act := Help | Store (o : opt).

Definition option_strings (o : opt) : list string :=
  match o_short o with Some c => [c] | None => [] end ++ ["--" +:+ o_name o].

(** [_option_string_actions]; every parser has a help option. *)
Definition option_table (opts : list opt) : list (string * act) :=
  [("-h", Help); ("--help", Help)] ++
  concat ((λ o, (λ s, (s, Store o)) <$> option_strings o) <$> opts).

Definition find_option (table : list (string * act)) (s : string) : option act :=
  snd <$> List.find (λ e, String.eqb e.1 s) table.

Definition dash : ascii := "-".

(** [s.split("=", 1)], when there is such a sign *)
Fixpoint split_eq (s : string) : option (string * string) :=
  match s with
  | EmptyString => None
  | String c s' => if Ascii.eqb c "=" then Some (EmptyString, s')
                   else p ← split_eq s'; Some (String c p.1, p.2)
  end.

(** An option the word stands for, the full option string and the value that
    came with it in the same word *)
Abbreviation option_tuple := (option act * string * option string)%type.

(** [_get_option_tuples]: abbreviations of long options, and short options with
    something after them *)
Definition _get_option_tuples (table : list (string * act)) (word : string) : list option_tuple :=
  match word with
  | String _ (String c rest) =>
      if Ascii.eqb c dash then
        let '(prefix, explicit) := match split_eq word with Some (p, v) => (p, Some v) | None => (word, None) end in
        omap (λ e, if String.prefix prefix e.1 then Some (Some e.2, e.1, explicit) else None) table
      else
        omap (λ e, if String.eqb e.1 (String dash (String c EmptyString)) then Some (Some e.2, e.1, Some rest)
                   else if String.prefix word e.1 then Some (Some e.2, e.1, None) else None) table
  | _ => []
  end.

(** Where [$] matches: at the end, and before a line feed at the end *)
Definition at_end (s : string) : bool := String.eqb s "" || String.eqb s (String "010" EmptyString).

Fixpoint all_digits (s : string) : bool :=
  at_end s ||
  match s with
  | EmptyString => false
  | String c s' => match digit_val c with Some _ => all_digits s' | None => false end
  end.

(** [-5] and [-.5], [-1.5]: the expression of [_negative_number_matcher] *)
Fixpoint fraction (s : string) : bool :=
  match s with
  | EmptyString => false
  | String c s' =>
      if Ascii.eqb c "." then negb (at_end s') && all_digits s'
      else match digit_val c with Some _ => fraction s' | None => false end
  end.
Definition negative_number (s : string) : bool :=
  match s with
  | String c s' => Ascii.eqb c dash && (negb (at_end s') && all_digits s' || fraction s')
  | EmptyString => false
  end.

Definition starts_with_dash (s : string) : bool :=
  match s with String c _ => Ascii.eqb c dash | EmptyString => false end.

(** [_parse_optional]; [None]: the word is an argument *)
Definition _parse_optional (table : list (string * act)) (word : string) : res (option option_tuple) :=
  if negb (starts_with_dash word) then Ok None
  else match find_option table word with
  | Some a => Ok (Some (Some a, word, None))
  | None =>
      if String.eqb word "-" then Ok None
      else match (p ← split_eq word; a ← find_option table p.1; Some (Some a, p.1, Some p.2)) with
      | Some t => Ok (Some t)
      | None =>
          match _get_option_tuples table word with
          | [t] => Ok (Some t)
          | _ :: _ :: _ => Raise (usage_error "ambiguous option")
          | [] =>
              if negative_number word then Ok None
              else if contains " " word then Ok None
              else Ok (Some (None, word, None))
          end
      end
  end.

(** The letters [O], [A] and [-] of [arg_strings_pattern] *)
Inductive kind := KOption (t : option_tuple) | KArgument | KDashes.

Fixpoint classify (table : list (string * act)) (words : list string) : res (list (string * kind)) :=
  match words with
  | [] => Ok []
  | w :: ws =>
      if String.eqb w "--" then Ok ((w, KDashes) :: ((λ v, (v, KArgument)) <$> ws))
      else
        t ← _parse_optional table w;
        l ← classify table ws;
        Ok ((w, match t with Some t => KOption t | None => KArgument end) :: l)
  end.

(** *** Actions *)

(** What parsing has done so far: the namespace, the options seen, and the
    words no option wanted *)
Record parsed := Parsed { p_ns : dict; p_seen : list string; p_extras : list string }.

Definition add_extra (w : string) (st : parsed) : parsed := Parsed (p_ns st) (p_seen st) (p_extras st ++ [w]).

Definition takes_value (a : act) : bool :=
  match a with Store o => match o_kind o with KFlag => false | _ => true end | Help => false end.

Definition take_action (a : act) (value : option string) (st : parsed) : res parsed :=
  match a with
  | Help => Raise (Exn (SystemExit 0) [])
  | Store o =>
      v ← get_values o value;
      Ok (Parsed (set_key (o_name o) v (p_ns st)) (p_seen st ++ [o_name o]) (p_extras st))
  end.

Fixpoint take_actions (l : list (act * option string)) (st : parsed) : res parsed :=
  match l with
  | [] => Ok st
  | (a, v) :: l' => st' ← take_action a v st; take_actions l' st'
  end.

(** An option with a value in its own word. Flags of one letter may be followed
    by further ones; the last of them, when nothing is left of the word, takes
    its value from the words after it. *)
Fixpoint explicit_value (table : list (string * act)) (short : bool) (a : act) (v : string)
  : res (list (act * option string) * option act) :=
  if takes_value a then Ok ([(a, Some v)], None)
  else match v with
  | EmptyString => Raise (usage_error "ignored explicit argument")
  | String c v' =>
      match (if short then find_option table (String dash (String c EmptyString)) else None) with
      | None => Raise (usage_error "ignored explicit argument")
      | Some a' =>
          match v' with
          | EmptyString => Ok ([(a, None)], Some a')
          | _ => r ← explicit_value table short a' v'; Ok ((a, None) :: r.1, r.2)
          end
      end
  end.

Definition is_short (option_string : string) : bool :=
  match option_string with String _ (String c _) => negb (Ascii.eqb c dash) | _ => false end.

(** [consume_optional] and the loop around it, for a parser without positional
    arguments *)
Fixpoint consume (table : list (string * act)) (l : list (string * kind)) (st : parsed) : res parsed :=
  match l with
  | [] => Ok st
  | (w, KArgument) :: l' | (w, KDashes) :: l' | (w, KOption (None, _, _)) :: l' => consume table l' (add_extra w st)
  | (w, KOption (Some a, s, explicit)) :: l' =>
      p ← match explicit with
          | Some v => explicit_value table (is_short s) a v
          | None => Ok ([], Some a)
          end;
      match p.2 with
      | None => st' ← take_actions p.1 st; consume table l' st'
      | Some a' =>
          if takes_value a' then
            match l' with
            | (v, KArgument) :: l'' => st' ← take_actions (p.1 ++ [(a', Some v)]) st; consume table l'' st'
            | _ => Raise (usage_error "expected one argument")
            end
          else st' ← take_actions (p.1 ++ [(a', None)]) st; consume table l' st'
      end
  end.

(** [parse_known_args] of a parser without positional arguments: the namespace
    and the extra words *)
Definition parse_known_args (opts : list opt) (words : list string) : res (dict * list string) :=
  l ← classify (option_table opts) words;
  st ← consume (option_table opts) l (Parsed (defaults opts) [] []);
  if forallb (λ o, negb (o_required o) || existsb (String.eqb (o_name o)) (p_seen st)) opts
  then Ok (p_ns st, p_extras st) else Raise (usage_error "the following arguments are required").

(** [parser.parse_args()] of such a parser *)
Definition parse_flat_args (opts : list opt) (words : list string) : res dict :=
  r ← parse_known_args opts words;
  match r.2 with
  | [] => Ok r.1
  | _ => Raise (usage_error "unrecognized arguments")
  end.

(** *** The top-level parser *)

(** The first word that is an argument names the subparser, which gets all the
    words after it. [None]: there is no such word. *)
Fixpoint consume_command (parsers : list (string * list opt)) (l : list (string * kind)) (extras : list string)
  : res (option (string * dict) * list string) :=
  match l with
  | [] => Ok (None, extras)
  | (w, KOption (None, _, _)) :: l' => consume_command parsers l' (extras ++ [w])
  | (w, KOption (Some a, s, explicit)) :: l' =>
      _ ← match explicit with
          | Some v => r ← explicit_value (option_table []) (is_short s) a v; Ok tt
          | None => Ok tt
          end;
      Raise (Exn (SystemExit 0) [])
  | (w, KArgument) :: l' =>
      match List.find (λ e, String.eqb e.1 w) parsers with
      | None => Raise (usage_error "invalid choice")
      | Some e => r ← parse_known_args e.2 (fst <$> l'); Ok (Some (w, r.1), extras ++ r.2)
      end
  | [(w, KDashes)] => Ok (None, extras ++ [w])
  | (w, KDashes) :: _ => Raise (usage_error "invalid choice")
  end.

(** [parser.parse_args()]: the subcommand and its namespace, if there is one *)
Definition parse_args (parsers : list (string * list opt)) (argv : list string) : res (option (string * dict)) :=
  l ← classify (option_table []) argv;
  r ← consume_command parsers l [];
  match r.2 with
  | [] => Ok r.1
  | _ => Raise (usage_error "unrecognized arguments")
  end.

(** ** What a parsed namespace holds *)

(** A value given on the command line. *)
Definition converted (o : opt) (v : json) : Prop :=
  match o_kind o with
  | KText => (∃ s, v = JStr s ∧ s ≠ "--" ∧ chosen o s = true) ∨ v = JList []
  | KInt => (∃ z, v = JInt z) ∨ v = JList []
  | KFlag => v = JBool true
  end.

Lemma get_values_converted o value v : get_values o value = Ok v → converted o v.
Proof.
  unfold get_values, convert, converted. destruct (o_kind o), value as [s|]; try done.
  - destruct (String.eqb_spec s "--"); [intros [= <-]; by right|].
    destruct (chosen o s) eqn:E; [|done]. intros [= <-]. eauto.
  - destruct (String.eqb s "--"); [intros [= <-]; by right|].
    destruct (int_of_string s); [|done]. intros [= <-]. eauto.
  - by intros [= <-].
Qed.

(** Each option has a value: a converted one, or its default while it was not
    given. *)
Definition holds (opts : list opt) (seen : list string) (ns : dict) : Prop :=
  ∀ o, o ∈ opts → ∃ v, lookup_key (o_name o) ns = Some v ∧
    (converted o v ∨ (v = o_default o ∧ o_name o ∉ seen)).

Lemma defaults_hold opts : NoDup (o_name <$> opts) → holds opts [] (defaults opts).
Proof.
  intros Hnd o Ho. exists (o_default o). split; [|right; split; [done|apply not_elem_of_nil]].
  unfold defaults. induction opts as [|o' opts IH]; [by apply elem_of_nil in Ho|].
  cbn in Hnd |- *. apply NoDup_cons in Hnd as [Hn Hnd]. apply elem_of_cons in Ho as [<-|Ho].
  - by rewrite String.eqb_refl.
  - destruct (String.eqb_spec (o_name o') (o_name o)) as [He|_]; [|by apply IH].
    destruct Hn. rewrite He. by apply list_elem_of_fmap_2.
Qed.

Lemma store_holds opts g ns ns' seen :
  NoDup (o_name <$> opts) → holds opts seen ns → store_options opts g ns = Ok ns' →
  holds opts (seen ++ (fst <$> g)) ns'.
Proof.
  intros Hnd. revert ns seen. induction g as [|[name value] g IH]; intros ns seen Hh Hs.
  - injection Hs as <-. by rewrite app_nil_r.
  - cbn [store_options] in Hs. destruct (List.find _ opts) as [o|] eqn:Hf; [|done].
    apply List.find_some in Hf as [Hin%list_elem_of_In He]. apply String.eqb_eq in He.
    apply bind_Ok in Hs as (v & Hv & Hs). rewrite fmap_cons, cons_middle, (assoc_L (++)).
    eapply IH; [|exact Hs]. intros o' Ho'. rewrite lookup_set_key.
    destruct (String.eqb_spec name (o_name o')) as [Heq|Hne].
    + exists v. split; [done|]. left. assert (o' = o) as ->; [|by eapply get_values_converted].
      apply (NoDup_fmap_eq _ _ _ _ Hnd); congruence.
    + destruct (Hh o' Ho') as (v' & Hl & Hv'). exists v'. split; [done|].
      destruct Hv' as [?|[? Hns]]; [by left|right]. split; [done|].
      rewrite not_elem_of_app, list_elem_of_singleton. split; [exact Hns|cbn; congruence].
Qed.

(** What [parse_options] returns: required options are never at their default. *)
Lemma parse_holds opts g ns :
  NoDup (o_name <$> opts) → parse_options opts g = Ok ns →
  ∀ o, o ∈ opts → ∃ v, lookup_key (o_name o) ns = Some v ∧
    (converted o v ∨ (v = o_default o ∧ o_required o = false)).
Proof.
  intros Hnd Hp o Ho. unfold parse_options in Hp. apply bind_Ok in Hp as (ns' & Hs & Hp).
  destruct (forallb _ opts) eqn:Hreq; [|done]. injection Hp as ->.
  destruct (store_holds opts g _ _ [] Hnd (defaults_hold opts Hnd) Hs o Ho) as (v & Hl & Hv).
  exists v. split; [done|]. destruct Hv as [?|[? Hns]]; [by left|right]. split; [done|].
  rewrite forallb_forall in Hreq. specialize (Hreq o (proj1 (list_elem_of_In _ _) Ho)).
  apply orb_true_iff in Hreq as [Hr|He]; [by apply negb_true_iff|].
  apply existsb_exists in He as (n & Hn%list_elem_of_In & He%String.eqb_eq). by subst n.
Qed.


(** ** What parsing the words stores *)

(** *** Classification *)

Section table.
Variable opts : list opt.
Hypothesis Hnodup : NoDup (o_name <$> opts).

Definition act_in (a : act) : Prop := match a with Help => True | Store o => o ∈ opts end.

Lemma table_acts s a : (s, a) ∈ option_table opts → act_in a.
Proof.
  unfold option_table. rewrite elem_of_app, !elem_of_cons, elem_of_nil.
  intros [[[= _ ->]|[[= _ ->]|[]]]|Hin]; [done..|].
  apply list_elem_of_In, in_concat in Hin as (l & Hl & Hin).
  apply list_elem_of_In, list_elem_of_fmap in Hl as (o & -> & Ho).
  apply list_elem_of_In, list_elem_of_fmap in Hin as (s' & [= _ ->] & _). done.
Qed.

Lemma find_option_in s a : find_option (option_table opts) s = Some a → act_in a.
Proof.
  unfold find_option. destruct (List.find _ _) as [[s' a']|] eqn:Hf; [|done]. intros [= <-].
  apply List.find_some in Hf as [Hin%list_elem_of_In _]. by eapply table_acts.
Qed.

(** The option a recognised word stands for is one of the table. *)
Definition tuple_ok (t : option_tuple) : Prop := match t with (Some a, _, _) => act_in a | _ => True end.

Lemma get_option_tuples_ok w t : t ∈ _get_option_tuples (option_table opts) w → tuple_ok t.
Proof.
  unfold _get_option_tuples. destruct w as [|c0 [|c rest]]; [by intros ?%elem_of_nil..|]. destruct (Ascii.eqb c dash).
  - destruct (split_eq _) as [[p v]|]; intros ([s a] & Ha & Ht)%list_elem_of_omap; cbn in Ht; (case_match; [|done]);
      injection Ht as <-; by eapply table_acts.
  - intros ([s a] & Ha & Ht)%list_elem_of_omap. cbn in Ht. repeat (case_match; try done); injection Ht as <-;
      by eapply table_acts.
Qed.

Lemma parse_optional_ok w t : _parse_optional (option_table opts) w = Ok (Some t) → tuple_ok t.
Proof.
  unfold _parse_optional. destruct (negb (starts_with_dash w)); [done|].
  destruct (find_option _ w) as [a|] eqn:Ha; [intros [= <-]; by eapply find_option_in|].
  destruct (String.eqb w "-"); [done|].
  assert (Htuples : (∀ t', [t'] = _get_option_tuples (option_table opts) w → tuple_ok t')).
  { intros t' Ht'. apply (get_option_tuples_ok w). rewrite <- Ht'. by left. }
  destruct (p ← split_eq w; a ← find_option (option_table opts) p.1; Some (Some a, p.1, Some p.2)) as [t'|] eqn:He.
  - intros [= <-]. destruct (split_eq w) as [[p v]|]; [|done]. cbn [mbind option_bind fst snd] in He.
    destruct (find_option _ p) as [a|] eqn:Ha'; [|done]. injection He as <-. by eapply find_option_in.
  - destruct (_get_option_tuples _ w) as [|t' [|]]; [|intros [= <-]; by apply Htuples|done].
    repeat case_match; by intros [= <-].
Qed.

(** Every recognised word stands for an option; after [--], every word is an
    argument. *)
Fixpoint classified (l : list (string * kind)) : Prop :=
  match l with
  | [] => True
  | (_, KDashes) :: l' => Forall (λ e, e.2 = KArgument) l'
  | (_, KArgument) :: l' => classified l'
  | (_, KOption t) :: l' => tuple_ok t ∧ classified l'
  end.

Lemma classify_ok words l :
  classify (option_table opts) words = Ok l → classified l ∧ fst <$> l = words.
Proof.
  revert l. induction words as [|w words IH]; intros l; cbn [classify]; [by intros [= <-]|].
  destruct (String.eqb_spec w "--") as [->|Hw].
  - intros [= <-]. cbn. split; [by apply Forall_fmap, Forall_true|]. f_equal. rewrite <- list_fmap_compose.
    apply list_fmap_id.
  - intros (t & Ht & Hl)%bind_Ok. apply bind_Ok in Hl as (l' & Hl' & [= <-]).
    destruct (IH l' Hl') as [Hc <-]. split; [|done]. destruct t as [t|]; cbn; [|done]. split; [|done].
    by apply (parse_optional_ok w).
Qed.

(** *** Consumption *)

Definition named (l : list (act * option string)) : given :=
  (λ e, (match e.1 with Store o => o_name o | Help => EmptyString end, e.2)) <$> l.

Lemma find_opt o : o ∈ opts → List.find (λ o', String.eqb (o_name o') (o_name o)) opts = Some o.
Proof.
  intros Ho. destruct (List.find _ opts) as [o'|] eqn:Hf.
  - apply List.find_some in Hf as [Hin%list_elem_of_In He%String.eqb_eq]. f_equal.
    by apply (NoDup_fmap_eq _ _ _ _ Hnodup).
  - apply List.find_none with (x := o) in Hf; [|by apply list_elem_of_In]. by rewrite String.eqb_refl in Hf.
Qed.

Lemma store_app g1 g2 ns : store_options opts (g1 ++ g2) ns = (ns' ← store_options opts g1 ns; store_options opts g2 ns').
Proof.
  revert ns. induction g1 as [|[n v] g1 IH]; intros ns; [done|]. cbn [app store_options].
  destruct (List.find _ opts) as [o|]; [|done]. destruct (get_values o v); [|done]. apply IH.
Qed.

(** Taking actions stores what the declarations ask for. *)
Lemma take_actions_store l st st' :
  Forall (λ e, act_in e.1) l → take_actions l st = Ok st' →
  store_options opts (named l) (p_ns st) = Ok (p_ns st') ∧ p_seen st' = p_seen st ++ (named l).*1 ∧
  p_extras st' = p_extras st.
Proof.
  intros Hl. revert st. induction Hl as [|[a v] l Ha _ IH]; intros st; cbn [take_actions].
  - intros [= <-]. by rewrite app_nil_r.
  - intros (st1 & Ht & Hl')%bind_Ok. destruct a as [|o]; [done|]. cbn in Ha.
    cbn [take_action] in Ht. apply bind_Ok in Ht as (x & Hx & [= <-]).
    destruct (IH _ Hl') as (Hs & Hseen & Hex). cbn [p_ns p_seen p_extras] in *.
    cbn. rewrite find_opt, Hx by done. split; [exact Hs|]. split; [|done]. by rewrite Hseen, <- app_assoc.
Qed.

Lemma explicit_value_ok short a v l r :
  act_in a → explicit_value (option_table opts) short a v = Ok (l, r) →
  Forall (λ e, act_in e.1) l ∧ match r with Some a' => act_in a' | None => True end.
Proof.
  revert a l r. induction v as [|c v IH]; intros a l r Ha; cbn [explicit_value];
    (destruct (takes_value a); [intros [= <- <-]; split; [by repeat constructor|done]|]); [done|].
  destruct short; [|done]. destruct (find_option _ _) as [a'|] eqn:Hf; [|done]. apply find_option_in in Hf.
  destruct v as [|c' v]; [by intros [= <- <-]; split; [repeat constructor|]|].
  intros ([l' r'] & Hr & [= <- <-])%bind_Ok. destruct (IH _ _ _ Hf Hr) as [Hl Hr']. split; [|done]. by constructor.
Qed.

(** All words are arguments: they are extra. *)
Lemma consume_arguments table l st :
  Forall (λ e, e.2 = KArgument) l → ∃ st', consume table l st = Ok st' ∧ p_ns st' = p_ns st ∧ p_seen st' = p_seen st.
Proof.
  intros Hl. revert st. induction Hl as [|[w k] l Hk _ IH]; intros st; [by exists st|]. cbn in Hk. subst k.
  cbn [consume]. destruct (IH (add_extra w st)) as (st' & -> & Hn & Hs). by exists st'.
Qed.

(** What consuming the words stores is what [store_options] stores for the
    options given, in order. *)
Lemma consume_store l st st' :
  classified l → consume (option_table opts) l st = Ok st' →
  ∃ g, store_options opts g (p_ns st) = Ok (p_ns st') ∧ p_seen st' = p_seen st ++ g.*1.
Proof.
  assert (Hstep : ∀ acts st1 st2, Forall (λ e, act_in e.1) acts → take_actions acts st1 = Ok st2 →
    (∃ g, store_options opts g (p_ns st2) = Ok (p_ns st') ∧ p_seen st' = p_seen st2 ++ g.*1) →
    ∃ g, store_options opts g (p_ns st1) = Ok (p_ns st') ∧ p_seen st' = p_seen st1 ++ g.*1).
  { intros acts st1 st2 Hacts Htake (g & Hg & Hseen). destruct (take_actions_store acts st1 st2 Hacts Htake) as (Hs & Hs2 & _).
    exists (named acts ++ g). rewrite store_app, Hs, ret_bind, fmap_app, app_assoc, <- Hs2. done. }
  remember (length l) as n eqn:Hn. revert l Hn st. induction (Nat.lt_wf_0 n) as [n _ IH]. intros l -> st Hcl.
  destruct l as [|[w k] l]; [intros [= <-]; exists []; by rewrite app_nil_r|].
  assert (Hrec : ∀ st1, classified l → consume (option_table opts) l st1 = Ok st' →
    ∃ g, store_options opts g (p_ns st1) = Ok (p_ns st') ∧ p_seen st' = p_seen st1 ++ g.*1).
  { intros st1 Hc. apply (IH (length l)); [cbn; lia|done|done]. }
  destruct k as [[[[a|] s] explicit]| |]; cbn [consume].
  - destruct Hcl as [Ha Hcl]. intros ([acts last] & Hp & Hrest)%bind_Ok. cbn [fst snd] in Hrest.
    assert (Hacts : Forall (λ e, act_in e.1) acts ∧ match last with Some a' => act_in a' | None => True end).
    { destruct explicit as [v|]; [|by injection Hp as <- <-]. by apply (explicit_value_ok _ _ _ _ _ Ha Hp). }
    destruct Hacts as [Hacts Hlast]. destruct last as [a'|].
    + destruct (takes_value a') eqn:Htv.
      * destruct l as [|[v [| |]] l]; try done. apply bind_Ok in Hrest as (st1 & Ht & Hc).
        eapply Hstep; [|exact Ht|]. { apply Forall_app. split; [done|]. by repeat constructor. }
        apply (IH (length l)) with l; [cbn; lia|done..].
      * apply bind_Ok in Hrest as (st1 & Ht & Hc). eapply Hstep; [|exact Ht|by apply Hrec].
        apply Forall_app. split; [done|]. by repeat constructor.
    + apply bind_Ok in Hrest as (st1 & Ht & Hc). eapply Hstep; [exact Hacts|exact Ht|by apply Hrec].
  - destruct Hcl as [_ Hcl]. intros Hc. by apply (Hrec (add_extra w st)).
  - intros Hc. by apply (Hrec (add_extra w st)).
  - cbn in Hcl. destruct (consume_arguments (option_table opts) l (add_extra w st) Hcl) as (st2 & -> & Hn & Hs).
    intros [= <-]. exists []. rewrite Hn, Hs. by rewrite app_nil_r.
Qed.

Lemma parse_known_given words ns extras :
  parse_known_args opts words = Ok (ns, extras) → ∃ g, parse_options opts g = Ok ns.
Proof.
  unfold parse_known_args. intros (l & Hl & Hc)%bind_Ok. apply bind_Ok in Hc as (st & Hc & Hr).
  destruct (classify_ok words l Hl) as [Hcl Hfst].
  destruct (consume_store l _ st Hcl Hc) as (g & Hg & Hseen). cbn [p_seen app] in Hseen.
  exists g. unfold parse_options. cbn [p_ns] in Hg. rewrite Hg, ret_bind, <- Hseen.
  destruct (forallb _ opts); [|done]. by injection Hr as <- <-.
Qed.
End table.

(** ** Exits *)

(** Parsing ends, or exits as [argparse] does: with status 0 after the help text
    and with status 2 after a usage error. *)
Definition orderly {A : Type} (r : res A) : Prop :=
  match r with Ok _ => True | Raise e => exn_type e = SystemExit 0 ∨ exn_type e = SystemExit 2 end.

Lemma orderly_usage {A : Type} text : orderly (Raise (usage_error text) : res A).
Proof. by right. Qed.

Lemma orderly_bind {A B : Type} (r : res A) (f : A → res B) : orderly r → (∀ a, r = Ok a → orderly (f a)) → orderly (r ≫= f).
Proof. destruct r as [a|e]; [|done]. intros _ Hf. by apply Hf. Qed.

Lemma convert_orderly o v : orderly (convert o v).
Proof. unfold convert. repeat case_match; try done; apply orderly_usage. Qed.

Lemma take_actions_orderly l st : orderly (take_actions l st).
Proof.
  revert st. induction l as [|[a v] l IH]; intros st; [done|]. cbn [take_actions].
  apply orderly_bind; [|intros st' _; apply IH]. destruct a as [|o]; [by left|]. cbn [take_action].
  apply orderly_bind; [|done]. unfold get_values. repeat case_match; try done; apply convert_orderly.
Qed.

Lemma explicit_value_orderly table short a v : orderly (explicit_value table short a v).
Proof.
  revert a. induction v as [|c v IH]; intros a; cbn [explicit_value]; (destruct (takes_value a); [done|]); [apply orderly_usage|].
  destruct short; [|apply orderly_usage]. destruct (find_option _ _) as [a'|]; [|apply orderly_usage].
  destruct v; [done|]. by apply orderly_bind.
Qed.

Lemma consume_orderly table l st : orderly (consume table l st).
Proof.
  remember (length l) as n eqn:Hn. revert l Hn st. induction (Nat.lt_wf_0 n) as [n _ IH]. intros l -> st.
  destruct l as [|[w k] l]; [done|].
  assert (Hrec : ∀ st', orderly (consume table l st')) by (intros st'; apply (IH (length l)); [cbn; lia|done]).
  destruct k as [[[[a|] s] explicit]| |]; cbn [consume]; try apply Hrec. apply orderly_bind.
  - destruct explicit; [apply explicit_value_orderly|done].
  - intros [acts [a'|]] _; cbn [fst snd].
    + destruct (takes_value a').
      * destruct l as [|[v [| |]] l]; try apply orderly_usage. apply orderly_bind; [apply take_actions_orderly|].
        intros st' _. apply (IH (length l)); [cbn; lia|done].
      * apply orderly_bind; [apply take_actions_orderly|intros st' _; apply Hrec].
    + apply orderly_bind; [apply take_actions_orderly|intros st' _; apply Hrec].
Qed.

Lemma classify_orderly table words : orderly (classify table words).
Proof.
  induction words as [|w words IH]; cbn [classify]; [done|]. case_match; [done|]. apply orderly_bind.
  - unfold _parse_optional. repeat case_match; try done; apply orderly_usage.
  - intros t _. by apply orderly_bind.
Qed.

Lemma parse_known_orderly opts words : orderly (parse_known_args opts words).
Proof.
  unfold parse_known_args. apply orderly_bind; [apply classify_orderly|intros l _].
  apply orderly_bind; [apply consume_orderly|intros st _]. case_match; [done|apply orderly_usage].
Qed.

Lemma parse_args_orderly parsers argv : orderly (parse_args parsers argv).
Proof.
  unfold parse_args. apply orderly_bind; [apply classify_orderly|intros l _]. apply orderly_bind.
  - generalize (@nil string) as extras. induction l as [|[w k] l IH]; intros extras; [done|].
    destruct k as [[[[a|] s] explicit]| |]; cbn [consume_command]; [| apply IH | |].
    + apply orderly_bind; [|by left]. destruct explicit; [|done].
      apply orderly_bind; [apply explicit_value_orderly|done].
    + case_match; [|apply orderly_usage]. apply orderly_bind; [apply parse_known_orderly|done].
    + case_match; [done|apply orderly_usage].
  - intros r _. case_match; [done|apply orderly_usage].
Qed.

(** A subcommand is missing only from the empty command line. *)
Lemma no_command parsers argv : parse_args parsers argv = Ok None → argv = [].
Proof.
  unfold parse_args. intros (l & Hl & Hr)%bind_Ok. apply bind_Ok in Hr as ([c extras] & Hc & Hr).
  destruct (classify_ok [] argv l Hl) as [_ <-]. cbn [fst snd] in Hr. destruct extras; [|done]. injection Hr as ->.
  enough (Hne : ∀ ex, consume_command parsers l ex = Ok (None, []) → l = []) by (by rewrite (Hne [] Hc)).
  clear. induction l as [|[w k] l IH]; intros ex; [done|].
  assert (Hex : ∀ ex', consume_command parsers l (ex' ++ [w]) ≠ Ok (None, [])).
  { intros ex' Hc. pose proof (IH _ Hc) as ->. cbn in Hc. injection Hc as Hc. by destruct ex'. }
  destruct k as [[[[a|] s] explicit]| |]; cbn [consume_command].
  - intros (? & _ & [=])%bind_Ok.
  - intros Hc. by destruct (Hex ex).
  - case_match; [|done]. intros (? & _ & [=])%bind_Ok.
  - case_match; [|done]. intros [= Hc]. by destruct ex.
Qed.

(** The namespace of a subcommand is one its declarations allow. *)
Lemma command_given parsers argv name ns :
  Forall (λ e, NoDup (o_name <$> e.2)) parsers →
  parse_args parsers argv = Ok (Some (name, ns)) →
  ∃ opts g, (name, opts) ∈ parsers ∧ parse_options opts g = Ok ns.
Proof.
  intros Hnd. unfold parse_args. intros (l & Hl & Hr)%bind_Ok. apply bind_Ok in Hr as ([c extras] & Hc & Hr).
  destruct (classify_ok [] argv l Hl) as [_ <-]. cbn [fst snd] in Hr. destruct extras; [|done]. injection Hr as ->.
  revert Hc. clear Hl. generalize (@nil string) at 1 as ex. induction l as [|[w k] l IH]; intros ex; [done|].
  destruct k as [[[[a|] s] explicit]| |]; cbn [consume_command].
  - intros (? & _ & [=])%bind_Ok.
  - apply IH.
  - destruct (List.find _ parsers) as [[n opts]|] eqn:Hf; [|done]. apply List.find_some in Hf as [Hin%list_elem_of_In He].
    apply String.eqb_eq in He. cbn in He. subst n. intros ([ns' ex'] & Hp & [= <- <- _])%bind_Ok. cbn [fst snd] in *.
    rewrite Forall_forall in Hnd. destruct (parse_known_given opts (Hnd _ Hin) (fst <$> l) ns' ex' Hp) as [g Hg].
    by exists opts, g.
  - by case_match.
Qed.

(** ** Writing a command line *)

(** An option as words: [--name], [--name=value], or [--name value] *)
Definition words_of (e : bool * (string * option string)) : list string :=
  match e with
  | (_, (name, None)) => ["--" +:+ name]
  | (true, (name, Some v)) => [("--" +:+ name) +:+ "=" +:+ v]
  | (false, (name, Some v)) => ["--" +:+ name; v]
  end.

Definition fits (opts : list opt) (e : bool * (string * option string)) : Prop :=
  ∃ o, o ∈ opts ∧ o_name o = e.2.1 ∧
  match e with
  | (_, (_, None)) => takes_value (Store o) = false
  | (true, (_, Some v)) => takes_value (Store o) = true
  | (false, (_, Some v)) => takes_value (Store o) = true ∧ starts_with_dash v = false
  end.

(** Option strings are distinct, have no equals sign and are not [--]. *)
Definition table_ok (table : list (string * act)) : bool :=
  bool_decide (NoDup table.*1) &&
  forallb (λ e, bool_decide (split_eq e.1 = None) && negb (String.eqb e.1 "--")) table.

Section write.
Variable opts : list opt.
Hypothesis Hnodup : NoDup (o_name <$> opts).
Hypothesis Htable : table_ok (option_table opts) = true.

Lemma table_entry s a : find_option (option_table opts) s = Some a → split_eq s = None ∧ s ≠ "--".
Proof.
  unfold find_option. destruct (List.find _ _) as [[s' a']|] eqn:Hf; [|done]. intros _.
  apply List.find_some in Hf as [Hin He]. apply String.eqb_eq in He. cbn in He. subst s'.
  apply andb_true_iff in Htable as [_ Hall]. rewrite forallb_forall in Hall. apply Hall, andb_true_iff in Hin as [Hs Hn].
  apply bool_decide_eq_true in Hs. split; [exact Hs|]. intros ->. done.
Qed.

Lemma find_long o : o ∈ opts → find_option (option_table opts) ("--" +:+ o_name o) = Some (Store o).
Proof.
  intros Ho. assert (Hin : ("--" +:+ o_name o, Store o) ∈ option_table opts).
  { unfold option_table. apply elem_of_app. right. apply list_elem_of_In, in_concat.
    exists ((λ s, (s, Store o)) <$> option_strings o). split.
    { by apply list_elem_of_In, (list_elem_of_fmap_2 (λ o, (λ s, (s, Store o)) <$> option_strings o)). }
    apply list_elem_of_In, (list_elem_of_fmap_2 (λ s, (s, Store o))). unfold option_strings. apply elem_of_app. right. by left. }
  apply andb_true_iff in Htable as [Hnd%bool_decide_eq_true _]. unfold find_option.
  destruct (List.find _ _) as [[s a]|] eqn:Hf.
  - apply List.find_some in Hf as [Hin'%list_elem_of_In He]. apply String.eqb_eq in He. cbn in He. subst s.
    pose proof (NoDup_fmap_eq fst _ _ _ Hnd Hin' Hin eq_refl) as [= ->]. done.
  - apply List.find_none with (x := ("--" +:+ o_name o, Store o)) in Hf; [|by apply list_elem_of_In].
    cbn in Hf. by rewrite String.eqb_refl in Hf.
Qed.

Lemma split_eq_app p v : split_eq p = None → split_eq (p +:+ "=" +:+ v) = Some (p, v).
Proof.
  induction p as [|c p IH]; [done|]. intros Hp. cbn [split_eq] in Hp.
  change (split_eq (String c (p +:+ "=" +:+ v)) = Some (String c p, v)). cbn [split_eq].
  destruct (Ascii.eqb c "="); [done|]. destruct (split_eq p) as [[]|]; [done|]. by rewrite IH.
Qed.

Lemma classify_long o ws : o ∈ opts →
  classify (option_table opts) (("--" +:+ o_name o) :: ws) =
  (l ← classify (option_table opts) ws; Ok (("--" +:+ o_name o, KOption (Some (Store o), "--" +:+ o_name o, None)) :: l)).
Proof.
  intros Ho. pose proof (find_long o Ho) as Hf. destruct (table_entry _ _ Hf) as [_ Hne]. cbn [classify].
  rewrite (proj2 (String.eqb_neq _ _) Hne). unfold _parse_optional at 1. by rewrite Hf.
Qed.

Lemma classify_long_value o v ws : o ∈ opts →
  classify (option_table opts) ((("--" +:+ o_name o) +:+ "=" +:+ v) :: ws) =
  (l ← classify (option_table opts) ws;
   Ok ((("--" +:+ o_name o) +:+ "=" +:+ v, KOption (Some (Store o), "--" +:+ o_name o, Some v)) :: l)).
Proof.
  intros Ho. pose proof (find_long o Ho) as Hf. destruct (table_entry _ _ Hf) as [Hs _]. cbn [classify].
  pose proof (split_eq_app _ v Hs) as Hsplit. set (w := ("--" +:+ o_name o) +:+ "=" +:+ v) in *.
  destruct (String.eqb_spec w "--") as [Hw|_]; [by rewrite Hw in Hsplit|]. unfold _parse_optional at 1.
  destruct (find_option (option_table opts) w) as [a|] eqn:Ha.
  { apply table_entry in Ha as [Ha _]. by rewrite Hsplit in Ha. }
  replace (starts_with_dash w) with true by done. replace (String.eqb w "-") with false by done.
  rewrite Hsplit. cbn [negb mbind option_bind fst snd]. rewrite Hf. done.
Qed.

Lemma classify_value v ws : starts_with_dash v = false →
  classify (option_table opts) (v :: ws) = (l ← classify (option_table opts) ws; Ok ((v, KArgument) :: l)).
Proof.
  intros Hv. cbn [classify]. destruct (String.eqb_spec v "--") as [->|_]; [done|].
  unfold _parse_optional at 1. by rewrite Hv.
Qed.

Lemma take_convert o value st l :
  o ∈ opts →
  (st' ← take_actions [(Store o, value)] st; consume (option_table opts) l st') =
  (ns ← store_options opts [(o_name o, value)] (p_ns st);
   consume (option_table opts) l (Parsed ns (p_seen st ++ [o_name o]) (p_extras st))).
Proof. intros Ho. cbn. rewrite find_opt by done. by destruct (get_values o value). Qed.

(** The words of an option are classified and consumed as that option. *)
Lemma consume_words e ws l :
  fits opts e → classify (option_table opts) ws = Ok l →
  ∃ l', classify (option_table opts) (words_of e ++ ws) = Ok l' ∧
  ∀ st, consume (option_table opts) l' st =
    (ns ← store_options opts [e.2] (p_ns st);
     consume (option_table opts) l (Parsed ns (p_seen st ++ [e.2.1]) (p_extras st))).
Proof.
  destruct e as [sep [name [v|]]]; intros (o & Ho & Hn & Hfit) Hl; cbn in Hn; subst name; cbn [snd fst].
  - destruct sep; [rename Hfit into Hk|destruct Hfit as [Hk Hv]]; cbn [words_of app].
    + rewrite classify_long_value, Hl by done. eexists. split; [reflexivity|]. intros st. cbn [consume].
      assert (He : explicit_value (option_table opts) (is_short ("--" +:+ o_name o)) (Store o) v = Ok ([(Store o, Some v)], None))
        by (destruct v; unfold explicit_value; by rewrite Hk).
      rewrite He, ret_bind. cbn [snd fst]. by apply take_convert.
    + rewrite classify_long, classify_value, Hl by done. eexists. split; [reflexivity|]. intros st. cbn [consume].
      rewrite ret_bind. cbn [snd fst]. rewrite Hk. by apply take_convert.
  - replace (words_of (sep, (o_name o, None))) with ["--" +:+ o_name o] by (by destruct sep). cbn [app].
    rewrite classify_long, Hl by done. eexists. split; [reflexivity|]. intros st. cbn [consume].
    rewrite ret_bind. cbn [snd fst]. assert (Hk : takes_value (Store o) = false) by (by destruct sep). rewrite Hk.
    by apply take_convert.
Qed.

Lemma consume_written g :
  Forall (fits opts) g →
  ∃ l, classify (option_table opts) (concat (words_of <$> g)) = Ok l ∧
  ∀ st, consume (option_table opts) l st =
    (ns ← store_options opts (snd <$> g) (p_ns st); Ok (Parsed ns (p_seen st ++ (snd <$> g).*1) (p_extras st))).
Proof.
  induction 1 as [|e g He _ (l & Hl & Hc)].
  - exists []. split; [done|]. intros [ns seen ex]. cbn. by rewrite app_nil_r.
  - destruct (consume_words e _ l He Hl) as (l' & Hl' & Hc'). exists l'. split; [exact Hl'|]. intros st.
    rewrite Hc'. rewrite !fmap_cons. change (e.2 :: (snd <$> g)) with ([e.2] ++ (snd <$> g)). rewrite store_app.
    destruct (store_options opts [e.2] (p_ns st)) as [ns|]; [|done]. rewrite !ret_bind, Hc. cbn [p_ns p_seen p_extras].
    destruct (store_options opts (snd <$> g) ns); [|done]. by rewrite !ret_bind, <- app_assoc.
Qed.

(** Options written out as words parse as those options. *)
Lemma parse_known_written g :
  Forall (fits opts) g →
  parse_known_args opts (concat (words_of <$> g)) = (ns ← parse_options opts (snd <$> g); Ok (ns, [])).
Proof.
  intros Hg. destruct (consume_written g Hg) as (l & Hl & Hc). unfold parse_known_args, parse_options.
  rewrite Hl, ret_bind, Hc. cbn [p_ns p_seen p_extras app].
  destruct (store_options opts _ _) as [ns|]; [|done]. rewrite !ret_bind. cbn [p_ns p_seen p_extras]. by case_match.
Qed.
End write.

(** *** The subcommand *)

(** The top-level parser knows only the help option: no word is ambiguous. *)
Lemma help_tuples word : starts_with_dash word = true → (length (_get_option_tuples (option_table []) word) <= 1)%nat.
Proof.
  assert (Hlong : ∀ q, String.prefix (String dash (String dash q)) "-h" = false) by done.
  unfold _get_option_tuples. destruct word as [|c0 [|c rest]]; [cbn; lia..|]. intros Hd%Ascii.eqb_eq. subst c0.
  change (option_table []) with [("-h", Help); ("--help", Help)].
  destruct (Ascii.eqb_spec c dash) as [->|Hc].
  - assert (Hp : ∃ q x, match split_eq (String dash (String dash rest)) with
      | Some (p, v) => (p, Some v) | None => (String dash (String dash rest), None) end = (String dash (String dash q), x)).
    { cbn [split_eq Ascii.eqb Bool.eqb dash]. destruct (split_eq rest) as [[p v]|]; eauto. }
    destruct Hp as (q & x & ->). cbn [omap list_omap fst]. rewrite Hlong. case_match; cbn; lia.
  - cbn [omap list_omap fst snd].
    assert (Hshort : String.prefix (String dash (String c rest)) "--help" = false).
    { cbn. destruct (ascii_dec c "-"); [done|]. done. }
    rewrite Hshort. replace (String.eqb "--help" (String dash (String c EmptyString))) with false by (symmetry; apply String.eqb_neq; discriminate).
    repeat case_match; cbn; lia.
Qed.

Lemma classify_top words : ∃ l, classify (option_table []) words = Ok l ∧ fst <$> l = words.
Proof.
  assert (Hex : ∃ l, classify (option_table []) words = Ok l).
  { induction words as [|w words [l Hl]]; [by exists []|]. cbn [classify]. case_match; [by eexists|].
    enough (Ht : ∃ t, _parse_optional (option_table []) w = Ok t) by (destruct Ht as [t ->]; rewrite Hl; by eexists).
    unfold _parse_optional. destruct (starts_with_dash w) eqn:Hd; [|by eexists]. pose proof (help_tuples w Hd) as Hlen.
    destruct (find_option _ w); [by eexists|]. cbn [negb]. case_match; [by eexists|]. case_match; [by eexists|].
    destruct (_get_option_tuples _ w) as [|? [|? ?]]; [|by eexists|cbn in Hlen; lia]. repeat case_match; by eexists. }
  destruct Hex as [l Hl]. exists l. split; [done|]. by apply (classify_ok [] words l).
Qed.

Lemma parse_args_command parsers name opts words :
  NoDup parsers.*1 → (name, opts) ∈ parsers → starts_with_dash name = false →
  parse_args parsers (name :: words) =
  (r ← parse_known_args opts words;
   match r.2 with [] => Ok (Some (name, r.1)) | _ => Raise (usage_error "unrecognized arguments") end).
Proof.
  intros Hnd Hin Hn. destruct (classify_top words) as (l & Hl & Hw). unfold parse_args. cbn [classify].
  destruct (String.eqb_spec name "--") as [->|_]; [done|].
  unfold _parse_optional at 1. rewrite Hn. cbn [negb]. rewrite ret_bind, Hl, !ret_bind. cbn [consume_command]. rewrite Hw.
  destruct (List.find _ parsers) as [[n opts']|] eqn:Hf.
  - apply List.find_some in Hf as [Hin'%list_elem_of_In He]. apply String.eqb_eq in He. cbn in He. subst n.
    pose proof (NoDup_fmap_eq fst _ _ _ Hnd Hin' Hin eq_refl) as [= ->]. cbn [snd].
    by destruct (parse_known_args opts words) as [[ns ex]|].
  - apply List.find_none with (x := (name, opts)) in Hf; [|by apply list_elem_of_In].
    cbn in Hf. by rewrite String.eqb_refl in Hf.
Qed.
