(* ===== verification/CliArgs.v ===== *)
(** [agent/cli.py]: the options of the command line, [_add_connection_args] and
    [build_parser], and the whole program on the words of the command line:
    parsing by [argparse] ([ArgParse]), then [main] ([Cli]). *)

From S2P Require Import Prelude PyText PyValue External Attestation Policy World ItaVerifier Rpc Client Cli ArgParse Examples DemoServer.

Open Scope Z_scope.

(** ** The parsers *)

Definition _add_connection_args : list opt :=
  [text_opt "host" "localhost";
   int_opt "port" (JInt 8000);
   Opt "verifier" KText JNull true (Some ["noop"; "ita"]) None;
   Opt "expected_digest" KText JNull false None None;
   Opt "allow_debug_tee" KFlag (JBool false) false None None;
   text_opt "expected_project_id" "";
   text_opt "expected_service_account" "";
   int_opt "min_cs_version" JNull;
   Opt "quiet" KFlag (JBool false) false None (Some "-q")].

(** [default=os.environ.get("ZTAB_TOKEN")] *)
Definition token_opt (env : environ) : opt :=
  Opt "token" KText (match env !! "ZTAB_TOKEN" with Some t => JStr t | None => JNull end) false None None.

Definition echo_parser : list opt := _add_connection_args ++ [text_opt "message" "hello from ZTAB client"].
Definition create_parser : list opt :=
  _add_connection_args ++
  [text_opt "policy" "ScheduleOverlap"; int_opt "participants" (JInt 2); int_opt "timeout" (JInt 300);
   text_opt "input_schema" ""; text_opt "output_schema" ""; text_opt "creator_token" "";
   text_opt "client_nonce" ""].
Definition join_parser : list opt :=
  _add_connection_args ++ [needed_opt "invitation_token"; text_opt "client_nonce" ""; text_opt "role" ""].
Definition accept_parser (env : environ) : list opt := _add_connection_args ++ [token_opt env].
Definition submit_parser (env : environ) : list opt := _add_connection_args ++ [token_opt env; needed_opt "input"].
Definition result_parser (env : environ) : list opt := _add_connection_args ++ [token_opt env].
Definition status_parser (env : environ) : list opt := _add_connection_args ++ [token_opt env].

Definition build_parser (env : environ) : list (string * list opt) :=
  [("echo", echo_parser); ("create_session", create_parser); ("join_session", join_parser);
   ("accept_policy", accept_parser env); ("submit_input", submit_parser env);
   ("get_result", result_parser env); ("get_status", status_parser env)].

(** ** The namespace as the commands read it *)

(** [args.k] *)
Definition attribute (ns : dict) (k : string) : option json := lookup_key k ns.

Definition connection_of (ns : dict) : option connection_args :=
  h ← attribute ns "host"; p ← attribute ns "port"; v ← attribute ns "verifier";
  d ← attribute ns "expected_digest"; dbg ← attribute ns "allow_debug_tee";
  pr ← attribute ns "expected_project_id"; sa ← attribute ns "expected_service_account";
  mv ← attribute ns "min_cs_version";
  Some {| a_host := h; a_port := p; a_verifier := v; a_expected_digest := d; a_allow_debug_tee := dbg;
          a_expected_project_id := pr; a_expected_service_account := sa; a_min_cs_version := mv |}.

(** The arguments of the function [commands[name]] calls. *)
Definition command_of (name : string) (ns : dict) : option command :=
  if String.eqb name "echo" then Echo <$> attribute ns "message"
  else if String.eqb name "create_session" then
    p ← attribute ns "policy"; n ← attribute ns "participants"; t ← attribute ns "timeout";
    i ← attribute ns "input_schema"; o ← attribute ns "output_schema"; ct ← attribute ns "creator_token";
    cn ← attribute ns "client_nonce"; Some (CreateSession p n t i o ct cn)
  else if String.eqb name "join_session" then
    it ← attribute ns "invitation_token"; cn ← attribute ns "client_nonce"; r ← attribute ns "role";
    Some (JoinSession it cn r)
  else if String.eqb name "accept_policy" then AcceptPolicy <$> attribute ns "token"
  else if String.eqb name "submit_input" then
    t ← attribute ns "token"; i ← attribute ns "input"; Some (SubmitInput t i)
  else if String.eqb name "get_result" then GetResult <$> attribute ns "token"
  else if String.eqb name "get_status" then GetStatus <$> attribute ns "token"
  else None.

(** ** The interface of the command line *)

(** One attribute of a call: the option that sets it, what it takes, its value
    when it is not given (none: it must be given), and its value *)
Record field := Field { f_name : string; f_kind : opt_kind; f_default : option json; f_value : json }.

(** What the user sees of the options: their names, kinds and defaults. *)
Definition connection_fields (a : connection_args) : list field :=
  [Field "host" KText (Some (JStr "localhost")) (a_host a);
   Field "port" KInt (Some (JInt 8000)) (a_port a);
   Field "verifier" KText None (a_verifier a);
   Field "expected_digest" KText (Some JNull) (a_expected_digest a);
   Field "allow_debug_tee" KFlag (Some (JBool false)) (a_allow_debug_tee a);
   Field "expected_project_id" KText (Some (JStr "")) (a_expected_project_id a);
   Field "expected_service_account" KText (Some (JStr "")) (a_expected_service_account a);
   Field "min_cs_version" KInt (Some JNull) (a_min_cs_version a)].

(** The token defaults to the environment's. *)
Definition token_field (env : environ) (token : json) : field :=
  Field "token" KText (Some (match env !! "ZTAB_TOKEN" with Some t => JStr t | None => JNull end)) token.

Definition command_fields (env : environ) (c : command) : list field :=
  match c with
  | Echo m => [Field "message" KText (Some (JStr "hello from ZTAB client")) m]
  | CreateSession p n t i o ct cn =>
      [Field "policy" KText (Some (JStr "ScheduleOverlap")) p; Field "participants" KInt (Some (JInt 2)) n;
       Field "timeout" KInt (Some (JInt 300)) t; Field "input_schema" KText (Some (JStr "")) i;
       Field "output_schema" KText (Some (JStr "")) o; Field "creator_token" KText (Some (JStr "")) ct;
       Field "client_nonce" KText (Some (JStr "")) cn]
  | JoinSession it cn r =>
      [Field "invitation_token" KText None it; Field "client_nonce" KText (Some (JStr "")) cn;
       Field "role" KText (Some (JStr "")) r]
  | AcceptPolicy t | GetResult t | GetStatus t => [token_field env t]
  | SubmitInput t i => [token_field env t; Field "input" KText None i]
  end.

Definition command_name (c : command) : string :=
  match c with
  | Echo _ => "echo"
  | CreateSession _ _ _ _ _ _ _ => "create_session"
  | JoinSession _ _ _ => "join_session"
  | AcceptPolicy _ => "accept_policy"
  | SubmitInput _ _ => "submit_input"
  | GetResult _ => "get_result"
  | GetStatus _ => "get_status"
  end.

Definition fields (env : environ) (args : connection_args) (c : command) : list field :=
  connection_fields args ++ command_fields env c.

(** A value of the kind, as far as a command line can give one: a text other
    than [--], a number, a set flag, and for [--] an empty list *)
Definition field_value (k : opt_kind) (v : json) : Prop :=
  match k, v with
  | KText, JStr s => s ≠ "--"
  | KInt, JInt _ => True
  | KFlag, JBool b => b = true
  | (KText | KInt), JList l => l = []
  | _, _ => False
  end.

Definition field_ok (f : field) : Prop := f_default f = Some (f_value f) ∨ field_value (f_kind f) (f_value f).

(** The arguments of a call have the types of their options. *)
Definition well_typed (env : environ) (args : connection_args) (c : command) : Prop :=
  Forall field_ok (fields env args c) ∧ a_verifier args ∈ [JStr "noop"; JStr "ita"; JList []].

(** ** Every attribute the commands read is there *)

Section typed.
Variables (opts : list opt) (g : given) (ns : dict).
Hypothesis Hnodup : NoDup (o_name <$> opts).
Hypothesis Hparse : parse_options opts g = Ok ns.

Lemma attribute_there o : o ∈ opts →
  ∃ v, attribute ns (o_name o) = Some v ∧
    field_ok (Field (o_name o) (o_kind o) (if o_required o then None else Some (o_default o)) v).
Proof.
  intros Ho. destruct (parse_holds opts g ns Hnodup Hparse o Ho) as (v & Hl & Hv). exists v. split; [exact Hl|].
  unfold field_ok. cbn [f_name f_kind f_default f_value]. destruct Hv as [Hv|[-> ->]]; [right|by left].
  unfold converted in Hv. destruct (o_kind o); [destruct Hv as [(s & -> & Hs & _)| ->]|destruct Hv as [[z ->]| ->]|subst v]; done.
Qed.

Lemma verifier_there : Opt "verifier" KText JNull true (Some ["noop"; "ita"]) None ∈ opts →
  ∃ v, attribute ns "verifier" = Some v ∧ field_value KText v ∧ v ∈ [JStr "noop"; JStr "ita"; JList []].
Proof.
  intros Ho. destruct (parse_holds opts g ns Hnodup Hparse _ Ho) as (v & Hl & [Hv|[_ [=]]]). exists v.
  split; [exact Hl|]. destruct Hv as [(s & -> & Hs & Hch)| ->]; (split; [done|]); [|set_solver].
  cbn in Hch. rewrite !orb_true_iff, !String.eqb_eq in Hch. destruct Hch as [->|[->|[=]]]; set_solver.
Qed.
End typed.

(** The subcommand table has no option twice. *)
Lemma parser_nodup env name opts : (name, opts) ∈ build_parser env → NoDup (o_name <$> opts).
Proof.
  unfold build_parser. rewrite !elem_of_cons, elem_of_nil. intros Hin.
  repeat (destruct Hin as [[= -> ->]|Hin]; [apply NoDup_ListNoDup; cbn; repeat constructor; cbn; intuition discriminate|]).
  done.
Qed.

(** Resolve one attribute, field_declared as [o]. *)
Ltac attribute_of there o :=
  let v := fresh "v" in let Hv := fresh "Hv" in let Hok := fresh "Hok" in
  destruct (there o) as (v & Hv & Hok); [cbn; tauto|cbn in Hv, Hok; rewrite Hv].

Lemma connection_there opts g ns :
  NoDup (o_name <$> opts) → parse_options opts g = Ok ns → (∀ o, In o _add_connection_args → o ∈ opts) →
  ∃ args, connection_of ns = Some args ∧ Forall field_ok (connection_fields args) ∧
    a_verifier args ∈ [JStr "noop"; JStr "ita"; JList []].
Proof.
  intros Hnd Hp Hin. pose proof (λ o Ho, attribute_there opts g ns Hnd Hp o (Hin o Ho)) as there.
  unfold connection_of.
  attribute_of there (text_opt "host" "localhost"). attribute_of there (int_opt "port" (JInt 8000)).
  destruct (verifier_there opts g ns Hnd Hp) as (ver & Hver & Hverok & Hmem); [apply Hin; cbn; tauto|]. rewrite Hver.
  attribute_of there (Opt "expected_digest" KText JNull false None None).
  attribute_of there (Opt "allow_debug_tee" KFlag (JBool false) false None None).
  attribute_of there (text_opt "expected_project_id" ""). attribute_of there (text_opt "expected_service_account" "").
  attribute_of there (int_opt "min_cs_version" JNull).
  eexists. split; [reflexivity|]. split; [|exact Hmem]. unfold connection_fields. cbn.
  repeat (constructor; [done || by right|]). constructor.
Qed.

Lemma command_there env name opts g ns :
  (name, opts) ∈ build_parser env → parse_options opts g = Ok ns →
  ∃ c, command_of name ns = Some c ∧ command_name c = name ∧ Forall field_ok (command_fields env c).
Proof.
  intros Hin Hp. pose proof (parser_nodup env name opts Hin) as Hnd.
  pose proof (λ o Ho, attribute_there opts g ns Hnd Hp o (proj2 (list_elem_of_In _ _) Ho)) as there.
  unfold build_parser in Hin. rewrite !elem_of_cons, elem_of_nil in Hin.
  destruct Hin as [[= -> ->]|[[= -> ->]|[[= -> ->]|[[= -> ->]|[[= -> ->]|[[= -> ->]|[[= -> ->]|[]]]]]]]];
    unfold command_of; cbn [String.eqb Ascii.eqb Bool.eqb];
    [ attribute_of there (text_opt "message" "hello from ZTAB client")
    | attribute_of there (text_opt "policy" "ScheduleOverlap"); attribute_of there (int_opt "participants" (JInt 2));
      attribute_of there (int_opt "timeout" (JInt 300)); attribute_of there (text_opt "input_schema" "");
      attribute_of there (text_opt "output_schema" ""); attribute_of there (text_opt "creator_token" "");
      attribute_of there (text_opt "client_nonce" "")
    | attribute_of there (needed_opt "invitation_token"); attribute_of there (text_opt "client_nonce" "");
      attribute_of there (text_opt "role" "")
    | attribute_of there (token_opt env)
    | attribute_of there (token_opt env); attribute_of there (needed_opt "input")
    | attribute_of there (token_opt env)
    | attribute_of there (token_opt env)];
    (eexists; split; [reflexivity|]; split; [done|]); cbn; repeat (constructor; [done|]); constructor.
Qed.

Lemma parser_connection env name opts :
  (name, opts) ∈ build_parser env → ∀ o, In o _add_connection_args → o ∈ opts.
Proof.
  intros Hin o Ho. unfold build_parser in Hin. rewrite !elem_of_cons, elem_of_nil in Hin.
  repeat (destruct Hin as [[= -> ->]|Hin]; [apply list_elem_of_In; cbn in Ho |- *; tauto|]). done.
Qed.

(** What the parser accepts, the commands can read: every attribute is there,
    with the type of its option. *)
Lemma parsed_command env name opts g ns :
  (name, opts) ∈ build_parser env → parse_options opts g = Ok ns →
  ∃ args c, connection_of ns = Some args ∧ command_of name ns = Some c ∧ command_name c = name ∧ well_typed env args c.
Proof.
  intros Hin Hp. destruct (command_there env name opts g ns Hin Hp) as (c & Hc & Hn & Hcf).
  destruct (connection_there opts g ns (parser_nodup env name opts Hin) Hp (parser_connection env name opts Hin))
    as (args & Ha & Haf & Hv).
  exists args, c. split; [done|]. split; [done|]. split; [done|]. split; [by apply Forall_app|done].
Qed.

Lemma frozenset_of_texts ss : ∃ ds, frozenset (JStr <$> ss) = Ok ds.
Proof. unfold frozenset. replace (List.find _ _) with (@None json) by (by induction ss). eauto. Qed.

(** A policy is built unless the verifier was given as [--]. *)
Lemma typed_policy env args c :
  well_typed env args c → a_verifier args ≠ JList [] → ∃ policy, _build_policy args = Ok policy.
Proof.
  intros [Hf Hv] Hne. unfold _build_policy.
  assert (Hd : field_ok (Field "expected_digest" KText (Some JNull) (a_expected_digest args))).
  { rewrite Forall_forall in Hf. apply Hf. unfold fields. apply elem_of_app. left. apply list_elem_of_In. cbn. tauto. }
  rewrite !elem_of_cons, elem_of_nil in Hv. destruct Hv as [->|[->|[Hl|[]]]]; [by eexists| |done]. cbn [py_eq String.eqb Ascii.eqb Bool.eqb].
  destruct Hd as [[= Hd]|Hd]; cbn in Hd; [rewrite <- Hd; by eexists|].
  destruct (a_expected_digest args) as [| | | |s|l|]; try done; [|subst l; by eexists].
  cbn [truthy]. destruct (negb _); [|by eexists]. destruct (frozenset_of_texts (digest_list s)) as [ds ->]. by eexists.
Qed.

(** ** The program *)

Section program.
Context `{Host, X509, PyJWT, PyJson, Grpc}.
(** [sys.stdin.read()] *)
Variable stdin_text : string.

(** [main()] on the words of the command line. No namespace of the parser takes
    the last case ([parsed_command]). *)
Definition cli_program (argv : list string) : ST cli exn unit :=
  args ← lift (parse_args (build_parser os_environ) argv);
  match args with
  | None => cli_main stdin_text None
  | Some (name, ns) =>
      match connection_of ns, command_of name ns with
      | Some conn, Some c => cli_main stdin_text (Some (conn, c))
      | _, _ => raise (exit_1 [])
      end
  end.

Lemma parsers_nodup env : Forall (λ e, NoDup (o_name <$> e.2)) (build_parser env).
Proof. apply Forall_forall. intros [name opts] Hin. by eapply parser_nodup. Qed.

(** C36: the client on any command line, whatever its words are. Parsing ends. A
    command line that does not parse exits with status 0 (help) or 2 (usage)
    and one without words with status 1, with nothing connected. Any other one
    names a subcommand, all the attributes the command reads are there, each at
    its default or with the type of its option (or an empty list, for the word
    [--]); the verifier is one of the two known ones, with a policy that is
    built, or that empty list; and the command runs with those arguments and
    ends without an [Exception] reaching the interpreter. *)
Theorem cli_program_total argv :
  let '(r, s) := cli_program argv init_cli in
  match parse_args (build_parser os_environ) argv with
  | Raise e => (r, s) = (Raise e, init_cli) ∧ (exn_type e = SystemExit 0 ∨ exn_type e = SystemExit 2)
  | Ok None => argv = [] ∧ (r, s) = (Raise (exit_1 []), init_cli)
  | Ok (Some (name, ns)) =>
      ∃ args c, connection_of ns = Some args ∧ command_of name ns = Some c ∧ command_name c = name ∧
        well_typed os_environ args c ∧
        (a_verifier args = JList [] ∨ ∃ policy, _build_policy args = Ok policy) ∧
        (r, s) = cli_main stdin_text (Some (args, c)) init_cli ∧
        ∀ e, r = Raise e → is_exception e = false
  end.
Proof.
  destruct (cli_program argv init_cli) as [r s] eqn:Hr.
  pose proof (parse_args_orderly (build_parser os_environ) argv) as Ho.
  unfold cli_program, mbind, ST_bind, lift in Hr.
  destruct (parse_args (build_parser os_environ) argv) as [[[name ns]|]|e] eqn:Hp.
  - destruct (command_given _ argv name ns (parsers_nodup os_environ) Hp) as (opts & g & Hin & Hg).
    destruct (parsed_command os_environ name opts g ns Hin Hg) as (args & c & Ha & Hc & Hn & Ht).
    rewrite Ha, Hc in Hr. exists args, c. rewrite Hr. do 4 (split; [done|]). split.
    { destruct (decide (a_verifier args = JList [])); [by left|right]. by eapply typed_policy. }
    split; [done|]. exact (proj1 (cli_exits _ _ _ _ _ Hr)).
  - split; [by eapply no_command|]. by rewrite <- Hr.
  - by rewrite <- Hr.
Qed.
End program.

(** ** Writing a command line *)

(** The text that gives an option its value; flags have none. *)
Definition field_text (v : json) : option string :=
  match v with
  | JStr s => Some s
  | JInt z => Some (pretty z)
  | JList _ => Some "--"
  | _ => None
  end.

(** An attribute at its default needs no option. [style] says of each option
    whether its value is written after an equals sign or as a word of its own;
    a value that starts with a dash is always written after an equals sign. *)
Definition field_words (style : string → bool) (f : field) : list (bool * (string * option string)) :=
  if bool_decide (f_default f = Some (f_value f)) then []
  else [(style (f_name f) || starts_with_dash (default "" (field_text (f_value f))), (f_name f, field_text (f_value f)))].

Definition all_words (style : string → bool) (fs : list field) : list (bool * (string * option string)) :=
  concat (field_words style <$> fs).

(** A command line for a call *)
Definition command_line (env : environ) (style : string → bool) (args : connection_args) (c : command) : list string :=
  command_name c :: concat (words_of <$> all_words style (fields env args c)).

Section written.
Variables (opts : list opt) (style : string → bool).
Hypothesis Hnodup : NoDup (o_name <$> opts).

(** The parser declares the option of the field. *)
Definition field_declared (f : field) : Prop :=
  ∃ o, List.find (λ o, String.eqb (o_name o) (f_name f)) opts = Some o ∧ o_kind o = f_kind f ∧
    (∀ d, f_default f = Some d → o_default o = d) ∧ (∀ s, f_value f = JStr s → chosen o s = true).

Lemma field_fits f : field_declared f → field_ok f → Forall (fits opts) (field_words style f).
Proof.
  intros (o & Ho & Hk & _) Hok. unfold field_words. case_bool_decide as Hd; [constructor|].
  destruct Hok as [Hok|Hok]; [done|]. constructor; [|constructor].
  apply List.find_some in Ho as [Hin%list_elem_of_In He%String.eqb_eq]. exists o. cbn [fst snd].
  split; [done|]. split; [done|]. unfold takes_value. rewrite Hk.
  destruct (f_kind f), (f_value f) as [| | | | |l|]; try done; cbn [field_text default];
    match goal with
    | |- context [?b || starts_with_dash ?t] => destruct b, (starts_with_dash t) eqn:Hdash; cbn [orb]
    | _ => idtac
    end; try done; by destruct (style _).
Qed.

(** Storing the words of a field sets it, or leaves its default. *)
Lemma field_stored f ns :
  field_declared f → field_ok f →
  store_options opts (snd <$> field_words style f) ns =
  Ok (if bool_decide (f_default f = Some (f_value f)) then ns else set_key (f_name f) (f_value f) ns).
Proof.
  intros (o & Ho & Hk & _ & Hch) Hok. unfold field_words. case_bool_decide as Hd; [done|].
  destruct Hok as [Hok|Hok]; [done|]. cbn [fmap list_fmap snd store_options]. rewrite Ho.
  enough (Hg : get_values o (field_text (f_value f)) = Ok (f_value f)) by (by rewrite Hg).
  unfold get_values, convert. rewrite Hk.
  destruct (f_kind f), (f_value f) as [| |i| | |l|] eqn:Hv; try done; cbn [field_value] in Hok; cbn [field_text].
  - rewrite (proj2 (String.eqb_neq _ _) Hok), (Hch _ eq_refl). done.
  - by subst l.
  - rewrite int_of_string_pretty. destruct (String.eqb_spec (pretty i) "--") as [He|_]; [|done].
    pose proof (int_of_string_pretty i) as Hi. by rewrite He in Hi.
  - by subst l.
  - by subst.
Qed.

Lemma fields_stored fs ns :
  NoDup (f_name <$> fs) → Forall field_declared fs → Forall field_ok fs →
  (∀ f d, f ∈ fs → f_default f = Some d → attribute ns (f_name f) = Some d) →
  ∃ ns', store_options opts (snd <$> all_words style fs) ns = Ok ns' ∧
    (∀ f, f ∈ fs → attribute ns' (f_name f) = Some (f_value f)) ∧
    (∀ k, k ∉ (f_name <$> fs) → attribute ns' k = attribute ns k).
Proof.
  revert ns. induction fs as [|f fs IH]; intros ns Hnd Hdec Hok Hns.
  { exists ns. split; [done|]. split; [by intros f ?%elem_of_nil|done]. }
  rewrite fmap_cons in Hnd. apply NoDup_cons in Hnd as [Hf Hnd].
  apply Forall_cons in Hdec as [Hd Hdec]. apply Forall_cons in Hok as [Ho Hok].
  pose proof (field_stored f ns Hd Ho) as Hst. set (ns1 := if bool_decide _ then _ else _) in Hst.
  assert (Hother : ∀ k, k ≠ f_name f → attribute ns1 k = attribute ns k).
  { intros k Hk. unfold ns1. case_bool_decide; [done|]. unfold attribute. rewrite lookup_set_key.
    destruct (String.eqb_spec (f_name f) k); [congruence|done]. }
  assert (Hself : attribute ns1 (f_name f) = Some (f_value f)).
  { unfold ns1. case_bool_decide as Hdf; [by apply (Hns f); [left|]|]. unfold attribute. by rewrite lookup_set_key, String.eqb_refl. }
  destruct (IH ns1 Hnd Hdec Hok) as (ns' & Hs & Hall & Hrest).
  { intros f' d Hin Hf'. rewrite Hother; [apply Hns; [by right|done]|]. intros He. destruct Hf. rewrite <- He. by apply list_elem_of_fmap_2. }
  exists ns'. unfold all_words. rewrite fmap_cons. cbn [concat]. rewrite fmap_app, store_app, Hst, ret_bind.
  split; [exact Hs|]. split.
  - intros f' [->|Hin]%elem_of_cons; [by rewrite Hrest|by apply Hall].
  - intros k Hk. rewrite fmap_cons, not_elem_of_cons in Hk. destruct Hk as [Hk1 Hk2]. by rewrite Hrest, Hother.
Qed.

(** Writing all the fields of a parser out sets each of them. *)
Lemma fields_parsed fs :
  table_ok (option_table opts) = true → NoDup (f_name <$> fs) → Forall field_declared fs → Forall field_ok fs →
  (∀ o, o ∈ opts → o_required o = true → ∃ f, f ∈ fs ∧ f_name f = o_name o ∧ f_default f = None) →
  ∃ ns, parse_known_args opts (concat (words_of <$> all_words style fs)) = Ok (ns, []) ∧
    ∀ f, f ∈ fs → attribute ns (f_name f) = Some (f_value f).
Proof.
  intros Htab Hnd Hdec Hok Hreq.
  destruct (fields_stored fs (defaults opts) Hnd Hdec Hok) as (ns & Hs & Hall & _).
  { intros f d Hin Hf. rewrite Forall_forall in Hdec. destruct (Hdec f Hin) as (o & Ho & _ & Hdo & _).
    apply List.find_some in Ho as [Hino%list_elem_of_In He%String.eqb_eq].
    destruct (defaults_hold opts Hnodup o Hino) as (v & Hl & [Hv|[Hv _]]); rewrite <- He; unfold attribute; rewrite Hl.
    - pose proof (lookup_key_elem _ _ _ Hl) as Hel. unfold defaults in Hel. apply list_elem_of_fmap in Hel as (o' & [= Hn ->] & Ho').
      rewrite (NoDup_fmap_eq _ _ _ _ Hnodup Ho' Hino (eq_sym Hn)). by rewrite (Hdo d Hf).
    - by rewrite Hv, (Hdo d Hf). }
  exists ns. split; [|exact Hall]. rewrite parse_known_written; [| done | done |].
  - unfold parse_options. rewrite Hs, ret_bind. rewrite (proj2 (forallb_forall _ _)); [done|].
    intros o Hin%list_elem_of_In. destruct (o_required o) eqn:Hr; [|done]. cbn [negb orb].
    destruct (Hreq o Hin Hr) as (f & Hf & Hn & Hdf). apply existsb_exists. exists (o_name o).
    split; [|apply String.eqb_refl]. rewrite <- Hn. apply list_elem_of_In, list_elem_of_fmap.
    exists (f_name f, field_text (f_value f)). split; [done|]. apply list_elem_of_fmap.
    eexists. split; [|apply list_elem_of_In, in_concat; exists (field_words style f); split].
    2: { apply list_elem_of_In. by apply list_elem_of_fmap_2. }
    2: { unfold field_words. rewrite Hdf. cbn. by left. }
    done.
  - unfold all_words. apply Forall_concat, Forall_fmap, Forall_forall. intros f Hin. rewrite Forall_forall in Hdec, Hok.
    apply field_fits; auto.
Qed.
End written.

(** The parser of a call *)
Definition parser_of (env : environ) (c : command) : list opt :=
  default [] (snd <$> List.find (λ e, String.eqb e.1 (command_name c)) (build_parser env)).

Lemma parser_of_in env c : (command_name c, parser_of env c) ∈ build_parser env.
Proof. apply list_elem_of_In. destruct c; cbn; tauto. Qed.

Lemma fields_nodup env args c : NoDup (f_name <$> fields env args c).
Proof. destruct c; apply NoDup_ListNoDup; cbn; repeat constructor; cbn; intuition discriminate. Qed.

(** The parser of a call declares the options of its fields. *)
Lemma fields_declared env args c :
  a_verifier args ∈ [JStr "noop"; JStr "ita"; JList []] → Forall (field_declared (parser_of env c)) (fields env args c).
Proof.
  intros Hv. assert (Hch : ∀ s, a_verifier args = JStr s → existsb (String.eqb s) ["noop"; "ita"] = true).
  { intros s Hs. rewrite Hs, !elem_of_cons, elem_of_nil in Hv. by destruct Hv as [[= ->]|[[= ->]|[|]]]. }
  destruct c; unfold fields, connection_fields, command_fields, parser_of; cbn [app];
    repeat (constructor; [eexists; split; [reflexivity|]; split; [reflexivity|]; split; [by intros d [= <-]|done]|]);
    constructor.
Qed.

Lemma fields_required env args c o :
  o ∈ parser_of env c → o_required o = true →
  ∃ f, f ∈ fields env args c ∧ f_name f = o_name o ∧ f_default f = None.
Proof.
  intros Ho%list_elem_of_In Hr.
  assert (Hin : ∀ f, In f (fields env args c) → f_name f = o_name o → f_default f = None →
    ∃ f, f ∈ fields env args c ∧ f_name f = o_name o ∧ f_default f = None)
    by (intros f Hf; exists f; split; [by apply list_elem_of_In|done]).
  assert (Hf : ∀ name v, name = o_name o → In (Field name KText None v) (fields env args c) →
    ∃ f, f ∈ fields env args c ∧ f_name f = o_name o ∧ f_default f = None) by (intros name v Hn Hf; by apply (Hin _ Hf)).
  destruct c; cbn in Ho, Hf; repeat (destruct Ho as [<-|Ho]; [first [discriminate Hr|eapply Hf; [reflexivity|eauto 20]]|]);
    done.
Qed.

Lemma parsed_fields env args c ns :
  (∀ f, f ∈ fields env args c → attribute ns (f_name f) = Some (f_value f)) →
  connection_of ns = Some args ∧ command_of (command_name c) ns = Some c.
Proof.
  intros Hall. assert (Hin : ∀ name k d v, In (Field name k d v) (fields env args c) → attribute ns name = Some v)
    by (intros name k d v Hf; by apply (Hall (Field name k d v)), list_elem_of_In).
  split.
  - unfold connection_of.
    repeat (erewrite Hin by (apply in_or_app; left; cbn; eauto 20); cbn [mbind option_bind]). by destruct args.
  - unfold command_of. destruct c; cbn [command_name String.eqb Ascii.eqb Bool.eqb];
      repeat (erewrite Hin by (apply in_or_app; right; cbn; unfold token_field; eauto 20); cbn [mbind option_bind fmap option_map]); done.
Qed.

(** C37: every well-typed call can be written as a command line. Options at
    their documented default are left out, the token's being the environment
    variable; the others are written as [--name=value], as [--name value] when
    the value does not start with a dash, or, for flags, as [--name]. The
    command line is read back as the same call: subcommand, connection
    arguments and arguments of the command. *)
Theorem command_line_roundtrip env style args c :
  well_typed env args c →
  ∃ ns, parse_args (build_parser env) (command_line env style args c) = Ok (Some (command_name c, ns)) ∧
    connection_of ns = Some args ∧ command_of (command_name c) ns = Some c.
Proof.
  intros [Hok Hv]. pose proof (parser_of_in env c) as Hin.
  assert (Htab : table_ok (option_table (parser_of env c)) = true ∧ starts_with_dash (command_name c) = false)
    by (destruct c; by vm_compute).
  destruct Htab as [Htab Hn].
  destruct (fields_parsed (parser_of env c) style (parser_nodup env _ _ Hin) (fields env args c) Htab
    (fields_nodup env args c) (fields_declared env args c Hv) Hok (λ o, fields_required env args c o)) as (ns & Hp & Hall).
  exists ns. split; [|by eapply parsed_fields]. unfold command_line.
  rewrite (parse_args_command _ _ (parser_of env c)) by (done || by apply (bool_decide_eq_true_1 (NoDup (build_parser env).*1))).
  by rewrite Hp.
Qed.

(** ** Concrete runs *)

Section demo.
#[local] Instance args_host : Host := demo_host ∅.
#[local] Existing Instance demo_x509.
#[local] Existing Instance demo_jwt.
#[local] Existing Instance demo_json.
#[local] Instance args_grpc : Grpc := demo_grpc true.

(** Abbreviations, both forms of a value, and a short flag *)
Definition demo_argv : list string :=
  ["get_status"; "--ver=ita"; "--expected_digest"; "sha256:aa"; "-q"; "--tok"; "pt"; "--host=tee.example"; "--port"; "8443"].

Example demo_run : (cli_program "" demo_argv init_cli).1 = Ok tt.
Proof. vm_compute. reflexivity. Qed.

(** A port that is a list is an error like any other. *)
Example demo_list_port :
  (cli_program "" ["echo"; "--verifier=ita"; "--expected_digest=sha256:aa"; "--port=--"] init_cli).1 =
  Raise (exit_1 [Txt (ln "Error: "); Txt "Int or String expected"]).
Proof. vm_compute. reflexivity. Qed.

Definition demo_call : connection_args :=
  {| a_host := JStr "localhost"; a_port := JInt (-5); a_verifier := JStr "ita"; a_expected_digest := JNull;
     a_allow_debug_tee := JBool true; a_expected_project_id := JStr "p 1"; a_expected_service_account := JStr "";
     a_min_cs_version := JList [] |}.

Lemma demo_call_typed : well_typed (<["ZTAB_TOKEN" := "--"]> ∅) demo_call (SubmitInput (JStr "--") (JStr "{}")).
Proof.
  split; [|set_solver]. unfold fields, connection_fields, command_fields, token_field. cbn [app].
  rewrite lookup_insert_eq. repeat (constructor; [first [by left|by right]|]). constructor.
Qed.

Lemma command_line_roundtrip_witness : ∃ ns,
  parse_args (build_parser (<["ZTAB_TOKEN" := "--"]> ∅))
    ["submit_input"; "--port=-5"; "--verifier"; "ita"; "--allow_debug_tee"; "--expected_project_id=p 1";
     "--min_cs_version=--"; "--input=" +:+ "{}"] = Ok (Some ("submit_input", ns)) ∧
  connection_of ns = Some demo_call ∧ command_of "submit_input" ns = Some (SubmitInput (JStr "--") (JStr "{}")).
Proof.
  exact (command_line_roundtrip (<["ZTAB_TOKEN" := "--"]> ∅) (λ n, negb (String.eqb n "verifier")) demo_call
    (SubmitInput (JStr "--") (JStr "{}")) demo_call_typed).
Defined.
End demo.
