(* ===== verification/Scenario.v ===== *)
(** [examples/calendar/scenario.py] and its test data: the calendar scenario's
    cases and how it judges a result. *)

From S2P Require Import Prelude PyText PyPath PyValue Policy World DemoServer.

Open Scope Z_scope.

(** [a <= b] and [a == b] for sets given by their elements *)
Definition issubset (a b : list json) : bool := forallb (λ v, existsb (py_eq v) b) a.
Definition set_eq (a b : list json) : bool := Nat.eqb (length a) (length b) && issubset a b.
(** [a - b] *)
Definition set_diff (a b : list json) : list json := List.filter (λ v, negb (existsb (py_eq v) b)) a.

(** ** The cases *)

Record TestCase := {
  tc_name : string;
  tc_inputs : list dict;
  tc_expected_result : list json;
  tc_allow_subset : bool
}.

Definition PARTICIPANT_A_SLOTS : list json :=
  [JStr "2026-07-15T10:00:00Z"; JStr "2026-07-15T14:00:00Z"; JStr "2026-07-16T09:00:00Z"].
Definition PARTICIPANT_B_SLOTS : list json :=
  [JStr "2026-07-15T14:00:00Z"; JStr "2026-07-15T16:00:00Z"; JStr "2026-07-16T09:00:00Z"].
Definition EXPECTED_OVERLAP : list json :=
  [JStr "2026-07-15T14:00:00Z"; JStr "2026-07-16T09:00:00Z"].

Definition name : string := "calendar".
Definition scenario_policy_class : string := "ScheduleOverlap".
Definition num_participants : Z := 2.

(** [__file__] of the scenario is an argument. *)
Definition policy_json_path (file : string) : string := join (dirname file) "policy.json".

Definition get_test_cases : list TestCase :=
  [{| tc_name := "full_overlap";
      tc_inputs := [[("available_slots", JList PARTICIPANT_A_SLOTS)];
                    [("available_slots", JList PARTICIPANT_B_SLOTS)]];
      tc_expected_result := EXPECTED_OVERLAP;
      tc_allow_subset := false |}].

(** ** The judgement *)

Section scenario.
Context `{PyJson}.

(** The parsed result, or the reason it is no JSON. *)
Definition parse_result (result_json : json) : res (list frag + json) :=
  match result_json with
  | JStr s =>
      match json_loads s with
      | Ok v => Ok (inr v)
      | Raise e => if bool_decide (exn_type e = JSONDecodeError) then Ok (inl (exn_msg e)) else Raise e
      end
  | v => Ok (inr v)
  end.

Definition validate_result (result_json : json) (expected : list json) (allow_subset : bool)
  : res (bool * list frag) :=
  result ← parse_result result_json;
  match result with
  | inl e => Ok (false, Txt "Invalid JSON: " :: e)
  | inr result =>
      expected_set ← frozenset expected;
      items ← py_iter result;
      got ← frozenset items;
      if set_eq got expected_set then Ok (true, [Txt "Exact match."])
      else if allow_subset && issubset got expected_set && (1 <=? length got)%nat then
        Ok (true, [Txt "Subset match (missing: "; Val (JList (set_diff expected_set got)); Txt ")."])
      else
        e ← py_sorted expected_set;
        g ← py_sorted got;
        Ok (false, [Txt "Expected "; Val (JList e); Txt ", got "; Val (JList g); Txt "."])
  end.

(** ** Properties *)

Lemma frozenset_texts_dup ss : ∃ ts, frozenset (JStr <$> ss) = Ok (JStr <$> ts) ∧ NoDup ts ∧ ∀ t, t ∈ ts ↔ t ∈ ss.
Proof.
  unfold frozenset. replace (List.find _ (JStr <$> ss)) with (@None json) by (by induction ss).
  cut (∃ ts, dedup (JStr <$> ss) = JStr <$> ts ∧ NoDup ts ∧ ∀ t, t ∈ ts ↔ t ∈ ss).
  { intros (ts & -> & ? & ?). by exists ts. }
  induction ss as [|s ss (ts & Hts & Hnd & Hin)]; [exists []; repeat split; [constructor|done..]|].
  exists (s :: List.filter (λ t, negb (String.eqb s t)) ts). rewrite !fmap_cons. cbn [dedup]. rewrite Hts.
  assert (Hf : ∀ t, t ∈ List.filter (λ t, negb (String.eqb s t)) ts ↔ t ∈ ts ∧ t ≠ s).
  { intros t. rewrite !list_elem_of_In, filter_In, negb_true_iff, String.eqb_neq.
    split; intros [? ?]; split; auto. }
  split; [|split].
  - f_equal. clear. induction ts as [|t ts IH]; [done|]. rewrite fmap_cons. cbn [List.filter].
    change (py_eq (JStr s) (JStr t)) with (String.eqb s t). rewrite IH. by destruct (String.eqb s t).
  - apply NoDup_cons. split; [by rewrite Hf; intros []|]. apply NoDup_ListNoDup, List.NoDup_filter. by apply NoDup_ListNoDup.
  - intros t. rewrite !elem_of_cons, Hf, Hin. destruct (decide (t = s)); tauto.
Qed.

Lemma issubset_texts a b : issubset (JStr <$> a) (JStr <$> b) = true ↔ ∀ t, t ∈ a → t ∈ b.
Proof.
  unfold issubset. rewrite forallb_forall. split.
  - intros Hs t Ht. specialize (Hs (JStr t)). rewrite <- list_elem_of_In, existsb_py_eq_str in Hs.
    assert (Hm : JStr t ∈ JStr <$> b) by (apply Hs, list_elem_of_fmap_2, Ht).
    by apply list_elem_of_fmap in Hm as (t' & [= ->] & ?).
  - intros Hs v Hv%list_elem_of_In. apply list_elem_of_fmap in Hv as (t & -> & Ht).
    apply existsb_py_eq_str, list_elem_of_fmap_2. auto.
Qed.

Lemma set_eq_texts a b :
  NoDup a → NoDup b → set_eq (JStr <$> a) (JStr <$> b) = true ↔ ∀ t, t ∈ a ↔ t ∈ b.
Proof.
  intros Ha Hb. unfold set_eq. rewrite andb_true_iff, Nat.eqb_eq, !length_fmap, issubset_texts. split.
  - intros [Hl Hs] t. split; [auto|]. intros Ht.
    assert (Hp : a ≡ₚ b) by (apply submseteq_length_Permutation; [by apply NoDup_submseteq|lia]).
    by rewrite Hp.
  - intros He. split; [|intros t Ht; by apply He]. apply Permutation_length, NoDup_Permutation; done.
Qed.

(** Each case has one input per participant, and its expected result passes its
    own judgement. *)
Lemma test_cases_consistent tc :
  tc ∈ get_test_cases →
  Z.of_nat (length (tc_inputs tc)) = num_participants ∧
  validate_result (JList (tc_expected_result tc)) (tc_expected_result tc) (tc_allow_subset tc) =
    Ok (true, [Txt "Exact match."]).
Proof. intros Htc. apply list_elem_of_singleton in Htc as ->. split; vm_compute; reflexivity. Qed.

(** C34: the verdict on a result. For a list of slots the judgement never
    fails with an exception, and passes exactly when the result is the expected
    set of slots, in any order and with repetitions, or, where partial matches
    are allowed, a non-empty part of it. *)
Theorem result_verdict got expected allow_subset :
  ∃ passed detail,
    validate_result (JList (JStr <$> got)) (JStr <$> expected) allow_subset = Ok (passed, detail) ∧
    (passed = true ↔
      (∀ t, t ∈ got ↔ t ∈ expected) ∨
      (allow_subset = true ∧ (∀ t, t ∈ got → t ∈ expected) ∧ got ≠ [])).
Proof.
  unfold validate_result. cbn [parse_result]. rewrite ret_bind.
  destruct (frozenset_texts_dup expected) as (es & -> & Hes & Hes'). cbn [py_iter]. rewrite !ret_bind.
  destruct (frozenset_texts_dup got) as (gs & -> & Hgs & Hgs'). rewrite ret_bind.
  assert (Hq : (∀ t, t ∈ got ↔ t ∈ expected) ↔ ∀ t, t ∈ gs ↔ t ∈ es)
    by (split; intros Ht t; specialize (Ht t); specialize (Hes' t); specialize (Hgs' t); tauto).
  assert (Hs : (∀ t, t ∈ got → t ∈ expected) ↔ ∀ t, t ∈ gs → t ∈ es)
    by (split; intros Ht t; specialize (Ht t); specialize (Hes' t); specialize (Hgs' t); tauto).
  assert (Hne : got ≠ [] ↔ (1 <=? length (JStr <$> gs))%nat = true).
  { rewrite length_fmap, Nat.leb_le. split.
    - intros Hg. destruct got as [|t got]; [done|]. destruct gs; [|cbn; lia].
      assert (Ht : t ∈ @nil string) by (apply Hgs', elem_of_cons; by left). by apply elem_of_nil in Ht.
    - intros Hl ->. destruct gs as [|t gs]; [cbn in Hl; lia|].
      assert (Ht : t ∈ @nil string) by (apply Hgs', elem_of_cons; by left). by apply elem_of_nil in Ht. }
  pose proof (set_eq_texts gs es Hgs Hes) as Heq. pose proof (issubset_texts gs es) as Hsub.
  destruct (set_eq (JStr <$> gs) (JStr <$> es)); [eexists true, _; split; [done|]; tauto|].
  destruct allow_subset, (issubset (JStr <$> gs) (JStr <$> es)), (1 <=? length (JStr <$> gs))%nat; cbn [andb];
    try (eexists true, _; split; [done|]; tauto);
    (destruct (py_sorted_texts es) as (e & -> & _); destruct (py_sorted_texts gs) as (g & -> & _);
     eexists false, _; split; [done|]; rewrite Hq, Hs, Hne, <- Hsub, <- Heq; intuition discriminate).
Qed.
End scenario.
