(* ===== verification/Diagnose.v ===== *)
(** [agent/diagnose_tls.py]: the TLS connectivity test.

    The script prints; its lines are part of the state. Its exit status is the
    outcome of [main]: [Ok] is status 0, [SystemExit n] is status [n], and any
    other exception ends the process with a traceback and status 1. *)

From S2P Require Import Prelude PyText Base64 PyValue External Attestation Policy World ItaVerifier Rpc Client Backends McpServer Cli ArgParse CliArgs Examples DemoServer.

Open Scope Z_scope.

(** What the script displays of a certificate, beyond [X509]: the texts of
    [cert.subject], [cert.issuer] and the two validity dates. *)
Class X509Display `{X509} := {
  cert_subject : Cert → res string;
  cert_issuer : Cert → res string;
  not_valid_before_utc : Cert → res string;
  not_valid_after_utc : Cert → res string
}.

Record diagnosis := Diagnosis { d_world : world; d_out : list log_line }.

Definition init_diagnosis : diagnosis := Diagnosis init_world [].

Definition d_on_world {A : Type} (m : ST world exn A) : ST diagnosis exn A :=
  zoom d_world (λ w s, Diagnosis w (d_out s)) m.

Definition say (line : log_line) : ST diagnosis exn unit :=
  modify (λ s, Diagnosis (d_world s) (d_out s ++ [line])).

Fixpoint say_all (lines : list log_line) : ST diagnosis exn unit :=
  match lines with [] => mret tt | l :: ls => say l;; say_all ls end.

(** ["=" * 70] *)
Definition rule : log_line := [Txt (eq_pad 70)].

(** [checks]: the claims the script compares, with their expected values. *)
Definition checks : list (string * json) :=
  [("iss", JStr "https://confidentialcomputing.googleapis.com");
   ("hwmodel", JStr "GCP_INTEL_TDX");
   ("secboot", JBool true)].

(** [v[:40]]; a slice is no key of a dict. *)
Definition first_40 (v : json) : res json :=
  match v with
  | JStr s => Ok (JStr (String.concat "" (take 40 (text_chars s))))
  | JList l => Ok (JList (take 40 l))
  | JObj _ => Raise (Exn TypeError [Txt "unhashable type: 'slice'"])
  | _ => Raise (Exn TypeError [Txt ("'" +:+ type_name v +:+ "' object is not subscriptable")])
  end.

Definition check_status (actual expected : json) : string :=
  if py_eq actual expected then "OK" else "MISMATCH".

Definition check_line (key : string) (actual expected : json) : log_line :=
  [Txt "  "; Txt key; Txt ": "; Val actual; Txt " ["; Txt (check_status actual expected); Txt "]"].

(** The loop over [checks]; the flag is [all_ok]. *)
Fixpoint run_checks (cs : list (string * json)) (payload : json) (all_ok : bool)
  : ST diagnosis exn bool :=
  match cs with
  | [] => mret all_ok
  | (key, expected) :: cs' =>
      actual ← lift (py_get payload key JNull);
      say (check_line key actual expected);;
      run_checks cs' payload
        (if String.eqb (check_status actual expected) "OK" then all_ok else false)
  end.

Definition PASSED : log_line := [Txt "TLS connectivity test PASSED."].

Section diagnose.
Context `{Host, X509, !X509Display, PyJson}.

Definition fetch_cert_and_extract_token (host port : json)
  : ST diagnosis exn (list byte * option string) :=
  port ← lift (socket_port port);
  der_cert ← d_on_world (tls_certificate host port);
  match der_cert with
  | None => raise (Exn RuntimeError [Txt "Server did not present a certificate."])
  | Some der =>
      cert ← lift (load_der_x509_certificate der);
      let cert_pem := cert_pem_bytes cert in
      token ← lift (extract_attestation_token cert_pem);
      mret (cert_pem, token)
  end.

(** As in the MCP server, lengths are in bytes. *)
Definition decode_jwt_payload (token : string) : option json :=
  match split_on "." token with
  | _ :: payload_b64 :: _ =>
      let payload_b64 := payload_b64 +:+ eq_pad (4 - String.length payload_b64 `mod` 4) in
      let payload_b64 := replace_char "_" "/" (replace_char "-" "+" payload_b64) in
      match b64decode_text payload_b64 with
      | None => None
      | Some payload_bytes =>
          match json_loads_bytes payload_bytes with Ok v => Some v | Raise _ => None end
      end
  | _ => None
  end.

(** [except Exception as e: ...; sys.exit(1)] *)
Definition connect_failure {A : Type} (e : exn) : option (ST diagnosis exn A) :=
  if is_exception e
  then Some (raise (exit_1 (Txt "FAILED: Could not connect: " :: exn_msg e)))
  else None.

Definition show_certificate (cert_pem : list byte) : ST diagnosis exn unit :=
  cert ← lift (load_pem_x509_certificate cert_pem);
  subject ← lift (cert_subject cert);
  say [Txt "Certificate Subject: "; Txt subject];;
  issuer ← lift (cert_issuer cert);
  say [Txt "Certificate Issuer:  "; Txt issuer];;
  before ← lift (not_valid_before_utc cert);
  say [Txt "Not Before: "; Txt before];;
  after ← lift (not_valid_after_utc cert);
  say [Txt "Not After:  "; Txt after];;
  say [].

Definition show_payload (payload : json) : ST diagnosis exn unit :=
  say [Txt "Decoded JWT payload (mock attestation claims):"];;
  say [Val payload];;
  say [];;
  all_ok ← run_checks checks payload true;
  present ← lift (py_in (JStr "eat_nonce") payload);
  (if present : bool then
     nonce ← lift (py_getitem payload "eat_nonce");
     shown ← lift (first_40 nonce);
     say [Txt "  eat_nonce: "; Val shown; Txt "... [PRESENT]"]
   else mret tt);;
  say [].

Definition final_lines : list log_line :=
  [PASSED;
   [Txt "  - TLS handshake:       OK"];
   [Txt "  - Certificate:         Self-signed, CN=ztab-tee"];
   [Txt "  - Attestation token:   Extracted from custom X.509 extension"];
   [Txt "  - Token format:        Unsigned JWT (mock, alg=none)"]].

(** [main()] after the arguments are parsed *)
Definition diagnose (host port : json) : ST diagnosis exn unit :=
  say [Txt "Connecting to "; Val host; Txt ":"; Val port; Txt " via TLS..."];;
  r ← try_except (fetch_cert_and_extract_token host port) connect_failure;
  let '(cert_pem, token) := r in
  say [Txt "TLS connection established. Certificate received ("; Val (JInt (Z.of_nat (length cert_pem)));
       Txt " bytes PEM)."];;
  say [];;
  show_certificate cert_pem;;
  match token with
  | None =>
      say [Txt "WARNING: No attestation extension found in certificate."];;
      say [Txt "  Expected OID: "; Txt ATTESTATION_OID];;
      raise (exit_1 [])
  | Some token =>
      say [Txt "Attestation token extracted from X.509 extension (OID "; Txt ATTESTATION_OID; Txt "):"];;
      say rule;; say [Txt token];; say rule;; say [];;
      match decode_jwt_payload token with
      | Some payload => if truthy payload then show_payload payload else mret tt
      | None => mret tt
      end;;
      say_all final_lines
  end.

Definition diagnose_parser : list opt := [text_opt "host" "localhost"; int_opt "port" (JInt 8000)].

(** Both options have defaults: the last case is never taken. *)
Definition main (argv : list string) : ST diagnosis exn unit :=
  ns ← lift (parse_flat_args diagnose_parser argv);
  match attribute ns "host", attribute ns "port" with
  | Some h, Some p => diagnose h p
  | _, _ => raise (Exn AttributeError [])
  end.

(** ** What the exit status says *)

(** The certificate can be displayed. *)
Definition displayable (cert_pem : list byte) : Prop :=
  ∃ cert s i b a, load_pem_x509_certificate cert_pem = Ok cert ∧
    cert_subject cert = Ok s ∧ cert_issuer cert = Ok i ∧
    not_valid_before_utc cert = Ok b ∧ not_valid_after_utc cert = Ok a.

(** The payload is one the script can go through: nothing, an empty value, or
    an object whose nonce, if any, is a text or a list. *)
Definition showable (payload : option json) : Prop :=
  match payload with
  | None => True
  | Some v => truthy v = false ∨
      ∃ d, v = JObj d ∧
        match lookup_key "eat_nonce" d with Some (JStr _ | JList _) | None => True | _ => False end
  end.

(** The line for one check of an object's claims. *)
Definition claim_line (d : dict) (c : string * json) : log_line :=
  check_line c.1 (default JNull (lookup_key c.1 d)) c.2.

Definition add_lines (ls : list log_line) (s : diagnosis) : diagnosis := Diagnosis (d_world s) (d_out s ++ ls).

Lemma add_lines_app l1 l2 s : add_lines l2 (add_lines l1 s) = add_lines (l1 ++ l2) s.
Proof. unfold add_lines. cbn. by rewrite (assoc_L (++)). Qed.

Lemma say_run l s : say l s = (Ok tt, add_lines [l] s).
Proof. done. Qed.

Lemma say_all_run ls s : say_all ls s = (Ok tt, add_lines ls s).
Proof.
  revert s. induction ls as [|l ls IH]; intros s; cbn [say_all].
  - unfold add_lines. rewrite app_nil_r. by destruct s.
  - rewrite (st_bind_run _ _ _ _ _ (say_run l s)), IH. by rewrite add_lines_app.
Qed.

Lemma run_checks_object cs d b s :
  ∃ b', run_checks cs (JObj d) b s = (Ok b', add_lines (claim_line d <$> cs) s).
Proof.
  revert b s. induction cs as [|[k e] cs IH]; intros b s; cbn [run_checks].
  - exists b. unfold add_lines. rewrite app_nil_r. by destruct s.
  - erewrite st_bind_run by reflexivity. erewrite st_bind_run by reflexivity.
    destruct (IH (if String.eqb (check_status (default JNull (lookup_key k d)) e) "OK" then b else false)
      (add_lines [claim_line d (k, e)] s)) as [b' Hb]. exists b'.
    rewrite add_lines_app in Hb. rewrite fmap_cons, <- (app_nil_l (_ <$> cs)), app_comm_cons, <- Hb.
    unfold claim_line. cbn [fst snd]. by destruct (lookup_key k d).
Qed.

(** The part of the script that goes through the claims. *)
Lemma show_payload_run v s :
  truthy v = true →
  match show_payload v s with
  | (Ok _, s') => showable (Some v) ∧
      ∀ d, v = JObj d → ∃ before after, d_out s' = d_out s ++ before ++ (claim_line d <$> checks) ++ after
  | (Raise e, s') => ¬ showable (Some v)
  end.
Proof.
  intros Ht. unfold show_payload. do 3 erewrite st_bind_run by reflexivity.
  destruct v as [|b|z|q|t|l|d]; try (cbn in Ht |- *; intros [Hf|(d & ? & _)]; congruence).
  destruct (run_checks_object checks d true (add_lines [[]] (add_lines [[Val (JObj d)]]
    (add_lines [[Txt "Decoded JWT payload (mock attestation claims):"]] s)))) as [b' Hb].
  erewrite st_bind_run by exact Hb. erewrite st_bind_run by reflexivity. clear Hb.
  unfold py_getitem, showable, say, add_lines. rewrite Ht.
  destruct (lookup_key "eat_nonce" d) as [n|] eqn:Hn; [destruct n|];
    st_unfold; cbn [first_40 d_out d_world];
    try (intros [Hf|(d' & [= <-] & Hm)]; [congruence|by rewrite Hn in Hm]);
    (split; [right; exists d; by rewrite Hn|]; intros d' [= <-];
     eexists [_; _; _], _; rewrite <- !(assoc_L (++)); reflexivity).
Qed.

Lemma show_certificate_run pem s :
  match show_certificate pem s with
  | (Ok _, s') => displayable pem ∧ ∃ ls, s' = add_lines ls s
  | (Raise e, _) => ¬ displayable pem
  end.
Proof.
  unfold show_certificate, displayable, say. st_unfold. repeat case_match; inv_ok.
  all: try (intros (c & s' & i & b & a' & [= ] & ? & ? & ? & ?); subst; congruence).
  split; [by eauto 12|]. unfold add_lines. cbn. rewrite <- !(assoc_L (++)). eauto.
Qed.
(** Fetching neither reads nor writes the printed lines. *)
Lemma fetch_add_lines host port ls s :
  fetch_cert_and_extract_token host port (add_lines ls s) =
  ((fetch_cert_and_extract_token host port s).1, add_lines ls (fetch_cert_and_extract_token host port s).2).
Proof.
  unfold fetch_cert_and_extract_token, d_on_world, zoom, tls_certificate, tick, add_lines.
  st_unfold. destruct (socket_port port) as [p|]; [|done]. cbn. destruct (tls_peer_certificate _ _ _) as [[der|]|]; [|done..].
  cbn. by repeat case_match.
Qed.

(** The claims of a token, and the end of the script. *)
Lemma show_token_run token s :
  match (match decode_jwt_payload token with
         | Some payload => if truthy payload then show_payload payload else mret tt
         | None => mret tt
         end;; say_all final_lines) s with
  | (Ok _, s') => showable (decode_jwt_payload token) ∧ PASSED ∈ d_out s' ∧
      ∀ d, decode_jwt_payload token = Some (JObj d) → d ≠ [] →
        ∀ c, c ∈ checks → claim_line d c ∈ d_out s'
  | (Raise e, _) => ¬ showable (decode_jwt_payload token)
  end.
Proof.
  assert (Hp : ∀ s, PASSED ∈ d_out (add_lines final_lines s)).
  { intros s0. apply elem_of_app. right. apply elem_of_cons. by left. }
  destruct (decode_jwt_payload token) as [v|]; [|cbn [showable]; unfold mbind, ST_bind; cbn [mret ST_ret];
    rewrite say_all_run; by repeat split].
  destruct (truthy v) eqn:Ht.
  - pose proof (show_payload_run v s Ht) as Hr. unfold mbind, ST_bind.
    destruct (show_payload v s) as [[[]|e] s']; [|exact Hr]. rewrite say_all_run.
    destruct Hr as [Hs Hl]. split; [done|]. split; [done|]. intros d [= ->] _ c Hc.
    destruct (Hl d eq_refl) as (b & a & He). cbn. rewrite He, !elem_of_app.
    left. right. right. left. by apply list_elem_of_fmap_2.
  - unfold mbind, ST_bind. cbn [mret ST_ret]. rewrite say_all_run. split; [by left|]. split; [done|].
    intros d [= ->] Hd. by destruct d.
Qed.

(** C39: the verdict of the connectivity test. It ends with status 0 exactly
    when the handshake yielded a certificate that carries a token, the
    certificate can be displayed, and the token's payload is one the script can
    go through: unreadable, empty, or an object whose [eat_nonce], if it has
    one, is a text or a list (any other payload, such as a number or an object
    with a number as nonce, ends it with an exception, status 1). It then
    announces success, also after reporting that the issuer, the hardware model
    or secure boot do not match. A failed connection or a certificate without
    token ends it with status 1. *)
Theorem diagnose_verdict host port :
  let '(r, s) := diagnose host port init_diagnosis in
  let fetched := (fetch_cert_and_extract_token host port init_diagnosis).1 in
  (r = Ok tt ↔ ∃ pem token, fetched = Ok (pem, Some token) ∧ displayable pem ∧
     showable (decode_jwt_payload token)) ∧
  (∀ pem token, r = Ok tt → fetched = Ok (pem, Some token) →
     PASSED ∈ d_out s ∧
     ∀ d key expected, decode_jwt_payload token = Some (JObj d) → d ≠ [] → (key, expected) ∈ checks →
       check_line key (default JNull (lookup_key key d)) expected ∈ d_out s) ∧
  (∀ e, fetched = Raise e → is_exception e = true →
     r = Raise (exit_1 (Txt "FAILED: Could not connect: " :: exn_msg e))) ∧
  (∀ pem, fetched = Ok (pem, None) → displayable pem → r = Raise (exit_1 [])).
Proof.
  unfold diagnose. rewrite (st_bind_run _ _ _ _ _ (say_run _ _)).
  rewrite st_bind_eq. unfold try_except. rewrite fetch_add_lines.
  destruct (fetch_cert_and_extract_token host port init_diagnosis) as [[[pem token]|e] s1]; cbn [fst snd].
  2:{ unfold connect_failure. destruct (is_exception e) eqn:He; cbn;
        (split; [split; [done|by intros (? & ? & [=] & _)]|]); (split; [done|]); (split; [|done]);
        intros e' [= <-]; [done|congruence]. }
  do 2 rewrite (st_bind_run _ _ _ _ _ (say_run _ _)).
  match goal with |- context [(show_certificate pem ≫= _) ?s] =>
    pose proof (show_certificate_run pem s) as Hc; rewrite st_bind_eq; destruct (show_certificate pem s) as [[[]|e] s2] end.
  2:{ split; [split; [done|by intros (? & ? & [= -> _] & ? & _)]|]. split; [done|]. split; [done|].
      by intros ? [= -> _]. }
  destruct Hc as [Hd _]. destruct token as [token|].
  2:{ cbn. split; [split; [done|by intros (? & ? & [=] & _)]|]. by split. }
  do 5 rewrite (st_bind_run _ _ _ _ _ (say_run _ _)).
  match goal with |- context [(_ ≫= λ _, say_all final_lines) ?s] =>
    pose proof (show_token_run token s) as Ht; destruct ((_ ≫= λ _, say_all final_lines) s) as [[[]|e] s3] end.
  - destruct Ht as (Hs & Hp & Hl). split; [split; [eauto|done]|]. split; [|by split].
    intros ? t _ [= <- <-]. split; [done|]. intros d k e Hdec Hne Hin. exact (Hl d Hdec Hne (k, e) Hin).
  - split; [split; [done|by intros (? & ? & [= -> ->] & _ & ?)]|]. by split.
Qed.
End diagnose.

(** ** A concrete run: a debug token of another issuer, and the success message *)

Section demo.
#[local] Instance demo_h : Host := demo_host ∅.
#[local] Instance demo_x : X509 := {|
  Cert := list byte;
  load_pem_x509_certificate := Ok;
  load_der_x509_certificate := Ok;
  cert_pem_bytes c := c;
  extension_for_oid c oid := Ok (Some (der_octet_string (String.list_byte_of_string "h.e30.s")));
  spki_der := Ok;
  validity_dates _ := Ok ("", "") |}.
#[local] Instance demo_d : X509Display := {|
  cert_subject _ := Ok "CN=ztab-tee"; cert_issuer _ := Ok "CN=ztab-tee";
  not_valid_before_utc _ := Ok "2026"; not_valid_after_utc _ := Ok "2027" |}.
#[local] Instance demo_j : PyJson := {|
  json_loads _ := Ok JNull;
  json_loads_bytes _ := Ok (JObj [("iss", JStr "elsewhere"); ("secboot", JInt 1)]) |}.

Lemma diagnose_verdict_witness :
  ∃ s, diagnose (JStr "tee") (JInt 8000) init_diagnosis = (Ok tt, s) ∧ PASSED ∈ d_out s ∧
    check_line "iss" (JStr "elsewhere") (JStr "https://confidentialcomputing.googleapis.com") ∈ d_out s ∧
    check_status (JStr "elsewhere") (JStr "https://confidentialcomputing.googleapis.com") = "MISMATCH".
Proof.
  pose proof (diagnose_verdict (JStr "tee") (JInt 8000)) as Hv.
  destruct (diagnose (JStr "tee") (JInt 8000) init_diagnosis) as [r s] eqn:E. exists s.
  assert (Hr : r = Ok tt) by (change r with (r, s).1; rewrite <- E; reflexivity). subst r.
  destruct Hv as (_ & Hp & _). destruct (Hp demo_cert "h.e30.s" eq_refl eq_refl) as [Hpass Hl].
  split; [reflexivity|]. split; [exact Hpass|]. split; [|reflexivity].
  apply (Hl [("iss", JStr "elsewhere"); ("secboot", JInt 1)] "iss"); [reflexivity|discriminate|].
  apply elem_of_cons. left. reflexivity.
Defined.
End demo.
