(* ===== verification/GenerateProtos.v ===== *)
(** [agent/generate_protos.py]: generation of the protobuf stubs.

    The file system is the state: the regular files with their contents and the
    directories, by absolute path. The protobuf compiler is a process whose
    return code and effect on the files are arbitrary. *)

From stdpp Require Import sorting.
From S2P Require Import Prelude PyText PyPath PyValue Policy World Rpc Client Backends Cli ItaVerifier.

Open Scope Z_scope.

Record fs := Fs { files : gmap string string; dirs : gset string }.

Definition isfile (f : fs) (p : string) : bool := bool_decide (is_Some (files f !! p)).
Definition isdir (f : fs) (p : string) : bool := bool_decide (p ∈ dirs f).
Definition exists_ (f : fs) (p : string) : bool := isfile f p || isdir f p.

Class Os := {
  sys_executable : string;
  (** [os.path.abspath(__file__)] *)
  script_file : string;
  (** may the process create this entry? *)
  permitted : fs → string → bool;
  (** [subprocess.run(cmd)]: the return code, or the failure to start *)
  run_process : list string → fs → res Z * fs
}.

(** ** The process *)

Record gen := Gen { g_fs : fs; g_out : list log_line; g_runs : list (list string) }.

Definition gen_print (line : log_line) : ST gen exn unit :=
  modify (λ s, Gen (g_fs s) (g_out s ++ [line]) (g_runs s)).
Definition get_fs : ST gen exn fs := s ← get_state; mret (g_fs s).
Definition put_fs (f : fs) : ST gen exn unit := modify (λ s, Gen f (g_out s) (g_runs s)).

Definition os_error (p : string) : exn := Exn OSError [Txt p].

Section generate.
Context `{Os}.

(** [os.mkdir(p)]: the parent must be a directory. *)
Definition mkdir (f : fs) (p : string) : res fs :=
  if exists_ f p || negb (isdir f (dirname p)) || negb (permitted f p) then Raise (os_error p)
  else Ok (Fs (files f) ({[p]} ∪ dirs f)).

(** [os.makedirs(p, exist_ok=True)]: the missing ancestors first; a failure to
    create [p] is forgiven when [p] is a directory. Each ancestor is shorter, so
    the length of [p] is fuel enough. *)
Fixpoint makedirs_fuel (n : nat) (f : fs) (p : string) : res fs :=
  let make f := match mkdir f p with
                | Ok f' => Ok f'
                | Raise e => if isdir f p then Ok f else Raise e
                end in
  match n with
  | O => make f
  | S n =>
      let head := dirname p in
      if String.eqb head "" || exists_ f head then make f
      else f' ← makedirs_fuel n f head; make f'
  end.
Definition makedirs (f : fs) (p : string) : res fs := makedirs_fuel (String.length p) f p.

(** [with open(p, "w") as f: f.write(content)] *)
Definition write_file (f : fs) (p content : string) : res fs :=
  if isdir f p || negb (isdir f (dirname p)) || negb (permitted f p) then Raise (os_error p)
  else Ok (Fs (<[p:=content]> (files f)) (dirs f)).

(** [os.listdir(d)] *)
Definition listdir (f : fs) (d : string) : res (list string) :=
  if isdir f d then
    Ok (basename <$> List.filter (λ p, String.eqb (dirname p) d && negb (String.eqb p d))
          ((map_to_list (files f)).*1 ++ elements (dirs f)))
  else Raise (Exn FileNotFoundError [Txt d]).

Definition SCRIPT_DIR : string := dirname script_file.
Definition PROTO_DIR : string := join (dirname SCRIPT_DIR) "tee".
Definition PROTO_FILE : string := join PROTO_DIR "session_manager.proto".
Definition OUTPUT_DIR : string := join SCRIPT_DIR "pb2".
Definition init_file : string := join OUTPUT_DIR "__init__.py".

Definition cmd : list string :=
  [sys_executable; "-m"; "grpc_tools.protoc"; "-I=" +:+ PROTO_DIR; "--python_out=" +:+ OUTPUT_DIR;
   "--grpc_python_out=" +:+ OUTPUT_DIR; PROTO_FILE].

Definition is_stub (f : string) : bool := endswith "_pb2.py" f || endswith "_pb2_grpc.py" f.

(** [subprocess.run] *)
Definition run (c : list string) : ST gen exn Z := λ s,
  let '(r, f) := run_process c (g_fs s) in (r, Gen f (g_out s) (g_runs s ++ [c])).

Fixpoint print_stubs (names : list string) : ST gen exn unit :=
  match names with
  | [] => mret tt
  | f :: fs => (if is_stub f then gen_print [Txt "  "; Txt f] else mret tt);; print_stubs fs
  end.

(** [main()] from the compilation on *)
Definition compile_part : ST gen exn unit :=
  gen_print [Txt "Running: "; Txt (String.concat " " cmd)];;
  returncode ← run cmd;
  if negb (returncode =? 0) then
    raise (exit_1 [Txt "ERROR: Proto compilation failed. Make sure grpcio-tools is installed: pip install grpcio-tools"])
  else
    gen_print [Txt "Generated stubs in "; Txt OUTPUT_DIR; Txt ":"];;
    f ← get_fs;
    names ← lift (listdir f OUTPUT_DIR);
    print_stubs (merge_sort str_le names);;
    gen_print [Txt "Done."].

(** [main()] *)
Definition generate_main : ST gen exn unit :=
  f ← get_fs;
  if negb (isfile f PROTO_FILE) then
    raise (exit_1 [Txt "ERROR: Proto file not found: "; Txt PROTO_FILE])
  else
    f ← lift (makedirs f OUTPUT_DIR);
    put_fs f;;
    (if negb (exists_ f init_file) then
       f ← lift (write_file f init_file ("# Auto-generated package marker." +:+ ln ""));
       put_fs f
     else mret tt);;
    compile_part.

(** ** What the script may do to the files *)

(** The files are as before, except that a missing marker was written; no
    directory is lost; the package directory and its marker are there. *)
Record prepared (f f1 : fs) : Prop := {
  pr_files : ∀ p, p ≠ init_file → files f1 !! p = files f !! p;
  pr_kept : ∀ content, files f !! init_file = Some content → files f1 !! init_file = Some content;
  pr_dirs : dirs f ⊆ dirs f1;
  pr_package : isdir f1 OUTPUT_DIR = true;
  pr_marker : exists_ f1 init_file = true
}.

Lemma mkdir_ok f p f' : mkdir f p = Ok f' → files f' = files f ∧ dirs f' = {[p]} ∪ dirs f.
Proof. unfold mkdir. case_match; [done|]. intros. by inv_ok. Qed.

Lemma make_ok f p f' :
  match mkdir f p with Ok g => Ok g | Raise e => if isdir f p then Ok f else Raise e end = Ok f' →
  files f' = files f ∧ dirs f ⊆ dirs f' ∧ isdir f' p = true.
Proof.
  destruct (mkdir f p) as [g|e] eqn:Hg.
  - intros. inv_ok. apply mkdir_ok in Hg as [-> Hg]. unfold isdir. rewrite Hg, bool_decide_eq_true.
    split; [done|]. set_solver.
  - destruct (isdir f p) eqn:Hi; [|done]. intros. by inv_ok.
Qed.

Lemma makedirs_ok n f p f' :
  makedirs_fuel n f p = Ok f' → files f' = files f ∧ dirs f ⊆ dirs f' ∧ isdir f' p = true.
Proof.
  revert f p f'. induction n as [|n IH]; intros f p f'; cbn [makedirs_fuel]; [apply make_ok|].
  case_match; [apply make_ok|]. intros (g & (Hf & Hd & _)%IH & (Hf' & Hd' & Hp)%make_ok)%bind_Ok.
  split; [congruence|]. split; [set_solver|done].
Qed.

Lemma makedirs_error n f p e : makedirs_fuel n f p = Raise e → ∃ p', e = os_error p'.
Proof.
  assert (Hmake : ∀ f p, match mkdir f p with Ok g => Ok g | Raise e => if isdir f p then Ok f else Raise e end = Raise e →
    ∃ p', e = os_error p').
  { intros g q. unfold mkdir. repeat case_match; intros; inv_ok; eauto. }
  revert f p. induction n as [|n IH]; intros f p; cbn [makedirs_fuel]; [apply Hmake|].
  case_match; [apply Hmake|]. destruct (makedirs_fuel n f (dirname p)) as [g|e'] eqn:Hg; cbn; [apply Hmake|].
  intros [= ->]. by apply IH in Hg.
Qed.

(** Directories that exist are left alone. *)
Lemma makedirs_existing f p : isdir f p = true → exists_ f (dirname p) = true → makedirs f p = Ok f.
Proof.
  intros Hp Hh. unfold makedirs.
  assert (Hm : mkdir f p = Raise (os_error p)) by (unfold mkdir, exists_; by rewrite Hp, orb_true_r).
  destruct (String.length p); cbn [makedirs_fuel]; rewrite ?Hh, ?orb_true_r, Hm, Hp; done.
Qed.

Lemma marker_written f f1 f2 content :
  files f1 = files f → dirs f ⊆ dirs f1 → isdir f1 OUTPUT_DIR = true → exists_ f1 init_file = false →
  write_file f1 init_file content = Ok f2 → prepared f f2.
Proof.
  intros Hf Hd Ho He. unfold write_file. case_match; [done|]. intros Hw. inv_ok.
  apply orb_false_iff in He as [He _]. unfold isfile in He. apply bool_decide_eq_false in He.
  rewrite Hf in He. split; cbn; [|intros c Hc; destruct He; by exists c|done|done|].
  - intros p Hp. by rewrite lookup_insert_ne, Hf by done.
  - unfold exists_, isfile. cbn. rewrite lookup_insert_eq. done.
Qed.

Lemma print_stubs_run names s :
  ∃ ls, print_stubs names s = (Ok tt, Gen (g_fs s) (g_out s ++ ls) (g_runs s)).
Proof.
  revert s. induction names as [|f names IH]; intros s; cbn [print_stubs].
  - exists []. rewrite app_nil_r. by destruct s.
  - destruct (is_stub f); erewrite st_bind_run by reflexivity;
      match goal with |- context [print_stubs names ?s0] => destruct (IH s0) as [ls ->] end;
      cbn; rewrite <- ?(assoc_L (++)); eauto.
Qed.

(** The second half: run the compiler on what was prepared. *)
Definition compiled (f1 : fs) (r : res unit) (s : gen) : Prop :=
  g_runs s = [cmd] ∧
  match run_process cmd f1 with
  | (Ok code, f2) => g_fs s = f2 ∧
      (r = Ok tt ↔ code = 0 ∧ isdir f2 OUTPUT_DIR = true) ∧
      (code ≠ 0 → ∃ m, r = Raise (exit_1 m))
  | (Raise e, f2) => g_fs s = f2 ∧ r = Raise e
  end.

Lemma compile_part_run s r s' :
  g_runs s = [] → compile_part s = (r, s') → compiled (g_fs s) r s'.
Proof.
  intros Hr. unfold compile_part, compiled, run. erewrite st_bind_run by reflexivity. rewrite st_bind_eq. cbn [g_fs g_runs].
  destruct (run_process cmd (g_fs s)) as [[code|e] f2]; [|intros [= <- <-]; by rewrite Hr].
  destruct (Z.eqb_spec code 0) as [->|Hc]; cbn [negb].
  2:{ intros [= <- <-]. rewrite Hr. split; [done|]. split; [done|]. split; [|eauto].
      split; [done|]. by intros [? _]. }
  do 2 erewrite st_bind_run by reflexivity. rewrite st_bind_eq. unfold lift, listdir. cbn [g_fs].
  destruct (isdir f2 OUTPUT_DIR) eqn:Hd.
  - match goal with |- context [(print_stubs ?l ≫= _) ?s0] => destruct (print_stubs_run l s0) as [ls Hls] end.
    rewrite (st_bind_run _ _ _ _ _ Hls). intros [= <- <-]. cbn. by rewrite Hr.
  - intros [= <- <-]. cbn. rewrite Hr. split; [done|]. split; [done|]. split; [|done].
    split; [done|]. by intros [_ ?].
Qed.

(** C40: generating the stubs. Without the protocol file the script exits with
    status 1 before touching anything. Otherwise the compiler is run at most
    once, with the fixed command line, on file contents that differ from the
    initial ones by at most a new package marker, an existing marker being
    kept; the script succeeds exactly when the compiler returned 0 and left the
    directory in place, and exits with status 1 when the compiler failed. In a
    checkout where directory and marker exist, the compiler is run. *)
Theorem stubs_generated (f : fs) :
  let '(r, s) := generate_main (Gen f [] []) in
  (isfile f PROTO_FILE = false → (∃ m, r = Raise (exit_1 m)) ∧ g_fs s = f ∧ g_runs s = []) ∧
  (isfile f PROTO_FILE = true →
     (g_runs s = [] ∧ (∃ p, r = Raise (os_error p)) ∨ ∃ f1, prepared f f1 ∧ compiled f1 r s)) ∧
  (isfile f PROTO_FILE = true → isdir f OUTPUT_DIR = true → exists_ f (dirname OUTPUT_DIR) = true →
     exists_ f init_file = true → compiled f r s).
Proof.
  destruct (generate_main (Gen f [] [])) as [r s] eqn:Hm. unfold generate_main in Hm.
  erewrite st_bind_run in Hm by reflexivity. cbn [g_fs] in Hm.
  destruct (isfile f PROTO_FILE) eqn:Hp; cbn [negb] in Hm.
  2:{ unfold raise in Hm. injection Hm as <- <-. cbn. repeat split; try done. eauto. }
  split; [done|]. rewrite st_bind_eq in Hm. unfold lift in Hm.
  destruct (makedirs f OUTPUT_DIR) as [f1|e] eqn:Hmk.
  2:{ injection Hm as <- <-. split.
      - intros _. left. split; [done|]. destruct (makedirs_error _ _ _ _ Hmk) as [p ->]. eauto.
      - intros _ Hd Hh. by rewrite makedirs_existing in Hmk. }
  destruct (makedirs_ok _ _ _ _ Hmk) as (Hf & Hd & Ho). erewrite st_bind_run in Hm by reflexivity.
  destruct (exists_ f1 init_file) eqn:He; cbn [negb] in Hm.
  - erewrite st_bind_run in Hm by reflexivity. apply compile_part_run in Hm; [|done]. cbn in Hm.
    split; [intros _; right; exists f1; split; [|done]|].
    + split; [by rewrite Hf|by rewrite Hf|done..].
    + intros _ Hd' Hh _. rewrite makedirs_existing in Hmk by done. by inv_ok.
  - split.
    + intros _. rewrite !st_bind_eq in Hm. unfold lift in Hm.
      destruct (write_file f1 init_file _) as [f2|e] eqn:Hw.
      * right. exists f2. split; [by eapply marker_written|]. by apply compile_part_run in Hm.
      * left. injection Hm as <- <-. split; [done|]. unfold write_file in Hw. case_match; inv_ok. eauto.
    + intros _ Hd' Hh Hi. rewrite makedirs_existing in Hmk by done. inv_ok. congruence.
Qed.
End generate.

Section demo.
#[local] Instance demo_os : Os := {|
  sys_executable := "/usr/bin/python3"; script_file := "/repo/agent/generate_protos.py";
  permitted _ _ := true;
  run_process c f := (Ok 0, Fs (<["/repo/agent/pb2/session_manager_pb2.py":="x"]> (files f)) (dirs f)) |}.
Definition demo_fs : fs := Fs {["/repo/tee/session_manager.proto" := "syntax"]} {["/"; "/repo"; "/repo/agent"; "/repo/tee"]}.

Lemma stubs_generated_witness :
  isfile demo_fs PROTO_FILE = true ∧
  let '(r, s) := generate_main (Gen demo_fs [] []) in
  r = Ok tt ∧ g_runs s = [cmd] ∧ ∃ f1, prepared demo_fs f1 ∧ compiled f1 r s.
Proof.
  split; [reflexivity|]. pose proof (stubs_generated demo_fs) as Hg.
  destruct (generate_main (Gen demo_fs [] [])) as [r s] eqn:E. destruct Hg as (_ & Hg & _).
  assert (Hr : r = Ok tt) by (change r with (r, s).1; rewrite <- E; vm_compute; reflexivity). subst r.
  specialize (Hg ltac:(reflexivity)).
  destruct Hg as [[_ [p [=]]]|(f1 & Hp & Hc)]. split; [reflexivity|]. split; [apply Hc|]. exists f1. split; assumption.
Defined.
End demo.
