(* ===== verification/Schema.v ===== *)
(** [tee/session_manager.cc], first part: the helpers on JSON texts. Parsing
    with a depth limit, the JSON Schema subset, the comparison of a retried
    input, and the removal of code fences from a model's output.

    nlohmann's parser and printer and the RE2 matcher are parameters. *)

From S2P Require Import Prelude PyText PyValue.
From Stdlib Require Import QArith.Qcanon.

Open Scope Z_scope.

(** A call that does not return: an [absl::Status] that is not OK, or a C++
    exception nobody in this file catches. *)
Inductive failure :=
| Status (code : status_code) (message : string)
| Throw (what : string).

Abbreviation sres := (result failure).

Class NJson := {
  (** [nlohmann::json::parse] with a callback that refuses values nested deeper
      than the given depth; the left side is [parse_error::what()] *)
  njson_parse : nat → string → string + json;
  (** [json::dump()] *)
  dump : json → string
}.

Class Re2 := {
  (** [RE2::PartialMatch(text, pattern)] *)
  PartialMatch : string → string → bool
}.

Definition kMaxJsonParseDepth : nat := 32.
Definition kMaxInputBytes : Z := 65536.

(** ** Values *)

(** [value.type_name()] *)
Definition cxx_type_name (v : json) : string :=
  match v with
  | JNull => "null" | JBool _ => "boolean" | JInt _ | JFloat _ => "number"
  | JStr _ => "string" | JList _ => "array" | JObj _ => "object"
  end.

Definition type_error (expected : string) (v : json) : failure :=
  Throw ("type must be " +:+ expected +:+ ", but is " +:+ cxx_type_name v).

(** [v.get<std::string>()], [v.get<bool>()], [v.get<int>()] *)
Definition get_string (v : json) : sres string :=
  match v with JStr s => Ok s | _ => Raise (type_error "string" v) end.
Definition get_boolean (v : json) : sres bool :=
  match v with JBool b => Ok b | _ => Raise (type_error "boolean" v) end.
Definition int32 (z : Z) : Z := (z + 2 ^ 31) mod 2 ^ 32 - 2 ^ 31.
Definition get_int (v : json) : sres Z :=
  match v with
  | JInt z => Ok (int32 z)
  | JFloat q => Ok (int32 (Z.quot (QArith_base.Qnum (Qcanon.this q)) (Zpos (QArith_base.Qden (Qcanon.this q)))))
  | JBool b => Ok (Z.b2z b)
  | _ => Raise (type_error "number" v)
  end.

(** [for (const auto& x : v)]: a scalar is its own single element. *)
Definition elements_of (v : json) : list json :=
  match v with
  | JNull => []
  | JList l => l
  | JObj d => d.*2
  | _ => [v]
  end.

Definition contains_key (v : json) (k : string) : bool :=
  match v with JObj d => bool_decide (is_Some (lookup_key k d)) | _ => false end.

(** [v.items()] with each value passed through [f]: array elements are named by
    their index. *)
Definition items_with {B : Type} (f : json → B) (v : json) : list (string * B) :=
  match v with
  | JNull => []
  | JList l => zip ((λ i, pretty (N.of_nat i)) <$> seq 0 (length l)) (List.map f l)
  | JObj d => List.map (λ '(k, x), (k, f x)) d
  | _ => [("", f v)]
  end.

(** [d[k]] passed through [f], if there *)
Definition lookup_with {B : Type} (f : json → B) (k : string) : dict → option B :=
  fix go d :=
    match d with
    | [] => None
    | (k', v) :: d' => if String.eqb k' k then Some (f v) else go d'
    end.

Definition invalid (message : string) : failure := Status INVALID_ARGUMENT message.

Definition expected_got (type : string) (v : json) : failure :=
  invalid ("Expected " +:+ type +:+ ", got " +:+ cxx_type_name v).

Definition prefixed (prefix : string) (r : sres unit) : sres unit :=
  match r with
  | Ok _ => Ok tt
  | Raise (Status _ m) => Raise (invalid (prefix +:+ ": " +:+ m))
  | Raise e => Raise e
  end.

(** The loop over an array's elements, with their position *)
Fixpoint check_items (check : json → sres unit) (i : nat) (l : list json) : sres unit :=
  match l with
  | [] => Ok tt
  | v :: l' => prefixed ("Array item " +:+ pretty (N.of_nat i)) (check v);; check_items check (S i) l'
  end.

Fixpoint check_required (reqs : list json) (value : json) : sres unit :=
  match reqs with
  | [] => Ok tt
  | req :: reqs' =>
      field ← get_string req;
      if contains_key value field then check_required reqs' value
      else Raise (invalid ("Missing required field: '" +:+ field +:+ "'"))
  end.

(** The loop over the declared properties: each present one is checked. *)
Fixpoint check_properties (props : list (string * (json → sres unit))) (value : dict) : sres unit :=
  match props with
  | [] => Ok tt
  | (k, check) :: props' =>
      match lookup_key k value with
      | Some v => prefixed ("Field '" +:+ k +:+ "'") (check v)
      | None => Ok tt
      end;;
      check_properties props' value
  end.

Section schema.
Context `{NJson, Re2}.

Definition ParseJsonSafely (json_str : string) : sres json :=
  match njson_parse kMaxJsonParseDepth json_str with
  | inr v => Ok v
  | inl what => Raise (invalid ("JSON parse error (possibly exceeded max depth 32): " +:+ what))
  end.

Definition ValidateRetryPayload (retry_json stored_json : string) : sres unit :=
  if kMaxInputBytes <? Z.of_nat (String.length retry_json) then
    Raise (invalid ("Input payload too large (" +:+ pretty (N.of_nat (String.length retry_json))
                    +:+ " bytes, max 65536)"))
  else
    retry_parsed ← ParseJsonSafely retry_json;
    if String.eqb (dump retry_parsed) stored_json then Ok tt
    else Raise (Status FAILED_PRECONDITION "Input already submitted with different content").

(** The checks of each type, given what to do with the parts of the schema. *)
Definition string_check (schema : dict) (value : json) : sres unit :=
  match value with
  | JStr str_val =>
      match lookup_key "pattern" schema with
      | None => Ok tt
      | Some p =>
          pattern ← get_string p;
          if PartialMatch str_val pattern then Ok tt
          else Raise (invalid ("String does not match pattern '" +:+ pattern +:+ "'"))
      end
  | _ => Raise (expected_got "string" value)
  end.

Definition array_check (schema : dict) (items : option (json → sres unit)) (value : json) : sres unit :=
  match value with
  | JList l =>
      match lookup_key "minItems" schema with
      | Some m => n ← get_int m;
                  if int32 (Z.of_nat (length l)) <? n
                  then Raise (invalid "Array has fewer items than minItems") else Ok tt
      | None => Ok tt
      end;;
      match lookup_key "maxItems" schema with
      | Some m => n ← get_int m;
                  if n <? int32 (Z.of_nat (length l))
                  then Raise (invalid "Array has more items than maxItems") else Ok tt
      | None => Ok tt
      end;;
      match items with
      | Some check => check_items check 0 l
      | None => Ok tt
      end
  | _ => Raise (expected_got "array" value)
  end.

Definition declared (schema : dict) (k : string) : bool :=
  match lookup_key "properties" schema with Some p => contains_key p k | None => false end.

Definition object_check (schema : dict) (props : option (list (string * (json → sres unit))))
    (value : json) : sres unit :=
  match value with
  | JObj d =>
      match lookup_key "required" schema with
      | Some r => check_required (elements_of r) value
      | None => Ok tt
      end;;
      match lookup_key "additionalProperties" schema with
      | Some a => b ← get_boolean a;
                  if negb b && negb (forallb (declared schema) d.*1)
                  then Raise (invalid "Unexpected field present in object") else Ok tt
      | None => Ok tt
      end;;
      match props with
      | Some props => check_properties props d
      | None => Ok tt
      end
  | _ => Raise (expected_got "object" value)
  end.

Fixpoint ValidateNode (schema value : json) {struct schema} : sres unit :=
  match schema with
  | JObj d =>
      match lookup_key "type" d with
      | None => Ok tt
      | Some t =>
          type ← get_string t;
          if String.eqb type "string" then string_check d value
          else if String.eqb type "array" then array_check d (lookup_with ValidateNode "items" d) value
          else if String.eqb type "object" then
            object_check d (lookup_with (items_with ValidateNode) "properties" d) value
          else if String.eqb type "number" then
            match value with JInt _ | JFloat _ => Ok tt | _ => Raise (expected_got type value) end
          else if String.eqb type "integer" then
            match value with JInt _ => Ok tt | _ => Raise (expected_got type value) end
          else if String.eqb type "boolean" then
            match value with JBool _ => Ok tt | _ => Raise (expected_got type value) end
          else Ok tt
      end
  | _ => Ok tt
  end.

Definition ValidateJsonSchema (json_str schema_json : string) : sres unit :=
  value ← ParseJsonSafely json_str;
  schema ← match ParseJsonSafely schema_json with
           | Raise (Status _ m) => Raise (Status INTERNAL ("Invalid schema JSON: " +:+ m))
           | r => r
           end;
  ValidateNode schema value.
End schema.

(** ** Code fences *)

Definition is_alnum (a : ascii) : bool :=
  let n := N_of_ascii a in
  ((48 <=? n) && (n <=? 57) || (65 <=? n) && (n <=? 90) || (97 <=? n) && (n <=? 122))%N.

Abbreviation newline := "010"%char.

Definition fence : list ascii := ["`"; "`"; "`"]%char.

(** The rest of [l] after [p] *)
Fixpoint after_prefix (p l : list ascii) : option (list ascii) :=
  match p, l with
  | [], _ => Some l
  | a :: p', b :: l' => if Ascii.eqb a b then after_prefix p' l' else None
  | _, [] => None
  end.

(** The shortest text before an occurrence of [stop] *)
Fixpoint lazy_until (stop l : list ascii) : option (list ascii) :=
  match after_prefix stop l with
  | Some _ => Some []
  | None => match l with [] => None | a :: l' => cons a <$> lazy_until stop l' end
  end.

(** [RE2::PartialMatch(s, "(?s)```[a-zA-Z0-9]*\n(.*?)<stop>", &content)]: the
    leftmost opening fence that is followed by its line end and, later, by
    [stop] *)
Fixpoint fenced (stop l : list ascii) : option (list ascii) :=
  let here :=
    rest ← after_prefix fence l;
    body ← after_prefix [newline] (drop_while is_alnum rest);
    lazy_until stop body in
  match here with
  | Some content => Some content
  | None => match l with [] => None | _ :: l' => fenced stop l' end
  end.

Definition is_trimmed (a : ascii) : bool :=
  existsb (Ascii.eqb a) [" "; "009"; "010"; "013"]%char.

Definition StripMarkdownCodeFences (input : string) : string :=
  let l := String.list_ascii_of_string input in
  let s := match fenced (newline :: fence) l with
           | Some content => content
           | None => match fenced fence l with Some content => content | None => l end
           end in
  String.string_of_list_ascii (if forallb is_trimmed s then s else strip_list is_trimmed s).

(** ** The schemas as documents with a meaning *)

Unset Elimination Schemes.
Inductive Schema :=
| Any
| SString (pattern : option string)
| SArray (minItems maxItems : option Z) (items : option Schema)
| SObject (required : list string) (closed : bool) (properties : list (string * Schema))
| SNumber
| SInteger
| SBoolean.
Set Elimination Schemes.

(** An optional member with the type the validator reads it at. *)
Definition member {A : Type} (read : json → option A) (k : string) (d : dict) : option (option A) :=
  match lookup_key k d with
  | None => Some None
  | Some v => Some <$> read v
  end.

Definition as_string (v : json) : option string := match v with JStr s => Some s | _ => None end.
Definition as_bool (v : json) : option bool := match v with JBool b => Some b | _ => None end.
Definition as_int (v : json) : option Z :=
  match v with JInt z => if (- 2 ^ 31 <=? z) && (z <? 2 ^ 31) then Some z else None | _ => None end.
Definition as_strings (v : json) : option (list string) :=
  match v with JList l => mapM as_string l | _ => None end.

(** A key with its value, if there is one *)
Definition pull {B : Type} (ks : string * option B) : option (string * B) := (λ s, (ks.1, s)) <$> ks.2.

(** The schema a JSON document stands for; [None] when a member the validator
    reads has another type than it expects. *)
Fixpoint schema_of (schema : json) : option Schema :=
  match schema with
  | JObj d =>
      match lookup_key "type" d with
      | None => Some Any
      | Some t =>
          type ← as_string t;
          if String.eqb type "string" then SString <$> member as_string "pattern" d
          else if String.eqb type "array" then
            lo ← member as_int "minItems" d;
            hi ← member as_int "maxItems" d;
            match lookup_with schema_of "items" d with
            | None => Some (SArray lo hi None)
            | Some items => (λ s, SArray lo hi (Some s)) <$> items
            end
          else if String.eqb type "object" then
            req ← member as_strings "required" d;
            extra ← member as_bool "additionalProperties" d;
            match lookup_with (λ p, match p with
                                    | JObj e => mapM pull (items_with schema_of p)
                                    | _ => None
                                    end) "properties" d with
            | None => Some (SObject (default [] req) (negb (default true extra)) [])
            | Some props => SObject (default [] req) (negb (default true extra)) <$> props
            end
          else if String.eqb type "number" then Some SNumber
          else if String.eqb type "integer" then Some SInteger
          else if String.eqb type "boolean" then Some SBoolean
          else Some Any
      end
  | _ => Some Any
  end.

Section meets.
Context `{Re2}.

(** The values a schema admits. *)
Inductive meets : Schema → json → Prop :=
| meets_any v : meets Any v
| meets_string p s :
    (∀ pattern, p = Some pattern → PartialMatch s pattern = true) → meets (SString p) (JStr s)
| meets_array lo hi items l :
    (∀ n, lo = Some n → n <= Z.of_nat (length l)) → (∀ n, hi = Some n → Z.of_nat (length l) <= n) →
    (∀ s v, items = Some s → v ∈ l → meets s v) → meets (SArray lo hi items) (JList l)
| meets_object req closed props d :
    (∀ k, k ∈ req → is_Some (lookup_key k d)) →
    (closed = true → ∀ k, k ∈ d.*1 → k ∈ props.*1) →
    (∀ k s v, (k, s) ∈ props → lookup_key k d = Some v → meets s v) →
    meets (SObject req closed props) (JObj d)
| meets_int_number z : meets SNumber (JInt z)
| meets_float_number q : meets SNumber (JFloat q)
| meets_integer z : meets SInteger (JInt z)
| meets_boolean b : meets SBoolean (JBool b).
End meets.

(** The number of values in a document, which bounds the length of its arrays. *)
Fixpoint json_size (v : json) : Z :=
  1 + match v with
      | JList l => foldr (λ x n, json_size x + n) 0 l
      | JObj d => foldr (λ kv n, json_size kv.2 + n) 0 d
      | _ => 0
      end.

Lemma json_size_pos v : 0 < json_size v.
Proof.
  induction v using json_ind; cbn; try lia.
  - enough (0 <= foldr (λ x n, json_size x + n) 0 l) by lia. induction H; cbn; lia.
  - enough (0 <= foldr (λ kv n, json_size kv.2 + n) 0 d) by lia. induction H; cbn; lia.
Qed.

Lemma json_size_list l :
  Z.of_nat (length l) < json_size (JList l) ∧ ∀ v, v ∈ l → json_size v < json_size (JList l).
Proof.
  cbn. assert (Hn : ∀ l, Z.of_nat (length l) <= foldr (λ x n, json_size x + n) 0 l).
  { clear l. induction l as [|x l IH]; cbn; [lia|]. pose proof (json_size_pos x). lia. }
  split; [specialize (Hn l); lia|]. induction l as [|x l IH]; [by intros v ?%elem_of_nil|].
  cbn. pose proof (json_size_pos x). specialize (Hn l).
  intros v [->|Hv%IH]%elem_of_cons; lia.
Qed.

Lemma json_size_obj d k v : lookup_key k d = Some v → json_size v < json_size (JObj d).
Proof.
  cbn. induction d as [|[k' x] d IH]; cbn; [done|]. pose proof (json_size_pos x).
  assert (0 <= foldr (λ kv n, json_size kv.2 + n) 0 d).
  { clear. induction d as [|[k x] d IH]; cbn; [lia|]. pose proof (json_size_pos x). lia. }
  case_match; [intros [= ->]; lia|]. intros Hl%IH. lia.
Qed.

(** ** The validator decides the meaning *)

(** The check succeeds where [P] holds and otherwise reports a violation; it
    never throws. *)
Definition decides (r : sres unit) (P : Prop) : Prop :=
  r = Ok tt ∧ P ∨ ∃ m, r = Raise (invalid m) ∧ ¬ P.

Lemma decides_iff r P Q : (P ↔ Q) → decides r P → decides r Q.
Proof. unfold decides. intros HPQ [[? ?]|(m & ? & ?)]; [left|right; exists m]; tauto. Qed.

Lemma decides_ok P : P → decides (Ok tt) P.
Proof. by left. Qed.

Lemma decides_invalid P m : ¬ P → decides (Raise (invalid m)) P.
Proof. right. eauto. Qed.

Lemma decides_if (b : bool) P m : (b = true ↔ ¬ P) → decides (if b then Raise (invalid m) else Ok tt) (¬ ¬ P).
Proof. destruct b; intros Hb; [right; exists m; tauto|left]. split; [done|]. intros Hn. apply Hb in Hn. done. Qed.

Lemma decides_bind r r' P Q : decides r P → decides r' Q → decides (r;; r') (P ∧ Q).
Proof.
  intros [[-> HP]|(m & -> & HP)] Hq; [|right; exists m; split; [done|tauto]].
  destruct Hq as [[-> HQ]|(m & -> & HQ)]; [by left|right; exists m; split; [done|tauto]].
Qed.

Lemma decides_prefixed r p P : decides r P → decides (prefixed p r) P.
Proof. intros [[-> HP]|(m & -> & HP)]; [by left|right; eauto]. Qed.

Lemma decides_items check (P : json → Prop) l i :
  (∀ v, v ∈ l → decides (check v) (P v)) → decides (check_items check i l) (∀ v, v ∈ l → P v).
Proof.
  revert i. induction l as [|x l IH]; intros i Hl; cbn [check_items].
  - left. split; [done|]. by intros v ?%elem_of_nil.
  - eapply decides_iff; [|apply decides_bind; [apply decides_prefixed, Hl, list_elem_of_here|apply IH]].
    + setoid_rewrite elem_of_cons. split; [intros [? ?] v [->|?]; auto|intros Hv; split; auto].
    + intros v Hv. apply Hl. by right.
Qed.

Lemma decides_required req d :
  decides (check_required (JStr <$> req) (JObj d)) (∀ k, k ∈ req → is_Some (lookup_key k d)).
Proof.
  induction req as [|k req IH]; cbn.
  - left. split; [done|]. by intros v ?%elem_of_nil.
  - case_bool_decide as Hk.
    + eapply decides_iff; [|exact IH]. setoid_rewrite elem_of_cons.
      split; [intros ? v [->|?]; auto|intros Hv v; auto].
    + apply decides_invalid. intros Hv. apply Hk, Hv, list_elem_of_here.
Qed.

Lemma decides_properties (checks : list (string * (json → sres unit))) (props : list (string * Schema))
    (P : Schema → json → Prop) d :
  Forall2 (λ c p, c.1 = p.1 ∧ ∀ v, lookup_key p.1 d = Some v → decides (c.2 v) (P p.2 v)) checks props →
  decides (check_properties checks d)
    (∀ k s v, (k, s) ∈ props → lookup_key k d = Some v → P s v).
Proof.
  induction 1 as [|[k c] [k' s] checks props [Hk Hc] _ IH]; cbn [check_properties].
  - left. split; [done|]. by intros k s v ?%elem_of_nil.
  - cbn in Hk, Hc. subst k'. eapply (decides_iff _ ((∀ v, lookup_key k d = Some v → P s v) ∧ _)).
    2:{ apply decides_bind; [|exact IH]. destruct (lookup_key k d) as [v|]; [|by left].
        apply decides_prefixed. eapply decides_iff; [|by apply Hc]. split; [by intros ? ? [= <-]|auto]. }
    setoid_rewrite elem_of_cons. split.
    + intros [H1 H2] k' s' v [[= -> ->]|Hin]; eauto.
    + intros Ha. split; [intros v; apply Ha; by left|intros k' s' v Hin; apply Ha; by right].
Qed.

Lemma lookup_with_key {B : Type} (f : json → B) k d : lookup_with f k d = f <$> lookup_key k d.
Proof. induction d as [|[k' v] d IH]; [done|]. cbn. by case_match. Qed.

Lemma int32_small z : - 2 ^ 31 <= z < 2 ^ 31 → int32 z = z.
Proof. intros Hz. unfold int32. rewrite Z.mod_small; lia. Qed.

Section exact.
Context `{NJson, Re2}.

Lemma decides_string d p v :
  member as_string "pattern" d = Some p → decides (string_check d v) (meets (SString p) v).
Proof.
  unfold member, string_check. intros Hp.
  destruct v; try (apply decides_invalid; by inversion 1).
  destruct (lookup_key "pattern" d) as [[]|]; cbn in Hp; inv_ok; cbn.
  - destruct (PartialMatch s s0) eqn:Hm; [apply decides_ok; constructor; by intros ? [= <-]|].
    apply decides_invalid. inversion 1 as [|? ? Hs| | | | | |]; subst. by rewrite Hs in Hm.
  - apply decides_ok. by constructor.
Qed.

Lemma as_int_get v z : as_int v = Some z → get_int v = Ok z.
Proof.
  destruct v; cbn; try done. case_match eqn:Hb; [|done]. intros [= ->].
  rewrite int32_small; [done|]. lia.
Qed.

Lemma decides_array d lo hi (check : option (json → sres unit)) items v :
  member as_int "minItems" d = Some lo → member as_int "maxItems" d = Some hi →
  json_size v < 2 ^ 31 →
  match check, items with
  | None, None => True
  | Some c, Some s => ∀ x, json_size x < 2 ^ 31 → decides (c x) (meets s x)
  | _, _ => False
  end →
  decides (array_check d check v) (meets (SArray lo hi items) v).
Proof.
  unfold member, array_check. intros Hlo Hhi Hv Hi.
  destruct v as [|b|z|q|s|l|e]; try (apply decides_invalid; by inversion 1).
  destruct (json_size_list l) as [Hlen Hel]. rewrite int32_small by lia.
  eapply (decides_iff _ ((∀ n, lo = Some n → n <= Z.of_nat (length l)) ∧
    (∀ n, hi = Some n → Z.of_nat (length l) <= n) ∧ (∀ s v, items = Some s → v ∈ l → meets s v))).
  { split; [intros (? & ? & ?); by constructor|by inversion 1]. }
  apply decides_bind; [|apply decides_bind].
  - destruct (lookup_key "minItems" d) as [m|]; cbn in Hlo; [|inv_ok; by left].
    destruct (as_int m) as [n|] eqn:Hm; cbn in Hlo; [|done]. inv_ok. rewrite (as_int_get _ _ Hm), ret_bind.
    destruct (Z.ltb_spec (Z.of_nat (length l)) n).
    + apply decides_invalid. intros Hn. specialize (Hn n eq_refl). lia.
    + apply decides_ok. by intros ? [= <-].
  - destruct (lookup_key "maxItems" d) as [m|]; cbn in Hhi; [|inv_ok; by left].
    destruct (as_int m) as [n|] eqn:Hm; cbn in Hhi; [|done]. inv_ok. rewrite (as_int_get _ _ Hm), ret_bind.
    destruct (Z.ltb_spec n (Z.of_nat (length l))).
    + apply decides_invalid. intros Hn. specialize (Hn n eq_refl). lia.
    + apply decides_ok. by intros ? [= <-].
  - destruct check as [c|], items as [s|]; try done; [|by left].
    eapply decides_iff; [|apply (decides_items c (meets s)); intros x Hx; apply Hi; specialize (Hel x Hx); lia].
    split; [intros Ha s' x [= <-]; exact (Ha x)|intros Ha x; by apply Ha].
Qed.

Lemma mapM_strings l ss : mapM as_string l = Some ss → l = JStr <$> ss.
Proof.
  revert ss. induction l as [|x l IH]; intros ss; cbn; [by intros [= <-]|].
  destruct x; cbn; try done. destruct (mapM as_string l) as [ss'|]; [|done]. intros [= <-].
  cbn. f_equal. by apply IH.
Qed.

Lemma decides_object d req extra (checks : option (list (string * (json → sres unit)))) props v :
  member as_strings "required" d = Some req → member as_bool "additionalProperties" d = Some extra →
  (∀ k, declared d k = true ↔ k ∈ props.*1) →
  (∀ e, v = JObj e →
     Forall2 (λ c p, c.1 = p.1 ∧ ∀ x, lookup_key p.1 e = Some x → decides (c.2 x) (meets p.2 x))
       (default [] checks) props) →
  decides (object_check d checks v) (meets (SObject (default [] req) (negb (default true extra)) props) v).
Proof.
  unfold member, object_check. intros Hr Hx Hd Hc.
  destruct v as [|b|z|q|s|l|e]; try (apply decides_invalid; by inversion 1).
  eapply (decides_iff _ ((∀ k, k ∈ default [] req → is_Some (lookup_key k e)) ∧
    (negb (default true extra) = true → ∀ k, k ∈ e.*1 → k ∈ props.*1) ∧
    (∀ k s v, (k, s) ∈ props → lookup_key k e = Some v → meets s v))).
  { split; [intros (? & ? & ?); by constructor|by inversion 1]. }
  apply decides_bind; [|apply decides_bind].
  - destruct (lookup_key "required" d) as [r|]; cbn in Hr; [|inv_ok; apply decides_ok; by intros k ?%elem_of_nil].
    destruct r; cbn in Hr; try done. destruct (mapM as_string l) as [ss|] eqn:Hm; cbn in Hr; [|done].
    inv_ok. rewrite (mapM_strings _ _ Hm). apply decides_required.
  - destruct (lookup_key "additionalProperties" d) as [a|]; cbn in Hx; [|inv_ok; by left].
    destruct a as [|b| | | | |]; cbn in Hx; try done. inv_ok. cbn.
    destruct b; cbn; [by left|]. destruct (forallb (declared d) e.*1) eqn:Hf; cbn.
    + apply decides_ok. intros _ k Hk. apply Hd. rewrite forallb_forall in Hf. by apply Hf, list_elem_of_In.
    + apply decides_invalid. intros Ha. apply not_true_iff_false in Hf. apply Hf, forallb_forall.
      intros k Hk%list_elem_of_In. by apply Hd, Ha.
  - specialize (Hc e eq_refl). apply decides_properties in Hc. by destruct checks.
Qed.

(** What the validator does on a schema document. *)
Definition validates (schema : json) : Prop :=
  ∀ S, schema_of schema = Some S → ∀ v, json_size v < 2 ^ 31 → decides (ValidateNode schema v) (meets S v).

Lemma props_validate e props :
  Forall (λ kv, validates kv.2) e →
  mapM pull (List.map (λ '(k, x), (k, schema_of x)) e) = Some props →
  e.*1 = props.*1 ∧
  Forall2 (λ c p, c.1 = p.1 ∧ ∀ x, json_size x < 2 ^ 31 → decides (c.2 x) (meets p.2 x))
    (List.map (λ '(k, x), (k, ValidateNode x)) e) props.
Proof.
  intros He. revert props. induction He as [|[k x] e Hx _ IH]; intros props; cbn; [by intros [= <-]|].
  destruct (schema_of x) as [s|] eqn:Hs; cbn; [|done]. destruct (mapM _ _) as [ps|]; cbn; [|done].
  intros [= <-]. destruct (IH ps eq_refl) as [Hk Hf]. cbn. split; [by f_equal|].
  constructor; [|done]. split; [done|]. by apply Hx.
Qed.

Lemma lookup_key_is_Some k d : is_Some (lookup_key k d) ↔ k ∈ d.*1.
Proof.
  induction d as [|[k' v] d IH]; cbn; [split; [by intros [? ?]|by intros ?%elem_of_nil]|].
  rewrite elem_of_cons. destruct (String.eqb_spec k' k) as [->|Hne]; [by split; [left|eauto]|].
  rewrite IH. split; [by right|]. by intros [->|?].
Qed.

Lemma ValidateNode_validates schema :
  validates schema ∧ ∀ e, schema = JObj e → Forall (λ kv, validates kv.2) e.
Proof.
  induction schema as [|b|z|q|t|l IH|d IH] using json_ind; (split; [intros S HS v Hv|try done]);
    try (injection HS as <-; apply decides_ok; constructor).
  2:{ intros e [= <-]. eapply Forall_impl; [exact IH|]. by intros kv [? _]. }
  cbn [schema_of] in HS. cbn [ValidateNode].
  assert (Hsub : ∀ k x, lookup_key k d = Some x → validates x ∧ ∀ e, x = JObj e → Forall (λ kv, validates kv.2) e).
  { intros k x Hx%lookup_key_elem. rewrite Forall_forall in IH. by apply (IH (k, x)). }
  destruct (lookup_key "type" d) as [t|] eqn:Ht; [|injection HS as <-; apply decides_ok; constructor].
  destruct t as [| | | |type| |]; try done. cbn [as_string mbind option_bind] in HS. cbn [get_string]. rewrite ret_bind.
  destruct (String.eqb type "string"); [|destruct (String.eqb type "array"); [|destruct (String.eqb type "object")]].
  - destruct (member as_string "pattern" d) as [p|] eqn:Hp; [|done]. injection HS as <-. by apply decides_string.
  - destruct (member as_int "minItems" d) as [lo|] eqn:Hlo; [|done].
    destruct (member as_int "maxItems" d) as [hi|] eqn:Hhi; [|done]. cbn [mbind option_bind] in HS.
    rewrite lookup_with_key in HS. rewrite lookup_with_key. destruct (lookup_key "items" d) as [x|] eqn:Hx; cbn in HS.
    + destruct (schema_of x) as [s|] eqn:Hs; [|done]. injection HS as <-.
      apply decides_array; [done..|]. exact (proj1 (Hsub _ _ Hx) _ Hs).
    + injection HS as <-. by apply decides_array.
  - destruct (member as_strings "required" d) as [req|] eqn:Hr; [|done].
    destruct (member as_bool "additionalProperties" d) as [extra|] eqn:Hx; [|done]. cbn [mbind option_bind] in HS.
    rewrite lookup_with_key in HS. rewrite lookup_with_key. unfold declared in *.
    destruct (lookup_key "properties" d) as [p|] eqn:Hp; cbn in HS.
    + destruct p as [| | | | | |e]; try done.
      destruct (mapM _ _) as [props|] eqn:Hm in HS; [|done]. injection HS as <-.
      pose proof (proj2 (Hsub _ _ Hp) e eq_refl) as He.
      destruct (props_validate e props He Hm) as [Hk Hf]. apply decides_object; [done..| |].
      * intros k. unfold declared. rewrite Hp. cbn. rewrite bool_decide_eq_true, lookup_key_is_Some. by rewrite Hk.
      * intros o ->. cbn. eapply Forall2_impl; [exact Hf|]. intros [k c] [k' s] [Hkk Hc]. split; [done|].
        intros x Hl. apply Hc. pose proof (json_size_obj _ _ _ Hl). lia.
    + injection HS as <-. apply decides_object; [done..| |].
      * intros k. unfold declared. rewrite Hp. split; [done|]. by intros ?%elem_of_nil.
      * intros o ->. cbn. constructor.
  - repeat (match type of HS with (if ?b then _ else _) = _ => destruct b end; [injection HS as <-|]);
      [.. |injection HS as <-; apply decides_ok; constructor];
      destruct v; first [apply decides_ok; constructor|apply decides_invalid; by inversion 1].
Qed.

(** C19: schema validation is exact. For a schema document whose members have
    the types the validator reads, a value text passes [ValidateJsonSchema]
    exactly when the parsed value is admitted by the schema the document stands
    for; otherwise the answer is INVALID_ARGUMENT, and nothing is thrown. *)
Theorem schema_validation_exact value_text schema_text v j S :
  njson_parse kMaxJsonParseDepth value_text = inr v → njson_parse kMaxJsonParseDepth schema_text = inr j →
  schema_of j = Some S → json_size v < 2 ^ 31 →
  (ValidateJsonSchema value_text schema_text = Ok tt ↔ meets S v) ∧
  (¬ meets S v → ∃ m, ValidateJsonSchema value_text schema_text = Raise (invalid m)).
Proof.
  intros Hv Hj HS Hsz. unfold ValidateJsonSchema, ParseJsonSafely. rewrite Hv, Hj, !ret_bind.
  destruct (proj1 (ValidateNode_validates j) S HS v Hsz) as [[-> Hm]|(m & -> & Hm)].
  - by split; [|intros []].
  - split; [split; [done|by intros ?%Hm]|eauto].
Qed.
End exact.

(** ** A concrete instance: the calendar's input schema *)

Section demo.
Definition calendar_schema : json :=
  JObj [("type", JStr "object");
        ("properties", JObj [("available_slots",
           JObj [("type", JStr "array"); ("items", JObj [("type", JStr "string"); ("pattern", JStr "Z$")]);
                 ("minItems", JInt 1); ("maxItems", JInt 200)])]);
        ("required", JList [JStr "available_slots"]);
        ("additionalProperties", JBool false)].
Definition calendar_input : json := JObj [("available_slots", JList [JStr "2026-07-15T10:00:00Z"])].

#[local] Instance demo_njson : NJson := {|
  njson_parse _ s := if String.eqb s "schema" then inr calendar_schema
                     else if String.eqb s "input" then inr calendar_input else inl "syntax error";
  dump _ := "input" |}.
#[local] Instance demo_re2 : Re2 := {| PartialMatch s pattern := contains "Z" s |}.

Lemma schema_validation_exact_witness :
  ∃ S, schema_of calendar_schema = Some S ∧ ValidateJsonSchema "input" "schema" = Ok tt ∧ meets S calendar_input.
Proof.
  eexists. split; [reflexivity|].
  assert (Hok : ValidateJsonSchema "input" "schema" = Ok tt) by reflexivity. split; [exact Hok|].
  apply (schema_validation_exact "input" "schema" calendar_input calendar_schema);
    [reflexivity|reflexivity|reflexivity|reflexivity|exact Hok].
Defined.
End demo.
