(* ===== verification/Session.v ===== *)
(** [tee/session_manager.cc] and [tee/session_manager.h]: the sessions inside
    the server, their operations, and the background threads that run the
    model.

    Every remote call runs under one mutex, so it is one atomic change of the
    manager's state; [SubmitInput] and [ProcessSessionAsync] release the mutex
    in between and are split there. A background thread is a [task]. Clock
    readings and random draws are numbered. Hash maps are finite maps; where the
    code iterates over one, the iteration order is irrelevant or an argument. *)

From stdpp Require Import sorting.
From S2P Require Import Prelude PyText PyValue Rpc Schema.

Open Scope Z_scope.

(** ** Data *)

Inductive SessionState := Open | Sealed | Calculating | Closed | Aborted.

Definition state_number (s : SessionState) : Z :=
  match s with Open => 1 | Sealed => 2 | Calculating => 3 | Closed => 4 | Aborted => 5 end.

(** [SessionState_Name] *)
Definition state_name (s : SessionState) : string :=
  match s with
  | Open => "OPEN" | Sealed => "SEALED" | Calculating => "CALCULATING"
  | Closed => "CLOSED" | Aborted => "ABORTED"
  end.

(** The error codes the manager sets *)
Inductive SessionError := Unspecified | JoinTimeout | InputTimeout | LlmGenerationFailed.

Definition error_number (e : SessionError) : Z :=
  match e with Unspecified => 0 | JoinTimeout => 5 | InputTimeout => 6 | LlmGenerationFailed => 7 end.

#[global] Instance SessionState_eq_dec : EqDecision SessionState.
Proof. solve_decision. Defined.
#[global] Instance SessionError_eq_dec : EqDecision SessionError.
Proof. solve_decision. Defined.
#[global] Instance SessionPolicy_eq_dec : EqDecision SessionPolicy.
Proof. solve_decision. Defined.

(** [policy_registry.h] *)
Record PolicyDefinition := {
  prompt_template : string;
  default_input_schema_json : string;
  default_output_schema_json : string
}.

Record Participant := {
  token : string;
  accepted : bool;
  input_json : string;
  input_submitted : bool;
  join_index : Z
}.

Record Session := {
  id : string;
  state : SessionState;
  policy : SessionPolicy;
  policy_def : PolicyDefinition;
  participants : gmap string Participant;
  result_json : string;
  error_code : SessionError;
  error_detail : string;
  state_entered_at : Z;
  timeout : Z;
  invitation_token : string;
  participant_tokens : list string;
  nonce_to_token : gmap string string;
  creator_nonce : string
}.

Record Options := {
  terminal_retention_seconds : Z;
  max_calculating_seconds : Z;
  max_sessions : Z
}.

Definition default_options : Options :=
  {| terminal_retention_seconds := 3600; max_calculating_seconds := 1800; max_sessions := 1000 |}.

Record SessionManager := {
  sessions : gmap string Session;
  invitation_to_session : gmap string string;
  participant_to_session : gmap string string;
  creator_nonce_to_session : gmap string string;
  active_async_threads : Z;
  ticks : nat
}.

Definition init_manager : SessionManager :=
  {| sessions := ∅; invitation_to_session := ∅; participant_to_session := ∅;
     creator_nonce_to_session := ∅; active_async_threads := 0; ticks := 0 |}.

(** What the manager calls: the clock (in nanoseconds), the random number
    generator, and the text of a duration. *)
Class Server := {
  (** [absl::Now()] *)
  now : nat → Z;
  (** [RAND_bytes] of a length, in hexadecimal *)
  random_hex : nat → nat → string;
  (** [absl::FormatDuration] *)
  FormatDuration : Z → string;
  (** the registry's policies, fixed at startup *)
  policies : gmap string PolicyDefinition;
  (** [Options] of the constructor *)
  options : Options
}.

(** ** Constants *)

Definition kSessionIdBytes : nat := 16.
Definition kParticipantTokenBytes : nat := 32.
Definition kDefaultTimeoutSeconds : Z := 300.
Definition kMaxLlmRetries : nat := 3.
Definition kMaxParticipants : Z := 100.
Definition kMaxTimeoutSeconds : Z := 86400.
Definition kMaxSealedSeconds : Z := 600.
Definition kMaxOpenSeconds : Z := 600.

(** [absl::Seconds] *)
Definition Seconds (n : Z) : Z := n * 10 ^ 9.

(** ** Updates of records *)

Definition with_state (st : SessionState) (at_ : Z) (s : Session) : Session :=
  {| id := id s; state := st; policy := policy s; policy_def := policy_def s;
     participants := participants s; result_json := result_json s; error_code := error_code s;
     error_detail := error_detail s; state_entered_at := at_; timeout := timeout s;
     invitation_token := invitation_token s; participant_tokens := participant_tokens s;
     nonce_to_token := nonce_to_token s; creator_nonce := creator_nonce s |}.

Definition with_error (e : SessionError) (detail : string) (s : Session) : Session :=
  {| id := id s; state := state s; policy := policy s; policy_def := policy_def s;
     participants := participants s; result_json := result_json s; error_code := e;
     error_detail := detail; state_entered_at := state_entered_at s; timeout := timeout s;
     invitation_token := invitation_token s; participant_tokens := participant_tokens s;
     nonce_to_token := nonce_to_token s; creator_nonce := creator_nonce s |}.

Definition with_result (r : string) (s : Session) : Session :=
  {| id := id s; state := state s; policy := policy s; policy_def := policy_def s;
     participants := participants s; result_json := r; error_code := error_code s;
     error_detail := error_detail s; state_entered_at := state_entered_at s; timeout := timeout s;
     invitation_token := invitation_token s; participant_tokens := participant_tokens s;
     nonce_to_token := nonce_to_token s; creator_nonce := creator_nonce s |}.

Definition with_participants (ps : gmap string Participant) (s : Session) : Session :=
  {| id := id s; state := state s; policy := policy s; policy_def := policy_def s;
     participants := ps; result_json := result_json s; error_code := error_code s;
     error_detail := error_detail s; state_entered_at := state_entered_at s; timeout := timeout s;
     invitation_token := invitation_token s; participant_tokens := participant_tokens s;
     nonce_to_token := nonce_to_token s; creator_nonce := creator_nonce s |}.

(** A new participant: the map entry, the list of tokens and, when the client
    gave a nonce, its token. *)
Definition with_joined (p : Participant) (nonce : string) (s : Session) : Session :=
  {| id := id s; state := state s; policy := policy s; policy_def := policy_def s;
     participants := <[token p := p]> (participants s); result_json := result_json s;
     error_code := error_code s; error_detail := error_detail s;
     state_entered_at := state_entered_at s; timeout := timeout s;
     invitation_token := invitation_token s; participant_tokens := participant_tokens s ++ [token p];
     nonce_to_token := if String.eqb nonce "" then nonce_to_token s
                       else <[nonce := token p]> (nonce_to_token s);
     creator_nonce := creator_nonce s |}.

Definition set_accepted (p : Participant) : Participant :=
  {| token := token p; accepted := true; input_json := input_json p;
     input_submitted := input_submitted p; join_index := join_index p |}.

Definition set_input (input : string) (p : Participant) : Participant :=
  {| token := token p; accepted := accepted p; input_json := input;
     input_submitted := true; join_index := join_index p |}.

Definition set_sessions (ss : gmap string Session) (m : SessionManager) : SessionManager :=
  {| sessions := ss; invitation_to_session := invitation_to_session m;
     participant_to_session := participant_to_session m;
     creator_nonce_to_session := creator_nonce_to_session m;
     active_async_threads := active_async_threads m; ticks := ticks m |}.

(** Write through a reference to the session stored under [sid]. *)
Definition put_session (sid : string) (s : Session) : ST SessionManager failure unit :=
  modify (λ m, set_sessions (<[sid := s]> (sessions m)) m).

Definition add_threads (n : Z) (m : SessionManager) : SessionManager :=
  {| sessions := sessions m; invitation_to_session := invitation_to_session m;
     participant_to_session := participant_to_session m;
     creator_nonce_to_session := creator_nonce_to_session m;
     active_async_threads := active_async_threads m + n; ticks := ticks m |}.

(** The number of the next reading or draw *)
Definition next_tick : ST SessionManager failure nat := λ m,
  (Ok (ticks m),
   {| sessions := sessions m; invitation_to_session := invitation_to_session m;
      participant_to_session := participant_to_session m;
      creator_nonce_to_session := creator_nonce_to_session m;
      active_async_threads := active_async_threads m; ticks := S (ticks m) |}).

(** ** [SessionManager::IsValidUuidV4] *)

Definition is_hex (a : ascii) : bool :=
  let n := N_of_ascii a in
  ((48 <=? n) && (n <=? 57) || (65 <=? n) && (n <=? 70) || (97 <=? n) && (n <=? 102))%N.

Definition is_variant (a : ascii) : bool := existsb (Ascii.eqb a) ["8"; "9"; "a"; "b"; "A"; "B"]%char.

(** The character classes of the pattern, in order. *)
Definition uuid_v4_pattern : list (ascii → bool) :=
  replicate 8 is_hex ++ [Ascii.eqb "-"] ++ replicate 4 is_hex ++ [Ascii.eqb "-"] ++
  [Ascii.eqb "4"] ++ replicate 3 is_hex ++ [Ascii.eqb "-"] ++
  [is_variant] ++ replicate 3 is_hex ++ [Ascii.eqb "-"] ++ replicate 12 is_hex.

Fixpoint full_match (p : list (ascii → bool)) (l : list ascii) : bool :=
  match p, l with
  | [], [] => true
  | c :: p', a :: l' => c a && full_match p' l'
  | _, _ => false
  end.

Definition IsValidUuidV4 (s : string) : bool := full_match uuid_v4_pattern (String.list_ascii_of_string s).

Abbreviation M := (ST SessionManager failure).

Definition denied : failure := Status PERMISSION_DENIED "Invalid token".

Definition is_terminal (st : SessionState) : bool :=
  match st with Closed | Aborted => true | _ => false end.

Section server.
Context `{Server, NJson, Re2}.

Definition Now : M Z := n ← next_tick; mret (now n).
Definition GenerateRandomHex (num_bytes : nat) : M string := n ← next_tick; mret (random_hex n num_bytes).

(** ** Timeouts *)

Definition effective_timeout (s : Session) : Z :=
  match state s with
  | Open => Z.min (timeout s) (Seconds kMaxOpenSeconds)
  | Sealed => Z.min (timeout s) (Seconds kMaxSealedSeconds)
  | Calculating => Seconds (max_calculating_seconds options)
  | _ => timeout s
  end.

Definition timeout_error (st : SessionState) : SessionError :=
  match st with
  | Open => JoinTimeout
  | Sealed => InputTimeout
  | Calculating => LlmGenerationFailed
  | _ => Unspecified
  end.

(** The session after the check, and whether it timed out *)
Definition CheckAndEnforceTimeout (s : Session) : M (bool * Session) :=
  if is_terminal (state s) then mret (false, s)
  else
    t ← Now;
    let elapsed := t - state_entered_at s in
    if effective_timeout s <? elapsed then
      t' ← Now;
      mret (true, with_state Aborted t'
        (with_error (timeout_error (state s))
           ("Session timed out in state " +:+ state_name (state s) +:+ " after " +:+ FormatDuration elapsed) s))
    else mret (false, s).

(** [CheckAndEnforceTimeout] on the stored session *)
Definition enforce (sid : string) (s : Session) : M Session :=
  r ← CheckAndEnforceTimeout s;
  put_session sid r.2;;
  mret r.2.

(** ** Authentication *)

Definition find_session (sid : string) : M Session :=
  m ← get_state;
  match sessions m !! sid with Some s => mret s | None => raise denied end.

Definition Authenticate (participant_token : string) : M (string * Session * Participant) :=
  m ← get_state;
  match participant_to_session m !! participant_token with
  | None => raise denied
  | Some session_id =>
      session ← find_session session_id;
      match participants session !! participant_token with
      | None => raise denied
      | Some participant => mret (session_id, session, participant)
      end
  end.

(** ** Garbage collection *)

Definition erase_session (sid : string) (s : Session) : M unit :=
  modify (λ m,
    {| sessions := delete sid (sessions m);
       invitation_to_session := delete (invitation_token s) (invitation_to_session m);
       participant_to_session := foldr delete (participant_to_session m) (participant_tokens s);
       creator_nonce_to_session :=
         if String.eqb (creator_nonce s) "" then creator_nonce_to_session m
         else delete (creator_nonce s) (creator_nonce_to_session m);
       active_async_threads := active_async_threads m; ticks := ticks m |}).

Definition should_erase (now : Z) (s : Session) : bool :=
  is_terminal (state s) &&
  ((bool_decide (state s = Aborted) &&
    (bool_decide (error_code s = JoinTimeout) || bool_decide (error_code s = InputTimeout))) ||
   (Seconds (terminal_retention_seconds options) <? now - state_entered_at s)).

Definition sweep_one (now : Z) (sid : string) : M unit :=
  m ← get_state;
  match sessions m !! sid with
  | None => mret tt
  | Some s =>
      s ← enforce sid s;
      if should_erase now s then erase_session sid s else mret tt
  end.

Fixpoint sweep_all (now : Z) (sids : list string) : M unit :=
  match sids with
  | [] => mret tt
  | sid :: sids' => sweep_one now sid;; sweep_all now sids'
  end.

(** Sessions are visited in the order of the map. *)
Definition SweepTerminalSessions : M unit :=
  t ← Now;
  m ← get_state;
  sweep_all t (map_to_list (sessions m)).*1.

(** ** [CreateSession] *)

Definition check (b : bool) (e : failure) : M unit := if b then raise e else mret tt.

(** [ParseJsonSafely] of a built-in schema that is not empty *)
Definition check_schema (which text : string) : M unit :=
  if String.eqb text "" then mret tt
  else match ParseJsonSafely text with
       | Raise (Status _ msg) =>
           raise (Status INTERNAL ("Malformed built-in " +:+ which +:+ ": " +:+ msg))
       | Raise e => raise e
       | Ok _ => mret tt
       end.

Definition timeout_or_default (p : SessionPolicy) : Z :=
  if 0 <? timeout_seconds p then timeout_seconds p else kDefaultTimeoutSeconds.

(** The policy with the given schemas and the timeout resolved *)
Definition normalized (input_schema output_schema : string) (p : SessionPolicy) : SessionPolicy :=
  {| policy_class := policy_class p; input_schema_json := input_schema;
     output_schema_json := output_schema; expected_participants := expected_participants p;
     timeout_seconds := timeout_or_default p; sdp_signature := sdp_signature p;
     signature_key_id := signature_key_id p |}.

(** The answer to a repeated request, if its nonce is known *)
Definition replay_create (p : SessionPolicy) (client_nonce : string) : M (option CreateSessionResponse) :=
  if String.eqb client_nonce "" then mret None
  else
    check (negb (IsValidUuidV4 client_nonce)) (invalid "client_nonce must be a valid UUIDv4");;
    m ← get_state;
    match creator_nonce_to_session m !! client_nonce with
    | None => mret None
    | Some sid =>
        match sessions m !! sid with
        | None => mret None
        | Some s =>
            check (bool_decide (policy s ≠ normalized (input_schema_json (policy s)) (output_schema_json (policy s)) p))
              (invalid "Idempotency key reused with different parameters");;
            mret (Some {| cr_invitation_token := invitation_token s; cr_state := state_number (state s);
                          cr_participant_token := default "" (participant_tokens s !! 0%nat) |})
        end
    end.

Definition new_session (session_id creator_token invitation : string) (p : SessionPolicy)
    (def : PolicyDefinition) (at_ : Z) (nonce : string) : Session :=
  {| id := session_id; state := Open;
     policy := normalized (default_input_schema_json def) (default_output_schema_json def) p;
     policy_def := def;
     participants := {[creator_token := {| token := creator_token; accepted := true; input_json := "";
                                           input_submitted := false; join_index := 0 |}]};
     result_json := ""; error_code := Unspecified; error_detail := "";
     state_entered_at := at_; timeout := Seconds (timeout_or_default p);
     invitation_token := invitation; participant_tokens := [creator_token];
     nonce_to_token := ∅; creator_nonce := nonce |}.

Definition register_session (s : Session) (creator_token : string) : M unit :=
  modify (λ m,
    {| sessions := <[id s := s]> (sessions m);
       invitation_to_session := <[invitation_token s := id s]> (invitation_to_session m);
       participant_to_session := <[creator_token := id s]> (participant_to_session m);
       creator_nonce_to_session :=
         if String.eqb (creator_nonce s) "" then creator_nonce_to_session m
         else <[creator_nonce s := id s]> (creator_nonce_to_session m);
       active_async_threads := active_async_threads m; ticks := ticks m |}).

Definition CreateSession (p : SessionPolicy) (client_nonce : string) : M CreateSessionResponse :=
  SweepTerminalSessions;;
  m ← get_state;
  check (max_sessions options <=? Z.of_nat (size (sessions m)))
    (Status RESOURCE_EXHAUSTED ("Server at session capacity (" +:+ pretty (max_sessions options)
                                +:+ "). Try again later."));;
  match policies !! policy_class p with
  | None =>
      let names := (map_to_list policies).*1 in
      raise (invalid ("Unknown policy class: '" +:+ policy_class p +:+ "'. Available: "
                      +:+ (if decide (names = []) then "(none)" else String.concat ", " names)))
  | Some def =>
      check (expected_participants p <? 2) (invalid "expected_participants must be at least 2");;
      check (kMaxParticipants <? expected_participants p)
        (invalid "expected_participants exceeds maximum (100)");;
      check (kMaxTimeoutSeconds <? timeout_seconds p) (invalid "timeout_seconds exceeds maximum (86400)");;
      check_schema "input_schema_json" (default_input_schema_json def);;
      check_schema "output_schema_json" (default_output_schema_json def);;
      replay ← replay_create p client_nonce;
      match replay with
      | Some response => mret response
      | None =>
          session_id ← GenerateRandomHex kSessionIdBytes;
          creator_token ← GenerateRandomHex kParticipantTokenBytes;
          invitation ← GenerateRandomHex kParticipantTokenBytes;
          t ← Now;
          register_session (new_session session_id creator_token invitation p def t client_nonce) creator_token;;
          mret {| cr_invitation_token := invitation; cr_state := state_number Open;
                  cr_participant_token := creator_token |}
      end
  end.

(** ** [JoinSession] *)

Definition join_response (s : Session) (t : string) : JoinSessionResponse :=
  {| jr_state := state_number (state s); jr_policy := policy s; jr_participant_token := t |}.

Definition JoinSession (invitation client_nonce : string) : M JoinSessionResponse :=
  m ← get_state;
  match invitation_to_session m !! invitation with
  | None => raise denied
  | Some sid =>
      session ← find_session sid;
      session ← enforce sid session;
      check (negb (String.eqb client_nonce "") && negb (IsValidUuidV4 client_nonce))
        (invalid "client_nonce must be a valid UUIDv4");;
      match (if String.eqb client_nonce "" then None else nonce_to_token session !! client_nonce) with
      | Some t => mret (join_response session t)
      | None =>
          check (bool_decide (state session ≠ Open)) denied;;
          check (expected_participants (policy session) <=? Z.of_nat (size (participants session))) denied;;
          t ← GenerateRandomHex kParticipantTokenBytes;
          let p := {| token := t; accepted := false; input_json := ""; input_submitted := false;
                      join_index := Z.of_nat (size (participants session)) |} in
          let session := with_joined p client_nonce session in
          put_session sid session;;
          modify (λ m,
            {| sessions := sessions m; invitation_to_session := invitation_to_session m;
               participant_to_session := <[t := id session]> (participant_to_session m);
               creator_nonce_to_session := creator_nonce_to_session m;
               active_async_threads := active_async_threads m; ticks := ticks m |});;
          mret (join_response session t)
      end
  end.

(** ** [AcceptPolicy] *)

Definition all_accepted (ps : gmap string Participant) : bool :=
  forallb (λ kv, accepted kv.2) (map_to_list ps).

Definition AcceptPolicy (participant_token : string) : M AcceptPolicyResponse :=
  auth ← Authenticate participant_token;
  let '(sid, session, participant) := auth in
  session ← enforce sid session;
  if accepted participant then mret {| ar_state := state_number (state session) |}
  else
    check (bool_decide (state session ≠ Open))
      (Status FAILED_PRECONDITION ("Session is not OPEN (state=" +:+ state_name (state session) +:+ ")"));;
    let session := with_participants
      (<[participant_token := set_accepted participant]> (participants session)) session in
    put_session sid session;;
    if (Z.of_nat (size (participants session)) =? expected_participants (policy session)) &&
       all_accepted (participants session)
    then
      t ← Now;
      put_session sid (with_state Sealed t session);;
      mret {| ar_state := state_number Sealed |}
    else mret {| ar_state := state_number (state session) |}.

(** ** [SubmitInput] *)

Definition submitted_count (ps : gmap string Participant) : Z :=
  Z.of_nat (length (List.filter (λ kv, input_submitted kv.2) (map_to_list ps))).

(** The schema in force for inputs *)
Definition input_schema_of (s : Session) : string :=
  if String.eqb (input_schema_json (policy s)) "" then default_input_schema_json (policy_def s)
  else input_schema_json (policy s).

Definition check_input_schema (v : json) (schema : string) : M unit :=
  if String.eqb schema "" then mret tt
  else match ValidateJsonSchema (dump v) schema with
       | Ok _ => mret tt
       | Raise (Status _ msg) => raise (invalid ("Input schema violation: " +:+ msg))
       | Raise e => raise e
       end.

(** The part under the first lock: the answer, or the session to process *)
Definition submit_locked (participant_token input : string) : M (SubmitInputResponse + string) :=
  auth ← Authenticate participant_token;
  let '(sid, session, participant) := auth in
  session ← enforce sid session;
  let session_id := id session in
  if bool_decide (state session ≠ Sealed) then
    if input_submitted participant then
      lift (ValidateRetryPayload input (input_json participant));;
      mret (inl {| sr_state := state_number (state session); sr_remaining_inputs := 0 |})
    else raise (Status FAILED_PRECONDITION
                  ("Session is not SEALED (state=" +:+ state_name (state session) +:+ ")"))
  else if input_submitted participant then
    lift (ValidateRetryPayload input (input_json participant));;
    mret (inl {| sr_state := state_number (state session);
                 sr_remaining_inputs := expected_participants (policy session)
                                        - submitted_count (participants session) |})
  else
    check (kMaxInputBytes <? Z.of_nat (String.length input))
      (invalid ("Input payload too large (" +:+ pretty (N.of_nat (String.length input)) +:+ " bytes, max 65536)"));;
    parsed_input ← lift (ParseJsonSafely input);
    check_input_schema parsed_input (input_schema_of session);;
    let session := with_participants
      (<[participant_token := set_input (dump parsed_input) participant]> (participants session)) session in
    put_session sid session;;
    let remaining := expected_participants (policy session) - submitted_count (participants session) in
    if remaining =? 0 then
      t ← Now;
      put_session sid (with_state Calculating t session);;
      modify (add_threads 1);;
      mret (inr session_id)
    else mret (inl {| sr_state := state_number (state session); sr_remaining_inputs := remaining |}).

(** [catch (const std::system_error& e)] around the start of the thread; the
    time the session entered its state is not updated. *)
Definition spawn_failed (session_id what : string) : M SubmitInputResponse :=
  modify (add_threads (-1));;
  m ← get_state;
  match sessions m !! session_id with
  | Some s => put_session session_id (with_state Aborted (state_entered_at s)
                (with_error Unspecified ("Failed to spawn inference thread: " +:+ what) s))
  | None => mret tt
  end;;
  raise (Status INTERNAL "Failed to spawn LLM background thread: resource exhausted").

Definition spawned : SubmitInputResponse :=
  {| sr_state := state_number Calculating; sr_remaining_inputs := 0 |}.

(** ** [ProcessSessionAsync] *)

(** [absl::StrReplaceAll] of two placeholders: one pass from left to right *)
Fixpoint replace_all (reps : list (list ascii * string)) (skip : nat) (l : list ascii) : string :=
  match l with
  | [] => ""
  | a :: l' =>
      match skip with
      | S n => replace_all reps n l'
      | O =>
          match List.find (λ r, bool_decide (is_Some (after_prefix r.1 l))) reps with
          | Some (key, value) => value +:+ replace_all reps (length key - 1) l'
          | None => String a (replace_all reps 0 l')
          end
      end
  end.

Definition StrReplaceAll (s : string) (reps : list (string * string)) : string :=
  replace_all ((λ r, (String.list_ascii_of_string r.1, r.2)) <$> reps) 0 (String.list_ascii_of_string s).

Definition nl : string := String newline "".

Definition input_block (suffix : string) (i : nat) (p : Participant) : string :=
  let n := pretty (N.of_nat i) in
  "<<<PARTICIPANT_" +:+ n +:+ "_INPUT_BEGIN_" +:+ suffix +:+ ">>>" +:+ nl +:+ input_json p +:+ nl +:+
  "<<<PARTICIPANT_" +:+ n +:+ "_INPUT_END_" +:+ suffix +:+ ">>>" +:+ nl +:+ nl.

Definition join_le (a b : string * Participant) : Prop := join_index a.2 <= join_index b.2.
#[global] Instance join_le_dec : RelDecision join_le.
Proof. intros a b. unfold join_le. apply _. Defined.

(** The participants in an order of iteration over the hash map, sorted by when
    they joined *)
Definition sorted_participants (order : list (string * Participant)) : list Participant :=
  (merge_sort join_le order).*2.

Definition inputs_block (suffix : string) (ps : list Participant) : string :=
  String.concat "" (imap (λ i p, input_block suffix (S i) p) ps).

Definition build_prompt (s : Session) (order : list (string * Participant)) (suffix : string) : string :=
  StrReplaceAll (prompt_template (policy_def s))
    [("{num_participants}", pretty (N.of_nat (size (participants s))));
     ("{inputs}", inputs_block suffix (sorted_participants order))].

Definition output_schema_of (s : Session) : string :=
  if String.eqb (output_schema_json (policy s)) "" then default_output_schema_json (policy_def s)
  else output_schema_json (policy s).

(** Step 1: the prompt and the schema, unless the session is gone or no longer
    calculating *)
Definition prepare (session_id : string) : M (option (string * string)) :=
  m ← get_state;
  match sessions m !! session_id with
  | None => mret None
  | Some s =>
      if bool_decide (state s ≠ Calculating) then mret None
      else
        suffix ← GenerateRandomHex 8;
        mret (Some (build_prompt s (map_to_list (participants s)) suffix, output_schema_of s))
  end.

(** What [engine_->Generate] does in one attempt: a text or a failure. *)
Abbreviation generation := (result string string).

(** Step 2: the attempts; the text that passed, or [None] after the last one *)
Fixpoint attempts (n : nat) (schema : string) (outcomes : list generation) : sres (option string) :=
  match n, outcomes with
  | S n, Ok text :: rest =>
      let output := StripMarkdownCodeFences text in
      if String.eqb schema "" then Ok (Some output)
      else match ValidateJsonSchema output schema with
           | Ok _ => Ok (Some output)
           | Raise (Status _ _) => attempts n schema rest
           | Raise e => Raise e
           end
  | S n, Raise _ :: rest => attempts n schema rest
  | _, _ => Ok None
  end.

(** The outcome of step 2: a result, or the message of the failure. An empty
    result counts as a failure. *)
Definition generate (engine : bool) (schema : string) (outcomes : list generation) : sres (result string string) :=
  if negb engine then Ok (Raise "No LLM engine available")
  else
    r ← attempts kMaxLlmRetries schema outcomes;
    Ok (match r with
        | Some output => if String.eqb output "" then Raise "LLM failed to produce valid output after 3 attempts"
                         else Ok output
        | None => Raise "LLM failed to produce valid output after 3 attempts"
        end).

(** Step 3: the result is written only to a session that is still calculating. *)
Definition write_result (session_id : string) (outcome : result string string) : M unit :=
  m ← get_state;
  match sessions m !! session_id with
  | None => mret tt
  | Some s =>
      if bool_decide (state s ≠ Calculating) then mret tt
      else
        t ← Now;
        put_session session_id
          match outcome with
          | Ok r => with_state Closed t (with_result r s)
          | Raise msg => with_state Aborted t (with_error LlmGenerationFailed msg s)
          end
  end.

(** ** [GetResult] and [GetSessionStatus] *)

Definition GetResult (participant_token : string) : M GetResultResponse :=
  auth ← Authenticate participant_token;
  let '(sid, session, _) := auth in
  session ← enforce sid session;
  mret {| gr_state := state_number (state session);
          gr_result_json := if bool_decide (state session = Closed) then result_json session else "";
          gr_error_code := if bool_decide (state session = Aborted) then error_number (error_code session) else 0;
          gr_error_detail := if bool_decide (state session = Aborted) then error_detail session else "" |}.

Definition GetSessionStatus (participant_token : string) : M GetSessionStatusResponse :=
  auth ← Authenticate participant_token;
  let '(sid, session, _) := auth in
  session ← enforce sid session;
  mret {| st_state := state_number (state session);
          st_participants_joined := Z.of_nat (size (participants session));
          st_participants_accepted :=
            Z.of_nat (length (List.filter (λ kv, accepted kv.2) (map_to_list (participants session))));
          st_inputs_received := submitted_count (participants session) |}.
End server.
