(* ===== verification/PolicyRegistry.v ===== *)
(** [tee/policy_registry.cc]: the policies the server loads at startup, and
    [RunServer] of [tee/main.cc]: what it starts and how it ends.

    The directory and its files, nlohmann's parser, the inference engine, the
    loopback gRPC server and the TLS proxy are parameters. *)

From S2P Require Import Prelude PyText PyValue Rpc Schema Session.

Open Scope Z_scope.

Abbreviation registry := (gmap string PolicyDefinition).

(** What [nlohmann::json::parse] does: a document, a [parse_error], or another
    exception (a number out of range). *)
Inductive parse_outcome := Document (v : json) | ParseError (what : string) | ParseThrow (what : string).

Class PolicyFiles := {
  (** the names [readdir] returns in turn, when the directory can be opened *)
  opendir : string → option (list string);
  (** the contents of a file that can be opened *)
  read_file : string → option string;
  json_parse : string → parse_outcome
}.

(** [filename] ends in [.json] *)
Definition is_json_name (filename : string) : bool :=
  let n := String.length filename in
  (5 <=? n)%nat && String.eqb (String.substring (n - 5) 5 filename) ".json".

(** [doc[k]] when [doc.contains(k)] *)
Definition member (k : string) (doc : json) : option json :=
  match doc with JObj d => lookup_key k d | _ => None end.

Section registry.
Context `{PolicyFiles, NJson}.

Abbreviation R := (ST registry failure).

Definition missing_field (k filepath : string) : failure :=
  invalid ("Missing or invalid '" +:+ k +:+ "' in '" +:+ filepath +:+ "'").

Definition load_document (filepath : string) (doc : json) : R unit :=
  match member "policy_class" doc, member "prompt_template" doc, member "input_schema" doc with
  | Some (JStr policy_class), Some (JStr template), Some (JObj input) =>
      reg ← get_state;
      if bool_decide (is_Some (reg !! policy_class)) then
        raise (Status ALREADY_EXISTS ("Duplicate policy_class '" +:+ policy_class +:+ "' found in '" +:+ filepath
                 +:+ "'. Each policy_class must be unique."))
      else
        modify (insert policy_class
          {| prompt_template := template;
             default_input_schema_json := dump (JObj input);
             default_output_schema_json :=
               match member "output_schema" doc with Some (JObj output) => dump (JObj output) | _ => "" end |})
  | Some (JStr _), Some (JStr _), _ => raise (missing_field "input_schema" filepath)
  | Some (JStr _), _, _ => raise (missing_field "prompt_template" filepath)
  | _, _, _ => raise (missing_field "policy_class" filepath)
  end.

Definition load_file (filepath : string) : R unit :=
  match read_file filepath with
  | None => raise (Status INTERNAL ("Cannot open policy file: '" +:+ filepath +:+ "'"))
  | Some contents =>
      match json_parse contents with
      | Document doc => load_document filepath doc
      | ParseError what => raise (invalid ("Malformed JSON in '" +:+ filepath +:+ "': " +:+ what))
      | ParseThrow what => raise (Throw what)
      end
  end.

(** The loop over the directory; the number of policies loaded *)
Fixpoint load_entries (dir_path : string) (names : list string) (loaded : nat) : R nat :=
  match names with
  | [] => mret loaded
  | filename :: names' =>
      if is_json_name filename then
        load_file (dir_path +:+ "/" +:+ filename);;
        load_entries dir_path names' (S loaded)
      else load_entries dir_path names' loaded
  end.

Definition LoadFromDirectory (dir_path : string) : R unit :=
  match opendir dir_path with
  | None => raise (Status NOT_FOUND ("Policy directory not found: '" +:+ dir_path +:+ "'"))
  | Some names =>
      loaded ← load_entries dir_path names 0;
      if (loaded =? 0)%nat then
        raise (Status NOT_FOUND ("No *.json policy files found in '" +:+ dir_path +:+ "'"))
      else mret tt
  end.

(** [GetPolicy]; the names are listed in the order of the map. *)
Definition GetPolicy (reg : registry) (policy_class : string) : sres PolicyDefinition :=
  match reg !! policy_class with
  | Some def => Ok def
  | None =>
      let available := (map_to_list reg).*1 in
      Raise (Status NOT_FOUND ("Unknown policy class: '" +:+ policy_class +:+ "'. Available: "
        +:+ (if decide (available = []) then "(none)" else String.concat ", " available)))
  end.

(** ** [RunServer] *)

Record flags := {
  model_path : string;
  gpu_layers : Z;
  attestation_provider : string;
  policy_dir : string;
  local_port : Z;
  port : Z
}.

(** How the function ends or goes on: it returns, the process dies ([LOG(FATAL)],
    an exception or a null pointer), or the proxy runs in front of the loopback
    server, which is there ([local]) or not. *)
Inductive startup :=
| Returned
| Died
| Serving (engine : bool) (reg : registry) (provider : string) (local : bool).

(** Whether the engine loads; whether [builder.BuildAndStart()] returns a server
    listening on the port, or null; whether the proxy between the two ports
    starts *)
Variable CreateLlamaEngine : string → Z → bool.
Variable BuildAndStart : Z → bool.
Variable proxy_starts : Z → Z → string → bool.

Definition load_policies (dir_path : string) : option registry :=
  if String.eqb dir_path "" then Some ∅
  else match LoadFromDirectory dir_path ∅ with
       | (Ok _, reg) => Some reg
       | (Raise _, _) => None
       end.

Definition RunServer (f : flags) : startup :=
  let engine := negb (String.eqb (model_path f) "") in
  if engine && negb (CreateLlamaEngine (model_path f) (gpu_layers f)) then Returned
  else match load_policies (policy_dir f) with
  | None => Died
  | Some reg =>
      if String.eqb (attestation_provider f) "mock" || String.eqb (attestation_provider f) "ita" then
        let server := BuildAndStart (local_port f) in
        if proxy_starts (port f) (local_port f) (attestation_provider f)
        then Serving engine reg (attestation_provider f) server else Returned
      else Returned
  end.

(** The rest of the function, once a signal ends the loop: [server->Shutdown()],
    without a test for null *)
Definition after_signal (s : startup) : startup :=
  match s with
  | Serving _ _ _ local => if local then Returned else Died
  | s => s
  end.

(** ** What a directory declares *)

(** The policy a file declares, if it declares one *)
Definition declared (filepath : string) : option (string * PolicyDefinition) :=
  contents ← read_file filepath;
  match json_parse contents with
  | Document doc =>
      match member "policy_class" doc, member "prompt_template" doc, member "input_schema" doc with
      | Some (JStr policy_class), Some (JStr template), Some (JObj input) =>
          Some (policy_class,
            {| prompt_template := template;
               default_input_schema_json := dump (JObj input);
               default_output_schema_json :=
                 match member "output_schema" doc with Some (JObj output) => dump (JObj output) | _ => "" end |})
      | _, _, _ => None
      end
  | _ => None
  end.

(** The policy files of a directory *)
Definition policy_files (dir_path : string) (names : list string) : list string :=
  (λ f, dir_path +:+ "/" +:+ f) <$> List.filter is_json_name names.

(** A directory with at least one policy file, each of which declares a policy,
    no two the same class *)
Definition declares (dir_path : string) (reg : registry) : Prop :=
  ∃ names defs, opendir dir_path = Some names ∧ mapM declared (policy_files dir_path names) = Some defs ∧
    defs ≠ [] ∧ NoDup defs.*1 ∧ reg = list_to_map defs.

Lemma load_file_run fp reg reg' :
  load_file fp reg = (Ok tt, reg') ↔
  ∃ c d, declared fp = Some (c, d) ∧ reg !! c = None ∧ reg' = <[c := d]> reg.
Proof.
  unfold load_file, declared. destruct (read_file fp) as [text|]; [|split; [done|by intros (? & ? & ? & _)]].
  cbn [mbind option_bind]. destruct (json_parse text) as [doc|what|what]; [|split; [done|by intros (? & ? & ? & _)]..].
  unfold load_document.
  destruct (member "policy_class" doc) as [[| | | |c| |]|]; try (split; [done|by intros (? & ? & ? & _)]).
  destruct (member "prompt_template" doc) as [[| | | |t| |]|]; try (split; [done|by intros (? & ? & ? & _)]).
  destruct (member "input_schema" doc) as [[| | | | | |i]|]; try (split; [done|by intros (? & ? & ? & _)]).
  unfold mbind, ST_bind, get_state. case_bool_decide as Hs.
  - split; [done|]. intros (c' & d & [= <- _] & Hn & _). rewrite Hn in Hs. by destruct Hs.
  - rewrite <- eq_None_not_Some in Hs. split.
    + intros [= <-]. eauto.
    + by intros (c' & d & [= <- <-] & _ & ->).
Qed.

Lemma load_entries_run dir names n reg k reg' :
  load_entries dir names n reg = (Ok k, reg') ↔
  ∃ defs, mapM declared (policy_files dir names) = Some defs ∧ NoDup defs.*1 ∧
    (∀ c, c ∈ defs.*1 → reg !! c = None) ∧ k = (n + length defs)%nat ∧ reg' = list_to_map defs ∪ reg.
Proof.
  revert n reg. induction names as [|f names IH]; intros n reg; cbn [load_entries].
  - split.
    + intros [= <- <-]. exists []. split; [done|]. split; [constructor|]. split; [by intros c ?%elem_of_nil|].
      cbn. by rewrite Nat.add_0_r, map_empty_union.
    + intros (defs & [= <-] & _ & _ & -> & ->). cbn. by rewrite Nat.add_0_r, map_empty_union.
  - unfold policy_files. cbn [List.filter]. destruct (is_json_name f); [|apply IH]. rewrite fmap_cons. cbn [mapM].
    rewrite st_bind_eq. destruct (load_file (dir +:+ "/" +:+ f) reg) as [[[]|e] reg1] eqn:Hl.
    + apply load_file_run in Hl as (c & d & Hd & Hc & ->). rewrite Hd, IH. split.
      * intros (defs & Hm & Hnd & Hnew & -> & ->). exists ((c, d) :: defs).
        fold (policy_files dir names). rewrite Hm. split; [done|].
        assert (Hn : c ∉ defs.*1). { intros Hin. specialize (Hnew c Hin). by rewrite lookup_insert_eq in Hnew. }
        split; [by constructor|]. split.
        { intros c' [->|Hin]%elem_of_cons; [done|]. specialize (Hnew c' Hin). by apply lookup_insert_None in Hnew as [? _]. }
        split; [cbn; lia|]. cbn. rewrite <- insert_union_l, insert_union_r; [done|]. by apply not_elem_of_list_to_map_1.
      * fold (policy_files dir names). destruct (mapM declared (policy_files dir names)) as [defs|]; [|by intros (? & ? & _)].
        intros (defs' & [= <-] & Hnd & Hnew & -> & ->). cbn in Hnd. apply NoDup_cons in Hnd as [Hn Hnd].
        exists defs. split; [done|]. split; [done|]. split.
        { intros c' Hin. rewrite lookup_insert_ne by congruence. apply Hnew. by right. }
        split; [cbn; lia|]. cbn. rewrite <- insert_union_l, insert_union_r; [done|]. by apply not_elem_of_list_to_map_1.
    + split; [done|]. fold (policy_files dir names). intros (defs & Hm & Hnd & Hnew & _). exfalso.
      destruct (declared (dir +:+ "/" +:+ f)) as [[c d]|] eqn:Hd; [|done]. cbn in Hm.
      destruct (mapM declared (policy_files dir names)) as [defs'|]; [|done]. injection Hm as <-.
      assert (Hok : load_file (dir +:+ "/" +:+ f) reg = (Ok tt, <[c := d]> reg)).
      { apply load_file_run. exists c, d. split; [done|]. split; [|done]. apply Hnew. by left. }
      congruence.
Qed.

Lemma LoadFromDirectory_run dir reg : LoadFromDirectory dir ∅ = (Ok tt, reg) ↔ declares dir reg.
Proof.
  unfold LoadFromDirectory, declares. destruct (opendir dir) as [names|]; [|split; [done|by intros (? & ? & ? & _)]].
  rewrite st_bind_eq. split.
  - destruct (load_entries dir names 0 ∅) as [[k|e] reg1] eqn:Hl; [|done].
    apply load_entries_run in Hl as (defs & Hm & Hnd & _ & -> & ->).
    destruct defs as [|[c d] defs]; [done|]. intros [= <-]. exists names, ((c, d) :: defs).
    rewrite map_union_empty. done.
  - intros (names' & defs & [= <-] & Hm & Hne & Hnd & ->).
    assert (Hl : load_entries dir names 0 ∅ = (Ok (length defs), list_to_map defs)).
    { apply load_entries_run. exists defs. rewrite map_union_empty. split; [done|]. split; [done|].
      split; [intros c _; apply lookup_empty|done]. }
    rewrite Hl. by destruct defs.
Qed.

(** C21: the server starts exactly when it may, and with exactly the policies it
    was given. Its proxy runs iff its model (if one is named) loads; the policy
    directory, if one is named, has at least one policy file and all of them
    declare a policy of their own class; the attestation provider is one of the
    two known ones; and the proxy starts. The registry then holds the declared
    policies, all of them and nothing else (none, when no directory is named).
    One bad file, or two files of one class, and nothing is served. Whether
    there is a gRPC server behind the proxy is another matter: that is so iff
    [BuildAndStart] gave one, which the code does not test; without it the proxy
    runs all the same, and the process dies when it is told to stop. *)
Theorem startup_exact f engine reg provider local :
  (RunServer f = Serving engine reg provider local ↔
    engine = negb (String.eqb (model_path f) "") ∧
    (model_path f ≠ "" → CreateLlamaEngine (model_path f) (gpu_layers f) = true) ∧
    (policy_dir f = "" ∧ reg = ∅ ∨ policy_dir f ≠ "" ∧ declares (policy_dir f) reg) ∧
    provider = attestation_provider f ∧ (provider = "mock" ∨ provider = "ita") ∧
    proxy_starts (port f) (local_port f) provider = true ∧
    local = BuildAndStart (local_port f)) ∧
  (RunServer f = Serving engine reg provider local →
    after_signal (RunServer f) = Returned ↔ BuildAndStart (local_port f) = true).
Proof.
  enough (Hiff : RunServer f = Serving engine reg provider local ↔
    engine = negb (String.eqb (model_path f) "") ∧
    (model_path f ≠ "" → CreateLlamaEngine (model_path f) (gpu_layers f) = true) ∧
    (policy_dir f = "" ∧ reg = ∅ ∨ policy_dir f ≠ "" ∧ declares (policy_dir f) reg) ∧
    provider = attestation_provider f ∧ (provider = "mock" ∨ provider = "ita") ∧
    proxy_starts (port f) (local_port f) provider = true ∧ local = BuildAndStart (local_port f)).
  { split; [exact Hiff|]. intros Hs. rewrite Hs. apply Hiff in Hs as (_ & _ & _ & _ & _ & _ & ->). cbn.
    destruct (BuildAndStart _); done. }
  assert (Hp : ∀ reg, load_policies (policy_dir f) = Some reg ↔
    policy_dir f = "" ∧ reg = ∅ ∨ policy_dir f ≠ "" ∧ declares (policy_dir f) reg).
  { intros r. unfold load_policies. destruct (String.eqb_spec (policy_dir f) "") as [->|Hne].
    - split; [intros [= <-]; by left|intros [[_ ->]|[? _]]; done].
    - rewrite <- LoadFromDirectory_run. destruct (LoadFromDirectory (policy_dir f) ∅) as [[[]|e] r'].
      + split; [intros [= <-]; by right|intros [[? _]|[_ [= <-]]]; done].
      + split; [done|intros [[? _]|[_ ?]]; done]. }
  rewrite <- Hp. unfold RunServer.
  assert (He : negb (String.eqb (model_path f) "") && negb (CreateLlamaEngine (model_path f) (gpu_layers f)) = false ↔
    (model_path f ≠ "" → CreateLlamaEngine (model_path f) (gpu_layers f) = true)).
  { destruct (String.eqb_spec (model_path f) "") as [->|Hne]; cbn; [tauto|]. rewrite negb_false_iff. tauto. }
  rewrite <- He. destruct (negb _ && negb _); [split; [done|intros (_ & [=] & _)]|].
  destruct (load_policies (policy_dir f)) as [r|]; [|split; [done|by intros (_ & _ & [=] & _)]].
  assert (Hk : String.eqb (attestation_provider f) "mock" || String.eqb (attestation_provider f) "ita" = true ↔
    attestation_provider f = "mock" ∨ attestation_provider f = "ita") by (by rewrite orb_true_iff, !String.eqb_eq).
  split.
  - destruct (_ || _); [|done]. destruct (proxy_starts _ _ (attestation_provider f)) eqn:Hs; [|done].
    intros [= <- <- <- <-]. pose proof (proj1 Hk eq_refl). split; [done|]. split; [done|]. split; [done|]. by repeat split.
  - intros (-> & _ & [= <-] & -> & Hor & Hs & ->). by rewrite (proj2 Hk Hor), Hs.
Qed.
End registry.

(** ** A concrete directory *)

Section demo.
#[local] Existing Instance demo_njson.

Definition calendar_document : json :=
  JObj [("policy_class", JStr "ScheduleOverlap"); ("prompt_template", JStr "{inputs}"); ("input_schema", JObj [])].

(** A policy, a note, and in the second directory the same policy twice *)
#[local] Instance demo_policy_files : PolicyFiles := {|
  opendir dir := if String.eqb dir "policies" then Some ["."; "readme.md"; "calendar.json"]
                 else if String.eqb dir "twice" then Some ["a.json"; "b.json"] else None;
  read_file path := Some path;
  json_parse text := Document calendar_document |}.

Definition demo_flags (dir : string) : flags :=
  {| model_path := ""; gpu_layers := 0; attestation_provider := "ita"; policy_dir := dir;
     local_port := 50051; port := 8000 |}.

Lemma startup_exact_witness :
  (∃ reg, RunServer (λ _ _, false) (λ _, false) (λ _ _ _, true) (demo_flags "policies") = Serving false reg "ita" false ∧
     default_input_schema_json <$> reg !! "ScheduleOverlap" = Some (dump (JObj []))) ∧
  RunServer (λ _ _, false) (λ _, true) (λ _ _ _, true) (demo_flags "twice") = Died.
Proof.
  split; [|vm_compute; reflexivity]. eexists. split; [|].
  - apply startup_exact. split; [reflexivity|]. split; [intros []; reflexivity|].
    split; [right; split; [discriminate|]|split; [reflexivity|split; [by right|split; reflexivity]]].
    exists ["."; "readme.md"; "calendar.json"], [("ScheduleOverlap",
      {| prompt_template := "{inputs}"; default_input_schema_json := dump (JObj []); default_output_schema_json := "" |})].
    split; [reflexivity|]. split; [reflexivity|]. split; [discriminate|]. split; [apply NoDup_singleton|reflexivity].
  - reflexivity.
Defined.
End demo.
