(* ===== verification/SessionSteps.v ===== *)
(** The session manager as a transition system.

    [change] lists the elementary changes of the manager's state, each with the
    conditions under which the code makes it; every operation of [Session] is a
    sequence of them ([serve_cases], [run_task_changes]). [step] interleaves
    remote calls and background threads. *)

From S2P Require Import Prelude PyText PyValue Rpc Schema Session.

Open Scope Z_scope.

(** The state after one reading of the clock or one draw *)
Definition bump (m : SessionManager) : SessionManager :=
  {| sessions := sessions m; invitation_to_session := invitation_to_session m;
     participant_to_session := participant_to_session m;
     creator_nonce_to_session := creator_nonce_to_session m;
     active_async_threads := active_async_threads m; ticks := S (ticks m) |}.

(** The session stored under [sid] replaced *)
Definition store (sid : string) (s : Session) (m : SessionManager) : SessionManager :=
  set_sessions (<[sid := s]> (sessions m)) m.

Definition erased (sid : string) (s : Session) (m : SessionManager) : SessionManager :=
  {| sessions := delete sid (sessions m);
     invitation_to_session := delete (invitation_token s) (invitation_to_session m);
     participant_to_session := foldr delete (participant_to_session m) (participant_tokens s);
     creator_nonce_to_session :=
       if String.eqb (creator_nonce s) "" then creator_nonce_to_session m
       else delete (creator_nonce s) (creator_nonce_to_session m);
     active_async_threads := active_async_threads m; ticks := ticks m |}.

Definition registered (s : Session) (creator_token : string) (m : SessionManager) : SessionManager :=
  {| sessions := <[id s := s]> (sessions m);
     invitation_to_session := <[invitation_token s := id s]> (invitation_to_session m);
     participant_to_session := <[creator_token := id s]> (participant_to_session m);
     creator_nonce_to_session :=
       if String.eqb (creator_nonce s) "" then creator_nonce_to_session m
       else <[creator_nonce s := id s]> (creator_nonce_to_session m);
     active_async_threads := active_async_threads m; ticks := ticks m |}.

Definition joined (sid : string) (s : Session) (t : string) (m : SessionManager) : SessionManager :=
  {| sessions := <[sid := s]> (sessions m); invitation_to_session := invitation_to_session m;
     participant_to_session := <[t := id s]> (participant_to_session m);
     creator_nonce_to_session := creator_nonce_to_session m;
     active_async_threads := active_async_threads m; ticks := ticks m |}.

(** Everyone expected has joined and accepted. *)
Definition complete (s : Session) : bool :=
  (Z.of_nat (size (participants s)) =? expected_participants (policy s)) && all_accepted (participants s).

Section steps.
Context `{Server, NJson, Re2}.

Definition fresh_participant (t : string) (s : Session) : Participant :=
  {| token := t; accepted := false; input_json := ""; input_submitted := false;
     join_index := Z.of_nat (size (participants s)) |}.

Definition accept_session (t : string) (p : Participant) (s : Session) : Session :=
  with_participants (<[t := set_accepted p]> (participants s)) s.
Definition submit_session (t input : string) (p : Participant) (s : Session) : Session :=
  with_participants (<[t := set_input input p]> (participants s)) s.

(** A new session and what the code checked for it *)
Definition creatable (p : SessionPolicy) (def : PolicyDefinition) (nonce : string) (m : SessionManager) : Prop :=
  Z.of_nat (size (sessions m)) < max_sessions options ∧
  policies !! policy_class p = Some def ∧
  2 <= expected_participants p <= kMaxParticipants ∧ timeout_seconds p <= kMaxTimeoutSeconds ∧
  (nonce = "" ∨ ∀ sid s, creator_nonce_to_session m !! nonce = Some sid → sessions m !! sid = Some s → False).

(** An input that passed the checks: its canonical text *)
Definition admissible (s : Session) (text : string) : Prop :=
  ∃ v, text = dump v ∧
    (input_schema_of s = "" ∨ ValidateJsonSchema text (input_schema_of s) = Ok tt).

(** A result that passed the checks *)
Definition releasable (s : Session) (text : string) : Prop :=
  text ≠ "" ∧ (output_schema_of s = "" ∨ ValidateJsonSchema text (output_schema_of s) = Ok tt).

(** The elementary changes made by remote calls, up to the start of a
    calculation *)
Inductive quiet (m : SessionManager) : SessionManager → Prop :=
| ch_tick : quiet m (bump m)
| ch_timeout sid s t t' detail :
    sessions m !! sid = Some s → is_terminal (state s) = false →
    effective_timeout s < t - state_entered_at s →
    quiet m (store sid (with_state Aborted t' (with_error (timeout_error (state s)) detail s)) m)
| ch_erase sid s :
    sessions m !! sid = Some s → is_terminal (state s) = true → quiet m (erased sid s m)
| ch_create p def nonce :
    creatable p def nonce m →
    let n := ticks m in
    quiet m (registered (new_session (random_hex n kSessionIdBytes) (random_hex (S n) kParticipantTokenBytes)
                           (random_hex (S (S n)) kParticipantTokenBytes) p def (now (S (S (S n)))) nonce)
               (random_hex (S n) kParticipantTokenBytes) (bump (bump (bump (bump m)))))
| ch_join sid s nonce :
    sessions m !! sid = Some s → state s = Open →
    Z.of_nat (size (participants s)) < expected_participants (policy s) →
    (nonce = "" ∨ nonce_to_token s !! nonce = None) →
    let t := random_hex (ticks m) kParticipantTokenBytes in
    quiet m (joined sid (with_joined (fresh_participant t s) nonce s) t (bump m))
| ch_accept sid s t p :
    sessions m !! sid = Some s → participants s !! t = Some p → state s = Open → accepted p = false →
    complete (accept_session t p s) = false →
    quiet m (store sid (accept_session t p s) m)
| ch_seal sid s t p at_ :
    sessions m !! sid = Some s → participants s !! t = Some p → state s = Open → accepted p = false →
    complete (accept_session t p s) = true →
    quiet m (store sid (with_state Sealed at_ (accept_session t p s)) m)
| ch_submit sid s t p text :
    sessions m !! sid = Some s → participants s !! t = Some p → state s = Sealed → input_submitted p = false →
    admissible s text →
    submitted_count (participants (submit_session t text p s)) ≠ expected_participants (policy s) →
    quiet m (store sid (submit_session t text p s) m).

(** What a failed start of the thread writes over an aborted session *)
Definition spawn_error (what : string) : string := "Failed to spawn inference thread: " +:+ what.
Definition respawned (s : Session) (e : SessionError) (detail : string) (at_ : Z) : Prop :=
  e = Unspecified ∧ (∃ what, detail = spawn_error what) ∧ at_ = state_entered_at s.

(** All elementary changes: with the start of a calculation, its end by the
    background thread, and the count of threads *)
Inductive change (m : SessionManager) : SessionManager → Prop :=
| ch_quiet m' : quiet m m' → change m m'
| ch_start sid s t p text at_ :
    sessions m !! sid = Some s → participants s !! t = Some p → state s = Sealed → input_submitted p = false →
    admissible s text →
    submitted_count (participants (submit_session t text p s)) = expected_participants (policy s) →
    change m (store sid (with_state Calculating at_ (submit_session t text p s)) m)
| ch_close sid s r at_ :
    sessions m !! sid = Some s → state s = Calculating → releasable s r →
    change m (store sid (with_state Closed at_ (with_result r s)) m)
| ch_fail sid s e detail at_ :
    sessions m !! sid = Some s → state s = Calculating ∨ state s = Aborted ∧ respawned s e detail at_ →
    change m (store sid (with_state Aborted at_ (with_error e detail s)) m)
| ch_threads n : change m (add_threads n m).

Abbreviation changes := (rtc change).

(** ** Every operation is a sequence of changes *)

(** From [m0] the operation leads through changes, whatever it returns. *)
Definition reach (m0 m : SessionManager) : Prop := rtc quiet m0 m.

Lemma reach_step m0 m m' : reach m0 m → quiet m m' → reach m0 m'.
Proof. apply rtc_r. Qed.

(** The stored session is known to be [s]. *)
Definition at_session (m0 : SessionManager) (sid : string) (s : Session) (m : SessionManager) : Prop :=
  reach m0 m ∧ sessions m !! sid = Some s.

Lemma at_reach m0 sid s m : at_session m0 sid s m → reach m0 m.
Proof. by intros [? _]. Qed.

Lemma store_same sid s m : sessions m !! sid = Some s → store sid s m = m.
Proof. intros Hs. unfold store, set_sessions. rewrite insert_id by done. by destruct m. Qed.

Lemma hoare_now m0 (Q : SessionManager → Prop) :
  (∀ m, reach m0 m → Q m → Q (bump m)) →
  hoare (λ m, reach m0 m ∧ Q m) Now (λ _ m, reach m0 m ∧ Q m) (reach m0).
Proof.
  intros HQ m [Hr Hq]. unfold Now, next_tick. st_unfold. cbn.
  split; [exact (reach_step _ _ _ Hr (ch_tick m))|by apply HQ].
Qed.

(** A check that passes tells its condition. *)
Lemma hoare_check P (b : bool) e R :
  (∀ m, P m → R m) → hoare P (check b e) (λ _ m, P m ∧ b = false) R.
Proof. intros HR. unfold check. destruct b; [by apply hoare_raise|by apply hoare_ret]. Qed.

(** What enforcing the timeout makes of a session *)
Definition enforced (s s' : Session) : Prop :=
  s' = s ∨ is_terminal (state s) = false ∧
    ∃ t t' detail, effective_timeout s < t - state_entered_at s ∧
      s' = with_state Aborted t' (with_error (timeout_error (state s)) detail s).

Lemma enforce_ok m0 sid s (Q : SessionManager → Prop) :
  (∀ m, Q m → Q (bump m)) → (∀ m s', Q m → Q (store sid s' m)) →
  hoare (λ m, at_session m0 sid s m ∧ Q m) (enforce sid s)
    (λ s' m, (at_session m0 sid s' m ∧ Q m) ∧ enforced s s') (reach m0).
Proof.
  intros Hb Hst m [[Hr Hs] Hq]. unfold enforce, CheckAndEnforceTimeout, Now, next_tick, put_session.
  destruct (is_terminal (state s)) eqn:Ht.
  - st_unfold. cbn. split; [|by left]. change (set_sessions _ m) with (store sid s m).
    by rewrite store_same.
  - st_unfold. cbn. destruct (Z.ltb_spec (effective_timeout s) (now (ticks m) - state_entered_at s)) as [Hlt|Hge]; cbn.
    + split; [|right; split; [done|]; do 3 eexists; split; [exact Hlt|done]].
      match goal with |- context [set_sessions (<[sid:=?s']> _) _] =>
        change (at_session m0 sid s' (store sid s' (bump (bump m))) ∧ Q (store sid s' (bump (bump m)))) end.
      split; [|by apply Hst, Hb, Hb]. split; [|apply lookup_insert_eq].
      eapply reach_step; [|eapply (ch_timeout (bump (bump m))); eauto].
      do 2 (eapply reach_step; [|apply ch_tick]). done.
    + split; [|by left]. change (set_sessions _ _) with (store sid s (bump m)).
      rewrite store_same by done. split; [|by apply Hb]. split; [|done].
      eapply reach_step; [exact Hr|apply ch_tick].
Qed.

Lemma Authenticate_ok m0 t :
  hoare (reach m0) (Authenticate t)
    (λ a m, at_session m0 a.1.1 a.1.2 m ∧ participants a.1.2 !! t = Some a.2) (reach m0).
Proof.
  intros m Hr. unfold Authenticate, find_session. st_unfold.
  destruct (participant_to_session m !! t) as [sid|]; [|done].
  destruct (sessions m !! sid) as [s|] eqn:Hs; [|done].
  by destruct (participants s !! t) as [p|] eqn:Hp.
Qed.

(** Authentication followed by the timeout check, as the calls by participants
    begin *)
Lemma authenticated_ok {A : Type} m0 t (body : string → Session → Participant → M A)
    (Q : A → SessionManager → Prop) :
  (∀ sid s p, participants s !! t = Some p → hoare (at_session m0 sid s) (body sid s p) Q (reach m0)) →
  hoare (reach m0)
    (auth ← Authenticate t; let '(sid, s, p) := auth in s ← enforce sid s; body sid s p) Q (reach m0).
Proof.
  intros Hb. eapply hoare_bind; [apply Authenticate_ok|]. intros [[sid s] p]. cbn.
  eapply hoare_conseq; [|intros m Hm; exact (conj (proj2 Hm) (proj1 Hm))|intros a m Hm; exact Hm|done].
  apply hoare_pure. intros Hp. eapply hoare_bind.
  - eapply hoare_conseq; [apply (enforce_ok m0 sid s (λ _, True)); done|by intros m|intros a m Hm; exact Hm|done].
  - intros s'. intros m [[Hm _] He]. apply Hb; [|done].
    destruct He as [->|(_ & t0 & t' & d & _ & ->)]; done.
Qed.

Lemma GetResult_ok m0 t : hoare (reach m0) (GetResult t) (λ _, reach m0) (reach m0).
Proof. apply authenticated_ok. intros sid s p _. apply hoare_ret. apply at_reach. Qed.

Lemma GetSessionStatus_ok m0 t : hoare (reach m0) (GetSessionStatus t) (λ _, reach m0) (reach m0).
Proof. apply authenticated_ok. intros sid s p _. apply hoare_ret. apply at_reach. Qed.

(** Storing twice keeps the last. *)
Lemma store_bump_store sid s s' m : store sid s' (bump (store sid s m)) = store sid s' (bump m).
Proof. unfold store, bump, set_sessions. cbn. by rewrite insert_insert_eq. Qed.

Lemma AcceptPolicy_ok m0 t : hoare (reach m0) (AcceptPolicy t) (λ _, reach m0) (reach m0).
Proof.
  apply authenticated_ok. intros sid s p Hp. destruct (accepted p) eqn:Ha.
  { apply hoare_ret. apply at_reach. }
  eapply hoare_bind; [apply hoare_check, at_reach|]. intros _ m [[Hr Hs] Hst].
  apply bool_decide_eq_false, dec_stable in Hst.
  unfold put_session, Now, next_tick. st_unfold. cbv zeta.
  fold (accept_session t p s). fold (complete (accept_session t p s)).
  change (set_sessions (<[sid:=?s']> _) m) with (store sid s' m).
  destruct (complete (accept_session t p s)) eqn:Hc.
  - change (reach m0 (store sid (with_state Sealed (now (ticks m)) (accept_session t p s))
      (bump (store sid (accept_session t p s) m)))).
    rewrite store_bump_store. eapply reach_step; [eapply reach_step; [exact Hr|apply ch_tick]|].
    by eapply (ch_seal (bump m)).
  - eapply reach_step; [exact Hr|]. by eapply (ch_accept m).
Qed.

(** A calculation was started for the session named [session_id]. *)
Definition started (m0 : SessionManager) (session_id : string) (m : SessionManager) : Prop :=
  ∃ m1 sid s t p text at_, reach m0 m1 ∧ sessions m1 !! sid = Some s ∧ id s = session_id ∧
    participants s !! t = Some p ∧ state s = Sealed ∧ input_submitted p = false ∧ admissible s text ∧
    submitted_count (participants (submit_session t text p s)) = expected_participants (policy s) ∧
    m = add_threads 1 (store sid (with_state Calculating at_ (submit_session t text p s)) m1).

Definition submit_post (m0 : SessionManager) (r : SubmitInputResponse + string) : SessionManager → Prop :=
  match r with inl _ => reach m0 | inr session_id => started m0 session_id end.

Lemma check_input_schema_run v s m :
  ∃ r, check_input_schema v (input_schema_of s) m = (r, m) ∧ (r = Ok tt → admissible s (dump v)).
Proof.
  unfold check_input_schema. destruct (String.eqb_spec (input_schema_of s) "") as [He|He].
  { eexists. split; [done|]. intros _. exists v. auto. }
  destruct (ValidateJsonSchema (dump v) (input_schema_of s)) as [[]|[]] eqn:Hv; eexists; (split; [done|]);
    try discriminate. intros _. exists v. auto.
Qed.

Lemma submit_locked_ok m0 t input : hoare (reach m0) (submit_locked t input) (submit_post m0) (reach m0).
Proof.
  apply authenticated_ok. intros sid s p Hp. cbv zeta.
  assert (Hretry : ∀ r, hoare (at_session m0 sid s)
    (lift (ValidateRetryPayload input (input_json p));; mret (inl r : SubmitInputResponse + string))
    (submit_post m0) (reach m0)).
  { intros r m [Hr _]. st_unfold. by destruct (ValidateRetryPayload _ _). }
  case_bool_decide as Hst.
  { destruct (input_submitted p); [apply Hretry|]. apply hoare_raise. apply at_reach. }
  destruct (input_submitted p) eqn:Hi; [apply Hretry|].
  eapply hoare_bind; [apply hoare_check, at_reach|]. intros _ m [[Hr Hs] _].
  rewrite st_bind_eq, lift_run. destruct (ParseJsonSafely input) as [v|]; [|done].
  rewrite st_bind_eq. destruct (check_input_schema_run v s m) as (r & -> & Hadm).
  destruct r as [[]|]; [|done]. specialize (Hadm eq_refl).
  unfold put_session, Now, next_tick. st_unfold. cbv zeta. fold (submit_session t (dump v) p s).
  change (set_sessions (<[sid:=?s']> _) m) with (store sid s' m).
  destruct (Z.eqb_spec (expected_participants (policy (submit_session t (dump v) p s)) -
    submitted_count (participants (submit_session t (dump v) p s))) 0) as [He|He];
    change (policy (submit_session _ _ _ _)) with (policy s) in He.
  - change (started m0 (id s) (add_threads 1 (store sid (with_state Calculating (now (ticks m))
      (submit_session t (dump v) p s)) (bump (store sid (submit_session t (dump v) p s) m))))).
    rewrite store_bump_store. exists (bump m), sid, s, t, p, (dump v), (now (ticks m)).
    split; [eapply reach_step; [exact Hr|apply ch_tick]|]. repeat (split; [done|]). split; [lia|done].
  - eapply reach_step; [exact Hr|]. eapply (ch_submit m); try done. lia.
Qed.

Lemma find_session_ok m0 sid :
  hoare (reach m0) (find_session sid) (λ s, at_session m0 sid s) (reach m0).
Proof. intros m Hr. unfold find_session. st_unfold. by destruct (sessions m !! sid) eqn:Hs. Qed.

Lemma get_reach m0 : hoare (reach m0) (get_state : M SessionManager) (λ m' m, m' = m ∧ reach m0 m) (reach m0).
Proof. by apply hoare_get. Qed.

Lemma JoinSession_ok m0 invitation nonce :
  hoare (reach m0) (JoinSession invitation nonce) (λ _, reach m0) (reach m0).
Proof.
  unfold JoinSession. eapply hoare_bind; [apply get_reach|]. intros m1.
  destruct (invitation_to_session m1 !! invitation) as [sid|]; [|apply hoare_raise; by intros m [_ ?]].
  eapply hoare_bind; [eapply hoare_conseq; [apply find_session_ok|by intros m [_ ?]|intros s m Hm; exact Hm|done]|].
  intros s0. eapply hoare_bind; [eapply hoare_conseq;
    [apply (enforce_ok m0 sid s0 (λ _, True)); done|by intros m|intros s m [[Hm _] _]; exact Hm|done]|].
  intros s. eapply hoare_bind; [apply hoare_check, at_reach|]. intros ?.
  destruct (if String.eqb nonce "" then None else nonce_to_token s !! nonce) as [t|] eqn:Hn;
    [apply hoare_ret; by intros m [[? _] _]|].
  eapply hoare_bind; [apply hoare_check; by intros m [[? _] _]|]. intros ?.
  eapply hoare_bind; [apply hoare_check; by intros m [[[? _] _] _]|]. intros ? m [[[[Hr Hs] _] Hst] Hsz].
  apply bool_decide_eq_false, dec_stable in Hst. apply Z.leb_gt in Hsz.
  unfold GenerateRandomHex, next_tick, put_session. st_unfold. cbv zeta.
  fold (fresh_participant (random_hex (ticks m) kParticipantTokenBytes) s).
  set (t := random_hex (ticks m) kParticipantTokenBytes).
  change (reach m0 (joined sid (with_joined (fresh_participant t s) nonce s) t (bump m))).
  eapply reach_step; [exact Hr|]. apply ch_join; try done.
  destruct (String.eqb_spec nonce ""); auto.
Qed.

Lemma sweep_one_ok m0 at_ sid : hoare (reach m0) (sweep_one at_ sid) (λ _, reach m0) (reach m0).
Proof.
  unfold sweep_one. eapply hoare_bind; [apply get_reach|]. intros m1.
  destruct (sessions m1 !! sid) as [s0|] eqn:Hs; [|apply hoare_ret; by intros m [_ ?]].
  eapply hoare_bind; [eapply hoare_conseq; [apply (enforce_ok m0 sid s0 (λ _, True)); done| |intros s m [[Hm _] _]; exact Hm|done]|].
  { by intros m [-> Hr]. }
  intros s. destruct (should_erase at_ s) eqn:He; [|apply hoare_ret; by intros m [? _]].
  intros m [Hr Hs']. unfold erase_session. st_unfold. fold (erased sid s m).
  eapply reach_step; [exact Hr|]. apply ch_erase; [done|]. unfold should_erase in He. by apply andb_true_iff in He as [? _].
Qed.

Lemma sweep_all_ok m0 at_ sids : hoare (reach m0) (sweep_all at_ sids) (λ _, reach m0) (reach m0).
Proof.
  induction sids as [|sid sids IH]; [by apply hoare_ret|].
  eapply hoare_bind; [apply sweep_one_ok|]. intros ?. exact IH.
Qed.

Lemma Now_ok m0 : hoare (reach m0) Now (λ _, reach m0) (reach m0).
Proof. intros m Hr. exact (reach_step _ _ _ Hr (ch_tick m)). Qed.

Lemma Sweep_ok m0 : hoare (reach m0) SweepTerminalSessions (λ _, reach m0) (reach m0).
Proof.
  eapply hoare_bind; [apply Now_ok|]. intros t. eapply hoare_bind; [apply get_reach|]. intros m1.
  eapply hoare_conseq; [apply sweep_all_ok|by intros m [_ ?]|done|done].
Qed.

(** A repeated request is answered from the state; [None] means that no session
    carries the nonce. *)
Lemma replay_create_run p nonce m :
  ∃ r, replay_create p nonce m = (r, m) ∧
    (r = Ok None → nonce = "" ∨
       ∀ sid s, creator_nonce_to_session m !! nonce = Some sid → sessions m !! sid = Some s → False).
Proof.
  unfold replay_create, check. destruct (String.eqb_spec nonce ""); [eexists; split; [done|auto]|].
  destruct (IsValidUuidV4 nonce); cbn [negb]; st_unfold; [|eexists; split; [done|]; discriminate].
  destruct (creator_nonce_to_session m !! nonce) as [sid|]; [|eexists; split; [done|]; by right].
  destruct (sessions m !! sid) as [s|] eqn:Hs; [|eexists; split; [done|]; right; congruence].
  case_bool_decide; eexists; (split; [done|]); discriminate.
Qed.

Lemma check_schema_ok m0 which text (Q : SessionManager → Prop) :
  (∀ m, Q m → reach m0 m) → hoare Q (check_schema which text) (λ _, Q) (reach m0).
Proof.
  intros HQ. unfold check_schema. repeat case_match; try by apply hoare_ret. all: by apply hoare_raise.
Qed.

Lemma CreateSession_ok m0 p nonce : hoare (reach m0) (CreateSession p nonce) (λ _, reach m0) (reach m0).
Proof.
  unfold CreateSession. eapply hoare_bind; [apply Sweep_ok|]. intros ?.
  eapply hoare_bind; [apply get_reach|]. intros m1.
  eapply hoare_bind; [apply hoare_check; by intros m [_ ?]|]. intros ?.
  destruct (policies !! policy_class p) as [def|] eqn:Hdef; [|apply hoare_raise; by intros m [[_ ?] _]].
  do 3 (eapply hoare_bind; [apply hoare_check; intros m Hm; apply Hm|]; intros ?).
  do 2 (eapply hoare_bind; [apply check_schema_ok; intros m Hm; apply Hm|]; intros ?).
  intros m (((([-> Hr] & Hsz) & Hlo) & Hhi) & Hto). apply Z.leb_gt in Hsz. apply Z.ltb_ge in Hlo, Hhi, Hto.
  destruct (replay_create_run p nonce m) as (r & Hrep & Hn). rewrite st_bind_eq, Hrep.
  destruct r as [[resp|]|e]; [done| |done]. specialize (Hn eq_refl).
  eapply reach_step; [exact Hr|]. by apply (ch_create m p def nonce).
Qed.

(** ** Background threads *)

(** Where a thread is: about to be started by its handler, at the prompt, at
    the model, about to write, or leaving through its guard. *)
Inductive task :=
| Spawning (sid : string)
| Started (sid : string)
| Running (sid prompt schema : string)
| Writing (sid : string) (outcome : result string string)
| Leaving.

(** The session a thread still has to finish *)
Definition pending (t : task) : list string :=
  match t with Spawning sid | Started sid | Running sid _ _ | Writing sid _ => [sid] | Leaving => [] end.

Inductive call :=
| Create (p : SessionPolicy) (nonce : string)
| Join (invitation nonce : string)
| Accept (t : string)
| Submit (t input : string)
| Result (t : string)
| GetStatus (t : string).

(** A call under its lock: the state after it and the thread it dispatches *)
Definition serve (c : call) (m : SessionManager) : SessionManager * list task :=
  match c with
  | Create p nonce => ((CreateSession p nonce m).2, [])
  | Join invitation nonce => ((JoinSession invitation nonce m).2, [])
  | Accept t => ((AcceptPolicy t m).2, [])
  | Submit t input =>
      let '(r, m') := submit_locked t input m in
      (m', match r with Ok (inr sid) => [Spawning sid] | _ => [] end)
  | Result t => ((GetResult t m).2, [])
  | GetStatus t => ((GetSessionStatus t m).2, [])
  end.

Record system := System { mgr : SessionManager; tasks : list task }.

Definition init_system : system := System init_manager [].

(** One step of a thread: what it becomes, and the state after it. A thread in
    which the validator throws takes the process down: it has no step. *)
Inductive run_task (m : SessionManager) : task → option task → SessionManager → Prop :=
| run_spawn sid : run_task m (Spawning sid) (Some (Started sid)) m
| run_spawn_failed sid what :
    run_task m (Spawning sid) None (spawn_failed sid what m).2
| run_prepare sid prompt schema m' :
    prepare sid m = (Ok (Some (prompt, schema)), m') →
    run_task m (Started sid) (Some (Running sid prompt schema)) m'
| run_skip sid m' :
    prepare sid m = (Ok None, m') → run_task m (Started sid) (Some Leaving) m'
| run_generate sid prompt schema engine outcomes outcome :
    length outcomes = kMaxLlmRetries → generate engine schema outcomes = Ok outcome →
    run_task m (Running sid prompt schema) (Some (Writing sid outcome)) m
| run_write sid outcome :
    run_task m (Writing sid outcome) (Some Leaving) (write_result sid outcome m).2
| run_leave : run_task m Leaving None (add_threads (-1) m).

Definition settle (t : option task) : list task := match t with Some t => [t] | None => [] end.

Inductive step (s : system) : system → Prop :=
| step_call c m' ts :
    serve c (mgr s) = (m', ts) → step s (System m' (tasks s ++ ts))
| step_task l1 t l2 t' m' :
    tasks s = l1 ++ t :: l2 → run_task (mgr s) t t' m' →
    step s (System m' (l1 ++ settle t' ++ l2)).

Definition reachable (s : system) : Prop := rtc step init_system s.

(** A call either starts a calculation or makes quiet changes only. *)
Lemma serve_cases c m m' ts :
  serve c m = (m', ts) → reach m m' ∧ ts = [] ∨ ∃ sid, started m sid m' ∧ ts = [Spawning sid].
Proof.
  assert (Hgo : ∀ {A} (op : M A), hoare (reach m) op (λ _, reach m) (reach m) → reach m (op m).2).
  { intros A op Hop. specialize (Hop m (rtc_refl _ m)). by destruct (op m) as [[]]. }
  destruct c; cbn; try (intros [= <- <-]; left; split; [apply Hgo|done]).
  - apply CreateSession_ok.
  - apply JoinSession_ok.
  - apply AcceptPolicy_ok.
  - pose proof (submit_locked_ok m t input m (rtc_refl _ m)) as Hs.
    destruct (submit_locked t input m) as [[[resp|sid]|e] m1]; intros [= <- <-]; [by left|right; eauto|by left].
  - apply GetResult_ok.
  - apply GetSessionStatus_ok.
Qed.

Lemma reach_changes m m' : reach m m' → changes m m'.
Proof. apply rtc_subrel. intros ? ?. apply ch_quiet. Qed.

Lemma started_changes m sid m' : started m sid m' → changes m m'.
Proof.
  intros (m1 & sid' & s & t & p & text & at_ & Hr & Hs & _ & Hp & Hst & Hi & Ha & Hn & ->).
  etransitivity; [by apply reach_changes|]. eapply rtc_l; [by eapply (ch_start m1)|].
  apply rtc_once, ch_threads.
Qed.

(** ** What a thread may rely on *)

(** A thread finds its session calculating or aborted; a running one has the
    session's schema; one about to write a result has checked it. *)
Definition task_ok (m : SessionManager) (t : task) : Prop :=
  match t with
  | Running sid _ schema => ∀ s, sessions m !! sid = Some s → schema = output_schema_of s
  | Writing sid (Ok r) => ∀ s, sessions m !! sid = Some s → releasable s r
  | _ => True
  end ∧
  ∀ sid s, sid ∈ pending t → sessions m !! sid = Some s → state s = Calculating ∨ state s = Aborted.

Lemma attempts_checked n schema outcomes r :
  attempts n schema outcomes = Ok (Some r) → schema = "" ∨ ValidateJsonSchema r schema = Ok tt.
Proof.
  revert outcomes. induction n as [|n IH]; intros outcomes; [done|].
  destruct outcomes as [|[text|msg] rest]; cbn [attempts]; [done| |apply IH].
  destruct (String.eqb_spec schema ""); [by left|].
  destruct (ValidateJsonSchema (StripMarkdownCodeFences text) schema) as [[]|[code msg|what]] eqn:Hv;
    [|apply IH|done].
  intros [= <-]. by right.
Qed.

Lemma generate_checked engine schema outcomes r :
  generate engine schema outcomes = Ok (Ok r) → r ≠ "" ∧ (schema = "" ∨ ValidateJsonSchema r schema = Ok tt).
Proof.
  unfold generate. destruct engine; [|done]. cbn [negb].
  destruct (attempts _ _ _) as [[out|]|] eqn:Ha; [|done..]. cbn.
  destruct (String.eqb_spec out ""); [done|]. intros [= <-]. split; [done|]. by eapply attempts_checked.
Qed.

Lemma spawn_failed_run sid what m :
  (spawn_failed sid what m).2 =
  match sessions m !! sid with
  | Some s => store sid (with_state Aborted (state_entered_at s)
                (with_error Unspecified ("Failed to spawn inference thread: " +:+ what) s)) (add_threads (-1) m)
  | None => add_threads (-1) m
  end.
Proof.
  unfold spawn_failed, put_session. st_unfold. change (sessions (add_threads (-1) m)) with (sessions m).
  by destruct (sessions m !! sid).
Qed.

Lemma write_result_run sid outcome m :
  (write_result sid outcome m).2 =
  match sessions m !! sid with
  | Some s =>
      if bool_decide (state s = Calculating) then
        store sid match outcome with
                  | Ok r => with_state Closed (now (ticks m)) (with_result r s)
                  | Raise msg => with_state Aborted (now (ticks m)) (with_error LlmGenerationFailed msg s)
                  end (bump m)
      else m
  | None => m
  end.
Proof.
  unfold write_result, put_session, Now, next_tick. st_unfold.
  destruct (sessions m !! sid) as [s|]; [|done].
  destruct (decide (state s = Calculating)); [rewrite bool_decide_false, bool_decide_true by auto|
    rewrite bool_decide_true, bool_decide_false by auto]; done.
Qed.

Lemma prepare_run sid m :
  prepare sid m =
  match sessions m !! sid with
  | Some s =>
      if bool_decide (state s = Calculating) then
        (Ok (Some (build_prompt s (map_to_list (participants s)) (random_hex (ticks m) 8), output_schema_of s)), bump m)
      else (Ok None, m)
  | None => (Ok None, m)
  end.
Proof.
  unfold prepare, GenerateRandomHex, next_tick. st_unfold. destruct (sessions m !! sid) as [s|]; [|done].
  destruct (decide (state s = Calculating)); [rewrite bool_decide_false, bool_decide_true by auto|
    rewrite bool_decide_true, bool_decide_false by auto]; done.
Qed.

Lemma run_task_changes m t t' m' : run_task m t t' m' → task_ok m t → changes m m'.
Proof.
  intros [sid|sid what|sid prompt schema m1 Hp|sid m1 Hp|sid prompt schema eng outs out _ _|sid out|] [Hok Hst];
    try apply rtc_refl.
  - rewrite spawn_failed_run. eapply rtc_l; [apply (ch_threads m (-1))|].
    destruct (sessions m !! sid) as [s|] eqn:Hs; [|apply rtc_refl]. apply rtc_once.
    eapply (ch_fail (add_threads (-1) m)); [exact Hs|].
    destruct (Hst sid s) as [?|?]; [by apply list_elem_of_singleton|done|by left|right].
    split; [done|]. split; [done|]. split; [by exists what|done].
  - rewrite prepare_run in Hp. repeat case_match; simplify_eq. apply rtc_once, ch_quiet, ch_tick.
  - rewrite prepare_run in Hp. repeat case_match; simplify_eq; apply rtc_refl.
  - rewrite write_result_run. destruct (sessions m !! sid) as [s|] eqn:Hs; [|apply rtc_refl].
    case_bool_decide as Hc; [|apply rtc_refl]. eapply rtc_l; [apply ch_quiet, (ch_tick m)|]. apply rtc_once.
    destruct out as [r|msg]; [eapply (ch_close (bump m)); eauto|eapply (ch_fail (bump m)); eauto].
  - apply rtc_once, ch_threads.
Qed.
End steps.
