(* ===== verification/SessionInv.v ===== *)
(** Invariants of the session manager: each session is well formed in every
    state of its life, and the reverse indexes agree with the sessions.

    The only assumption is that random draws do not collide. *)

From S2P Require Import Prelude PyText PyValue Rpc Schema Session SessionSteps.

Open Scope Z_scope.

(** Two draws of the random number generator differ. *)
Class RandomUnique `{Server} : Prop :=
  random_inj : ∀ i j a b, random_hex i a = random_hex j b → i = j.

Section inv.
Context `{Server, NJson, Re2}.

Definition drawn (n : nat) (t : string) : Prop := ∃ i b, (i < n)%nat ∧ t = random_hex i b.

(** What the state of a session says about its participants *)
Definition state_ok (s : Session) : Prop :=
  match state s with
  | Open => complete s = false ∧ ∀ t p, participants s !! t = Some p → input_submitted p = false
  | Sealed => complete s = true ∧ submitted_count (participants s) ≠ expected_participants (policy s)
  | Calculating | Closed => complete s = true ∧ ∀ t p, participants s !! t = Some p → input_submitted p = true
  | Aborted => True
  end.

Record session_ok (s : Session) : Prop := {
  so_tokens : NoDup (participant_tokens s);
  so_dom : ∀ t, t ∈ participant_tokens s ↔ is_Some (participants s !! t);
  so_size : size (participants s) = length (participant_tokens s);
  so_creator : participant_tokens s ≠ [];
  so_join : ∀ t p, participants s !! t = Some p →
    token p = t ∧ 0 <= join_index p ∧ participant_tokens s !! Z.to_nat (join_index p) = Some t;
  so_expected : 2 <= expected_participants (policy s) <= kMaxParticipants;
  so_room : Z.of_nat (length (participant_tokens s)) <= expected_participants (policy s);
  so_timeout : timeout s = Seconds (timeout_seconds (policy s)) ∧
    1 <= timeout_seconds (policy s) <= kMaxTimeoutSeconds;
  so_policy : policies !! policy_class (policy s) = Some (policy_def s) ∧
    input_schema_json (policy s) = default_input_schema_json (policy_def s) ∧
    output_schema_json (policy s) = default_output_schema_json (policy_def s);
  so_nonces : ∀ n t, nonce_to_token s !! n = Some t → t ∈ participant_tokens s;
  so_inputs : ∀ t p, participants s !! t = Some p → input_submitted p = true → admissible s (input_json p);
  so_state : state_ok s;
  so_result : match state s with Closed => releasable s (result_json s) | _ => result_json s = "" end
}.

(** The indexes and the sessions *)
Record Inv (m : SessionManager) : Prop := {
  inv_session : ∀ sid s, sessions m !! sid = Some s → session_ok s;
  inv_id : ∀ sid s, sessions m !! sid = Some s → id s = sid;
  inv_participant : ∀ t sid, participant_to_session m !! t = Some sid ↔
    ∃ s, sessions m !! sid = Some s ∧ t ∈ participant_tokens s;
  inv_invitation : ∀ t sid, invitation_to_session m !! t = Some sid ↔
    ∃ s, sessions m !! sid = Some s ∧ invitation_token s = t;
  inv_nonce : ∀ n sid, creator_nonce_to_session m !! n = Some sid ↔
    ∃ s, sessions m !! sid = Some s ∧ creator_nonce s = n ∧ n ≠ "";
  inv_drawn : ∀ sid s, sessions m !! sid = Some s → drawn (ticks m) sid ∧
    drawn (ticks m) (invitation_token s) ∧ ∀ t, t ∈ participant_tokens s → drawn (ticks m) t;
  inv_capacity : Z.of_nat (size (sessions m)) <= Z.max 0 (max_sessions options)
}.

Lemma init_Inv : Inv init_manager.
Proof.
  split; cbn; try (intros ? ?; rewrite lookup_empty; intros [=]); try (rewrite map_size_empty; lia).
  all: intros ? ?; rewrite !lookup_empty; split; [done|]; by intros (s & [=] & _).
Qed.

(** ** Sessions *)

Lemma all_accepted_spec ps : all_accepted ps = true ↔ ∀ t p, ps !! t = Some p → accepted p = true.
Proof.
  unfold all_accepted. rewrite forallb_forall. split.
  - intros Ha t p Hp. apply (Ha (t, p)), list_elem_of_In. by apply elem_of_map_to_list.
  - intros Ha [t p] Hin%list_elem_of_In. apply elem_of_map_to_list in Hin. by apply (Ha t).
Qed.

(** As many inputs as participants: every participant has submitted. *)
Lemma submitted_all ps :
  submitted_count ps = Z.of_nat (size ps) ↔ ∀ t p, ps !! t = Some p → input_submitted p = true.
Proof.
  unfold submitted_count. rewrite <- length_map_to_list.
  assert (Hf : ∀ l : list (string * Participant),
    Z.of_nat (length (List.filter (λ kv, input_submitted kv.2) l)) = Z.of_nat (length l) ↔
    ∀ kv, kv ∈ l → input_submitted kv.2 = true).
  { induction l as [|kv l IH]; [split; [by intros _ kv ?%elem_of_nil|done]|].
    assert (Hle : (length (List.filter (λ kv, input_submitted kv.2) l) <= length l)%nat) by apply List.filter_length_le.
    cbn. setoid_rewrite elem_of_cons. destruct (input_submitted kv.2) eqn:Hi; cbn.
    - split.
      + intros Hl kv' [->|Hin]; [done|]. apply IH; [lia|done].
      + intros Ha. enough (Z.of_nat (length (List.filter (λ kv, input_submitted kv.2) l)) = Z.of_nat (length l)) by lia.
        apply IH. auto.
    - split; [lia|]. intros Ha. rewrite Ha in Hi by (by left). done. }
  rewrite Hf. split.
  - intros Ha t p Hp. apply (Ha (t, p)). by apply elem_of_map_to_list.
  - intros Ha [t p] Hin%elem_of_map_to_list. by apply (Ha t).
Qed.

Lemma abort_ok s at_ e detail :
  session_ok s → state s ≠ Closed → session_ok (with_state Aborted at_ (with_error e detail s)).
Proof.
  intros [] Hc. split; try done. cbn. by destruct (state s).
Qed.

(** A participant replaced by one with the same token and place *)
Lemma update_tokens s t p p' :
  session_ok s → participants s !! t = Some p → token p' = token p → join_index p' = join_index p →
  let ps := <[t := p']> (participants s) in
  (∀ t', t' ∈ participant_tokens s ↔ is_Some (ps !! t')) ∧
  size ps = length (participant_tokens s) ∧
  (∀ t' q, ps !! t' = Some q →
     token q = t' ∧ 0 <= join_index q ∧ participant_tokens s !! Z.to_nat (join_index q) = Some t').
Proof.
  intros Hok Hp Htok Hj ps. subst ps. split; [|split].
  - intros t'. rewrite (so_dom s Hok), lookup_insert_is_Some. destruct (decide (t = t')) as [<-|]; [|tauto].
    split; [by left|by exists p].
  - rewrite map_size_insert_Some by eauto. apply (so_size s Hok).
  - intros t' q [[<- <-]|[_ Hq]]%lookup_insert_Some; [|by apply (so_join s Hok)].
    rewrite Htok, Hj. by apply (so_join s Hok).
Qed.

Lemma accept_ok s t p :
  session_ok s → participants s !! t = Some p → state s = Open →
  complete (accept_session t p s) = false → session_ok (accept_session t p s).
Proof.
  intros Hok Hp Hst Hc. destruct (update_tokens s t p (set_accepted p) Hok Hp eq_refl eq_refl) as (Hd & Hz & Hj).
  destruct Hok. split; try done; cbn.
  - intros t' q [[<- <-]|[_ Hq]]%lookup_insert_Some; [exact (so_inputs0 _ _ Hp)|exact (so_inputs0 _ _ Hq)].
  - unfold state_ok. cbn. rewrite Hst. split; [done|]. red in so_state0. rewrite Hst in so_state0. destruct so_state0 as [_ Hi].
    intros t' q [[<- <-]|[_ Hq]]%lookup_insert_Some; [by apply Hi in Hp|by apply Hi in Hq].
Qed.

Lemma open_unsubmitted ps n :
  (∀ t p, ps !! t = Some p → input_submitted p = false) → 2 <= n → submitted_count ps ≠ n.
Proof.
  intros Ha Hn. unfold submitted_count.
  assert (List.filter (λ kv : string * Participant, input_submitted kv.2) (map_to_list ps) = []) as ->; [|cbn; lia].
  apply elem_of_nil_inv. intros [t p] Hin.
  apply list_elem_of_In, List.filter_In in Hin as [Hin%list_elem_of_In Hi].
  apply elem_of_map_to_list, Ha in Hin. cbn in Hi. congruence.
Qed.

Lemma seal_ok s t p at_ :
  session_ok s → participants s !! t = Some p → state s = Open →
  complete (accept_session t p s) = true → session_ok (with_state Sealed at_ (accept_session t p s)).
Proof.
  intros Hok Hp Hst Hc. destruct (update_tokens s t p (set_accepted p) Hok Hp eq_refl eq_refl) as (Hd & Hz & Hj).
  destruct Hok. red in so_state0. rewrite Hst in so_state0, so_result0. destruct so_state0 as [_ Hi].
  split; try done; cbn.
  - intros t' q [[<- <-]|[_ Hq]]%lookup_insert_Some; [exact (so_inputs0 _ _ Hp)|exact (so_inputs0 _ _ Hq)].
  - unfold state_ok. cbn. split; [done|]. apply open_unsubmitted; [|lia].
    intros t' q [[<- <-]|[_ Hq]]%lookup_insert_Some; [by apply Hi in Hp|by apply Hi in Hq].
Qed.

(** Submitting leaves joining and acceptance alone. *)
Lemma submit_complete s t p text :
  participants s !! t = Some p → complete s = true → complete (submit_session t text p s) = true.
Proof.
  unfold complete. cbn. intros Hp. rewrite !andb_true_iff, !Z.eqb_eq, !all_accepted_spec, map_size_insert_Some by eauto.
  intros [Hn Ha]. split; [done|]. intros t' q [[<- <-]|[_ Hq]]%lookup_insert_Some; [by apply Ha in Hp|by apply Ha in Hq].
Qed.

Lemma complete_size s : complete s = true → expected_participants (policy s) = Z.of_nat (size (participants s)).
Proof. unfold complete. rewrite andb_true_iff, Z.eqb_eq. by intros [-> _]. Qed.

Lemma submit_ok s t p text :
  session_ok s → participants s !! t = Some p → state s = Sealed → admissible s text →
  submitted_count (participants (submit_session t text p s)) ≠ expected_participants (policy s) →
  session_ok (submit_session t text p s).
Proof.
  intros Hok Hp Hst Ht Hn. destruct (update_tokens s t p (set_input text p) Hok Hp eq_refl eq_refl) as (Hd & Hz & Hj).
  destruct Hok. red in so_state0. rewrite Hst in so_state0. destruct so_state0 as [Hc _]. split; try done; cbn.
  - intros t' q [[<- <-]|[_ Hq]]%lookup_insert_Some; [done|exact (so_inputs0 _ _ Hq)].
  - unfold state_ok. cbn. rewrite Hst. split; [by apply submit_complete|done].
Qed.

Lemma start_ok s t p text at_ :
  session_ok s → participants s !! t = Some p → state s = Sealed → admissible s text →
  submitted_count (participants (submit_session t text p s)) = expected_participants (policy s) →
  session_ok (with_state Calculating at_ (submit_session t text p s)).
Proof.
  intros Hok Hp Hst Ht Hn. destruct (update_tokens s t p (set_input text p) Hok Hp eq_refl eq_refl) as (Hd & Hz & Hj).
  destruct Hok. red in so_state0. rewrite Hst in so_state0, so_result0. destruct so_state0 as [Hc _].
  apply (submit_complete s t p text Hp) in Hc. split; try done; cbn.
  - intros t' q [[<- <-]|[_ Hq]]%lookup_insert_Some; [done|exact (so_inputs0 _ _ Hq)].
  - unfold state_ok. cbn. split; [done|]. apply submitted_all.
    transitivity (expected_participants (policy s)); [exact Hn|]. exact (complete_size _ Hc).
Qed.

Lemma close_ok s r at_ :
  session_ok s → state s = Calculating → releasable s r → session_ok (with_state Closed at_ (with_result r s)).
Proof.
  intros [] Hst Hr. red in so_state0. rewrite Hst in so_state0. by split.
Qed.

Lemma join_ok s t nonce :
  session_ok s → state s = Open → Z.of_nat (size (participants s)) < expected_participants (policy s) →
  t ∉ participant_tokens s → session_ok (with_joined (fresh_participant t s) nonce s).
Proof.
  intros [] Hst Hlt Ht. assert (Hn : participants s !! t = None).
  { apply eq_None_not_Some. by rewrite <- so_dom0. }
  red in so_state0. rewrite Hst in so_state0. destruct so_state0 as [_ Hi].
  split; try done; cbn.
  - apply NoDup_app. split; [done|]. split; [|by apply NoDup_singleton].
    intros x Hx ->%list_elem_of_singleton. done.
  - intros t'. rewrite elem_of_app, list_elem_of_singleton, so_dom0, lookup_insert_is_Some.
    split; [intros [?| ->]; [destruct (decide (t = t')); auto|by left]|intros [->|[_ ?]]; auto].
  - rewrite map_size_insert_None, length_app by done. cbn. lia.
  - by destruct (participant_tokens s).
  - intros t' q [[<- <-]|[_ Hq]]%lookup_insert_Some; cbn.
    + split; [done|]. split; [lia|]. rewrite Nat2Z.id, so_size0, lookup_app_r, Nat.sub_diag by lia. done.
    + destruct (so_join0 t' q Hq) as (? & ? & Hl). split; [done|]. split; [done|].
      by apply lookup_app_l_Some.
  - rewrite length_app. cbn. lia.
  - intros n t'. destruct (String.eqb nonce ""); [intros Hl%so_nonces0; apply elem_of_app; by left|].
    intros [[<- <-]|[_ Hl%so_nonces0]]%lookup_insert_Some; apply elem_of_app; [right|by left].
    by apply list_elem_of_singleton.
  - intros t' q [[<- <-]|[_ Hq]]%lookup_insert_Some; [done|exact (so_inputs0 _ _ Hq)].
  - unfold state_ok. cbn. rewrite Hst. split.
    + unfold complete. apply andb_false_iff. right. apply not_true_iff_false. rewrite all_accepted_spec. cbn.
      intros Ha. specialize (Ha t _ (lookup_insert_eq _ _ _)). done.
    + intros t' q [[<- <-]|[_ Hq]]%lookup_insert_Some; [done|by apply Hi in Hq].
Qed.

Lemma create_ok sid ct it p def at_ nonce m :
  creatable p def nonce m → session_ok (new_session sid ct it p def at_ nonce).
Proof.
  intros (_ & Hdef & Hexp & Hto & _). split; cbn; try done.
  - apply NoDup_singleton.
  - intros t. rewrite list_elem_of_singleton. split; [intros ->; rewrite lookup_singleton_eq; eauto|].
    by intros [q [<- _]%lookup_singleton_Some].
  - apply map_size_singleton.
  - intros t q [<- <-]%lookup_singleton_Some. by split.
  - lia.
  - split; [done|]. unfold timeout_or_default, kDefaultTimeoutSeconds, kMaxTimeoutSeconds in *.
    destruct (Z.ltb_spec 0 (timeout_seconds p)); lia.
  - intros t q [<- <-]%lookup_singleton_Some. done.
  - unfold state_ok. cbn. split.
    + unfold complete. cbn. apply andb_false_iff. left. apply Z.eqb_neq. rewrite map_size_singleton. lia.
    + by intros t q [<- <-]%lookup_singleton_Some.
Qed.

(** ** The manager *)

Lemma drawn_S n t : drawn n t → drawn (S n) t.
Proof. intros (i & b & Hi & ->). exists i, b. split; [lia|done]. Qed.

Lemma drawn_now n b : drawn (S n) (random_hex n b).
Proof. exists n, b. split; [lia|done]. Qed.

Lemma bump_Inv m : Inv m → Inv (bump m).
Proof.
  intros []. split; try done. cbn. intros sid s Hs. destruct (inv_drawn0 sid s Hs) as (? & ? & ?).
  split; [by apply drawn_S|]. split; [by apply drawn_S|]. intros t Ht. apply drawn_S. auto.
Qed.

Lemma threads_Inv n m : Inv m → Inv (add_threads n m).
Proof. by intros []. Qed.

(** The parts of a session the indexes are about *)
Definition same_keys (s s' : Session) : Prop :=
  id s' = id s ∧ participant_tokens s' = participant_tokens s ∧
  invitation_token s' = invitation_token s ∧ creator_nonce s' = creator_nonce s.

Lemma store_lookup sid s s' m (Q : Session → Prop) sid' :
  sessions m !! sid = Some s → (Q s ↔ Q s') →
  (∃ x, sessions m !! sid' = Some x ∧ Q x) ↔ (∃ x, sessions (store sid s' m) !! sid' = Some x ∧ Q x).
Proof.
  intros Hs HQ. cbn. destruct (decide (sid = sid')) as [<-|Hne].
  - rewrite lookup_insert_eq, Hs. split; intros (x & [= <-] & Hx); eexists; (split; [done|tauto]).
  - by rewrite lookup_insert_ne.
Qed.

Lemma store_Inv sid s s' m :
  Inv m → sessions m !! sid = Some s → session_ok s' → same_keys s s' → Inv (store sid s' m).
Proof.
  intros Hm Hs Hok (Hid & Hpt & Hit & Hcn).
  assert (Hall : ∀ sid' x, sessions (store sid s' m) !! sid' = Some x →
    sid' = sid ∧ x = s' ∨ sessions m !! sid' = Some x).
  { cbn. intros sid' x [[<- <-]|[_ ?]]%lookup_insert_Some; auto. }
  split.
  - intros sid' x [[-> ->]|Hx]%Hall; [done|by eapply inv_session].
  - intros sid' x [[-> ->]|Hx]%Hall; [rewrite Hid; by eapply inv_id|by eapply inv_id].
  - intros t sid'. rewrite <- (store_lookup sid s s' m (λ x, t ∈ participant_tokens x)) by (done || by rewrite Hpt).
    apply (inv_participant m Hm).
  - intros t sid'. rewrite <- (store_lookup sid s s' m (λ x, invitation_token x = t)) by (done || by rewrite Hit).
    apply (inv_invitation m Hm).
  - intros n sid'. rewrite <- (store_lookup sid s s' m (λ x, creator_nonce x = n ∧ n ≠ "")) by (done || by rewrite Hcn).
    apply (inv_nonce m Hm).
  - intros sid' x [[-> ->]|Hx]%Hall; [rewrite Hpt, Hit|]; by eapply (inv_drawn m).
  - cbn. rewrite map_size_insert_Some by eauto. apply (inv_capacity m Hm).
Qed.

Lemma foldr_delete_lookup (l : list string) (mp : gmap string string) t :
  foldr delete mp l !! t = if decide (t ∈ l) then None else mp !! t.
Proof.
  induction l as [|x l IH]; cbn; [by rewrite decide_False by apply not_elem_of_nil|].
  destruct (decide (x = t)) as [->|Hne].
  - rewrite lookup_delete_eq, decide_True; [done|]. apply list_elem_of_here.
  - rewrite lookup_delete_ne, IH by done.
    destruct (decide (t ∈ l)); [rewrite decide_True|rewrite decide_False]; try done.
    + by right.
    + rewrite elem_of_cons. by intros [->|?].
Qed.

(** Keys belong to one session. *)
Lemma participant_unique m t sid s sid' s' :
  Inv m → sessions m !! sid = Some s → sessions m !! sid' = Some s' →
  t ∈ participant_tokens s → t ∈ participant_tokens s' → sid = sid'.
Proof.
  intros Hm Hs Hs' Ht Ht'. assert (participant_to_session m !! t = Some sid) by (apply inv_participant; eauto).
  assert (participant_to_session m !! t = Some sid') by (apply inv_participant; eauto). congruence.
Qed.

(** An index [idx] lists the keys [K] of the sessions. *)
Definition indexes (ss : gmap string Session) (idx : gmap string string) (K : Session → string → Prop) : Prop :=
  ∀ t sid, idx !! t = Some sid ↔ ∃ s, ss !! sid = Some s ∧ K s t.

Lemma index_erase ss idx idx' K sid s :
  indexes ss idx K → ss !! sid = Some s →
  (∀ t, K s t ∧ idx' !! t = None ∨ ¬ K s t ∧ idx' !! t = idx !! t) → indexes (delete sid ss) idx' K.
Proof.
  intros Hi Hs Hd t sid'. destruct (Hd t) as [[Hk ->]|[Hk ->]].
  - split; [done|]. intros (x & [Hne Hx]%lookup_delete_Some & Hkx). destruct Hne.
    assert (idx !! t = Some sid) by (apply Hi; eauto). assert (idx !! t = Some sid') by (apply Hi; eauto). congruence.
  - rewrite (Hi t sid'). split.
    + intros (x & Hx & Hkx). exists x. split; [|done]. rewrite lookup_delete_ne; [done|]. intros <-. congruence.
    + intros (x & [_ Hx]%lookup_delete_Some & Hkx). eauto.
Qed.

Lemma index_put ss idx idx' (K : Session → string → Prop) sid s' :
  indexes ss idx K →
  (∀ t, K s' t ∧ idx' !! t = Some sid ∨ ¬ K s' t ∧ idx' !! t = idx !! t ∧ idx !! t ≠ Some sid) →
  (∀ t sid' x, K s' t → sid' ≠ sid → ss !! sid' = Some x → ¬ K x t) →
  indexes (<[sid := s']> ss) idx' K.
Proof.
  intros Hi Hd Hu t sid'. destruct (Hd t) as [[Hk ->]|(Hk & -> & Hn)].
  - split; [intros [= <-]; exists s'; by rewrite lookup_insert_eq|].
    intros (x & Hx & Hkx). f_equal. apply dec_stable. intros Hne.
    rewrite lookup_insert_ne in Hx by done. exact (Hu t sid' x Hk (not_eq_sym Hne) Hx Hkx).
  - destruct (decide (sid' = sid)) as [->|Hne].
    + rewrite lookup_insert_eq. split; [by intros ?%Hn|]. intros (x & [= <-] & Hkx). by destruct Hk.
    + rewrite lookup_insert_ne by done. apply Hi.
Qed.

Lemma erased_Inv sid s m : Inv m → sessions m !! sid = Some s → Inv (erased sid s m).
Proof.
  intros Hm Hs. split.
  - intros sid' x. cbn. intros [_ Hx]%lookup_delete_Some. by eapply inv_session.
  - intros sid' x. cbn. intros [_ Hx]%lookup_delete_Some. by eapply inv_id.
  - eapply (index_erase _ _ _ (λ x t, t ∈ participant_tokens x)); [exact (inv_participant m Hm)|done|].
    intros t. cbn. rewrite foldr_delete_lookup. destruct (decide (t ∈ participant_tokens s)); auto.
  - eapply (index_erase _ _ _ (λ x t, invitation_token x = t)); [exact (inv_invitation m Hm)|done|].
    intros t. cbn. destruct (decide (invitation_token s = t)) as [<-|Hne]; [left|right].
    + by rewrite lookup_delete_eq.
    + by rewrite lookup_delete_ne.
  - eapply (index_erase _ _ _ (λ x n, creator_nonce x = n ∧ n ≠ "")); [exact (inv_nonce m Hm)|done|].
    intros t. cbn. destruct (String.eqb_spec (creator_nonce s) "") as [He|He].
    + right. split; [|done]. intros [<- ?]. done.
    + destruct (decide (creator_nonce s = t)) as [<-|Hne]; [left|right].
      * by rewrite lookup_delete_eq.
      * rewrite lookup_delete_ne by done. split; [|done]. by intros [? _].
  - intros sid' x. cbn. intros [_ Hx]%lookup_delete_Some. by eapply (inv_drawn m).
  - cbn. rewrite map_size_delete, Hs. pose proof (inv_capacity m Hm). cbn. lia.
Qed.

Section unique.
Context `{!RandomUnique}.

(** A later draw is not in use. *)
Lemma drawn_fresh n i b t : drawn n t → (n <= i)%nat → t ≠ random_hex i b.
Proof. intros (j & b' & Hj & ->) Hi He. apply random_inj in He. lia. Qed.

Lemma registered_Inv m p def nonce :
  Inv m → creatable p def nonce m →
  let n := ticks m in
  Inv (registered (new_session (random_hex n kSessionIdBytes) (random_hex (S n) kParticipantTokenBytes)
         (random_hex (S (S n)) kParticipantTokenBytes) p def (now (S (S (S n)))) nonce)
         (random_hex (S n) kParticipantTokenBytes) (bump (bump (bump (bump m))))).
Proof.
  intros Hm Hc n. set (sid := random_hex n kSessionIdBytes). set (ct := random_hex (S n) _).
  set (it := random_hex (S (S n)) _). set (s' := new_session sid ct it p def _ nonce).
  assert (Hsid : sessions m !! sid = None).
  { apply eq_None_not_Some. intros [x Hx]. destruct (inv_drawn m Hm sid x Hx) as [Hd _].
    by apply (drawn_fresh _ n kSessionIdBytes _ Hd). }
  split.
  - cbn. intros sid' x [[<- <-]|[_ Hx]]%lookup_insert_Some; [by eapply create_ok|by eapply inv_session].
  - cbn. intros sid' x [[<- <-]|[_ Hx]]%lookup_insert_Some; [done|by eapply inv_id].
  - eapply (index_put _ _ _ (λ x t, t ∈ participant_tokens x)); [exact (inv_participant m Hm)| |].
    + intros t. cbn. rewrite list_elem_of_singleton. destruct (decide (t = ct)) as [->|Hne].
      * left. by rewrite lookup_insert_eq.
      * right. rewrite lookup_insert_ne by done. split; [done|]. split; [done|].
        rewrite (inv_participant m Hm). intros (x & Hx & _). cbn in Hx. congruence.
    + cbn. intros t sid' x ->%list_elem_of_singleton _ Hx Ht.
      destruct (inv_drawn m Hm sid' x Hx) as (_ & _ & Hd). exact (drawn_fresh _ (S n) _ _ (Hd _ Ht) (le_S _ _ (le_n _)) eq_refl).
  - eapply (index_put _ _ _ (λ x t, invitation_token x = t)); [exact (inv_invitation m Hm)| |].
    + intros t. cbn. destruct (decide (it = t)) as [<-|Hne].
      * left. by rewrite lookup_insert_eq.
      * right. rewrite lookup_insert_ne by done. split; [done|]. split; [done|].
        rewrite (inv_invitation m Hm). intros (x & Hx & _). cbn in Hx. congruence.
    + cbn. intros t sid' x <- _ Hx Ht. destruct (inv_drawn m Hm sid' x Hx) as (_ & Hd & _). rewrite Ht in Hd.
      apply (drawn_fresh _ (S (S n)) kParticipantTokenBytes _ Hd); [lia|done].
  - eapply (index_put _ _ _ (λ x c, creator_nonce x = c ∧ c ≠ "")); [exact (inv_nonce m Hm)| |].
    + intros c. cbn. assert (Hno : creator_nonce_to_session m !! c ≠ Some sid).
      { rewrite (inv_nonce m Hm). intros (x & Hx & _). congruence. }
      destruct (String.eqb_spec nonce "") as [->|Hne0].
      * right. split; [by intros [<- ?]|done].
      * destruct (decide (nonce = c)) as [<-|Hne]; [left; by rewrite lookup_insert_eq|right].
        rewrite lookup_insert_ne by done. split; [by intros [? _]|done].
    + cbn. intros c sid' x [<- Hne] _ Hx [Hcx _]. destruct Hc as (_ & _ & _ & _ & [->|Hno]); [done|].
      eapply Hno; [|exact Hx]. apply (inv_nonce m Hm). eauto.
  - cbn. intros sid' x [[<- <-]|[_ Hx]]%lookup_insert_Some.
    + cbn. split; [do 3 apply drawn_S; apply drawn_now|]. split; [apply drawn_S, drawn_now|].
      intros t ->%list_elem_of_singleton. do 2 apply drawn_S. apply drawn_now.
    + destruct (inv_drawn m Hm sid' x Hx) as (? & ? & Hd). split; [by do 4 apply drawn_S|].
      split; [by do 4 apply drawn_S|]. intros t Ht. do 4 apply drawn_S. auto.
  - cbn. rewrite map_size_insert_None by done. destruct Hc as [Hsz _]. lia.
Qed.

Lemma joined_Inv m sid s nonce :
  Inv m → sessions m !! sid = Some s → state s = Open →
  Z.of_nat (size (participants s)) < expected_participants (policy s) →
  let t := random_hex (ticks m) kParticipantTokenBytes in
  Inv (joined sid (with_joined (fresh_participant t s) nonce s) t (bump m)).
Proof.
  intros Hm Hs Hst Hlt t. set (s' := with_joined _ nonce s).
  assert (Hunused : ∀ sid' x, sessions m !! sid' = Some x → t ∉ participant_tokens x).
  { intros sid' x Hx Ht. destruct (inv_drawn m Hm sid' x Hx) as (_ & _ & Hd).
    exact (drawn_fresh _ (ticks m) _ _ (Hd _ Ht) (le_n _) eq_refl). }
  assert (Hok : session_ok s').
  { apply join_ok; [by eapply inv_session|done|done|by eapply Hunused]. }
  assert (Hid : id s' = sid) by (by apply (inv_id m Hm sid s)).
  assert (Hmem : ∀ x, x ∈ participant_tokens s' ↔ x ∈ participant_tokens s ∨ x = t).
  { intros x. cbn. by rewrite elem_of_app, list_elem_of_singleton. }
  split.
  - cbn. intros sid' x [[<- <-]|[_ Hx]]%lookup_insert_Some; [done|by eapply inv_session].
  - cbn. intros sid' x [[<- <-]|[_ Hx]]%lookup_insert_Some; [done|by eapply inv_id].
  - eapply (index_put _ _ _ (λ x t, t ∈ participant_tokens x)); [exact (inv_participant m Hm)| |].
    + intros x. rewrite Hmem.
      change (participant_to_session (joined sid s' t (bump m))) with (<[t := id s']> (participant_to_session m)).
      rewrite Hid. destruct (decide (x = t)) as [->|Hne].
      * left. rewrite lookup_insert_eq. auto.
      * rewrite lookup_insert_ne by done. destruct (decide (x ∈ participant_tokens s)) as [Hin|Hin].
        -- left. split; [by left|]. apply (inv_participant m Hm). eauto.
        -- right. split; [tauto|]. split; [done|]. rewrite (inv_participant m Hm). intros (y & Hy & Hxy). cbn in Hy. congruence.
    + intros x sid' y [Hx| ->]%Hmem Hne Hy Hxy; [|by apply (Hunused sid' y)].
      apply Hne. by eapply (participant_unique m x sid' y sid s).
  - intros x sid'. rewrite <- (store_lookup sid s s' m (λ y, invitation_token y = x)) by done. apply (inv_invitation m Hm).
  - intros x sid'. rewrite <- (store_lookup sid s s' m (λ y, creator_nonce y = x ∧ x ≠ "")) by done. apply (inv_nonce m Hm).
  - cbn. intros sid' x [[<- <-]|[_ Hx]]%lookup_insert_Some.
    + destruct (inv_drawn m Hm sid s Hs) as (? & ? & Hd). split; [by apply drawn_S|]. split; [by apply drawn_S|].
      intros x [Hx| ->]%Hmem; [apply drawn_S; auto|apply drawn_now].
    + destruct (inv_drawn m Hm sid' x Hx) as (? & ? & Hd). split; [by apply drawn_S|]. split; [by apply drawn_S|].
      intros y Hy. apply drawn_S; auto.
  - cbn. rewrite map_size_insert_Some by eauto. apply (inv_capacity m Hm).
Qed.

Lemma quiet_Inv m m' : quiet m m' → Inv m → Inv m'.
Proof.
  destruct 1; intros Hm.
  - by apply bump_Inv.
  - eapply store_Inv; [done..| |done]. apply abort_ok; [by eapply inv_session|]. by destruct (state s).
  - by apply erased_Inv.
  - by apply registered_Inv.
  - by apply joined_Inv.
  - eapply store_Inv; [done..| |done]. apply accept_ok; try done. by eapply inv_session.
  - eapply store_Inv; [done..| |done]. apply seal_ok; try done. by eapply inv_session.
  - eapply store_Inv; [done..| |done]. apply submit_ok; try done. by eapply inv_session.
Qed.

Lemma change_Inv m m' : change m m' → Inv m → Inv m'.
Proof.
  destruct 1; intros Hm.
  - by eapply quiet_Inv.
  - eapply store_Inv; [done..| |done]. apply start_ok; try done. by eapply inv_session.
  - eapply store_Inv; [done..| |done]. apply close_ok; try done. by eapply inv_session.
  - eapply store_Inv; [done..| |done]. apply abort_ok; [by eapply inv_session|intuition congruence].
  - by apply threads_Inv.
Qed.

Lemma changes_Inv m m' : rtc change m m' → Inv m → Inv m'.
Proof. induction 1; [done|]. intros Hm. apply IHrtc. by eapply change_Inv. Qed.
End unique.
End inv.
