(* ===== verification/SessionDemo.v ===== *)
(** A concrete server and a run of it: two participants agree on a calendar
    policy, submit their inputs and get a result. *)

From S2P Require Import Prelude PyText PyValue Rpc Schema Session SessionSteps SessionInv.

Open Scope Z_scope.

Definition calendar_policy : PolicyDefinition :=
  {| prompt_template := "{num_participants}: {inputs}"; default_input_schema_json := "schema";
     default_output_schema_json := "schema" |}.

(** One second per reading; draws are numbered. *)
#[local] Instance demo_server : Server := {|
  now n := Z.of_nat n * 10 ^ 9;
  random_hex i n := pretty i;
  FormatDuration d := pretty d;
  policies := {["ScheduleOverlap" := calendar_policy]};
  options := default_options |}.
#[local] Existing Instance demo_njson.
#[local] Existing Instance demo_re2.

#[local] Instance demo_unique : RandomUnique.
Proof. intros i j a b Heq. exact (inj (pretty : nat → string) _ _ Heq). Qed.

Definition demo_request : SessionPolicy :=
  {| policy_class := "ScheduleOverlap"; input_schema_json := ""; output_schema_json := "";
     expected_participants := 2; timeout_seconds := 300; sdp_signature := ""; signature_key_id := "" |}.

(** Remote calls one after the other *)
Definition play_one (s : system) (c : call) : system :=
  System (serve c (mgr s)).1 (tasks s ++ (serve c (mgr s)).2).
Definition play (cs : list call) (s : system) : system := fold_left play_one cs s.

Lemma play_steps cs s : rtc step s (play cs s).
Proof.
  revert s. induction cs as [|c cs IH]; intros s; [done|]. cbn. eapply rtc_l; [|apply IH].
  apply (step_call s c). by destruct (serve c (mgr s)).
Qed.

(** The names the run draws *)
Definition demo_sid : string := "1".
Definition demo_creator : string := "2".
Definition demo_invitation : string := "3".
Definition demo_joiner : string := "6".

Definition demo_open : system := play [Create demo_request ""; Join demo_invitation ""] init_system.
Definition demo_sealed : system := play [Accept demo_joiner] demo_open.
Definition demo_calculating : system := play [Submit demo_creator "input"; Submit demo_joiner "input"] demo_sealed.
Definition demo_running : system :=
  System (prepare demo_sid (mgr demo_calculating)).2
    [Running demo_sid
       match (prepare demo_sid (mgr demo_calculating)).1 with Ok (Some (p, _)) => p | _ => "" end "schema"].
Definition demo_closed : system :=
  System (write_result demo_sid (Ok "input") (mgr demo_running)).2 [Leaving].

Lemma demo_open_reachable : reachable demo_open.
Proof. apply play_steps. Qed.

Lemma demo_calculating_reachable : reachable demo_calculating.
Proof. unfold reachable. etransitivity; [|apply play_steps]. etransitivity; [|apply play_steps]. apply play_steps. Qed.

Lemma demo_calculating_tasks : tasks demo_calculating = [Spawning demo_sid].
Proof. vm_compute. reflexivity. Qed.

(** The thread starts and prepares its prompt. *)
Lemma demo_running_reachable : reachable demo_running.
Proof.
  unfold reachable. etransitivity; [apply demo_calculating_reachable|]. eapply rtc_l.
  { apply (step_task _ [] (Spawning demo_sid) [] (Some (Started demo_sid)) (mgr demo_calculating)).
    - exact demo_calculating_tasks.
    - apply run_spawn. }
  apply rtc_once. apply (step_task _ [] (Started demo_sid) [] (Some _)); [reflexivity|].
  apply run_prepare. vm_compute. reflexivity.
Qed.

(** The model answers at the second attempt; the thread writes the result. *)
Lemma demo_closed_reachable : reachable demo_closed.
Proof.
  unfold reachable. etransitivity; [apply demo_running_reachable|]. eapply rtc_l.
  { eapply (step_task _ [] _ [] (Some (Writing demo_sid (Ok "input")))); [reflexivity|].
    apply (run_generate _ _ _ _ true [Raise "busy"; Ok "input"; Raise "busy"]); [reflexivity|].
    vm_compute. reflexivity. }
  apply rtc_once. apply (step_task _ [] (Writing demo_sid (Ok "input")) [] (Some Leaving)); [reflexivity|apply run_write].
Qed.
