(* ===== verification/SessionSystem.v ===== *)
(** Remote calls and background threads together: what holds in every state
    the server can reach. *)

From S2P Require Import Prelude PyText PyValue Rpc Schema Session SessionSteps SessionInv.

Open Scope Z_scope.

(** ** The life of one session under a change *)

(** What a change leaves of a session: its identity and policy; a calculation
    only ends or is aborted, an aborted session stays so, and no calculation
    begins. *)
Record keeps (s s' : Session) : Prop := {
  k_policy : policy s' = policy s;
  k_def : policy_def s' = policy_def s;
  k_calculating : state s = Calculating → state s' = Calculating ∨ state s' = Aborted;
  k_aborted : state s = Aborted → state s' = Aborted;
  k_start : state s' = Calculating → state s = Calculating
}.

Lemma keeps_refl s : keeps s s.
Proof. split; auto. Qed.

Lemma keeps_trans s1 s2 s3 : keeps s1 s2 → keeps s2 s3 → keeps s1 s3.
Proof.
  intros [] []. split; try congruence; [|auto..].
  intros [Hs|Hs]%k_calculating0; auto.
Qed.

Section system.
Context `{Server, NJson, Re2, !RandomUnique}.

Lemma quiet_ticks m m' : quiet m m' → (ticks m <= ticks m')%nat.
Proof. destruct 1; cbn; lia. Qed.

Lemma drawn_le n n' t : (n <= n')%nat → drawn n t → drawn n' t.
Proof. intros Hn (i & b & Hi & ->). exists i, b. split; [lia|done]. Qed.

(** A session after a quiet change was there before, or is new. *)
Lemma quiet_lookup m m' sid s' :
  quiet m m' → sessions m' !! sid = Some s' →
  (∃ s, sessions m !! sid = Some s ∧ keeps s s') ∨ (¬ drawn (ticks m) sid ∧ state s' = Open).
Proof.
  assert (Hstore : ∀ sid0 s0 s1, sessions m !! sid0 = Some s0 → keeps s0 s1 →
    <[sid0 := s1]> (sessions m) !! sid = Some s' → ∃ s, sessions m !! sid = Some s ∧ keeps s s').
  { intros sid0 s0 s1 Hs0 Hk [[<- <-]|[_ Hs]]%lookup_insert_Some; [eauto|]. eauto using keeps_refl. }
  destruct 1 as [|sid0 s t t' d Hs Ht _|sid0 s Hs _|p def nonce Hc n|sid0 s nonce Hs Hst _ _ t
    |sid0 s t p Hs _ Hst _ _|sid0 s t p at_ Hs _ Hst _ _|sid0 s t p text Hs _ Hst _ _ _]; cbn; intros Hl.
  - left. eauto using keeps_refl.
  - left. eapply Hstore; [exact Hs| |exact Hl]. split; cbn; auto; done.
  - left. apply lookup_delete_Some in Hl as [_ Hl]. eauto using keeps_refl.
  - apply lookup_insert_Some in Hl as [[<- <-]|[_ Hl]]; [right|left; eauto using keeps_refl].
    split; [|done]. intros Hd. by apply (drawn_fresh _ n kSessionIdBytes _ Hd).
  - left. eapply Hstore; [exact Hs| |exact Hl]. split; cbn; auto.
  - left. eapply Hstore; [exact Hs| |exact Hl]. split; cbn; auto.
  - left. eapply Hstore; [exact Hs| |exact Hl]. split; cbn; rewrite ?Hst; done.
  - left. eapply Hstore; [exact Hs| |exact Hl]. split; cbn; auto.
Qed.

Lemma reach_ticks m m' : reach m m' → (ticks m <= ticks m')%nat.
Proof. induction 1 as [|m m1 m2 Hq _ IH]; [done|]. apply quiet_ticks in Hq. lia. Qed.

Lemma reach_lookup m m' sid s' :
  reach m m' → drawn (ticks m) sid → sessions m' !! sid = Some s' →
  ∃ s, sessions m !! sid = Some s ∧ keeps s s'.
Proof.
  intros Hr. revert s'. induction Hr as [m|m m1 m2 Hq _ IH]; intros s' Hd Hs; [eauto using keeps_refl|].
  destruct (IH s' (drawn_le _ _ _ (quiet_ticks _ _ Hq) Hd) Hs) as (s1 & Hs1 & Hk).
  destruct (quiet_lookup m m1 sid s1 Hq Hs1) as [(s & ? & ?)|[? _]]; [|done].
  exists s. split; [done|]. by eapply keeps_trans.
Qed.

(** Quiet changes start no calculation. *)
Lemma reach_calculating m m' sid s' :
  reach m m' → sessions m' !! sid = Some s' → state s' = Calculating →
  ∃ s, sessions m !! sid = Some s ∧ state s = Calculating.
Proof.
  intros Hr. revert s'. induction Hr as [m|m m1 m2 Hq _ IH]; intros s' Hs Hc; [eauto|].
  destruct (IH s' Hs Hc) as (s1 & Hs1 & Hc1).
  destruct (quiet_lookup m m1 sid s1 Hq Hs1) as [(s & ? & Hk)|[_ ?]]; [|congruence].
  exists s. split; [done|]. by apply Hk.
Qed.

(** ** The invariant of the server *)

Definition pendings (ts : list task) : list string := ts ≫= pending.

Record SysInv (s : system) : Prop := {
  si_inv : Inv (mgr s);
  si_threads : active_async_threads (mgr s) = Z.of_nat (length (tasks s));
  si_pending : NoDup (pendings (tasks s));
  si_drawn : ∀ sid, sid ∈ pendings (tasks s) → drawn (ticks (mgr s)) sid;
  si_tasks : ∀ t, t ∈ tasks s → task_ok (mgr s) t;
  si_calculating : ∀ sid x, sessions (mgr s) !! sid = Some x → state x = Calculating → sid ∈ pendings (tasks s)
}.

Lemma elem_of_pendings sid ts : sid ∈ pendings ts ↔ ∃ t, t ∈ ts ∧ sid ∈ pending t.
Proof. unfold pendings. rewrite list_elem_of_bind. split; intros (t & ? & ?); eauto. Qed.

Lemma init_SysInv : SysInv init_system.
Proof.
  split; cbn; [apply init_Inv|done|constructor| | |].
  - by intros sid ?%elem_of_nil.
  - by intros t ?%elem_of_nil.
  - intros sid x. by rewrite lookup_empty.
Qed.

Lemma reach_threads m m' : reach m m' → active_async_threads m' = active_async_threads m.
Proof. induction 1 as [|m m1 m2 Hq _ IH]; [done|]. rewrite IH. by destruct Hq. Qed.

Lemma reach_Inv m m' : reach m m' → Inv m → Inv m'.
Proof. intros Hr. apply changes_Inv. by apply reach_changes. Qed.

Lemma output_schema_keeps s s' : keeps s s' → output_schema_of s' = output_schema_of s.
Proof. unfold output_schema_of. by intros [-> -> _ _ _]. Qed.

(** What a thread relies on survives the calls of others. *)
Lemma task_ok_reach m m' t :
  reach m m' → (∀ sid, sid ∈ pending t → drawn (ticks m) sid) → task_ok m t → task_ok m' t.
Proof.
  intros Hr Hd [Hok Hst].
  assert (Hl : ∀ sid s', sid ∈ pending t → sessions m' !! sid = Some s' → ∃ s, sessions m !! sid = Some s ∧ keeps s s').
  { intros sid s' Hin Hs'. eapply reach_lookup; eauto. }
  split.
  - destruct t as [sid|sid|sid prompt schema|sid [r|msg]|]; try done; intros s' Hs';
      destruct (Hl sid s' ltac:(apply list_elem_of_here) Hs') as (s & Hs & Hk).
    + rewrite (output_schema_keeps _ _ Hk). auto.
    + specialize (Hok s Hs). unfold releasable in *. by rewrite (output_schema_keeps _ _ Hk).
  - intros sid s' Hin Hs'. destruct (Hl sid s' Hin Hs') as (s & Hs & Hk).
    destruct (Hst sid s Hin Hs); [by apply Hk|right; by apply Hk].
Qed.

Lemma SysInv_reach s m' : SysInv s → reach (mgr s) m' → SysInv (System m' (tasks s)).
Proof.
  intros [] Hr. split; cbn.
  - by eapply reach_Inv.
  - by rewrite (reach_threads _ _ Hr).
  - done.
  - intros sid Hin. eapply drawn_le; [by apply reach_ticks|auto].
  - intros t Ht. eapply task_ok_reach; [done| |auto]. intros sid Hin. apply si_drawn0, elem_of_pendings. eauto.
  - intros sid x Hs Hc. destruct (reach_calculating _ _ _ _ Hr Hs Hc) as (y & Hy & Hcy). eauto.
Qed.

(** A thread's beliefs depend on its own session only. *)
Lemma task_ok_frame m m' t :
  (∀ sid, sid ∈ pending t → sessions m' !! sid = sessions m !! sid) → task_ok m t → task_ok m' t.
Proof.
  intros Hf [Hok Hst]. split; [|intros sid s Hin; rewrite Hf by done; eauto].
  destruct t as [sid|sid|sid prompt schema|sid [r|msg]|]; try done; rewrite (Hf sid) by apply list_elem_of_here; done.
Qed.

Lemma pendings_app l1 l2 : pendings (l1 ++ l2) = pendings l1 ++ pendings l2.
Proof. apply bind_app. Qed.

Lemma SysInv_started s sid m' :
  SysInv s → started (mgr s) sid m' → SysInv (System m' (tasks s ++ [Spawning sid])).
Proof.
  intros Hs (m1 & sid' & x & t & p & text & at_ & Hr & Hx & Hid & Hp & Hst & Hi & Ha & Hn & ->).
  apply (SysInv_reach s m1) in Hs; [|done]. destruct Hs as [Hinv Hth Hnd Hdr Hok Hcalc]; cbn in *.
  rewrite (inv_id _ Hinv _ _ Hx) in Hid. subst sid'.
  assert (Hnew : sid ∉ pendings (tasks s)).
  { intros (t' & Ht' & Hin)%elem_of_pendings. destruct (Hok t' Ht') as [_ Hs']. specialize (Hs' sid x Hin Hx).
    rewrite Hst in Hs'. by destruct Hs'. }
  assert (Hch : change m1 (store sid (with_state Calculating at_ (submit_session t text p x)) m1)) by (by eapply ch_start).
  split; cbn.
  - apply threads_Inv. by eapply change_Inv.
  - rewrite length_app. cbn. lia.
  - rewrite pendings_app. cbn. apply NoDup_app. split; [done|]. split; [|apply NoDup_singleton].
    intros y Hy ->%list_elem_of_singleton. done.
  - intros y. rewrite pendings_app. cbn. rewrite elem_of_app, list_elem_of_singleton.
    intros [Hy| ->]; [by apply Hdr|]. by destruct (inv_drawn _ Hinv _ _ Hx).
  - intros t' [Ht'| ->%list_elem_of_singleton]%elem_of_app.
    + eapply task_ok_frame; [|by apply Hok]. intros y Hy. cbn. apply lookup_insert_ne. intros <-.
      apply Hnew, elem_of_pendings. eauto.
    + split; [done|]. intros y z ->%list_elem_of_singleton. cbn. rewrite lookup_insert_eq. intros [= <-]. by left.
  - intros y z. rewrite pendings_app, elem_of_app. cbn. rewrite list_elem_of_singleton.
    intros [[<- <-]|[_ Hz]]%lookup_insert_Some Hc; [by right|left; eauto].
Qed.

(** A step of one thread: it only touches its own session. *)
Lemma SysInv_task m l1 t l2 t' m' :
  SysInv (System m (l1 ++ t :: l2)) → Inv m' → (ticks m <= ticks m')%nat →
  (∀ sid, sid ∉ pending t → sessions m' !! sid = sessions m !! sid) →
  active_async_threads m' = active_async_threads m - 1 + Z.of_nat (length (settle t')) →
  pendings (settle t') = pending t ∨ pendings (settle t') = [] →
  (∀ u, u ∈ settle t' → task_ok m' u) →
  (∀ sid x, sid ∈ pending t → sessions m' !! sid = Some x → state x = Calculating → sid ∈ pendings (settle t')) →
  SysInv (System m' (l1 ++ settle t' ++ l2)).
Proof.
  intros [Hinv Hth Hnd Hdr Hok Hcalc] Hinv' Htick Hfr Hth' Hpend Hok' Hcalc'; cbn in *.
  rewrite pendings_app in *. change (pendings (t :: l2)) with (pending t ++ pendings l2) in *.
  assert (Hsub : ∀ sid, sid ∈ pendings (settle t') → sid ∈ pending t).
  { destruct Hpend as [->| ->]; [done|]. by intros sid ?%elem_of_nil. }
  apply NoDup_app in Hnd as (Hn1 & Hd1 & Hnd). apply NoDup_app in Hnd as (Hn & Hd2 & Hn2).
  setoid_rewrite elem_of_app in Hd1.
  split; cbn; rewrite ?pendings_app.
  - done.
  - rewrite Hth', Hth, !length_app. cbn. lia.
  - apply NoDup_app. split; [done|]. setoid_rewrite elem_of_app. split.
    + intros sid Hin. specialize (Hd1 sid Hin). intros [?%Hsub|?]; tauto.
    + apply NoDup_app. split; [destruct Hpend as [->| ->]; [done|constructor]|]. split; [|done].
      intros sid ?%Hsub. auto.
  - intros sid. rewrite !elem_of_app. intros Hin. eapply drawn_le; [exact Htick|]. apply Hdr.
    rewrite !elem_of_app. destruct Hin as [?|[?%Hsub|?]]; auto.
  - intros u. rewrite !elem_of_app. assert (Hother : u ∈ l1 ∨ u ∈ l2 → task_ok m' u).
    { intros Hu. eapply task_ok_frame; [|apply Hok; rewrite elem_of_app, elem_of_cons; tauto].
      intros sid Hin. apply Hfr. intros Hint. destruct Hu as [Hu|Hu].
      - apply (Hd1 sid); [apply elem_of_pendings; eauto|by left].
      - apply (Hd2 sid Hint). apply elem_of_pendings. eauto. }
    intros [?|[?|?]]; auto.
  - intros sid x Hx Hc. rewrite !elem_of_app. destruct (decide (sid ∈ pending t)) as [Hin|Hin]; [eauto|].
    rewrite Hfr in Hx by done. specialize (Hcalc sid x Hx Hc). rewrite !elem_of_app in Hcalc. tauto.
Qed.

Lemma leaving_ok m : task_ok m Leaving.
Proof. split; [done|]. by intros sid s ?%elem_of_nil. Qed.

Lemma SysInv_spawn_failed m l1 l2 sid what :
  SysInv (System m (l1 ++ Spawning sid :: l2)) → Inv (spawn_failed sid what m).2 →
  SysInv (System (spawn_failed sid what m).2 (l1 ++ l2)).
Proof.
  intros Hs. rewrite spawn_failed_run. intros Hinv'. eapply (SysInv_task _ _ _ _ None); [exact Hs|done|..| | by right| |].
  - by destruct (sessions m !! sid).
  - intros y Hy. destruct (sessions m !! sid); [|done]. cbn. apply lookup_insert_ne. intros ->. by apply Hy, list_elem_of_singleton.
  - destruct (sessions m !! sid); cbn; lia.
  - by intros u ?%elem_of_nil.
  - intros y x ->%list_elem_of_singleton. destruct (sessions m !! sid) eqn:Hx; cbn; [|congruence].
    rewrite lookup_insert_eq. by intros [= <-].
Qed.

Lemma SysInv_write m l1 l2 sid out :
  SysInv (System m (l1 ++ Writing sid out :: l2)) → Inv (write_result sid out m).2 →
  SysInv (System (write_result sid out m).2 (l1 ++ Leaving :: l2)).
Proof.
  intros Hs. rewrite write_result_run. intros Hinv'. eapply (SysInv_task _ _ _ _ (Some Leaving)); [exact Hs|done|..|by right| |].
  - destruct (sessions m !! sid); [case_bool_decide|]; cbn; lia.
  - intros y Hy. destruct (sessions m !! sid); [|done]. case_bool_decide; [|done]. cbn. apply lookup_insert_ne.
    intros ->. by apply Hy, list_elem_of_singleton.
  - destruct (sessions m !! sid); [case_bool_decide|]; cbn; lia.
  - intros u ->%list_elem_of_singleton. apply leaving_ok.
  - intros y z ->%list_elem_of_singleton. destruct (sessions m !! sid) eqn:Hx; [|congruence].
    case_bool_decide; [|congruence]. cbn. rewrite lookup_insert_eq. intros [= <-]. by destruct out.
Qed.

Lemma SysInv_run_task m l1 t l2 t' m' :
  SysInv (System m (l1 ++ t :: l2)) → run_task m t t' m' → SysInv (System m' (l1 ++ settle t' ++ l2)).
Proof.
  intros Hs Hrun. assert (Hok : task_ok m t) by (apply (si_tasks _ Hs); cbn; apply elem_of_app; right; apply list_elem_of_here).
  assert (Hinv' : Inv m') by (eapply changes_Inv; [by eapply run_task_changes|apply (si_inv _ Hs)]).
  destruct Hrun as [sid|sid what|sid prompt schema m1 Hp|sid m1 Hp|sid prompt schema eng outs out _ Hg|sid out|].
  - eapply SysInv_task; [exact Hs|done..| |by left| |].
    + cbn. lia.
    + intros u ->%list_elem_of_singleton. split; [done|apply Hok].
    + intros y x Hy _ _. exact Hy.
  - by apply SysInv_spawn_failed.
  - rewrite prepare_run in Hp. destruct (sessions m !! sid) as [x|] eqn:Hx; [|done].
    case_bool_decide as Hc; [|done]. injection Hp as <- <- <-.
    eapply SysInv_task; [exact Hs|done|cbn; lia|done|cbn; lia|by left| |].
    + intros u ->%list_elem_of_singleton. split; [|apply Hok]. cbn. intros y Hy. congruence.
    + intros y z Hy _ _. exact Hy.
  - rewrite prepare_run in Hp. eapply SysInv_task; [exact Hs|done|..|by right| |].
    + repeat case_match; simplify_eq; lia.
    + by repeat case_match; simplify_eq.
    + cbn. repeat case_match; simplify_eq; lia.
    + intros u ->%list_elem_of_singleton. apply leaving_ok.
    + intros y z ->%list_elem_of_singleton Hz Hc.
      destruct (sessions m !! sid) as [x|] eqn:Hx; [case_bool_decide; [done|]|]; simplify_eq; congruence.
  - eapply SysInv_task; [exact Hs|done..|cbn; lia|by left| |].
    + intros u ->%list_elem_of_singleton. split; [|apply Hok]. destruct out as [r|msg]; [|done].
      intros x Hx. destruct Hok as [Hsch _]. cbn in Hsch. apply generate_checked in Hg as [Hne Hv].
      split; [done|]. by rewrite <- (Hsch x Hx).
    + intros y z Hy _ _. exact Hy.
  - by apply SysInv_write.
  - eapply SysInv_task; [exact Hs|done|done|done|cbn; lia|by left| |].
    + by intros u ?%elem_of_nil.
    + by intros y z ?%elem_of_nil.
Qed.

Lemma SysInv_step s s' : step s s' → SysInv s → SysInv s'.
Proof.
  destruct s as [m ts]. intros [c m' new Hserve|l1 t l2 t' m' Ht Hrun] Hs; cbn in *.
  - destruct (serve_cases _ _ _ _ Hserve) as [[Hr ->]|(sid & Hst & ->)].
    + rewrite app_nil_r. by apply (SysInv_reach (System m ts)).
    + by apply (SysInv_started (System m ts)).
  - subst ts. by eapply SysInv_run_task.
Qed.

Lemma steps_SysInv s s' : rtc step s s' → SysInv s → SysInv s'.
Proof. induction 1 as [|s s1 s2 Hst _ IH]; [done|]. intros Hs. apply IH. by eapply SysInv_step. Qed.

Lemma reachable_SysInv s : reachable s → SysInv s.
Proof. intros Hr. eapply steps_SysInv; [exact Hr|apply init_SysInv]. Qed.
End system.
