(* ===== verification/SessionSpec.v ===== *)
(** The life of a session, abstractly: who takes part, who accepted the policy,
    which inputs are in, and the result. The manager's sessions refine this
    machine, whatever other sessions, calls and threads do in between. *)

From S2P Require Import Prelude PyText PyValue Rpc Schema Session SessionSteps SessionInv SessionSystem SessionDemo.

Open Scope Z_scope.

(** ** The abstract machine *)

Record view := View {
  v_state : SessionState;
  v_policy : SessionPolicy;
  v_tokens : list string;
  v_accepted : gset string;
  v_inputs : gmap string string;
  v_result : option string
}.

(** Everyone expected takes part and has accepted the policy. *)
Definition unanimous (v : view) : Prop :=
  Z.of_nat (length (v_tokens v)) = expected_participants (v_policy v) ∧
  ∀ t, t ∈ v_tokens v → t ∈ v_accepted v.

(** Every participant's input is in. *)
Definition all_in (v : view) : Prop := ∀ t, t ∈ v_tokens v → is_Some (v_inputs v !! t).

Definition move (st : SessionState) (v : view) : view :=
  View st (v_policy v) (v_tokens v) (v_accepted v) (v_inputs v) (v_result v).
Definition add_token (t : string) (v : view) : view :=
  View (v_state v) (v_policy v) (v_tokens v ++ [t]) (v_accepted v) (v_inputs v) (v_result v).
Definition add_acceptance (t : string) (v : view) : view :=
  View (v_state v) (v_policy v) (v_tokens v) ({[t]} ∪ v_accepted v) (v_inputs v) (v_result v).
Definition add_input (t x : string) (v : view) : view :=
  View (v_state v) (v_policy v) (v_tokens v) (v_accepted v) (<[t := x]> (v_inputs v)) (v_result v).
Definition set_result (r : string) (v : view) : view :=
  View Closed (v_policy v) (v_tokens v) (v_accepted v) (v_inputs v) (Some r).

Inductive spec : option view → option view → Prop :=
| sp_create p c :
    2 <= expected_participants p → spec None (Some (View Open p [c] {[c]} ∅ None))
| sp_join v t :
    v_state v = Open → Z.of_nat (length (v_tokens v)) < expected_participants (v_policy v) →
    t ∉ v_tokens v → t ∉ v_accepted v → spec (Some v) (Some (add_token t v))
| sp_accept v t :
    v_state v = Open → t ∈ v_tokens v → t ∉ v_accepted v → ¬ unanimous (add_acceptance t v) →
    spec (Some v) (Some (add_acceptance t v))
| sp_seal v t :
    v_state v = Open → t ∈ v_tokens v → t ∉ v_accepted v → unanimous (add_acceptance t v) →
    spec (Some v) (Some (move Sealed (add_acceptance t v)))
| sp_submit v t x :
    v_state v = Sealed → t ∈ v_tokens v → v_inputs v !! t = None → ¬ all_in (add_input t x v) →
    spec (Some v) (Some (add_input t x v))
| sp_start v t x :
    v_state v = Sealed → t ∈ v_tokens v → v_inputs v !! t = None → all_in (add_input t x v) →
    spec (Some v) (Some (move Calculating (add_input t x v)))
| sp_finish v r : v_state v = Calculating → spec (Some v) (Some (set_result r v))
| sp_abort v : is_terminal (v_state v) = false → spec (Some v) (Some (move Aborted v))
| sp_erase v : is_terminal (v_state v) = true → spec (Some v) None.

(** What the machine guarantees: no calculation and no result without the
    consent and the input of everyone expected. *)
Definition sound (v : view) : Prop :=
  (v_state v = Sealed ∨ v_state v = Calculating ∨ v_state v = Closed → unanimous v) ∧
  (v_state v = Calculating ∨ v_state v = Closed → all_in v) ∧
  (is_Some (v_result v) ↔ v_state v = Closed).

(** How a view may develop: participants are only added, acceptances and inputs
    are never withdrawn or changed, the policy and the result stay. *)
Definition rank (st : SessionState) : Z :=
  match st with Open => 0 | Sealed => 1 | Calculating => 2 | Closed | Aborted => 3 end.

Record evolves (v v' : view) : Prop := {
  e_policy : v_policy v' = v_policy v;
  e_tokens : v_tokens v `prefix_of` v_tokens v';
  e_accepted : v_accepted v ⊆ v_accepted v';
  e_inputs : v_inputs v ⊆ v_inputs v';
  e_result : ∀ r, v_result v = Some r → v_result v' = Some r;
  e_rank : rank (v_state v) <= rank (v_state v');
  e_terminal : is_terminal (v_state v) = true → v' = v
}.

Lemma evolves_refl v : evolves v v.
Proof. split; done. Qed.

Lemma evolves_trans v1 v2 v3 : evolves v1 v2 → evolves v2 v3 → evolves v1 v3.
Proof.
  intros [p1 t1 a1 i1 r1 k1 z1] [p2 t2 a2 i2 r2 k2 z2]. split; [congruence|by etrans..|auto|lia|].
  intros Ht. specialize (z1 Ht). subst v2. by apply z2.
Qed.

Lemma spec_sound o v' : (∀ v, o = Some v → sound v) → spec o (Some v') → sound v'.
Proof.
  intros Ho Hs. inversion Hs as [p c He|v t Hst Hlt Ht Hta|v t Hst Ht Hta Hu|v t Hst Ht Hta Hu|v t x Hst Ht Hx Hn
    |v t x Hst Ht Hx Hn|v r Hst|v Hst|]; subst;
    try (destruct (Ho v eq_refl) as (Hun & Hin & Hres)); unfold sound; cbn in *; rewrite ?Hst in *.
  - split; [|split]; [intuition congruence..|]. split; [by intros [? [=]]|done].
  - split; [|split]; [intuition congruence..|done].
  - split; [|split]; [intuition congruence..|done].
  - split; [done|]. split; [intuition congruence|]. rewrite Hres. split; congruence.
  - split; [intros _; apply Hun; auto|]. split; [intuition congruence|done].
  - split; [intros _; apply Hun; auto|]. split; [done|]. rewrite Hres. split; congruence.
  - split; [intros _; apply Hun; auto|]. split; [intros _; apply Hin; auto|]. split; [done|eauto].
  - split; [intuition congruence|]. split; [intuition congruence|]. rewrite Hres. by destruct (v_state v).
Qed.

Lemma spec_evolves v v' : sound v → spec (Some v) (Some v') → evolves v v'.
Proof.
  intros (_ & _ & Hres) Hs.
  assert (Hgo : is_terminal (v_state v) = false → v_policy v' = v_policy v → v_tokens v `prefix_of` v_tokens v' →
    v_accepted v ⊆ v_accepted v' → v_inputs v ⊆ v_inputs v' → rank (v_state v) <= rank (v_state v') → evolves v v').
  { intros Ht ? ? ? ? ?. split; try done; [|congruence]. intros r Hr.
    assert (v_state v = Closed) as Hc by (apply Hres; eauto). by rewrite Hc in Ht. }
  inversion Hs as [|? t Hst Hlt Ht Hta|? t Hst Ht Hta Hu|? t Hst Ht Hta Hu|? t x Hst Ht Hx Hn
    |? t x Hst Ht Hx Hn|? r Hst|? Hst|]; subst; apply Hgo; cbn; rewrite ?Hst; try done; try lia.
  - by exists [t].
  - apply union_subseteq_r.
  - apply union_subseteq_r.
  - by apply insert_subseteq.
  - by apply insert_subseteq.
  - by destruct (v_state v).
Qed.

(** ** The manager's sessions as views *)

Definition inputs_of (ps : gmap string Participant) : gmap string string :=
  omap (λ p, if input_submitted p then Some (input_json p) else None) ps.
Definition accepted_of (ps : gmap string Participant) : gset string :=
  dom (filter (λ kv, accepted kv.2 = true) ps).

Definition abs (s : Session) : view :=
  {| v_state := state s; v_policy := policy s; v_tokens := participant_tokens s;
     v_accepted := accepted_of (participants s); v_inputs := inputs_of (participants s);
     v_result := match state s with Closed => Some (result_json s) | _ => None end |}.

Definition view_of (m : SessionManager) (sid : string) : option view := abs <$> sessions m !! sid.

Lemma elem_of_accepted ps t : t ∈ accepted_of ps ↔ ∃ p, ps !! t = Some p ∧ accepted p = true.
Proof.
  unfold accepted_of. rewrite elem_of_dom. split.
  - intros [p [Hp Ha]%map_lookup_filter_Some]. eauto.
  - intros (p & Hp & Ha). exists p. by apply map_lookup_filter_Some.
Qed.

Lemma lookup_inputs ps t x :
  inputs_of ps !! t = Some x ↔ ∃ p, ps !! t = Some p ∧ input_submitted p = true ∧ input_json p = x.
Proof.
  unfold inputs_of. rewrite lookup_omap_Some. split.
  - intros (p & Hx & Hp). exists p. destruct (input_submitted p); [by injection Hx|done].
  - intros (p & Hp & Hi & <-). exists p. by rewrite Hi.
Qed.

Section views.
Context `{Server, NJson, Re2}.

Lemma abs_accept t p s :
  participants s !! t = Some p → abs (accept_session t p s) = add_acceptance t (abs s).
Proof.
  intros Hp. unfold abs, add_acceptance. cbn. f_equal.
  - apply set_eq. intros x. rewrite elem_of_union, elem_of_singleton, !elem_of_accepted. setoid_rewrite lookup_insert_Some.
    split.
    + intros (q & [[<- <-]|[Hne Hq]] & Ha); eauto.
    + intros [->|(q & Hq & Ha)]; [exists (set_accepted p); auto|].
      destruct (decide (t = x)) as [<-|Hne]; [exists (set_accepted p); auto|exists q; auto].
  - apply map_eq. intros x. unfold inputs_of. rewrite !lookup_omap. destruct (decide (t = x)) as [<-|Hne].
    + by rewrite lookup_insert_eq, Hp.
    + by rewrite lookup_insert_ne.
Qed.

Lemma abs_submit t text p s :
  participants s !! t = Some p → abs (submit_session t text p s) = add_input t text (abs s).
Proof.
  intros Hp. unfold abs, add_input. cbn. f_equal.
  - apply set_eq. intros x. rewrite !elem_of_accepted. setoid_rewrite lookup_insert_Some. split.
    + intros (q & [[<- <-]|[Hne Hq]] & Ha); eauto.
    + intros (q & Hq & Ha). destruct (decide (t = x)) as [<-|Hne]; [|exists q; auto].
      exists (set_input text p). split; [auto|]. cbn. congruence.
  - apply map_eq. intros x. unfold inputs_of. rewrite lookup_omap. destruct (decide (t = x)) as [<-|Hne].
    + by rewrite !lookup_insert_eq.
    + by rewrite !lookup_insert_ne, lookup_omap by done.
Qed.

Lemma abs_join t nonce s :
  participants s !! t = None → abs (with_joined (fresh_participant t s) nonce s) = add_token t (abs s).
Proof.
  intros Hn. unfold abs, add_token. cbn. f_equal.
  - apply set_eq. intros x. rewrite !elem_of_accepted. setoid_rewrite lookup_insert_Some. split.
    + intros (q & [[<- <-]|[Hne Hq]] & Ha); [done|eauto].
    + intros (q & Hq & Ha). exists q. split; [|done]. right. split; [congruence|done].
  - apply map_eq. intros x. unfold inputs_of. rewrite !lookup_omap. destruct (decide (t = x)) as [<-|Hne].
    + by rewrite lookup_insert_eq, Hn.
    + by rewrite lookup_insert_ne by done.
Qed.

(** Tests of the code and their abstract meaning; only the token list and the
    participants matter. *)
Lemma complete_unanimous s :
  (∀ t, t ∈ participant_tokens s ↔ is_Some (participants s !! t)) →
  size (participants s) = length (participant_tokens s) →
  complete s = true ↔ unanimous (abs s).
Proof.
  intros Hd Hz. unfold complete, unanimous. cbn. rewrite andb_true_iff, Z.eqb_eq, all_accepted_spec, Hz.
  split; intros [Hn Ha]; (split; [done|]).
  - intros t [p Hp]%Hd. apply elem_of_accepted. exists p. eauto.
  - intros t p Hp. assert (Ht : t ∈ participant_tokens s) by (apply Hd; eauto).
    apply Ha, elem_of_accepted in Ht as (q & Hq & ?). congruence.
Qed.

Lemma submitted_all_in s :
  (∀ t, t ∈ participant_tokens s ↔ is_Some (participants s !! t)) →
  (∀ t p, participants s !! t = Some p → input_submitted p = true) ↔ all_in (abs s).
Proof.
  intros Hd. unfold all_in. cbn. split.
  - intros Ha t [p Hp]%Hd. exists (input_json p). apply lookup_inputs. eauto.
  - intros Ha t p Hp. assert (Ht : t ∈ participant_tokens s) by (apply Hd; eauto).
    apply Ha in Ht as [x (q & Hq & ? & _)%lookup_inputs]. congruence.
Qed.

Lemma abs_abort s at_ e detail :
  state s ≠ Closed → abs (with_state Aborted at_ (with_error e detail s)) = move Aborted (abs s).
Proof. intros Hc. unfold abs, move. cbn. by destruct (state s). Qed.
End views.

(** ** Refinement *)

Section refinement.
Context `{Server, NJson, Re2, !RandomUnique}.

(** One abstract step, or none *)
Definition spec_or_same (o o' : option view) : Prop := o' = o ∨ spec o o'.

Lemma refine_store m sid s s' :
  sessions m !! sid = Some s → spec_or_same (Some (abs s)) (Some (abs s')) →
  ∀ sid', spec_or_same (view_of m sid') (view_of (store sid s' m) sid').
Proof.
  intros Hs Hsp sid'. unfold view_of. cbn. destruct (decide (sid = sid')) as [<-|Hne].
  - by rewrite lookup_insert_eq, Hs.
  - rewrite lookup_insert_ne by done. by left.
Qed.

Lemma refine_accept s t p at_ :
  session_ok s → participants s !! t = Some p → state s = Open → accepted p = false →
  if complete (accept_session t p s)
  then spec (Some (abs s)) (Some (abs (with_state Sealed at_ (accept_session t p s))))
  else spec (Some (abs s)) (Some (abs (accept_session t p s))).
Proof.
  intros Hok Hp Hst Ha. destruct (update_tokens s t p (set_accepted p) Hok Hp eq_refl eq_refl) as (Hd & Hz & _).
  pose proof (complete_unanimous (accept_session t p s) Hd Hz) as Hu. rewrite abs_accept in Hu by done.
  assert (Ht : t ∈ v_tokens (abs s)) by (apply (so_dom s Hok); eauto).
  assert (Hna : t ∉ v_accepted (abs s)) by (cbn; rewrite elem_of_accepted; intros (q & Hq & ?); congruence).
  destruct (complete (accept_session t p s)).
  - replace (abs (with_state Sealed at_ _)) with (move Sealed (add_acceptance t (abs s))).
    + apply sp_seal; tauto.
    + rewrite <- abs_accept with (p := p) by done. unfold abs, move. cbn. by rewrite Hst.
  - rewrite abs_accept by done. apply sp_accept; try done. rewrite <- Hu. done.
Qed.

Lemma refine_submit s t p text at_ :
  session_ok s → participants s !! t = Some p → state s = Sealed → input_submitted p = false →
  if bool_decide (submitted_count (participants (submit_session t text p s)) = expected_participants (policy s))
  then spec (Some (abs s)) (Some (abs (with_state Calculating at_ (submit_session t text p s))))
  else spec (Some (abs s)) (Some (abs (submit_session t text p s))).
Proof.
  intros Hok Hp Hst Hi. destruct (update_tokens s t p (set_input text p) Hok Hp eq_refl eq_refl) as (Hd & Hz & _).
  pose proof (submitted_all_in (submit_session t text p s) Hd) as Ha.
  rewrite <- submitted_all, abs_submit in Ha by done.
  pose proof (so_state s Hok) as Hc. unfold state_ok in Hc. rewrite Hst in Hc. destruct Hc as [Hc _].
  apply (submit_complete s t p text Hp), complete_size in Hc. change (policy (submit_session _ _ _ _)) with (policy s) in Hc.
  rewrite <- Hc in Ha.
  assert (Ht : t ∈ v_tokens (abs s)) by (apply (so_dom s Hok); eauto).
  assert (Hx : v_inputs (abs s) !! t = None).
  { apply eq_None_not_Some. cbn. intros [x (q & Hq & ? & _)%lookup_inputs]. congruence. }
  case_bool_decide as Hn.
  - replace (abs (with_state Calculating at_ _)) with (move Calculating (add_input t text (abs s))).
    + apply sp_start; tauto.
    + rewrite <- abs_submit with (p := p) by done. unfold abs, move. cbn. by rewrite Hst.
  - rewrite abs_submit by done. apply sp_submit; try done. rewrite <- Ha. done.
Qed.

Lemma refine_quiet m m' :
  Inv m → quiet m m' → ∀ sid, spec_or_same (view_of m sid) (view_of m' sid).
Proof.
  intros Hm [|sid s t t' d Hs Ht _|sid s Hs Ht|p def nonce Hc n|sid s nonce Hs Hst Hlt _ t
    |sid s t p Hs Hp Hst Ha Hc|sid s t p at_ Hs Hp Hst Ha Hc|sid s t p text Hs Hp Hst Hi _ Hn].
  - by left.
  - eapply refine_store; [exact Hs|]. right. rewrite abs_abort; [by apply sp_abort|]. by destruct (state s).
  - intros sid'. unfold view_of. cbn. destruct (decide (sid = sid')) as [<-|Hne].
    + rewrite lookup_delete_eq, Hs. right. by apply sp_erase.
    + rewrite lookup_delete_ne by done. by left.
  - intros sid'. unfold view_of. cbn. destruct (decide (random_hex n kSessionIdBytes = sid')) as [<-|Hne].
    + rewrite lookup_insert_eq. destruct (sessions m !! _) as [x|] eqn:Hx.
      { destruct (inv_drawn m Hm _ x Hx) as [Hd _]. by destruct (drawn_fresh _ n kSessionIdBytes _ Hd (le_n _)). }
      right. cbn. replace (abs _) with (View Open (normalized (default_input_schema_json def)
        (default_output_schema_json def) p) [random_hex (S n) kParticipantTokenBytes]
        {[random_hex (S n) kParticipantTokenBytes]} ∅ None); [apply sp_create; cbn; apply Hc|].
      unfold abs, new_session. cbn. f_equal.
      * apply set_eq. intros x. rewrite elem_of_singleton, elem_of_accepted. setoid_rewrite lookup_singleton_Some.
        split; [intros ->; eauto|by intros (q & [-> _] & _)].
      * apply map_eq. intros x. rewrite lookup_empty. symmetry. apply eq_None_not_Some.
        intros [y (q & [_ <-]%lookup_singleton_Some & ? & _)%lookup_inputs]. done.
    + rewrite lookup_insert_ne by done. by left.
  - assert (Hok : session_ok s) by (by eapply inv_session).
    assert (Htn : t ∉ participant_tokens s).
    { intros Ht. destruct (inv_drawn m Hm sid s Hs) as (_ & _ & Hd).
      exact (drawn_fresh _ (ticks m) _ _ (Hd _ Ht) (le_n _) eq_refl). }
    assert (Hnone : participants s !! t = None) by (apply eq_None_not_Some; by rewrite <- (so_dom s Hok)).
    assert (Hgo := refine_store m sid s (with_joined (fresh_participant t s) nonce s) Hs). apply Hgo. right.
    rewrite abs_join by done. apply sp_join; try done.
    + cbn. rewrite <- (so_size s Hok). done.
    + cbn. rewrite elem_of_accepted. intros (q & Hq & _). congruence.
  - eapply refine_store; [exact Hs|]. right. pose proof (refine_accept s t p 0 (inv_session m Hm _ _ Hs) Hp Hst Ha) as Hr.
    by rewrite Hc in Hr.
  - eapply refine_store; [exact Hs|]. right. pose proof (refine_accept s t p at_ (inv_session m Hm _ _ Hs) Hp Hst Ha) as Hr.
    by rewrite Hc in Hr.
  - eapply refine_store; [exact Hs|]. right. pose proof (refine_submit s t p text 0 (inv_session m Hm _ _ Hs) Hp Hst Hi) as Hr.
    by rewrite bool_decide_false in Hr.
Qed.

Lemma refine_change m m' :
  Inv m → change m m' → ∀ sid, spec_or_same (view_of m sid) (view_of m' sid).
Proof.
  intros Hm [m1 Hq|sid s t p text at_ Hs Hp Hst Hi _ Hn|sid s r at_ Hs Hst _|sid s e d at_ Hs Hst|n].
  - by apply refine_quiet.
  - eapply refine_store; [exact Hs|]. right. pose proof (refine_submit s t p text at_ (inv_session m Hm _ _ Hs) Hp Hst Hi) as Hr.
    by rewrite bool_decide_true in Hr.
  - eapply refine_store; [exact Hs|]. right. by apply (sp_finish (abs s)).
  - eapply refine_store; [exact Hs|]. rewrite abs_abort by (intuition congruence). destruct Hst as [Hst|[Hst _]].
    + right. apply sp_abort. cbn. by rewrite Hst.
    + left. unfold abs, move. cbn. by rewrite Hst.
  - by left.
Qed.

Lemma refine_changes m m' : Inv m → rtc change m m' → ∀ sid, rtc spec (view_of m sid) (view_of m' sid).
Proof.
  intros Hm Hc sid. induction Hc as [|m m1 m2 Hch _ IH]; [done|].
  etrans; [|apply IH; by eapply change_Inv]. destruct (refine_change m m1 Hm Hch sid) as [->|Hsp]; [done|by apply rtc_once].
Qed.

Lemma step_changes s s' : step s s' → SysInv s → rtc change (mgr s) (mgr s').
Proof.
  intros [c m' new Hserve|l1 t l2 t' m' Ht Hrun] Hs; cbn.
  - destruct (serve_cases _ _ _ _ Hserve) as [[Hr _]|(sid & Hst & _)]; [by apply reach_changes|by eapply started_changes].
  - eapply run_task_changes; [exact Hrun|]. apply (si_tasks _ Hs). rewrite Ht. apply elem_of_app. right. apply list_elem_of_here.
Qed.

(** C4: the session manager refines the abstract life of a session. Whatever
    the server does in one step, a call under its lock or a step of a
    background thread, every session, present or not, goes through zero or more
    steps of the abstract machine. *)
Theorem session_refines s s' sid :
  reachable s → step s s' → rtc spec (view_of (mgr s) sid) (view_of (mgr s') sid).
Proof.
  intros Hr Hst. pose proof (reachable_SysInv s Hr) as Hs.
  apply refine_changes; [apply (si_inv _ Hs)|by apply step_changes].
Qed.
End refinement.

Section demo.
#[local] Existing Instance demo_server.
#[local] Existing Instance demo_njson.
#[local] Existing Instance demo_re2.
#[local] Existing Instance demo_unique.

Lemma session_refines_witness :
  reachable demo_open ∧ rtc spec (view_of (mgr demo_open) demo_sid) (view_of (mgr demo_sealed) demo_sid) ∧
  (v_state <$> view_of (mgr demo_open) demo_sid, v_state <$> view_of (mgr demo_sealed) demo_sid) = (Some Open, Some Sealed).
Proof.
  split; [apply demo_open_reachable|]. split; [|vm_compute; reflexivity].
  apply (session_refines demo_open demo_sealed demo_sid); [apply demo_open_reachable|].
  apply (step_call demo_open (Accept demo_joiner)). exact (surjective_pairing _).
Defined.
End demo.
