(* ===== verification/SessionProps.v ===== *)
(** What the participants of a session may rely on. *)

From S2P Require Import Prelude PyText PyValue Rpc Schema Session SessionSteps SessionInv SessionSystem SessionSpec SessionDemo.

Open Scope Z_scope.

Section props.
Context `{Server, NJson, Re2, !RandomUnique}.

(** ** History *)

Lemma session_sound s : session_ok s → sound (abs s).
Proof.
  intros Hok. pose proof (complete_unanimous s (so_dom s Hok) (so_size s Hok)) as Hu.
  pose proof (submitted_all_in s (so_dom s Hok)) as Ha.
  pose proof (so_state s Hok) as Hst. unfold state_ok in Hst. unfold sound. cbn.
  destruct (state s); (split; [|split]); try (intuition congruence);
    try (split; [by intros [? [=]]|done]); split; eauto; done.
Qed.

Lemma change_ticks m m' : change m m' → (ticks m <= ticks m')%nat.
Proof. intros [m1 Hq| | | |]; [by apply quiet_ticks|cbn; lia..]. Qed.

(** A session that is gone does not come back. *)
Lemma change_gone m m' sid :
  change m m' → drawn (ticks m) sid → sessions m !! sid = None → sessions m' !! sid = None.
Proof.
  intros Hc Hd Hn. apply eq_None_not_Some. intros [x Hx].
  assert (Hstore : ∀ sid0 s0 s1, sessions m !! sid0 = Some s0 → <[sid0 := s1]> (sessions m) !! sid = Some x → False).
  { intros sid0 s0 s1 Hs0 [[<- _]|[_ ?]]%lookup_insert_Some; congruence. }
  destruct Hc as [m1 Hq|sid0 s t p text at_ Hs|sid0 s r at_ Hs|sid0 s e d at_ Hs|n]; [|exact (Hstore _ _ _ Hs Hx)..|cbn in Hx; congruence].
  destruct (quiet_lookup _ _ _ _ Hq Hx) as [(s & ? & _)|[? _]]; [congruence|done].
Qed.

Lemma changes_gone m m' sid :
  rtc change m m' → drawn (ticks m) sid → sessions m !! sid = None → sessions m' !! sid = None.
Proof.
  induction 1 as [|m m1 m2 Hc _ IH]; [done|]. intros Hd Hn. apply IH; [|by eapply change_gone].
  eapply drawn_le; [by apply change_ticks|done].
Qed.

Lemma changes_evolve m m' sid v v' :
  Inv m → rtc change m m' → view_of m sid = Some v → view_of m' sid = Some v' → evolves v v'.
Proof.
  intros Hm Hc Hv Hv'. revert v Hm Hv. induction Hc as [m|m m1 m2 Hch Hc IH]; intros v Hm Hv.
  - assert (v' = v) as -> by congruence. apply evolves_refl.
  - assert (Hm1 : Inv m1) by (by eapply change_Inv).
    unfold view_of in Hv. apply fmap_Some in Hv as (x & Hx & ->).
    destruct (inv_drawn m Hm sid x Hx) as [Hd _].
    destruct (view_of m1 sid) as [v1|] eqn:Hv1.
    + eapply evolves_trans; [|by apply IH]. destruct (refine_change m m1 Hm Hch sid) as [He|Hs].
      * rewrite Hv1 in He. unfold view_of in He. rewrite Hx in He. injection He as ->. apply evolves_refl.
      * rewrite Hv1 in Hs. unfold view_of in Hs. rewrite Hx in Hs. eapply spec_evolves; [|exact Hs]. apply session_sound. exact (inv_session m Hm sid x Hx).
    + exfalso. unfold view_of in Hv1, Hv'. apply fmap_None in Hv1.
      rewrite (changes_gone m1 m2 sid Hc) in Hv'; [done| |done]. eapply drawn_le; [by apply change_ticks|done].
Qed.

Lemma steps_changes s s' : rtc step s s' → SysInv s → rtc change (mgr s) (mgr s').
Proof.
  induction 1 as [|s s1 s2 Hst _ IH]; [done|]. intros Hs. etrans; [by apply step_changes|].
  apply IH. by eapply SysInv_step.
Qed.

(** A relation that every change keeps to holds over the life of a session. *)
Lemma changes_relate (R : Session → Session → Prop) :
  (∀ x, R x x) → (∀ x y z, R x y → R y z → R x z) →
  (∀ m m' sid x x', Inv m → change m m' → sessions m !! sid = Some x → sessions m' !! sid = Some x' → R x x') →
  ∀ m m' sid x x', Inv m → rtc change m m' → sessions m !! sid = Some x → sessions m' !! sid = Some x' → R x x'.
Proof.
  intros Hrefl Htrans Hone m m' sid x x' Hm Hc Hx Hx'. revert x Hm Hx.
  induction Hc as [m|m m1 m2 Hch Hc IH]; intros x Hm Hx; [by simplify_eq|].
  assert (Hm1 : Inv m1) by (by eapply change_Inv). destruct (inv_drawn m Hm sid x Hx) as [Hd _].
  destruct (sessions m1 !! sid) as [x1|] eqn:Hx1.
  - exact (Htrans _ _ _ (Hone m m1 sid x x1 Hm Hch Hx Hx1) (IH Hx' x1 Hm1 eq_refl)).
  - rewrite (changes_gone m1 m2 sid Hc) in Hx'; [done| |done]. eapply drawn_le; [by apply change_ticks|done].
Qed.

(** What may still become of a finished session, in all its fields: a closed one
    stays as it is, and of an aborted one only the error is overwritten, by a
    thread that fails to start after the timeout. *)
Record final (x x' : Session) : Prop := {
  fin_closed : state x = Closed → x' = x;
  fin_aborted : state x = Aborted → x' = x ∨ ∃ what, x' = with_error Unspecified (spawn_error what) x
}.

Lemma final_refl x : final x x.
Proof. split; auto. Qed.

Lemma final_trans x y z : final x y → final y z → final x z.
Proof.
  intros [Hc Ha] [Hc' Ha']. split.
  - intros Hx. rewrite <- (Hc Hx) in Hx |- *. by apply Hc'.
  - intros Hx. destruct (Ha Hx) as [->|[w ->]]; [by apply Ha'|].
    destruct (Ha' Hx) as [->|[w' ->]]; eauto.
Qed.

Lemma final_open x x' : is_terminal (state x) = false → final x x'.
Proof. intros Ht. split; intros Hs; by rewrite Hs in Ht. Qed.

Lemma store_final m sid0 s0 s1 sid x x' :
  sessions m !! sid0 = Some s0 → final s0 s1 → sessions m !! sid = Some x →
  <[sid0 := s1]> (sessions m) !! sid = Some x' → final x x'.
Proof. intros Hs Hf Hx [[<- <-]|[_ Hx']]%lookup_insert_Some; simplify_eq; [done|apply final_refl]. Qed.

Lemma change_final m m' sid x x' :
  Inv m → change m m' → sessions m !! sid = Some x → sessions m' !! sid = Some x' → final x x'.
Proof.
  intros Hm Hc Hx Hx'.
  assert (Hopen : ∀ sid0 s0 s1, sessions m !! sid0 = Some s0 → is_terminal (state s0) = false →
    <[sid0 := s1]> (sessions m) !! sid = Some x' → final x x').
  { intros sid0 s0 s1 Hs0 Ht. eapply store_final; [exact Hs0|by apply final_open|done]. }
  destruct Hc as [m1 Hq|sid0 s t p text at_ Hs _ Hst|sid0 s r at_ Hs Hst|sid0 s e d at_ Hs Hst|n].
  - destruct Hq as [|sid0 s t t' d Hs Ht|sid0 s Hs _|p def nonce Hc n|sid0 s nonce Hs Hst
      |sid0 s t p Hs _ Hst|sid0 s t p at_ Hs _ Hst|sid0 s t p text Hs _ Hst]; cbn in Hx'.
    + simplify_eq. apply final_refl.
    + exact (Hopen _ _ _ Hs Ht Hx').
    + apply lookup_delete_Some in Hx' as [_ Hx']. simplify_eq. apply final_refl.
    + apply lookup_insert_Some in Hx' as [[<- _]|[_ Hx']]; [|simplify_eq; apply final_refl].
      destruct (inv_drawn m Hm _ x Hx) as [Hd _]. by destruct (drawn_fresh _ n kSessionIdBytes _ Hd (le_n _)).
    + by eapply Hopen; [exact Hs|rewrite Hst|exact Hx'].
    + by eapply Hopen; [exact Hs|rewrite Hst|exact Hx'].
    + by eapply Hopen; [exact Hs|rewrite Hst|exact Hx'].
    + by eapply Hopen; [exact Hs|rewrite Hst|exact Hx'].
  - by eapply Hopen; [exact Hs|rewrite Hst|exact Hx'].
  - by eapply Hopen; [exact Hs|rewrite Hst|exact Hx'].
  - destruct Hst as [Hst|(Hst & -> & [what ->] & ->)]; [by eapply Hopen; [exact Hs|rewrite Hst|exact Hx']|].
    eapply store_final; [exact Hs| |exact Hx|exact Hx']. split; [congruence|]. intros _. right. exists what.
    destruct s. cbn in *. by subst.
  - cbn in Hx'. simplify_eq. apply final_refl.
Qed.

(** C17: the history of a session. However long the server runs, as long as a
    session exists its policy stays the one agreed on, participants are only
    added, acceptances are never withdrawn, a submitted input is never replaced
    and the state only advances. A closed session never changes again, in any of
    its fields. Of an aborted one only the recorded error can change: when its
    calculation timed out before the thread was started and the start then
    fails, the error of the failed start replaces that of the timeout. *)
Theorem session_history s s' sid x x' :
  reachable s → rtc step s s' →
  sessions (mgr s) !! sid = Some x → sessions (mgr s') !! sid = Some x' →
  evolves (abs x) (abs x') ∧ (state x = Closed → x' = x) ∧
  (state x = Aborted → x' = x ∨ ∃ what, x' = with_error Unspecified (spawn_error what) x).
Proof.
  intros Hr Hst Hx Hx'. pose proof (reachable_SysInv s Hr) as Hs. pose proof (si_inv _ Hs) as Hm.
  pose proof (steps_changes _ _ Hst Hs) as Hc. split.
  - eapply (changes_evolve _ _ sid); [exact Hm|exact Hc| |]; unfold view_of; by rewrite ?Hx, ?Hx'.
  - destruct (changes_relate final final_refl final_trans change_final _ _ sid x x' Hm Hc Hx Hx') as [? ?]. done.
Qed.

(** ** Results *)

Lemma Authenticate_run t m :
  Inv m →
  match participant_to_session m !! t with
  | None => Authenticate t m = (Raise denied, m)
  | Some sid => ∃ s p, Authenticate t m = (Ok (sid, s, p), m) ∧ sessions m !! sid = Some s ∧
      participants s !! t = Some p ∧ t ∈ participant_tokens s
  end.
Proof.
  intros Hm. destruct (participant_to_session m !! t) as [sid|] eqn:Hi; unfold Authenticate, find_session; st_unfold; rewrite Hi; [|done].
  apply (inv_participant m Hm) in Hi as (s & Hs & Ht). rewrite Hs.
  assert (Hp : is_Some (participants s !! t)) by (by apply (so_dom s (inv_session m Hm sid s Hs))).
  destruct Hp as [p Hp]. rewrite Hp. eauto 10.
Qed.

(** Enforcing the timeout of a session: at most its state and error change. *)
Lemma enforce_run sid s m :
  sessions m !! sid = Some s →
  ∃ s' m', enforce sid s m = (Ok s', m') ∧ enforced s s' ∧ sessions m' = <[sid := s']> (sessions m) ∧
    (ticks m <= ticks m')%nat ∧
    (is_terminal (state s) = false → effective_timeout s < now (ticks m) - state_entered_at s →
       state s' = Aborted ∧ error_code s' = timeout_error (state s)).
Proof.
  intros Hs. unfold enforce, CheckAndEnforceTimeout, Now, next_tick, put_session.
  destruct (is_terminal (state s)) eqn:Ht.
  { st_unfold. cbn. do 2 eexists. split; [done|]. split; [by left|]. split; [done|]. by split. }
  st_unfold. cbn. destruct (Z.ltb_spec (effective_timeout s) (now (ticks m) - state_entered_at s)) as [Hlt|Hge]; cbn;
    do 2 eexists; (split; [done|]); (split; [|split; [done|split; [cbn; lia|]]]).
  - right. split; [done|]. eauto.
  - done.
  - by left.
  - intros _ ?. lia.
Qed.

(** An answer that says CLOSED or carries a result *)
Lemma closed_answer s t r m' :
  reachable s → GetResult t (mgr s) = (Ok r, m') → gr_state r = CLOSED ∨ gr_result_json r ≠ "" →
  ∃ sid x, sessions (mgr s) !! sid = Some x ∧ t ∈ participant_tokens x ∧ state x = Closed ∧
    unanimous (abs x) ∧ all_in (abs x) ∧
    (∀ u y, v_inputs (abs x) !! u = Some y → admissible x y) ∧
    gr_result_json r = result_json x ∧ releasable x (gr_result_json r).
Proof.
  intros Hr Hg Hne. pose proof (si_inv _ (reachable_SysInv s Hr)) as Hm.
  pose proof (Authenticate_run t (mgr s) Hm) as Ha. unfold GetResult in Hg. rewrite st_bind_eq in Hg.
  destruct (participant_to_session (mgr s) !! t) as [sid|]; [|by rewrite Ha in Hg].
  destruct Ha as (x & p & Ha & Hx & Hp & Ht). rewrite Ha in Hg.
  destruct (enforce_run sid x (mgr s) Hx) as (x' & m1 & He & Henf & _ & _).
  rewrite (st_bind_run _ _ _ _ _ He) in Hg. injection Hg as <- <-. cbn in Hne |- *.
  assert (Hc : state x' = Closed).
  { destruct Hne as [Hn|Hn]; [by destruct (state x')|]. by case_bool_decide. }
  rewrite bool_decide_true by done. destruct Henf as [->|(_ & ? & ? & ? & _ & ->)]; [|done].
  pose proof (inv_session _ Hm _ _ Hx) as Hok. destruct (session_sound x Hok) as (Hun & Hin & _). cbn in Hun, Hin.
  exists sid, x. repeat (split; [by auto|]).
  split; [intros u y (q & Hq & Hi & <-)%lookup_inputs; by eapply so_inputs|].
  split; [done|]. pose proof (so_result x Hok) as Hres. by rewrite Hc in Hres.
Qed.

(** C5: a result is released to participants only, and only after everyone
    consented. When [GetResult] returns a result in a reachable state, the token
    belongs to a closed session in which exactly the expected number of
    participants joined, all of them accepted the policy and submitted an input
    that passed the input schema, and the result passed the output schema. *)
Theorem result_released s t r m' :
  reachable s → GetResult t (mgr s) = (Ok r, m') → gr_result_json r ≠ "" →
  ∃ sid x, sessions (mgr s) !! sid = Some x ∧ t ∈ participant_tokens x ∧ state x = Closed ∧
    unanimous (abs x) ∧ all_in (abs x) ∧
    (∀ u y, v_inputs (abs x) !! u = Some y → admissible x y) ∧
    gr_result_json r = result_json x ∧ releasable x (gr_result_json r).
Proof. intros Hr Hg Hne. eapply closed_answer; eauto. Qed.

(** ** Isolation *)

(** The call changes no session but [sid]. *)
Definition only (m0 : SessionManager) (sid : string) (m : SessionManager) : Prop :=
  ∀ sid', sid' ≠ sid → sessions m !! sid' = sessions m0 !! sid'.

Definition only_touches {A : Type} (sid : string) (op : M A) : Prop :=
  ∀ m0, hoare (only m0 sid) op (λ _, only m0 sid) (only m0 sid).

Lemma touch_ret {A : Type} sid (a : A) : only_touches sid (mret a).
Proof. intros m0. by apply hoare_ret. Qed.
Lemma touch_raise {A : Type} sid e : only_touches sid (raise e : M A).
Proof. intros m0. by apply hoare_raise. Qed.
Lemma touch_lift {A : Type} sid (r : sres A) : only_touches sid (lift r).
Proof. intros m0. by apply hoare_lift. Qed.
Lemma touch_bind {A B : Type} sid (op : M A) (f : A → M B) :
  only_touches sid op → (∀ a, only_touches sid (f a)) → only_touches sid (op ≫= f).
Proof. intros Ho Hf m0. eapply hoare_bind; [apply Ho|intros a; apply Hf]. Qed.
Lemma touch_put sid s : only_touches sid (put_session sid s).
Proof. intros m0. apply hoare_modify. intros m Hm sid' Hne. cbn. rewrite lookup_insert_ne by done. by apply Hm. Qed.
Lemma touch_modify sid f : (∀ m, sessions (f m) = sessions m) → only_touches sid (modify f).
Proof. intros Hf m0. apply hoare_modify. intros m Hm sid' Hne. rewrite Hf. by apply Hm. Qed.
Lemma touch_now sid : only_touches sid Now.
Proof. intros m0 m Hm. exact Hm. Qed.
Lemma touch_random sid n : only_touches sid (GenerateRandomHex n).
Proof. intros m0 m Hm. exact Hm. Qed.
End props.

Ltac touch :=
  repeat (cbv zeta;
    match goal with
    | |- only_touches _ (_ ≫= _) => apply touch_bind; [|intros ?]
    | |- only_touches _ (mret _) => apply touch_ret
    | |- only_touches _ (raise _) => apply touch_raise
    | |- only_touches _ (lift _) => apply touch_lift
    | |- only_touches _ (put_session _ _) => apply touch_put
    | |- only_touches _ (modify _) => apply touch_modify; done
    | |- only_touches _ Now => apply touch_now
    | |- only_touches _ (GenerateRandomHex _) => apply touch_random
    | |- only_touches _ (check _ _) => unfold check
    | |- only_touches _ (check_input_schema _ _) => unfold check_input_schema
    | |- only_touches _ (enforce _ _) => unfold enforce, CheckAndEnforceTimeout
    | |- only_touches _ _ => case_match
    end).

Section isolation.
Context `{Server, NJson, Re2, !RandomUnique}.

(** The session a call addresses by its token *)
Definition addressed (c : call) (m : SessionManager) : option string :=
  match c with
  | Create _ _ => None
  | Join invitation _ => invitation_to_session m !! invitation
  | Accept t | Submit t _ | Result t | GetStatus t => participant_to_session m !! t
  end.

(** The calls by participants: authentication, then a body. *)
Lemma authenticated_touch {A : Type} t (body : string * Session * Participant → M A) m :
  Inv m → (∀ sid s p, only_touches sid (body (sid, s, p))) →
  match participant_to_session m !! t with
  | Some sid => only m sid ((Authenticate t ≫= body) m).2
  | None => (Authenticate t ≫= body) m = (Raise denied, m)
  end.
Proof.
  intros Hm Hb. pose proof (Authenticate_run t m Hm) as Ha. rewrite st_bind_eq.
  destruct (participant_to_session m !! t) as [sid|]; [|by rewrite Ha].
  destruct Ha as (s & p & -> & _). pose proof (Hb sid s p m m (λ _ _, eq_refl)) as Hr.
  by destruct (body (sid, s, p) m) as [[]].
Qed.

Lemma JoinSession_touch invitation nonce m :
  Inv m →
  match invitation_to_session m !! invitation with
  | Some sid => only m sid (JoinSession invitation nonce m).2
  | None => JoinSession invitation nonce m = (Raise denied, m)
  end.
Proof.
  intros Hm. unfold JoinSession. rewrite st_bind_eq. cbn [get_state].
  destruct (invitation_to_session m !! invitation) as [sid|] eqn:Hi; [|done].
  apply (inv_invitation m Hm) in Hi as (s & Hs & _). rewrite st_bind_eq.
  unfold find_session. rewrite st_bind_eq. cbn [get_state]. rewrite Hs. cbn [mret ST_ret].
  match goal with |- only m sid (?op m).2 => assert (Ht : only_touches sid op) by touch end.
  specialize (Ht m m (λ _ _, eq_refl)). revert Ht. clear.
  match goal with |- match ?r with _ => _ end → _ => by destruct r as [[]] end.
Qed.

Ltac auth_touch t m Hm Hj :=
  match goal with |- context [(Authenticate t ≫= ?body) m] =>
    assert (Hj := authenticated_touch t body m Hm ltac:(intros ? ? ?; cbv beta iota; touch)) end.

Lemma serve_touch c m m' ts :
  Inv m → (∀ p nonce, c ≠ Create p nonce) → serve c m = (m', ts) →
  match addressed c m with Some sid => only m sid m' | None => m' = m ∧ ts = [] end.
Proof.
  intros Hm Hc. destruct c as [p nonce|invitation nonce|t|t input|t|t]; cbn [serve addressed].
  - by destruct (Hc p nonce).
  - intros [= <- <-]. pose proof (JoinSession_touch invitation nonce m Hm) as Hj. case_match; [done|by rewrite Hj].
  - unfold AcceptPolicy. auth_touch t m Hm Hj. intros [<- <-]%pair_equal_spec. case_match; [done|by rewrite Hj].
  - unfold submit_locked. auth_touch t m Hm Hj.
    destruct (participant_to_session m !! t).
    + match goal with |- context [(?op ≫= ?f) m] => destruct ((op ≫= f) m) as [r m1] end. by intros [= <- <-].
    + rewrite Hj. by intros [= <- <-].
  - unfold GetResult. auth_touch t m Hm Hj. intros [<- <-]%pair_equal_spec. case_match; [done|by rewrite Hj].
  - unfold GetSessionStatus. auth_touch t m Hm Hj. intros [<- <-]%pair_equal_spec. case_match; [done|by rewrite Hj].
Qed.

(** C8: sessions do not interfere. A call other than [CreateSession] changes
    at most the session its token belongs to, and a call with an unknown token
    changes nothing; no participant token or invitation opens two sessions. *)
Theorem sessions_isolated s c m' ts :
  reachable s → (∀ p nonce, c ≠ Create p nonce) → serve c (mgr s) = (m', ts) →
  (∀ sid, addressed c (mgr s) ≠ Some sid → sessions m' !! sid = sessions (mgr s) !! sid) ∧
  (addressed c (mgr s) = None → m' = mgr s ∧ ts = []) ∧
  (∀ sid1 sid2 x1 x2 t, sessions m' !! sid1 = Some x1 → sessions m' !! sid2 = Some x2 →
     t ∈ participant_tokens x1 ∧ t ∈ participant_tokens x2 ∨ invitation_token x1 = invitation_token x2 →
     sid1 = sid2).
Proof.
  intros Hr Hc Hs. pose proof (reachable_SysInv s Hr) as Hsys. pose proof (si_inv _ Hsys) as Hm.
  pose proof (serve_touch c (mgr s) m' ts Hm Hc Hs) as Ht. split; [|split].
  - intros sid Hne. destruct (addressed c (mgr s)) as [sid'|]; [|by destruct Ht as [-> _]]. apply Ht. congruence.
  - intros Hn. by rewrite Hn in Ht.
  - assert (Hm' : Inv m') by (apply (si_inv _ (SysInv_step s _ (step_call s c m' ts Hs) Hsys))).
    intros sid1 sid2 x1 x2 t H1' H2' [[Ht1 Ht2]|He]; [by eapply (participant_unique m')|].
    assert (invitation_to_session m' !! invitation_token x1 = Some sid1) by (apply inv_invitation; eauto).
    assert (invitation_to_session m' !! invitation_token x1 = Some sid2) by (apply inv_invitation; eauto). congruence.
Qed.
End isolation.

Section demo.
#[local] Existing Instance demo_server.
#[local] Existing Instance demo_njson.
#[local] Existing Instance demo_re2.
#[local] Existing Instance demo_unique.

Lemma session_history_witness :
  ∃ x x', sessions (mgr demo_open) !! demo_sid = Some x ∧ sessions (mgr demo_sealed) !! demo_sid = Some x' ∧
    state x = Open ∧ state x' = Sealed ∧ evolves (abs x) (abs x').
Proof.
  destruct (sessions (mgr demo_open) !! demo_sid) as [x|] eqn:Hx; [|vm_compute in Hx; discriminate Hx].
  destruct (sessions (mgr demo_sealed) !! demo_sid) as [x'|] eqn:Hx'; [|vm_compute in Hx'; discriminate Hx'].
  exists x, x'. split; [reflexivity|]. split; [reflexivity|].
  split; [vm_compute in Hx; injection Hx as <-; reflexivity|].
  split; [vm_compute in Hx'; injection Hx' as <-; reflexivity|].
  apply (session_history demo_open demo_sealed demo_sid x x'); [apply demo_open_reachable|apply play_steps|exact Hx|exact Hx'].
Defined.

Lemma result_released_witness :
  ∃ r m' sid x, GetResult demo_joiner (mgr demo_closed) = (Ok r, m') ∧ gr_result_json r = "input" ∧
    sessions (mgr demo_closed) !! sid = Some x ∧ unanimous (abs x).
Proof.
  destruct (GetResult demo_joiner (mgr demo_closed)) as [[r|e] m'] eqn:Hg.
  2:{ assert (Hf : (GetResult demo_joiner (mgr demo_closed)).1 = Raise e) by (rewrite Hg; reflexivity).
      vm_compute in Hf. discriminate Hf. }
  assert (Hr : gr_result_json r = "input").
  { assert (Hf : (GetResult demo_joiner (mgr demo_closed)).1 = Ok r) by (rewrite Hg; reflexivity).
    vm_compute in Hf. injection Hf as <-. reflexivity. }
  destruct (result_released demo_closed demo_joiner r m') as (sid & x & Hx & _ & _ & Hu & _);
    [apply demo_closed_reachable|exact Hg|rewrite Hr; discriminate|].
  exists r, m', sid, x. split; [reflexivity|]. split; [exact Hr|]. split; assumption.
Defined.

Lemma sessions_isolated_witness :
  reachable demo_open ∧ addressed (Accept "nobody") (mgr demo_open) = None ∧
  (serve (Accept "nobody") (mgr demo_open)).1 = mgr demo_open.
Proof.
  split; [apply demo_open_reachable|]. split; [vm_compute; reflexivity|].
  apply (sessions_isolated demo_open (Accept "nobody") _ (serve (Accept "nobody") (mgr demo_open)).2);
    [apply demo_open_reachable|discriminate|exact (surjective_pairing _)|vm_compute; reflexivity].
Defined.
End demo.
