(* ===== verification/Service.v ===== *)
(** [tee/main.cc]: [AgentBrokerServiceImpl], the gRPC service in front of the
    session manager. It gates [CreateSession] with the creator token, translates
    statuses, and delegates.

    The inference engine behind [Echo], the environment and the order in which
    a multimap yields equal keys are parameters. *)

From S2P Require Import Prelude PyText PyValue Rpc Schema Session SessionSteps SessionInv SessionSystem SessionSpec SessionProps SessionDemo.

Open Scope Z_scope.

Abbreviation headers := (list (string * string)).

Class ServiceHost := {
  (** [--creator_token] and [getenv("CREATOR_TOKEN")] *)
  creator_token_flag : string;
  creator_token_env : option string;
  (** [engine_->Generate(prompt)], when a model is loaded: a text, or the text of
      a status *)
  engine : option (string → string + string);
  (** [metadata.find(key)] of a multimap: one of the values under the key *)
  find_header : string → headers → option string;
  (** BoringSSL's comparison in constant time *)
  CRYPTO_memcmp : string → string → nat → Z
}.

(** What [std::multimap::find] and [CRYPTO_memcmp] promise *)
Class ServiceLaws `{ServiceHost} := {
  find_header_spec k md : match find_header k md with
                          | Some v => (k, v) ∈ md
                          | None => ∀ v, (k, v) ∉ md
                          end;
  memcmp_spec a b len : CRYPTO_memcmp a b len = 0 ↔
    take len (String.list_ascii_of_string a) = take len (String.list_ascii_of_string b)
}.

(** ** Statuses *)

Definition AbslToGrpc (c : status_code) : status_code :=
  match c with
  | OK => OK
  | PERMISSION_DENIED => PERMISSION_DENIED
  | FAILED_PRECONDITION => FAILED_PRECONDITION
  | INVALID_ARGUMENT => INVALID_ARGUMENT
  | NOT_FOUND => NOT_FOUND
  | RESOURCE_EXHAUSTED => RESOURCE_EXHAUSTED
  | INTERNAL => INTERNAL
  | _ => UNKNOWN
  end.

Definition to_grpc (e : failure) : failure :=
  match e with Status c msg => Status (AbslToGrpc c) msg | Throw what => Throw what end.

(** [if (!result.ok()) return AbslToGrpc(result.status())] *)
Definition delegate {A : Type} (op : M A) : M A := λ m,
  match op m with
  | (Ok a, m') => (Ok a, m')
  | (Raise e, m') => (Raise (to_grpc e), m')
  end.

(** ** The gate *)

Section service.
Context `{ServiceHost, Server, NJson, Re2}.

Definition CREATOR_HEADER : string := "x-ztab-creator-token".

Definition required_token : string :=
  if String.eqb creator_token_flag "" then default "" creator_token_env else creator_token_flag.

Definition gate_open (md : headers) : bool :=
  if String.eqb required_token "" then true
  else match find_header CREATOR_HEADER md with
       | None => false
       | Some provided =>
           (String.length provided =? String.length required_token)%nat &&
           (CRYPTO_memcmp provided required_token (String.length required_token) =? 0)
       end.

(** ** The handlers *)

Definition service_Echo (message : string) : M string :=
  match engine with
  | Some Generate =>
      match Generate message with
      | inl text => mret text
      | inr status => raise (Status INTERNAL status)
      end
  | None => mret ("Echo: " +:+ message)
  end.

Definition service_CreateSession (md : headers) (p : SessionPolicy) (nonce : string) : M CreateSessionResponse :=
  if gate_open md then delegate (CreateSession p nonce) else raise (Status PERMISSION_DENIED "Invalid token").

(** A request and its response. [SubmitInput] has no response yet when it
    starts a background thread ([None]); that thread's start decides between
    [spawned] and [spawn_failed]. *)
Definition handle (md : headers) (r : rpc_request) : M (option (response r)) :=
  match r with
  | EchoRequest message => x ← service_Echo message; mret (Some x)
  | CreateSessionRequest p nonce => x ← service_CreateSession md p nonce; mret (Some x)
  | JoinSessionRequest invitation role nonce => x ← delegate (JoinSession invitation nonce); mret (Some x)
  | AcceptPolicyRequest t => x ← delegate (AcceptPolicy t); mret (Some x)
  | SubmitInputRequest t input =>
      x ← delegate (submit_locked t input); mret (match x with inl resp => Some resp | inr _ => None end)
  | GetResultRequest t => x ← delegate (GetResult t); mret (Some x)
  | GetSessionStatusRequest t => x ← delegate (GetSessionStatus t); mret (Some x)
  end.

(** The call of the manager a request makes, if any *)
Definition call_of (md : headers) (r : rpc_request) : option call :=
  match r with
  | EchoRequest _ => None
  | CreateSessionRequest p nonce => if gate_open md then Some (Create p nonce) else None
  | JoinSessionRequest invitation _ nonce => Some (Join invitation nonce)
  | AcceptPolicyRequest t => Some (Accept t)
  | SubmitInputRequest t input => Some (Submit t input)
  | GetResultRequest t => Some (Result t)
  | GetSessionStatusRequest t => Some (GetStatus t)
  end.

(** The thread a request starts *)
Definition threads_of (md : headers) (r : rpc_request) (m : SessionManager) : list task :=
  match call_of md r with Some c => (serve c m).2 | None => [] end.

(** What a client may get in reply to a request *)
Definition replies (s : system) (md : headers) (r : rpc_request) (resp : response r) : Prop :=
  (∃ m', handle md r (mgr s) = (Ok (Some resp), m')) ∨
  match r return response r → Prop with
  | SubmitInputRequest t input => λ x, x = spawned ∧ ∃ m', handle md (SubmitInputRequest t input) (mgr s) = (Ok None, m')
  | _ => λ _, False
  end resp.

(** ** Runs of the service *)

(** The requests served so far, and the state they and the background threads
    led to *)
Inductive served : list (headers * rpc_request) → system → Prop :=
| served_init : served [] init_system
| served_request log s md r reply m' :
    served log s → handle md r (mgr s) = (reply, m') →
    served (log ++ [(md, r)]) (System m' (tasks s ++ threads_of md r (mgr s)))
| served_task log s l1 t l2 t' m' :
    served log s → tasks s = l1 ++ t :: l2 → run_task (mgr s) t t' m' →
    served log (System m' (l1 ++ settle t' ++ l2)).

Lemma delegate_state {A : Type} (op : M A) m : (delegate op m).2 = (op m).2.
Proof. unfold delegate. by destruct (op m) as [[]]. Qed.

(** The service changes the manager's state by that call only. *)
Lemma handle_state md r m :
  (handle md r m).2 = match call_of md r with Some c => (serve c m).1 | None => m end.
Proof.
  assert (Hd : ∀ A B (op : M A) (f : A → B), ((x ← delegate op; mret (f x)) m).2 = (op m).2).
  { intros A B op f. rewrite <- (delegate_state op), st_bind_eq. by destruct (delegate op m) as [[]]. }
  destruct r as [message|p nonce|inv role nonce|t|t input|t|t]; cbn [handle call_of]; try apply Hd.
  - unfold service_Echo. destruct engine as [g|]; [|done]. by destruct (g message).
  - unfold service_CreateSession. destruct (gate_open md); [apply Hd|done].
  - rewrite Hd. cbn [serve]. by destruct (submit_locked t input m).
Qed.

Lemma served_reachable log s : served log s → reachable s.
Proof.
  induction 1 as [|log s md r reply m' _ IH Hh|log s l1 t l2 t' m' _ IH Ht Hr].
  - apply rtc_refl.
  - pose proof (handle_state md r (mgr s)) as Hs. rewrite Hh in Hs. cbn [snd] in Hs. subst m'.
    unfold threads_of. destruct (call_of md r) as [c|].
    + eapply rtc_r; [exact IH|]. apply (step_call s c). by destruct (serve c (mgr s)).
    + rewrite app_nil_r. by destruct s.
  - eapply rtc_r; [exact IH|]. by eapply step_task.
Qed.

(** ** What the gate admits *)

Lemma length_chars s : length (String.list_ascii_of_string s) = String.length s.
Proof. induction s as [|c s IH]; [done|]. cbn. by rewrite IH. Qed.

(** The comparison in constant time is equality. *)
Lemma compare_equal `{!ServiceLaws} provided required :
  (String.length provided =? String.length required)%nat &&
  (CRYPTO_memcmp provided required (String.length required) =? 0) = true ↔ provided = required.
Proof.
  rewrite andb_true_iff, Nat.eqb_eq, Z.eqb_eq, memcmp_spec. split; [|by intros ->].
  intros [Hl Hc]. rewrite <- Hl in Hc at 1. rewrite <- (length_chars provided), <- (length_chars required), !firstn_all in Hc.
  by rewrite <- (String.string_of_list_ascii_of_string provided), Hc, String.string_of_list_ascii_of_string.
Qed.

Lemma gate_admits `{!ServiceLaws} md :
  required_token ≠ "" → gate_open md = true → (CREATOR_HEADER, required_token) ∈ md.
Proof.
  intros Hne. unfold gate_open. rewrite (proj2 (String.eqb_neq _ _) Hne).
  pose proof (find_header_spec CREATOR_HEADER md) as Hf. destruct (find_header CREATOR_HEADER md) as [v|]; [|done].
  by intros ->%compare_equal.
Qed.

(** A client that sends the token once passes. *)
Lemma gate_passes `{!ServiceLaws} md :
  (∀ v, (CREATOR_HEADER, v) ∈ md ↔ v = required_token) → gate_open md = true.
Proof.
  intros Hmd. unfold gate_open. destruct (String.eqb required_token ""); [done|].
  pose proof (find_header_spec CREATOR_HEADER md) as Hf. destruct (find_header CREATOR_HEADER md) as [v|].
  - apply compare_equal. by apply Hmd.
  - destruct (Hf required_token). by apply Hmd.
Qed.
End service.

(** ** Where sessions come from *)

Section origin.
Context `{ServiceHost, !ServiceLaws, Server, NJson, Re2, !RandomUnique}.
Variable P : SessionPolicy → Prop.

(** Every session was asked for in a request that satisfies [P]: its policy is
    the one requested, with the schemas of its class and its timeout resolved. *)
Definition origin (m : SessionManager) : Prop :=
  ∀ sid x, sessions m !! sid = Some x → ∃ p def, P p ∧ policies !! policy_class p = Some def ∧
    policy x = normalized (default_input_schema_json def) (default_output_schema_json def) p.

Lemma origin_sessions m m' : sessions m' = sessions m → origin m → origin m'.
Proof. unfold origin. by intros ->. Qed.

Lemma origin_put sid s s' m :
  sessions m !! sid = Some s → policy s' = policy s → origin m → origin (set_sessions (<[sid := s']> (sessions m)) m).
Proof.
  intros Hs Hp Ho sid' x. cbn. intros [[<- <-]|[_ Hx]]%lookup_insert_Some; [|by eapply Ho]. rewrite Hp. by eapply Ho.
Qed.

Lemma origin_now : hoare origin Now (λ _, origin) origin.
Proof. intros m Hm. by apply (origin_sessions m). Qed.

Lemma origin_random n : hoare origin (GenerateRandomHex n) (λ _, origin) origin.
Proof. intros m Hm. by apply (origin_sessions m). Qed.

Lemma enforce_policy sid s m :
  sessions m !! sid = Some s → origin m →
  ∃ s' m', enforce sid s m = (Ok s', m') ∧ origin m'.
Proof.
  intros Hs Hm. destruct (enforce_run sid s m Hs) as (s' & m' & He & Henf & Hss & _). exists s', m'. split; [done|].
  apply (origin_sessions (set_sessions (<[sid := s']> (sessions m)) m)); [exact Hss|].
  apply (origin_put sid s); [done| |done]. by destruct Henf as [->|(_ & ? & ? & ? & _ & ->)].
Qed.

Lemma origin_sweep_one at_ sid : hoare origin (sweep_one at_ sid) (λ _, origin) origin.
Proof.
  intros m Hm. unfold sweep_one. rewrite st_bind_eq. cbn [get_state].
  destruct (sessions m !! sid) as [s|] eqn:Hs; [|done].
  destruct (enforce_policy sid s m Hs Hm) as (s' & m' & He & Hm'). rewrite (st_bind_run _ _ _ _ _ He).
  destruct (should_erase at_ s'); [|done]. unfold erase_session. cbn. intros sid' x; cbn; intros [_ Hx]%lookup_delete_Some. by eapply Hm'.
Qed.

Lemma origin_sweep_all at_ sids : hoare origin (sweep_all at_ sids) (λ _, origin) origin.
Proof.
  induction sids as [|sid sids IH]; [by apply hoare_ret|].
  eapply hoare_bind; [apply origin_sweep_one|]. intros ?. exact IH.
Qed.

Lemma origin_sweep : hoare origin SweepTerminalSessions (λ _, origin) origin.
Proof.
  eapply hoare_bind; [apply origin_now|]. intros t. eapply hoare_bind; [by apply (hoare_get origin (λ _, origin))|].
  intros m1. apply origin_sweep_all.
Qed.

Lemma origin_keep {A : Type} (op : M A) : (∀ m, sessions (op m).2 = sessions m) → hoare origin op (λ _, origin) origin.
Proof. intros Ho m Hm. specialize (Ho m). destruct (op m) as [[a|e] m']; by apply (origin_sessions m). Qed.

Lemma replay_same p nonce m : (replay_create p nonce m).2 = m.
Proof. destruct (replay_create_run p nonce m) as (r & -> & _). done. Qed.

Lemma origin_create p nonce : P p → hoare origin (CreateSession p nonce) (λ _, origin) origin.
Proof.
  intros Hp. assert (Hck : ∀ b e, hoare origin (check b e) (λ _, origin) origin) by (intros [] e m Hm; exact Hm).
  unfold CreateSession. eapply hoare_bind; [apply origin_sweep|]; intros ?.
  eapply hoare_bind; [by apply (hoare_get origin (λ _, origin))|]; intros m1.
  eapply hoare_bind; [apply Hck|]; intros ?. destruct (policies !! policy_class p) as [def|] eqn:Hdef; [|by apply hoare_raise].
  do 3 (eapply hoare_bind; [apply Hck|]; intros ?).
  do 2 (eapply hoare_bind; [apply origin_keep; intros m; unfold check_schema; by repeat case_match|]; intros ?).
  eapply hoare_bind; [apply origin_keep; intros m; by rewrite replay_same|]. intros [resp|]; [by apply hoare_ret|].
  do 3 (eapply hoare_bind; [apply origin_random|]; intros ?). eapply hoare_bind; [apply origin_now|]; intros t.
  eapply hoare_bind; [apply (hoare_modify origin _ (λ _, origin))|intros ?; by apply hoare_ret].
  intros m Hm sid x. cbn. intros [[<- <-]|[_ Hx]]%lookup_insert_Some; [|by eapply Hm]. by exists p, def.
Qed.

(** Other calls create nothing and keep policies. *)
Lemma origin_call s c m' ts :
  SysInv s → (∀ p nonce, c ≠ Create p nonce) → serve c (mgr s) = (m', ts) → origin (mgr s) → origin m'.
Proof.
  intros Hs Hc Hserve Ho sid x Hx. pose proof (si_inv _ Hs) as Hm.
  destruct (sessions (mgr s) !! sid) as [y|] eqn:Hy.
  - destruct (Ho sid y Hy) as (p & def & Hp & Hdef & Hpol). exists p, def. split; [done|]. split; [done|].
    assert (He : evolves (abs y) (abs x)).
    { apply (changes_evolve (mgr s) m' sid); [done| |unfold view_of; by rewrite Hy|unfold view_of; by rewrite Hx].
      exact (step_changes s (System m' (tasks s ++ ts)) (step_call s c m' ts Hserve) Hs). }
    rewrite <- Hpol. exact (e_policy _ _ He).
  - pose proof (serve_touch c (mgr s) m' ts Hm Hc Hserve) as Ht.
    destruct (addressed c (mgr s)) as [sid'|] eqn:Ha; [|destruct Ht as [-> _]; congruence].
    destruct (decide (sid = sid')) as [->|Hne]; [|rewrite (Ht sid Hne) in Hx; congruence]. exfalso.
    destruct c as [p nonce|inv nonce|t|t i|t|t]; [done| | | | |]; cbn in Ha.
    + apply (inv_invitation _ Hm) in Ha as (z & Hz & _). congruence.
    + pose proof (Authenticate_run t (mgr s) Hm) as Hau. rewrite Ha in Hau. destruct Hau as (z & q & _ & Hz & _). congruence.
    + pose proof (Authenticate_run t (mgr s) Hm) as Hau. rewrite Ha in Hau. destruct Hau as (z & q & _ & Hz & _). congruence.
    + pose proof (Authenticate_run t (mgr s) Hm) as Hau. rewrite Ha in Hau. destruct Hau as (z & q & _ & Hz & _). congruence.
    + pose proof (Authenticate_run t (mgr s) Hm) as Hau. rewrite Ha in Hau. destruct Hau as (z & q & _ & Hz & _). congruence.
Qed.

(** Neither do background threads. *)
Lemma origin_task m t t' m' : run_task m t t' m' → origin m → origin m'.
Proof.
  intros [sid|sid what|sid prompt schema m1 Hp|sid m1 Hp|sid prompt schema eng outs out _ _|sid out|] Ho; try done.
  - rewrite spawn_failed_run. destruct (sessions m !! sid) as [s|] eqn:Hs; [|by apply (origin_sessions m)].
    apply (origin_put sid s); [done|done|by apply (origin_sessions m)].
  - rewrite prepare_run in Hp. repeat case_match; simplify_eq. by apply (origin_sessions m).
  - rewrite prepare_run in Hp. repeat case_match; simplify_eq; done.
  - rewrite write_result_run. destruct (sessions m !! sid) as [s|] eqn:Hs; [|done]. case_bool_decide; [|done].
    apply (origin_put sid s); [done|by destruct out|by apply (origin_sessions m)].
Qed.
End origin.

(** *** The theorem *)

Section gated.
Context `{ServiceHost, !ServiceLaws, Server, NJson, Re2, !RandomUnique}.

Definition requested (log : list (headers * rpc_request)) (p : SessionPolicy) : Prop :=
  ∃ md nonce, (md, CreateSessionRequest p nonce) ∈ log ∧ gate_open md = true.

Lemma origin_weaken (P Q : SessionPolicy → Prop) m : (∀ p, P p → Q p) → origin P m → origin Q m.
Proof. intros HPQ Ho sid x Hx. destruct (Ho sid x Hx) as (p & def & Hp & ?). exists p, def. auto. Qed.

Lemma served_origin log s : served log s → origin (requested log) (mgr s).
Proof.
  induction 1 as [|log s md r reply m' Hsv IH Hh|log s l1 t l2 t' m' _ IH Ht Hr]; cbn [mgr].
  - intros sid x Hx. cbn in Hx. by rewrite lookup_empty in Hx.
  - apply (origin_weaken _ (requested (log ++ [(md, r)]))) in IH.
    2: { intros p (md' & nonce & Hin & Hg). exists md', nonce. split; [|done]. apply elem_of_app. by left. }
    pose proof (handle_state md r (mgr s)) as Hs. rewrite Hh in Hs. cbn [snd] in Hs. subst m'.
    pose proof (reachable_SysInv s (served_reachable log s Hsv)) as Hinv.
    destruct (call_of md r) as [c|] eqn:Hc; [|done]. destruct (serve c (mgr s)) as [m1 ts] eqn:Hserve. cbn [fst].
    assert (Hother : (∀ p nonce, c ≠ Create p nonce) → origin (requested (log ++ [(md, r)])) m1)
      by (intros Hne; by eapply origin_call).
    destruct r as [|p nonce| | | | |]; cbn in Hc; [done| |apply Hother; injection Hc as <-; discriminate..].
    destruct (gate_open md) eqn:Hg; [|done]. injection Hc as <-. cbn in Hserve. injection Hserve as <- _.
    assert (Hp : requested (log ++ [(md, CreateSessionRequest p nonce)]) p).
    { exists md, nonce. split; [|done]. apply elem_of_app. right. by left. }
    pose proof (origin_create _ p nonce Hp (mgr s) IH) as Ho. by destruct (CreateSession p nonce (mgr s)) as [[]].
  - by eapply origin_task.
Qed.

(** C7: sessions exist only where the operator admitted them. While a creator
    token is required, however the service has been used, every session's policy
    is that of an earlier [CreateSession] request whose header carried exactly
    the token, for a registered policy class with that class's schemas; and a
    creation request without the token is answered with PERMISSION_DENIED and
    changes nothing. *)
Theorem creation_gated log s :
  required_token ≠ "" → served log s →
  (∀ sid x, sessions (mgr s) !! sid = Some x →
     ∃ md p nonce def, (md, CreateSessionRequest p nonce) ∈ log ∧ (CREATOR_HEADER, required_token) ∈ md ∧
       policies !! policy_class p = Some def ∧
       policy x = normalized (default_input_schema_json def) (default_output_schema_json def) p) ∧
  (∀ md p nonce, (CREATOR_HEADER, required_token) ∉ md →
     handle md (CreateSessionRequest p nonce) (mgr s) = (Raise (Status PERMISSION_DENIED "Invalid token"), mgr s)).
Proof.
  intros Hne Hsv. split.
  - intros sid x Hx. destruct (served_origin log s Hsv sid x Hx) as (p & def & (md & nonce & Hin & Hg) & Hdef & Hp).
    exists md, p, nonce, def. split; [done|]. split; [by apply gate_admits|done].
  - intros md p nonce Hn. cbn [handle]. unfold service_CreateSession.
    destruct (gate_open md) eqn:Hg; [|done]. destruct Hn. by apply gate_admits.
Qed.
End gated.

(** ** A concrete service *)

Section demo.
#[local] Existing Instance demo_server.
#[local] Existing Instance demo_njson.
#[local] Existing Instance demo_re2.
#[local] Existing Instance demo_unique.

(** The token comes from the environment; the first header counts. *)
#[local] Instance demo_service : ServiceHost := {|
  creator_token_flag := ""; creator_token_env := Some "s3cret"; engine := None;
  find_header k md := snd <$> List.find (λ h, String.eqb h.1 k) md;
  CRYPTO_memcmp a b n :=
    if decide (take n (String.list_ascii_of_string a) = take n (String.list_ascii_of_string b)) then 0 else 1 |}.

#[local] Instance demo_service_laws : ServiceLaws.
Proof.
  split; [|intros a b n; cbn; case_decide; split; done].
  intros k md. cbn. destruct (List.find _ md) as [[k' v]|] eqn:Hf; cbn.
  - apply List.find_some in Hf as [Hin He]. cbn in He. apply String.eqb_eq in He as ->. by apply list_elem_of_In.
  - intros v Hin%list_elem_of_In. apply (List.find_none _ _ Hf) in Hin. cbn in Hin. by rewrite String.eqb_refl in Hin.
Defined.

Definition demo_log : list (headers * rpc_request) :=
  [([("user-agent", "x"); (CREATOR_HEADER, "s3cret")], CreateSessionRequest demo_request "")].

Lemma creation_gated_witness :
  ∃ s x md p nonce, served demo_log s ∧ sessions (mgr s) !! demo_sid = Some x ∧
    (md, CreateSessionRequest p nonce) ∈ demo_log ∧ policy_class (policy x) = policy_class p ∧
    handle [] (CreateSessionRequest demo_request "") (mgr s) = (Raise (Status PERMISSION_DENIED "Invalid token"), mgr s).
Proof.
  pose (md := [("user-agent", "x"); (CREATOR_HEADER, "s3cret")]).
  pose (s := System (handle md (CreateSessionRequest demo_request "") (mgr init_system)).2
    (tasks init_system ++ threads_of md (CreateSessionRequest demo_request "") (mgr init_system))).
  assert (Hs : served ([] ++ demo_log) s).
  { eapply (served_request [] init_system md (CreateSessionRequest demo_request "")
      (handle md (CreateSessionRequest demo_request "") (mgr init_system)).1); [constructor|apply surjective_pairing]. }
  assert (Hne : required_token ≠ "") by discriminate.
  destruct (creation_gated ([] ++ demo_log) s Hne Hs) as [Hsess Hden].
  destruct (sessions (mgr s) !! demo_sid) as [x|] eqn:Hx.
  2: { assert (Hf : is_Some (sessions (mgr s) !! demo_sid)) by (vm_compute; eauto). rewrite Hx in Hf. by destruct Hf. }
  destruct (Hsess demo_sid x Hx) as (md' & p & nonce & def & Hin & _ & _ & Hp).
  exists s, x, md', p, nonce. split; [exact Hs|]. split; [exact Hx|]. split; [exact Hin|]. split; [by rewrite Hp|].
  apply Hden. by intros ?%elem_of_nil.
Defined.
End demo.
