(* ===== verification/SessionLive.v ===== *)
(** Progress of the server: background threads finish, no session calculates
    for ever, and stalled sessions make room for new ones. *)

From stdpp Require Import sorting.
From S2P Require Import Prelude PyText PyValue Rpc Schema Session SessionSteps SessionInv SessionSystem SessionSpec SessionProps SessionDemo.

Open Scope Z_scope.

Section live.
Context `{Server, NJson, Re2, !RandomUnique}.

(** ** Threads *)

(** How many steps a thread has left *)
Definition weight (t : task) : nat :=
  match t with Spawning _ => 5 | Started _ => 4 | Running _ _ _ => 3 | Writing _ _ => 2 | Leaving => 1 end.

Definition weights (ts : list task) : nat := sum_list_with weight ts.

Lemma run_task_weight m t t' m' : run_task m t t' m' → (weights (settle t') < weight t)%nat.
Proof. destruct 1; cbn; lia. Qed.

Lemma weights_le ts : (weights ts <= 5 * length ts)%nat.
Proof. induction ts as [|t ts IH]; cbn; [lia|]. unfold weights in IH. destruct t; cbn; lia. Qed.

(** The schema is empty or a document the validator reads without throwing, and
    the texts are of a size it can count. *)
Definition readable (schema : string) (outcomes : list (result string string)) : Prop :=
  schema = "" ∨
  (∃ j S, njson_parse kMaxJsonParseDepth schema = inr j ∧ schema_of j = Some S) ∧
  ∀ text v, Ok text ∈ outcomes →
    njson_parse kMaxJsonParseDepth (StripMarkdownCodeFences text) = inr v → json_size v < 2 ^ 31.

Lemma validate_no_throw text schema j S :
  njson_parse kMaxJsonParseDepth schema = inr j → schema_of j = Some S →
  (∀ v, njson_parse kMaxJsonParseDepth text = inr v → json_size v < 2 ^ 31) →
  ∀ what, ValidateJsonSchema text schema ≠ Raise (Throw what).
Proof.
  intros Hj HS Hsz what. unfold ValidateJsonSchema, ParseJsonSafely. rewrite Hj.
  destruct (njson_parse kMaxJsonParseDepth text) as [msg|v] eqn:Hv; [done|]. rewrite !ret_bind.
  destruct (proj1 (ValidateNode_validates j) S HS v (Hsz v eq_refl)) as [[-> _]|(m & -> & _)]; done.
Qed.

Lemma attempts_total n schema outcomes : readable schema outcomes → ∃ r, attempts n schema outcomes = Ok r.
Proof.
  revert outcomes. induction n as [|n IH]; intros outcomes Hr; [by exists None|].
  destruct outcomes as [|[text|msg] rest]; cbn [attempts]; [by exists None| |].
  - destruct (String.eqb_spec schema ""); [eauto|].
    destruct Hr as [?|[(j & S & Hj & HS) Hsz]]; [done|].
    pose proof (validate_no_throw (StripMarkdownCodeFences text) schema j S Hj HS
      ltac:(intros v; apply (Hsz text v); apply list_elem_of_here)) as Hn.
    destruct (ValidateJsonSchema _ _) as [[]|[code m|what]]; [eauto| |by destruct (Hn what)].
    apply IH. right. split; [eauto|]. intros text' v Hin. apply Hsz. by right.
  - apply IH. destruct Hr as [?|[? Hsz]]; [by left|right]. split; [done|]. intros text' v Hin. apply Hsz. by right.
Qed.

Lemma generate_total engine schema outcomes : readable schema outcomes → ∃ o, generate engine schema outcomes = Ok o.
Proof.
  intros Hr. unfold generate. destruct engine; [|eauto]. cbn [negb].
  destruct (attempts_total kMaxLlmRetries schema outcomes Hr) as [r ->]. eauto.
Qed.

(** *** Threads of a given server *)

Section driven.
(** Whether there is an inference engine, and what it answers to a prompt, once
    for each attempt *)
Variables (engine : bool) (answers : string → list (result string string)).
Hypothesis Hanswers : ∀ prompt, length (answers prompt) = kMaxLlmRetries.

(** A step of one background thread; at the model, with that engine's answers *)
Definition driven_task (m : SessionManager) (t : task) (t' : option task) (m' : SessionManager) : Prop :=
  run_task m t t' m' ∧
  match t, t' with
  | Running _ prompt schema, Some (Writing _ outcome) => generate engine schema (answers prompt) = Ok outcome
  | _, _ => True
  end.

Definition driven (s s' : system) : Prop :=
  ∃ l1 t l2 t' m', tasks s = l1 ++ t :: l2 ∧ driven_task (mgr s) t t' m' ∧ s' = System m' (l1 ++ settle t' ++ l2).

(** The validator throws on the schema or on an answer: the process ends. *)
Definition thrown (t : task) : Prop :=
  match t with
  | Running _ prompt schema => ∃ e, generate engine schema (answers prompt) = Raise e
  | _ => False
  end.

Lemma driven_step s s' : driven s s' → step s s'.
Proof. intros (l1 & t & l2 & t' & m' & Ht & [Hr _] & ->). by eapply step_task. Qed.

Lemma driven_reachable s s' : reachable s → rtc driven s s' → reachable s'.
Proof. intros Hr Hs. unfold reachable in *. etrans; [exact Hr|]. eapply rtc_subrel; [|exact Hs]. apply driven_step. Qed.

Lemma driven_weight s s' : driven s s' → (weights (tasks s') < weights (tasks s))%nat.
Proof.
  intros (l1 & t & l2 & t' & m' & -> & [Hr _] & ->). apply run_task_weight in Hr. unfold weights in *. cbn.
  rewrite !sum_list_with_app. cbn. lia.
Qed.

Lemma driven_weights n s s' : nsteps driven n s s' → (n + weights (tasks s') <= weights (tasks s))%nat.
Proof. induction 1 as [|n s s1 s2 Hst _ IH]; [done|]. apply driven_weight in Hst. lia. Qed.

Lemma driven_task_progress m t : (∃ t' m', driven_task m t t' m') ∨ thrown t.
Proof.
  destruct t as [sid|sid|sid prompt schema|sid out|].
  - left. do 2 eexists. split; [apply run_spawn|done].
  - left. destruct (prepare sid m) as [r m'] eqn:Hp. pose proof Hp as Hp'. rewrite prepare_run in Hp'.
    destruct (sessions m !! sid); [case_bool_decide|]; injection Hp' as <- <-;
      do 2 eexists; (split; [first [apply run_prepare; exact Hp|apply run_skip; exact Hp]|done]).
  - destruct (generate engine schema (answers prompt)) as [o|e] eqn:Hg; [left|right; by exists e].
    do 2 eexists. split; [by eapply run_generate|done].
  - left. do 2 eexists. split; [apply run_write|done].
  - left. do 2 eexists. split; [apply run_leave|done].
Qed.

Lemma driven_progress s : (∃ s', driven s s') ∨ Forall thrown (tasks s).
Proof.
  enough (Hgo : ∀ l2 l1, tasks s = l1 ++ l2 → (∃ s', driven s s') ∨ Forall thrown l2) by (by apply (Hgo (tasks s) [])).
  induction l2 as [|t l2 IH]; intros l1 Hl; [right; constructor|].
  destruct (driven_task_progress (mgr s) t) as [(t' & m' & Hrun)|Ht].
  { left. eexists. exists l1, t, l2, t', m'. eauto. }
  destruct (IH (l1 ++ [t])) as [?|?]; [by rewrite <- app_assoc|by left|right; by constructor].
Qed.

Lemma readable_runs sid prompt schema : readable schema (answers prompt) → ¬ thrown (Running sid prompt schema).
Proof. intros Hr [e He]. destruct (generate_total engine schema (answers prompt) Hr) as [o Ho]. congruence. Qed.

(** C18: background threads finish and no session calculates for ever. Fix an
    engine (or none) and its answers. From every reachable state, in whatever
    order the threads take their turns and whichever of them fail to start, they
    take a bounded number of steps together. As long as one is left, one of them
    can go on, unless all are at the model with an output schema or an answer on
    which the validator throws, which ends the process. If the schemas of those
    at the model are ones the validator reads, the threads therefore stop only
    when none is left, and then the destructor's counter is zero and no session
    is calculating. *)
Theorem threads_finish s :
  reachable s →
  (∀ n s', nsteps driven n s s' → (n <= 5 * length (tasks s))%nat) ∧
  (∀ s', rtc driven s s' → (∃ s'', driven s' s'') ∨ Forall thrown (tasks s')) ∧
  (∀ s', rtc driven s s' → ¬ (∃ s'', driven s' s'') →
     (∀ sid prompt schema, Running sid prompt schema ∈ tasks s' → readable schema (answers prompt)) →
     tasks s' = [] ∧ active_async_threads (mgr s') = 0 ∧
     ∀ sid x, sessions (mgr s') !! sid = Some x → state x ≠ Calculating).
Proof.
  intros Hr. split; [|split].
  - intros n s' Hn%driven_weights. pose proof (weights_le (tasks s)). lia.
  - intros s' _. apply driven_progress.
  - intros s' Hs Hstop Hread. pose proof (reachable_SysInv s' (driven_reachable s s' Hr Hs)) as Hsys.
    assert (He : tasks s' = []).
    { destruct (driven_progress s') as [?|Hall]; [done|]. destruct (tasks s') as [|t ts]; [done|].
      apply Forall_cons in Hall as [Ht _]. destruct t as [| |sid prompt schema| |]; try done.
      exfalso. exact (readable_runs sid prompt schema (Hread sid prompt schema (list_elem_of_here _ _)) Ht). }
    split; [done|]. split; [by rewrite (si_threads s' Hsys), He|]. intros sid x Hx Hc.
    apply (si_calculating s' Hsys) in Hx; [|done]. rewrite He in Hx. by apply elem_of_nil in Hx.
Qed.
End driven.

(** ** The order of the prompt *)

(** The participants in the order in which they joined *)
Definition in_join_order (s : Session) : list Participant := omap (λ t, participants s !! t) (participant_tokens s).

Definition with_token (s : Session) (t : string) : option (string * Participant) := pair t <$> participants s !! t.

Lemma with_token_fst s ts :
  Forall (λ t, is_Some (participants s !! t)) ts → (omap (with_token s) ts).*1 = ts.
Proof.
  induction 1 as [|t ts [p Hp] _ IH]; [done|]. cbn. unfold with_token at 1. rewrite Hp. cbn. by f_equal.
Qed.

Lemma sorted_suffix s rest k :
  (∀ i t p, rest !! i = Some t → participants s !! t = Some p → join_index p = k + Z.of_nat i) →
  StronglySorted join_le (omap (with_token s) rest).
Proof.
  revert k. induction rest as [|t rest IH]; intros k Hk; [constructor|].
  assert (Hrest : StronglySorted join_le (omap (with_token s) rest)).
  { apply (IH (k + 1)). intros i t' p Hi Hp. rewrite (Hk (S i) t' p Hi Hp). lia. }
  cbn. unfold with_token at 1. destruct (participants s !! t) as [p|] eqn:Hp; [|done]. cbn.
  constructor; [done|]. apply Forall_forall. intros [t' p'] (x & Hx & Hf)%list_elem_of_omap.
  unfold with_token in Hf. destruct (participants s !! x) as [q|] eqn:Hq; [|done]. injection Hf as <- <-.
  apply list_elem_of_lookup in Hx as [i Hi]. unfold join_le. cbn.
  rewrite (Hk 0%nat t p eq_refl Hp), (Hk (S i) x q Hi Hq). lia.
Qed.

#[local] Instance join_le_total : Total join_le.
Proof. intros a b. unfold join_le. lia. Qed.
#[local] Instance join_le_trans : Transitive join_le.
Proof. intros a b c. unfold join_le. lia. Qed.

(** Sorting any listing of the map by the join index gives the join order. *)
Lemma sort_join_order s order :
  session_ok s → order ≡ₚ map_to_list (participants s) → merge_sort join_le order = omap (with_token s) (participant_tokens s).
Proof.
  intros Hok Hord.
  assert (Hidx : ∀ i t p, participant_tokens s !! i = Some t → participants s !! t = Some p → join_index p = Z.of_nat i).
  { intros i t p Hi Hp. destruct (so_join s Hok t p Hp) as (_ & H0' & Hj).
    pose proof (NoDup_lookup _ _ _ _ (so_tokens s Hok) Hi Hj). lia. }
  assert (Hmem : ∀ t p, (t, p) ∈ omap (with_token s) (participant_tokens s) ↔ participants s !! t = Some p).
  { intros t p. rewrite list_elem_of_omap. unfold with_token. split.
    - intros (x & _ & Hx). destruct (participants s !! x) eqn:Hp; [|done]. by injection Hx as <- <-.
    - intros Hp. exists t. rewrite Hp. split; [|done]. apply (so_dom s Hok). eauto. }
  apply (StronglySorted_unique_strong join_le).
  - intros [t p] [t' p'] Hin Hin' Hle Hle'. rewrite merge_sort_Permutation, Hord, elem_of_map_to_list in Hin.
    apply Hmem in Hin'. destruct (so_join s Hok t p Hin) as (_ & _ & Hj). destruct (so_join s Hok t' p' Hin') as (_ & _ & Hj').
    unfold join_le in *. cbn in *. assert (He : join_index p = join_index p') by lia. rewrite He in Hj. simplify_eq. congruence.
  - apply StronglySorted_merge_sort; apply _.
  - apply (sorted_suffix s _ 0). intros i t p Hi Hp. by rewrite (Hidx i t p Hi Hp).
  - rewrite merge_sort_Permutation, Hord. apply NoDup_Permutation.
    + apply NoDup_map_to_list.
    + apply (NoDup_fmap_1 fst). rewrite with_token_fst; [apply (so_tokens s Hok)|].
      apply Forall_forall. intros t. apply (so_dom s Hok).
    + intros [t p]. by rewrite Hmem, elem_of_map_to_list.
Qed.

Lemma in_join_order_snd s : (omap (with_token s) (participant_tokens s)).*2 = in_join_order s.
Proof.
  unfold in_join_order. induction (participant_tokens s) as [|t ts IH]; [done|]. cbn. unfold with_token at 1.
  destruct (participants s !! t); cbn; [by f_equal|done].
Qed.

Lemma join_order_tokens s ts :
  Forall (λ t, ∃ p, participants s !! t = Some p ∧ token p = t) ts →
  token <$> omap (λ t, participants s !! t) ts = ts.
Proof. induction 1 as [|t ts (p & Hp & Ht) _ IH]; [done|]. cbn. rewrite Hp. cbn. by rewrite Ht, IH. Qed.

(** C23: the prompt is deterministic. In a reachable state, whatever the order
    in which the hash map lists the participants, the prompt handed to the model
    is the template with the number of participants and, in the order in which
    they joined, the inputs of all of them. *)
Theorem prompt_in_join_order s sid x order suffix :
  reachable s → sessions (mgr s) !! sid = Some x → order ≡ₚ map_to_list (participants x) →
  token <$> in_join_order x = participant_tokens x ∧
  build_prompt x order suffix =
  StrReplaceAll (prompt_template (policy_def x))
    [("{num_participants}", pretty (N.of_nat (length (participant_tokens x))));
     ("{inputs}", inputs_block suffix (in_join_order x))].
Proof.
  intros Hr Hx Hord. pose proof (inv_session _ (si_inv _ (reachable_SysInv s Hr)) _ _ Hx) as Hok. split.
  - apply join_order_tokens, Forall_forall. intros t [p Hp]%(so_dom x Hok). exists p. split; [done|].
    by apply (so_join x Hok).
  - unfold build_prompt, sorted_participants. rewrite (sort_join_order x order Hok Hord), in_join_order_snd.
    by rewrite (so_size x Hok).
Qed.

(** ** Bounds *)

Lemma pendings_length ts : (length (pendings ts) <= length ts)%nat.
Proof. induction ts as [|t ts IH]; [done|]. cbn. rewrite length_app. unfold pendings in IH. destruct t; cbn in *; lia. Qed.

(** A session that a status call reports as waiting has not waited too long. *)
Lemma status_in_time m t r m' :
  Inv m → GetSessionStatus t m = (Ok r, m') → st_state r = state_number Open ∨ st_state r = state_number Sealed →
  ∃ sid x, sessions m !! sid = Some x ∧ t ∈ participant_tokens x ∧ state_number (state x) = st_state r ∧
    now (ticks m) - state_entered_at x <= Z.min (timeout x) (Seconds 600).
Proof.
  intros Hm Hg Hw. pose proof (Authenticate_run t m Hm) as Ha. unfold GetSessionStatus in Hg. rewrite st_bind_eq in Hg.
  destruct (participant_to_session m !! t) as [sid|]; [|by rewrite Ha in Hg].
  destruct Ha as (x & p & Ha & Hx & _ & Ht). rewrite Ha in Hg.
  destruct (enforce_run sid x m Hx) as (x' & m1 & He & Henf & _ & _ & Hlate).
  rewrite (st_bind_run _ _ _ _ _ He) in Hg. injection Hg as <- <-. cbn [st_state] in *.
  assert (Hst : state x' = Open ∨ state x' = Sealed) by (destruct Hw as [Hw|Hw]; destruct (state x'); auto; discriminate Hw).
  destruct Henf as [->|(_ & ? & ? & ? & _ & ->)]; [|by destruct Hst].
  exists sid, x. split; [done|]. split; [done|]. split; [done|]. apply Z.nlt_ge. intros Hlt.
  destruct Hlate as [Hab _]; [by destruct Hst as [-> | ->]| |by rewrite Hab in Hst; destruct Hst].
  unfold effective_timeout, kMaxOpenSeconds, kMaxSealedSeconds. by destruct Hst as [-> | ->].
Qed.

(** C20: bounds of every reachable state. The number of sessions stays within
    the configured maximum; a session has between one and the expected number of
    participants, at most 100, and a timeout between one second and a day; the
    destructor's counter is the exact number of background threads, of which
    every calculating session has one of its own. Timeouts are enforced when a
    session is next looked at: a session whose status a participant is told as
    OPEN or SEALED had, by the clock read in that call, been in that state for no
    longer than its timeout and no longer than ten minutes. *)
Theorem session_bounds s :
  reachable s → 0 <= max_sessions options →
  Z.of_nat (size (sessions (mgr s))) <= max_sessions options ∧
  active_async_threads (mgr s) = Z.of_nat (length (tasks s)) ∧
  (∀ sids, NoDup sids → (∀ sid, sid ∈ sids → ∃ x, sessions (mgr s) !! sid = Some x ∧ state x = Calculating) →
     (length sids <= length (tasks s))%nat) ∧
  (∀ sid x, sessions (mgr s) !! sid = Some x →
    1 <= Z.of_nat (size (participants x)) <= expected_participants (policy x) ∧
    expected_participants (policy x) <= 100 ∧
    Seconds 1 <= timeout x <= Seconds 86400) ∧
  (∀ t r m', GetSessionStatus t (mgr s) = (Ok r, m') → st_state r = state_number Open ∨ st_state r = state_number Sealed →
    ∃ sid x, sessions (mgr s) !! sid = Some x ∧ t ∈ participant_tokens x ∧ state_number (state x) = st_state r ∧
      now (ticks (mgr s)) - state_entered_at x <= Z.min (timeout x) (Seconds 600)).
Proof.
  intros Hr Hmax. pose proof (reachable_SysInv s Hr) as Hs. pose proof (si_inv _ Hs) as Hm. split; [|split; [|split; [|split]]].
  - pose proof (inv_capacity _ Hm). lia.
  - apply (si_threads _ Hs).
  - intros sids Hnd Hall. pose proof (pendings_length (tasks s)) as Hlen.
    assert (Hsub : sids ⊆+ pendings (tasks s)).
    { apply NoDup_submseteq; [done|]. intros sid (x & Hx & Hc)%Hall. by eapply si_calculating. }
    apply submseteq_length in Hsub. lia.
  - intros sid x Hx. pose proof (inv_session _ Hm _ _ Hx) as Hok. destruct (so_timeout x Hok) as [-> Hto].
    pose proof (so_room x Hok). pose proof (so_expected x Hok). pose proof (so_creator x Hok) as Hc. rewrite (so_size x Hok).
    unfold kMaxParticipants, kMaxTimeoutSeconds, Seconds in *. split; [destruct (participant_tokens x); [done|cbn in *; lia]|].
    split; lia.
  - intros t r m'. by apply status_in_time.
Qed.

(** ** Room for new sessions *)

(** The session has been waiting for longer than any timeout allows, at every
    reading of the clock from now on. *)
Definition stalled (k0 : nat) (x : Session) : Prop :=
  (state x = Open ∨ state x = Sealed) ∧ ∀ k, (k0 <= k)%nat → Seconds 600 < now k - state_entered_at x.

Lemma stalled_later k k' x : (k <= k')%nat → stalled k x → stalled k' x.
Proof. intros Hk [Hst Hx]. split; [done|]. intros j Hj. apply Hx. lia. Qed.

Lemma sweep_one_run at_ sid m :
  ∃ m', sweep_one at_ sid m = (Ok tt, m') ∧ (ticks m <= ticks m')%nat ∧
    ∀ sid' x', sessions m' !! sid' = Some x' →
      sid' ≠ sid ∧ sessions m !! sid' = Some x' ∨
      sid' = sid ∧ ∃ x, sessions m !! sid = Some x ∧ ¬ stalled (ticks m) x.
Proof.
  unfold sweep_one. rewrite st_bind_eq. cbn [get_state]. destruct (sessions m !! sid) as [x|] eqn:Hx.
  2:{ exists m. split; [done|]. split; [done|]. intros sid' x' Hx'. left. split; [|done]. congruence. }
  destruct (enforce_run sid x m Hx) as (x1 & m1 & He & _ & Hs1 & Ht & Hst). rewrite (st_bind_run _ _ _ _ _ He).
  assert (Hother : ∀ sid' x', sid' ≠ sid → sessions m1 !! sid' = Some x' → sessions m !! sid' = Some x').
  { intros sid' x' Hne. by rewrite Hs1, lookup_insert_ne by done. }
  destruct (should_erase at_ x1) eqn:Her.
  - eexists. split; [done|]. split; [exact Ht|]. cbn. intros sid' x' [Hne Hx']%lookup_delete_Some. left. eauto.
  - exists m1. split; [done|]. split; [done|]. intros sid' x' Hx'. destruct (decide (sid' = sid)) as [->|Hne]; [|left; eauto].
    right. split; [done|]. exists x. split; [done|]. intros [Hopen Hlong]. specialize (Hlong (ticks m) (le_n _)).
    assert (Heff : effective_timeout x <= Seconds 600).
    { unfold effective_timeout, kMaxOpenSeconds, kMaxSealedSeconds. destruct Hopen as [-> | ->]; lia. }
    destruct Hst as [Hab Herr]; [by destruct Hopen as [-> | ->]|lia|].
    unfold should_erase in Her. rewrite Hab, Herr in Her. by destruct Hopen as [Ho|Ho]; rewrite Ho in Her.
Qed.

Lemma sweep_all_run at_ sids m :
  ∃ m', sweep_all at_ sids m = (Ok tt, m') ∧
    ∀ sid x', sessions m' !! sid = Some x' →
      ∃ x, sessions m !! sid = Some x ∧ (sid ∈ sids → ¬ stalled (ticks m) x).
Proof.
  revert m. induction sids as [|sid sids IH]; intros m; cbn [sweep_all].
  { exists m. split; [done|]. intros sid x Hx. exists x. split; [done|]. by intros ?%elem_of_nil. }
  destruct (sweep_one_run at_ sid m) as (m1 & H1' & Ht & Hs1). destruct (IH m1) as (m2 & H2' & Hs2).
  exists m2. rewrite (st_bind_run _ _ _ _ _ H1'). split; [done|]. intros sid' x' Hx'.
  destruct (Hs2 sid' x' Hx') as (x1 & Hx1 & Hn1). destruct (Hs1 sid' x1 Hx1) as [[Hne Hx]|[-> (x & Hx & Hn)]].
  - exists x1. split; [done|]. intros [->|Hin]%elem_of_cons; [done|]. intros Hst. apply (Hn1 Hin).
    by eapply stalled_later.
  - exists x. split; [done|]. by intros _.
Qed.

(** A sweep leaves no stalled session and adds none. *)
Lemma Sweep_run m :
  ∃ m', SweepTerminalSessions m = (Ok tt, m') ∧
    ∀ sid x', sessions m' !! sid = Some x' → ∃ x, sessions m !! sid = Some x ∧ ¬ stalled (S (ticks m)) x.
Proof.
  destruct (sweep_all_run (now (ticks m)) (map_to_list (sessions m)).*1 (bump m)) as (m1 & Hsw & Hm1).
  exists m1. unfold SweepTerminalSessions. rewrite (st_bind_run _ _ m (now (ticks m)) (bump m)) by reflexivity.
  rewrite (st_bind_run _ _ (bump m) (bump m) (bump m)) by reflexivity. split; [exact Hsw|].
  intros sid x' (x & Hx & Hn)%Hm1. exists x. split; [done|]. apply Hn.
  apply list_elem_of_fmap. exists (sid, x). split; [done|]. by apply elem_of_map_to_list.
Qed.

Lemma check_pass (b : bool) e (m : SessionManager) : b = false → check b e m = (Ok tt, m).
Proof. by intros ->. Qed.

Lemma check_schema_pass which text m : is_ok (ParseJsonSafely text) = true → check_schema which text m = (Ok tt, m).
Proof. unfold check_schema. destruct (String.eqb text ""); [done|]. by destruct (ParseJsonSafely text). Qed.

(** C22: stalled sessions cannot exhaust the server. If fewer than the maximum
    of sessions are not stalled, a valid request for a new session succeeds,
    however many stalled ones there are. *)
Theorem stalled_sessions_make_room m (live : gset string) p def :
  (∀ sid x, sessions m !! sid = Some x → sid ∈ live ∨ stalled (S (ticks m)) x) →
  Z.of_nat (size live) < max_sessions options →
  policies !! policy_class p = Some def →
  2 <= expected_participants p <= kMaxParticipants → timeout_seconds p <= kMaxTimeoutSeconds →
  is_ok (ParseJsonSafely (default_input_schema_json def)) = true →
  is_ok (ParseJsonSafely (default_output_schema_json def)) = true →
  ∃ r m', CreateSession p "" m = (Ok r, m').
Proof.
  intros Hlive Hsz Hdef Hexp Hto Hin Hout. unfold CreateSession.
  destruct (Sweep_run m) as (m1 & Hsw & Hm1). rewrite (st_bind_run _ _ _ _ _ Hsw).
  rewrite (st_bind_run _ _ m1 m1 m1) by reflexivity.
  assert (Hsize : Z.of_nat (size (sessions m1)) < max_sessions options).
  { enough (size (dom (sessions m1)) <= size live)%nat as Hle by (rewrite size_dom in Hle; lia).
    apply subseteq_size. intros sid [x' (x & Hx & Hn)%Hm1]%elem_of_dom.
    by destruct (Hlive sid x Hx) as [?|?%Hn]. }
  rewrite (st_bind_run _ _ _ _ _ (check_pass _ _ m1 (proj2 (Z.leb_gt _ _) Hsize))), Hdef.
  do 3 (erewrite st_bind_run by (apply check_pass; apply Z.ltb_ge; lia)).
  do 2 (erewrite st_bind_run by (by apply check_schema_pass)). 
  erewrite st_bind_run by reflexivity. unfold GenerateRandomHex, next_tick, register_session, Now. st_unfold. eauto.
Qed.
End live.

Section demo.
#[local] Existing Instance demo_server.
#[local] Existing Instance demo_njson.
#[local] Existing Instance demo_re2.
#[local] Existing Instance demo_unique.

(** An engine that fails, answers, and fails again *)
Definition demo_answers (prompt : string) : list (result string string) := [Raise "busy"; Ok "input"; Raise "busy"].

Lemma threads_finish_witness :
  reachable demo_calculating ∧ tasks demo_calculating = [Spawning demo_sid] ∧
  ∃ s', driven true demo_answers demo_calculating s'.
Proof.
  split; [apply demo_calculating_reachable|]. split; [exact demo_calculating_tasks|].
  destruct (threads_finish true demo_answers (λ _, eq_refl) demo_calculating demo_calculating_reachable) as (_ & Hgo & _).
  destruct (Hgo demo_calculating (rtc_refl _ _)) as [Hs|Hall]; [exact Hs|].
  rewrite demo_calculating_tasks in Hall. apply Forall_cons in Hall as [[] _].
Defined.

Lemma prompt_in_join_order_witness :
  ∃ x, sessions (mgr demo_calculating) !! demo_sid = Some x ∧
    (map_to_list (participants x)).*1 = [demo_joiner; demo_creator] ∧
    token <$> in_join_order x = [demo_creator; demo_joiner] ∧
    build_prompt x (map_to_list (participants x)) "s" =
    StrReplaceAll (prompt_template (policy_def x))
      [("{num_participants}", "2"); ("{inputs}", inputs_block "s" (in_join_order x))].
Proof.
  destruct (sessions (mgr demo_calculating) !! demo_sid) as [x|] eqn:Hx; [|vm_compute in Hx; discriminate Hx].
  exists x. split; [reflexivity|].
  destruct (prompt_in_join_order demo_calculating demo_sid x (map_to_list (participants x)) "s") as [Ht Hp];
    [apply demo_calculating_reachable|exact Hx|reflexivity|].
  assert (Hf : participant_tokens x = [demo_creator; demo_joiner] ∧ (map_to_list (participants x)).*1 = [demo_joiner; demo_creator]).
  { vm_compute in Hx. injection Hx as <-. split; vm_compute; reflexivity. }
  destruct Hf as [Hf Hm]. rewrite Hf in Ht, Hp. split; [exact Hm|]. split; [exact Ht|exact Hp].
Defined.

Lemma session_bounds_witness :
  reachable demo_closed ∧ 0 <= max_sessions options ∧
  Z.of_nat (size (sessions (mgr demo_closed))) <= max_sessions options.
Proof.
  split; [exact demo_closed_reachable|].
  assert (Hmax : 0 <= max_sessions options) by (vm_compute; discriminate). split; [exact Hmax|].
  destruct (session_bounds demo_closed demo_closed_reachable Hmax) as [Hb _]. exact Hb.
Defined.

(** A server with room for one session, which has stalled *)
Definition small_server : Server := {|
  now n := if (n <? 5)%nat then 0 else Seconds 601;
  random_hex i n := pretty i; FormatDuration d := pretty d;
  policies := {["ScheduleOverlap" := calendar_policy]};
  options := {| terminal_retention_seconds := 3600; max_calculating_seconds := 1800; max_sessions := 1 |} |}.
#[local] Existing Instance small_server.

Definition small_full : SessionManager := (CreateSession demo_request "" init_manager).2.

Lemma stalled_sessions_make_room_witness :
  size (sessions small_full) = 1%nat ∧ ∃ r m', CreateSession demo_request "" small_full = (Ok r, m').
Proof.
  split; [vm_compute; reflexivity|].
  apply (stalled_sessions_make_room small_full ∅ demo_request calendar_policy);
    [|reflexivity|reflexivity|split; vm_compute; discriminate|vm_compute; discriminate|reflexivity|reflexivity].
  intros sid x Hx. right.
  assert (Hin : (sid, x) ∈ map_to_list (sessions small_full)) by (apply elem_of_map_to_list; exact Hx).
  assert (Hst : Forall (λ kv, state kv.2 = Open ∧ state_entered_at kv.2 = 0) (map_to_list (sessions small_full)))
    by (vm_compute; repeat constructor).
  rewrite Forall_forall in Hst. destruct (Hst _ Hin) as [Ho Hz]. split; [left; exact Ho|].
  intros k Hk. cbn in Ho, Hz. rewrite Hz. assert (Ht : S (ticks small_full) = 6%nat) by (vm_compute; reflexivity).
  rewrite Ht in Hk. unfold now, small_server. destruct (Nat.ltb_spec k 5); [lia|]. vm_compute. reflexivity.
Defined.
End demo.
