(* ===== verification/SessionProgress.v ===== *)
(** Progress of the protocol: in every reachable state a session that is in
    time waits for something definite, and the call or thread it waits for
    succeeds and brings it forward. Retried calls have no second effect. *)

From S2P Require Import Prelude PyText PyValue Rpc Schema Session SessionSteps SessionInv SessionSystem SessionSpec SessionProps SessionDemo SessionLive.

Open Scope Z_scope.

Section progress.
Context `{Server, NJson, Re2, !RandomUnique}.

(** The session is over, or the next reading of the clock is within its
    timeout. *)
Definition in_time (m : SessionManager) (x : Session) : Prop :=
  is_terminal (state x) = true ∨ now (ticks m) - state_entered_at x <= effective_timeout x.

(** ** Runs *)

Lemma enforce_in_time sid x m :
  sessions m !! sid = Some x → in_time m x →
  enforce sid x m = (Ok x, if is_terminal (state x) then m else bump m).
Proof.
  intros Hx Hin. unfold enforce, CheckAndEnforceTimeout, Now, next_tick, put_session.
  destruct (is_terminal (state x)) eqn:Ht; st_unfold; cbn.
  - change (set_sessions _ m) with (store sid x m). by rewrite store_same.
  - destruct Hin as [?|Hin]; [congruence|]. rewrite (proj2 (Z.ltb_ge _ _) Hin). cbn.
    change (set_sessions _ _) with (store sid x (bump m)). by rewrite store_same.
Qed.

Lemma Authenticate_participant t sid x p m :
  Inv m → sessions m !! sid = Some x → participants x !! t = Some p →
  Authenticate t m = (Ok (sid, x, p), m).
Proof.
  intros Hm Hx Hp. pose proof (Authenticate_run t m Hm) as Ha.
  assert (Hi : participant_to_session m !! t = Some sid).
  { apply (inv_participant m Hm). exists x. split; [done|]. apply (so_dom x (inv_session m Hm sid x Hx)). eauto. }
  rewrite Hi in Ha. destruct Ha as (x' & p' & -> & Hx' & Hp' & _). by simplify_eq.
Qed.

(** The calls by a participant of a session in time *)
Lemma participant_run {A : Type} t sid x p m (body : string → Session → Participant → M A) :
  Inv m → sessions m !! sid = Some x → participants x !! t = Some p → in_time m x →
  (auth ← Authenticate t; let '(sid, s, p) := auth in s ← enforce sid s; body sid s p) m =
  body sid x p (if is_terminal (state x) then m else bump m).
Proof.
  intros Hm Hx Hp Hin. rewrite (st_bind_run _ _ _ _ _ (Authenticate_participant t sid x p m Hm Hx Hp)).
  by rewrite (st_bind_run _ _ _ _ _ (enforce_in_time sid x m Hx Hin)).
Qed.

Lemma view_store sid x m : view_of (store sid x m) sid = Some (abs x).
Proof. unfold view_of. cbn. by rewrite lookup_insert_eq. Qed.

(** Joining an open session with room *)
Lemma join_succeeds m sid x :
  Inv m → sessions m !! sid = Some x → in_time m x → state x = Open →
  Z.of_nat (size (participants x)) < expected_participants (policy x) →
  ∃ r m', JoinSession (invitation_token x) "" m = (Ok r, m') ∧
    view_of m' sid = Some (add_token (jr_participant_token r) (abs x)).
Proof.
  intros Hm Hx Hin Hst Hlt. unfold JoinSession. rewrite st_bind_eq. cbn [get_state].
  assert (Hi : invitation_to_session m !! invitation_token x = Some sid) by (apply (inv_invitation m Hm); eauto).
  rewrite Hi. rewrite (st_bind_run (find_session sid) _ m x m) by (unfold find_session; st_unfold; by rewrite Hx).
  rewrite (st_bind_run _ _ _ _ _ (enforce_in_time sid x m Hx Hin)), Hst. cbn [is_terminal].
  rewrite (st_bind_run _ _ (bump m) tt (bump m)) by reflexivity. cbn [String.eqb].
  rewrite (st_bind_run _ _ (bump m) tt (bump m)) by (by apply check_pass).
  rewrite (st_bind_run _ _ (bump m) tt (bump m)) by (apply check_pass; apply Z.leb_gt; lia).
  unfold GenerateRandomHex, next_tick, put_session. st_unfold. cbv zeta.
  set (t := random_hex (ticks (bump m)) kParticipantTokenBytes).
  do 2 eexists. split; [reflexivity|]. unfold view_of. cbn [sessions set_sessions].
  rewrite lookup_insert_eq. cbn. fold (fresh_participant t x).
  f_equal. apply abs_join.
  apply eq_None_not_Some. intros Hp%(so_dom x (inv_session m Hm sid x Hx)).
  destruct (inv_drawn m Hm sid x Hx) as (_ & _ & Hd). apply Hd in Hp.
  by apply (drawn_fresh _ (ticks (bump m)) kParticipantTokenBytes _ Hp); cbn; [lia|].
Qed.

(** Accepting the policy of an open session *)
Lemma accept_succeeds m sid x t p :
  Inv m → sessions m !! sid = Some x → in_time m x → state x = Open →
  participants x !! t = Some p → accepted p = false →
  ∃ r m' v', AcceptPolicy t m = (Ok r, m') ∧ view_of m' sid = Some v' ∧
    spec (Some (abs x)) (Some v') ∧ t ∈ v_accepted v' ∧ (unanimous v' ↔ v_state v' = Sealed).
Proof.
  intros Hm Hx Hin Hst Hp Ha. pose proof (inv_session m Hm sid x Hx) as Hok. unfold AcceptPolicy.
  rewrite (participant_run t sid x p m _ Hm Hx Hp Hin), Ha, Hst. cbn [is_terminal].
  rewrite (st_bind_run _ _ (bump m) tt (bump m)) by (by apply check_pass).
  unfold put_session, Now, next_tick. st_unfold. cbv zeta. fold (accept_session t p x).
  fold (complete (accept_session t p x)).
  destruct (update_tokens x t p (set_accepted p) Hok Hp eq_refl eq_refl) as (Hd & Hz & _).
  pose proof (complete_unanimous (accept_session t p x) Hd Hz) as Hu.
  assert (Hacc : t ∈ v_accepted (abs (accept_session t p x))).
  { rewrite abs_accept by done. cbn. apply elem_of_union_l. by apply elem_of_singleton. }
  destruct (complete (accept_session t p x)) eqn:Hc.
  - pose proof (refine_accept x t p (now (ticks (bump m))) Hok Hp Hst Ha) as Hsp. rewrite Hc in Hsp.
    do 3 eexists. split; [reflexivity|]. split; [apply view_store|]. split; [exact Hsp|]. split; [exact Hacc|].
    split; [done|]. intros _. by apply Hu.
  - pose proof (refine_accept x t p 0 Hok Hp Hst Ha) as Hsp. rewrite Hc in Hsp.
    do 3 eexists. split; [reflexivity|]. split; [apply view_store|]. split; [exact Hsp|]. split; [exact Hacc|].
    rewrite <- Hu. split; [done|]. cbn. by rewrite Hst.
Qed.

(** Submitting an input that passes the checks to a sealed session *)
Lemma submit_succeeds m sid x t p text v :
  Inv m → sessions m !! sid = Some x → in_time m x → state x = Sealed →
  participants x !! t = Some p → input_submitted p = false →
  Z.of_nat (String.length text) <= kMaxInputBytes → ParseJsonSafely text = Ok v → admissible x (dump v) →
  ∃ r m' v', submit_locked t text m = (Ok r, m') ∧ view_of m' sid = Some v' ∧
    spec (Some (abs x)) (Some v') ∧ v_inputs v' !! t = Some (dump v) ∧
    (all_in v' ↔ v_state v' = Calculating) ∧ (v_state v' = Calculating → r = inr sid).
Proof.
  intros Hm Hx Hin Hst Hp Hi Hlen Hparse (v0 & Hv0 & Hadm). pose proof (inv_session m Hm sid x Hx) as Hok.
  unfold submit_locked. rewrite (participant_run t sid x p m _ Hm Hx Hp Hin), Hst, Hi. cbn [is_terminal].
  rewrite bool_decide_false by (intros Hn; by apply Hn).
  rewrite (st_bind_run _ _ (bump m) tt (bump m)) by (apply check_pass; apply Z.ltb_ge; lia).
  rewrite st_bind_eq, lift_run, Hparse.
  rewrite (st_bind_run _ _ (bump m) tt (bump m)).
  2:{ unfold check_input_schema. destruct (String.eqb_spec (input_schema_of x) ""); [done|].
      destruct Hadm as [?|Hadm]; [done|]. by rewrite Hadm. }
  unfold put_session, Now, next_tick. st_unfold. cbv zeta. fold (submit_session t (dump v) p x).
  set (x' := submit_session t (dump v) p x).
  destruct (update_tokens x t p (set_input (dump v) p) Hok Hp eq_refl eq_refl) as (Hd & Hz & _).
  pose proof (submitted_all_in x' Hd) as Hall. rewrite <- submitted_all in Hall.
  pose proof (so_state x Hok) as Hc. unfold state_ok in Hc. rewrite Hst in Hc. destruct Hc as [Hc _].
  apply (submit_complete x t p (dump v) Hp), complete_size in Hc. fold x' in Hc. rewrite <- Hc in Hall.
  assert (Hinp : v_inputs (abs x') !! t = Some (dump v)).
  { unfold x'. rewrite abs_submit by done. apply lookup_insert_eq. }
  pose proof (refine_submit x t p (dump v) (now (ticks (bump m))) Hok Hp Hst Hi) as Hsp. fold x' in Hsp.
  change (policy x) with (policy x') in Hsp.
  destruct (Z.eqb_spec (expected_participants (policy x') - submitted_count (participants x')) 0) as [He|He].
  - rewrite bool_decide_true in Hsp by lia.
    do 3 eexists. split; [reflexivity|]. split; [apply view_store|]. split; [exact Hsp|]. split; [exact Hinp|].
    split; [split; [done|]; intros _; apply Hall; lia|]. intros _. by rewrite (inv_id m Hm sid x Hx).
  - rewrite bool_decide_false in Hsp by lia.
    do 3 eexists. split; [reflexivity|]. split; [apply view_store|]. split; [exact Hsp|]. split; [exact Hinp|].
    change (v_state (abs x')) with (state x). rewrite <- Hall, Hst. split; [split; [lia|done]|done].
Qed.

(** What [GetResult] tells a participant of a finished session *)
Lemma GetResult_terminal m sid x t p :
  Inv m → sessions m !! sid = Some x → participants x !! t = Some p → is_terminal (state x) = true →
  GetResult t m = (Ok {| gr_state := state_number (state x);
    gr_result_json := if bool_decide (state x = Closed) then result_json x else "";
    gr_error_code := if bool_decide (state x = Aborted) then error_number (error_code x) else 0;
    gr_error_detail := if bool_decide (state x = Aborted) then error_detail x else "" |}, m).
Proof.
  intros Hm Hx Hp Ht. unfold GetResult.
  by rewrite (participant_run t sid x p m _ Hm Hx Hp (or_introl Ht)), Ht.
Qed.

(** A conforming answer at the first attempt is the outcome. *)
Lemma generate_conforming x text rest :
  releasable x (StripMarkdownCodeFences text) →
  generate true (output_schema_of x) (Ok text :: rest) = Ok (Ok (StripMarkdownCodeFences text)).
Proof.
  intros [Hne Hv]. unfold generate, kMaxLlmRetries. cbn [negb attempts].
  destruct (String.eqb_spec (output_schema_of x) "") as [He|He].
  - cbn. by rewrite (proj2 (String.eqb_neq _ _) Hne).
  - destruct Hv as [?|Hv]; [done|]. rewrite Hv. cbn. by rewrite (proj2 (String.eqb_neq _ _) Hne).
Qed.

Lemma someone_lacks (f : Participant → bool) (ps : gmap string Participant) :
  ¬ (∀ t p, ps !! t = Some p → f p = true) → ∃ t p, ps !! t = Some p ∧ f p = false.
Proof.
  intros Hn. assert (Hdec : ∀ (i : string) p, Decision (f p = true)) by (intros; apply _).
  apply (map_not_Forall (λ _ p, f p = true)) in Hn as (t & p & Hp & Hf).
  exists t, p. split; [done|]. by apply not_true_is_false.
Qed.

(** An open session waits for a participant or an acceptance, a sealed one for
    an input. *)
Lemma open_waits x :
  session_ok x → state x = Open →
  Z.of_nat (size (participants x)) < expected_participants (policy x) ∨
  ∃ t p, participants x !! t = Some p ∧ accepted p = false.
Proof.
  intros Hok Hst. pose proof (so_state x Hok) as Hs. unfold state_ok in Hs. rewrite Hst in Hs. destruct Hs as [Hc _].
  pose proof (so_room x Hok) as Hroom. rewrite <- (so_size x Hok) in Hroom.
  unfold complete in Hc. apply andb_false_iff in Hc as [Hc|Hc]; [left; apply Z.eqb_neq in Hc; lia|right].
  apply someone_lacks. rewrite <- all_accepted_spec. congruence.
Qed.

Lemma sealed_waits x :
  session_ok x → state x = Sealed → ∃ t p, participants x !! t = Some p ∧ input_submitted p = false.
Proof.
  intros Hok Hst. pose proof (so_state x Hok) as Hs. unfold state_ok in Hs. rewrite Hst in Hs. destruct Hs as [Hc Hn].
  apply someone_lacks. rewrite <- submitted_all. by rewrite <- (complete_size x Hc).
Qed.

(** ** The theorem *)

(** What a session in a given state can go on with *)
Definition can_proceed (s : system) (sid : string) (x : Session) : Prop :=
  match state x with
  | Open =>
      (Z.of_nat (size (participants x)) < expected_participants (policy x) ∨
       ∃ t p, participants x !! t = Some p ∧ accepted p = false) ∧
      (Z.of_nat (size (participants x)) < expected_participants (policy x) →
       ∃ r m', JoinSession (invitation_token x) "" (mgr s) = (Ok r, m') ∧
         view_of m' sid = Some (add_token (jr_participant_token r) (abs x))) ∧
      ∀ t p, participants x !! t = Some p → accepted p = false →
       ∃ r m' v', AcceptPolicy t (mgr s) = (Ok r, m') ∧ view_of m' sid = Some v' ∧
         spec (Some (abs x)) (Some v') ∧ t ∈ v_accepted v' ∧ (unanimous v' ↔ v_state v' = Sealed)
  | Sealed =>
      (∃ t p, participants x !! t = Some p ∧ input_submitted p = false) ∧
      ∀ t p text v, participants x !! t = Some p → input_submitted p = false →
       Z.of_nat (String.length text) <= kMaxInputBytes → ParseJsonSafely text = Ok v → admissible x (dump v) →
       ∃ r m' v', submit_locked t text (mgr s) = (Ok r, m') ∧ view_of m' sid = Some v' ∧
         spec (Some (abs x)) (Some v') ∧ v_inputs v' !! t = Some (dump v) ∧
         (all_in v' ↔ v_state v' = Calculating) ∧ (v_state v' = Calculating → r = inr sid)
  | Calculating =>
      (∃ t, t ∈ tasks s ∧ sid ∈ pending t) ∧
      ∀ text rest, releasable x (StripMarkdownCodeFences text) →
       generate true (output_schema_of x) (Ok text :: rest) = Ok (Ok (StripMarkdownCodeFences text)) ∧
       view_of (write_result sid (Ok (StripMarkdownCodeFences text)) (mgr s)).2 sid =
         Some (set_result (StripMarkdownCodeFences text) (abs x))
  | Closed =>
      ∀ t, t ∈ participant_tokens x →
       ∃ r, GetResult t (mgr s) = (Ok r, mgr s) ∧ gr_result_json r = result_json x ∧ result_json x ≠ ""
  | Aborted =>
      ∀ t, t ∈ participant_tokens x →
       ∃ r, GetResult t (mgr s) = (Ok r, mgr s) ∧ gr_state r = ABORTED ∧ gr_result_json r = "" ∧
         gr_error_code r = error_number (error_code x) ∧ gr_error_detail r = error_detail x
  end.

(** C9: no session gets stuck. In every reachable state a session that is in
    time waits for something definite: an open one for a participant or an
    acceptance, a sealed one for an input, a calculating one for its thread;
    every such call that is due succeeds, the last acceptance seals the session,
    the last input starts the calculation, a conforming answer of the model
    closes it, and every participant then obtains the result, or the error of an
    aborted session. *)
Theorem session_progress s sid x :
  reachable s → sessions (mgr s) !! sid = Some x → in_time (mgr s) x → can_proceed s sid x.
Proof.
  intros Hr Hx Hin. pose proof (reachable_SysInv s Hr) as Hs. pose proof (si_inv _ Hs) as Hm.
  pose proof (inv_session _ Hm sid x Hx) as Hok. unfold can_proceed. destruct (state x) eqn:Hst.
  - split; [by apply open_waits|]. split; [by apply join_succeeds|]. intros t p. by apply accept_succeeds.
  - split; [by apply sealed_waits|]. intros t p text v. by apply submit_succeeds.
  - split; [apply elem_of_pendings; by eapply si_calculating|]. intros text rest Hrel.
    split; [by apply generate_conforming|]. rewrite write_result_run, Hx, bool_decide_true by done. apply view_store.
  - intros t [p Hp]%(so_dom x Hok). rewrite (GetResult_terminal (mgr s) sid x t p) by (done || by rewrite Hst).
    eexists. split; [done|]. cbn. rewrite bool_decide_true by done. split; [done|].
    pose proof (so_result x Hok) as Hres. rewrite Hst in Hres. apply Hres.
  - intros t [p Hp]%(so_dom x Hok). rewrite (GetResult_terminal (mgr s) sid x t p) by (done || by rewrite Hst).
    eexists. split; [done|]. cbn. rewrite Hst. by repeat split.
Qed.
End progress.

(** ** Retries *)

Section retries.
Context `{Server, NJson, Re2, !RandomUnique}.

(** What a session keeps for as long as it exists, for retried calls *)
Record remembers (x x' : Session) : Prop := {
  rm_invitation : invitation_token x' = invitation_token x;
  rm_nonces : nonce_to_token x ⊆ nonce_to_token x'
}.

Lemma remembers_refl x : remembers x x.
Proof. by split. Qed.

Lemma remembers_trans x1 x2 x3 : remembers x1 x2 → remembers x2 x3 → remembers x1 x3.
Proof. intros [] []. split; [congruence|by etrans]. Qed.

Lemma store_remembers m sid x0 x1 sid' x x' :
  sessions m !! sid = Some x0 → remembers x0 x1 → sessions m !! sid' = Some x →
  <[sid := x1]> (sessions m) !! sid' = Some x' → remembers x x'.
Proof.
  intros H0' Hr Hx [[<- <-]|[_ Hx']]%lookup_insert_Some; [by simplify_eq|]. simplify_eq. apply remembers_refl.
Qed.

Lemma quiet_remembers m m' sid x x' :
  Inv m → quiet m m' → sessions m !! sid = Some x → sessions m' !! sid = Some x' → remembers x x'.
Proof.
  intros Hm [|sid0 s t t' d Hs _ _|sid0 s Hs _|p def nonce Hc n|sid0 s nonce Hs _ _ Hn t
    |sid0 s t p Hs _ _ _ _|sid0 s t p at_ Hs _ _ _ _|sid0 s t p text Hs _ _ _ _ _] Hx; cbn; intros Hx'.
  - simplify_eq. apply remembers_refl.
  - eapply store_remembers; [exact Hs| |exact Hx|exact Hx']. by split.
  - apply lookup_delete_Some in Hx' as [_ Hx']. simplify_eq. apply remembers_refl.
  - apply lookup_insert_Some in Hx' as [[<- _]|[_ Hx']]; [|simplify_eq; apply remembers_refl].
    destruct (inv_drawn m Hm _ x Hx) as [Hd _]. by destruct (drawn_fresh _ n kSessionIdBytes _ Hd (le_n _)).
  - eapply store_remembers; [exact Hs| |exact Hx|exact Hx']. split; [done|]. cbn.
    destruct (String.eqb_spec nonce ""); [done|]. destruct Hn as [?|Hn]; [done|]. by apply insert_subseteq.
  - eapply store_remembers; [exact Hs| |exact Hx|exact Hx']. by split.
  - eapply store_remembers; [exact Hs| |exact Hx|exact Hx']. by split.
  - eapply store_remembers; [exact Hs| |exact Hx|exact Hx']. by split.
Qed.

Lemma change_remembers m m' sid x x' :
  Inv m → change m m' → sessions m !! sid = Some x → sessions m' !! sid = Some x' → remembers x x'.
Proof.
  intros Hm [m1 Hq|sid0 s t p text at_ Hs _ _ _ _ _|sid0 s r at_ Hs _ _|sid0 s e d at_ Hs _|n] Hx Hx'.
  - by eapply quiet_remembers.
  - eapply store_remembers; [exact Hs| |exact Hx|exact Hx']. by split.
  - eapply store_remembers; [exact Hs| |exact Hx|exact Hx']. by split.
  - eapply store_remembers; [exact Hs| |exact Hx|exact Hx']. by split.
  - cbn in Hx'. simplify_eq. apply remembers_refl.
Qed.

Lemma changes_remember m m' sid x x' :
  Inv m → rtc change m m' → sessions m !! sid = Some x → sessions m' !! sid = Some x' → remembers x x'.
Proof. apply (changes_relate remembers remembers_refl remembers_trans change_remembers). Qed.

(** A successful join with a nonce leaves the nonce with the token handed out. *)
Lemma JoinSession_nonce invitation nonce m r m' :
  Inv m → nonce ≠ "" → JoinSession invitation nonce m = (Ok r, m') →
  IsValidUuidV4 nonce = true ∧
  ∃ sid x', sessions m' !! sid = Some x' ∧ invitation_token x' = invitation ∧
    nonce_to_token x' !! nonce = Some (jr_participant_token r).
Proof.
  intros Hm Hne. unfold JoinSession. rewrite st_bind_eq. cbn [get_state].
  destruct (invitation_to_session m !! invitation) as [sid|] eqn:Hi; [|done].
  apply (inv_invitation m Hm) in Hi as (x & Hx & Hinv).
  rewrite (st_bind_run (find_session sid) _ m x m) by (unfold find_session; st_unfold; by rewrite Hx).
  destruct (enforce_run sid x m Hx) as (x1 & m1 & He & Henf & Hs1 & _). rewrite (st_bind_run _ _ _ _ _ He).
  assert (Hx1 : sessions m1 !! sid = Some x1) by (rewrite Hs1; apply lookup_insert_eq).
  assert (Hinv1 : invitation_token x1 = invitation) by (by destruct Henf as [->|(_ & ? & ? & ? & _ & ->)]).
  rewrite (proj2 (String.eqb_neq _ _) Hne). cbn [negb andb].
  unfold check. destruct (IsValidUuidV4 nonce); [|done]. cbn [negb]. st_unfold.
  destruct (nonce_to_token x1 !! nonce) as [t|] eqn:Hn.
  { intros [= <- <-]. cbn. split; [done|]. exists sid, x1. auto. }
  destruct (bool_decide (state x1 ≠ Open)); [done|]. destruct (expected_participants (policy x1) <=? _); [done|].
  unfold GenerateRandomHex, next_tick, put_session. st_unfold. cbv zeta.
  intros [Hr <-]%pair_equal_spec. injection Hr as <-. split; [done|]. exists sid. eexists. cbn [sessions]. split; [apply lookup_insert_eq|].
  split; [done|]. cbn. rewrite (proj2 (String.eqb_neq _ _) Hne). apply lookup_insert_eq.
Qed.

(** A session that appears carries a new invitation. *)
Lemma change_new_invitation m m' sid x' :
  change m m' → sessions m !! sid = None → sessions m' !! sid = Some x' → ¬ drawn (ticks m) (invitation_token x').
Proof.
  intros Hc Hn Hx'.
  assert (Hstore : ∀ sid0 s0 s1, sessions m !! sid0 = Some s0 → <[sid0 := s1]> (sessions m) !! sid = Some x' → False).
  { intros sid0 s0 s1 Hs0 [[<- _]|[_ ?]]%lookup_insert_Some; congruence. }
  destruct Hc as [m1 Hq|sid0 s t p text at_ Hs|sid0 s r at_ Hs|sid0 s e d at_ Hs|n];
    [|by destruct (Hstore _ _ _ Hs Hx')..|cbn in Hx'; congruence].
  destruct Hq as [|sid0 s t t' d Hs _ _|sid0 s Hs _|p def nonce Hc n|sid0 s nonce Hs _ _ Hn' t
    |sid0 s t p Hs _ _ _ _|sid0 s t p at_ Hs _ _ _ _|sid0 s t p text Hs _ _ _ _ _];
    try by destruct (Hstore _ _ _ Hs Hx').
  - cbn in Hx'. congruence.
  - cbn in Hx'. apply lookup_delete_Some in Hx' as [_ Hx']. congruence.
  - cbn in Hx'. apply lookup_insert_Some in Hx' as [[_ <-]|[_ ?]]; [|congruence].
    cbn. intros Hd. by apply (drawn_fresh _ (S (S n)) kParticipantTokenBytes _ Hd); [lia|].
Qed.

Lemma changes_new_invitation m m' sid x' :
  Inv m → rtc change m m' → sessions m !! sid = None → sessions m' !! sid = Some x' →
  ¬ drawn (ticks m) (invitation_token x').
Proof.
  intros Hm Hc Hn Hx'. induction Hc as [m|m m1 m2 Hch Hc IH]; [congruence|].
  assert (Hm1 : Inv m1) by (by eapply change_Inv). destruct (sessions m1 !! sid) as [x1|] eqn:Hx1.
  - rewrite (rm_invitation _ _ (changes_remember m1 m2 sid x1 x' Hm1 Hc Hx1 Hx')). by eapply change_new_invitation.
  - intros Hd. apply (IH Hm1 eq_refl Hx'). eapply drawn_le; [by apply change_ticks|done].
Qed.

(** An invitation never leads to another session. *)
Lemma invitation_same m m' sid sid' x x' :
  Inv m → rtc change m m' → sessions m !! sid = Some x → sessions m' !! sid' = Some x' →
  invitation_token x' = invitation_token x → sid' = sid.
Proof.
  intros Hm Hc Hx Hx' He. destruct (sessions m !! sid') as [y|] eqn:Hy.
  - pose proof (rm_invitation _ _ (changes_remember m m' sid' y x' Hm Hc Hy Hx')) as Hi.
    assert (invitation_to_session m !! invitation_token x = Some sid) by (apply (inv_invitation m Hm); eauto).
    assert (invitation_to_session m !! invitation_token x = Some sid')
      by (apply (inv_invitation m Hm); exists y; split; [done|congruence]).
    congruence.
  - destruct (changes_new_invitation m m' sid' x' Hm Hc Hy Hx'). rewrite He. exact (proj1 (proj2 (inv_drawn m Hm sid x Hx))).
Qed.

(** The answer to a nonce that is known: the same token again, and no session
    gains a participant. *)
Lemma JoinSession_replay invitation nonce m sid x t :
  Inv m → nonce ≠ "" → IsValidUuidV4 nonce = true → sessions m !! sid = Some x → invitation_token x = invitation →
  nonce_to_token x !! nonce = Some t →
  ∃ r m', JoinSession invitation nonce m = (Ok r, m') ∧ jr_participant_token r = t ∧
    participants <$> sessions m' = participants <$> sessions m.
Proof.
  intros Hm Hne Hv Hx Hinv Ht. unfold JoinSession. rewrite st_bind_eq. cbn [get_state].
  assert (Hi : invitation_to_session m !! invitation = Some sid) by (apply (inv_invitation m Hm); eauto). rewrite Hi.
  rewrite (st_bind_run (find_session sid) _ m x m) by (unfold find_session; st_unfold; by rewrite Hx).
  destruct (enforce_run sid x m Hx) as (x1 & m1 & He & Henf & Hs1 & _). rewrite (st_bind_run _ _ _ _ _ He).
  rewrite (proj2 (String.eqb_neq _ _) Hne), Hv. cbn [negb andb].
  assert (Hsame : nonce_to_token x1 = nonce_to_token x ∧ participants x1 = participants x)
    by (by destruct Henf as [->|(_ & ? & ? & ? & _ & ->)]).
  destruct Hsame as [Hn1 Hp1]. rewrite (st_bind_run _ _ m1 tt m1) by reflexivity. rewrite Hn1, Ht.
  do 2 eexists. split; [reflexivity|]. split; [done|]. rewrite Hs1, fmap_insert, Hp1.
  apply insert_id. by rewrite lookup_fmap, Hx.
Qed.

(** C24: joining is safe to retry. When a join with a nonce succeeded, the same
    request made again, after any further activity of the server and in any
    state of the session, yields the same participant token for as long as the
    session exists, and adds no participant. *)
Theorem join_retry_safe s invitation nonce r m1 s' :
  reachable s → nonce ≠ "" → JoinSession invitation nonce (mgr s) = (Ok r, m1) →
  rtc step (System m1 (tasks s)) s' → is_Some (invitation_to_session (mgr s') !! invitation) →
  ∃ r' m2, JoinSession invitation nonce (mgr s') = (Ok r', m2) ∧
    jr_participant_token r' = jr_participant_token r ∧
    participants <$> sessions m2 = participants <$> sessions (mgr s').
Proof.
  intros Hr Hne Hj Hst [sid' Hi]. pose proof (si_inv _ (reachable_SysInv s Hr)) as Hm.
  assert (Hr1 : reachable (System m1 (tasks s))).
  { eapply rtc_r; [exact Hr|]. rewrite <- (app_nil_r (tasks s)) at 1. apply (step_call s (Join invitation nonce)). cbn. by rewrite Hj. }
  pose proof (reachable_SysInv _ Hr1) as Hs1. pose proof (steps_SysInv _ _ Hst Hs1) as Hs'.
  destruct (JoinSession_nonce _ _ _ _ _ Hm Hne Hj) as (Hv & sid & x & Hx & Hinv & Ht).
  apply (inv_invitation _ (si_inv _ Hs')) in Hi as (x' & Hx' & Hinv').
  pose proof (steps_changes _ _ Hst Hs1) as Hch. cbn in Hch.
  assert (sid' = sid) as -> by (eapply (invitation_same m1 _ _ _ x x' (si_inv _ Hs1) Hch); [done|done|congruence]).
  pose proof (changes_remember m1 (mgr s') sid x x' (si_inv _ Hs1) Hch Hx Hx') as [_ Hn].
  apply (JoinSession_replay invitation nonce (mgr s') sid x'); try done; [apply Hs'|].
  by eapply lookup_weaken.
Qed.
End retries.

(** ** Witnesses *)

Section demo.
#[local] Existing Instance demo_server.
#[local] Existing Instance demo_njson.
#[local] Existing Instance demo_re2.
#[local] Existing Instance demo_unique.

(** The open session of two, in which one acceptance is missing *)
Lemma session_progress_witness :
  reachable demo_open ∧ ∃ x, sessions (mgr demo_open) !! demo_sid = Some x ∧ state x = Open ∧
    (∃ t p, participants x !! t = Some p ∧ accepted p = false) ∧ can_proceed demo_open demo_sid x.
Proof.
  split; [exact demo_open_reachable|].
  destruct (sessions (mgr demo_open) !! demo_sid) as [x|] eqn:Hx; [|vm_compute in Hx; discriminate Hx].
  exists x. split; [reflexivity|].
  assert (Hf : state x = Open ∧ in_time (mgr demo_open) x ∧
    match participants x !! demo_joiner with Some p => accepted p = false | None => False end).
  { vm_compute in Hx. injection Hx as <-. split; [reflexivity|]. split; [|vm_compute; reflexivity].
    right. vm_compute. discriminate. }
  destruct Hf as (Ho & Hin & Hp). split; [exact Ho|]. split.
  - exists demo_joiner. destruct (participants x !! demo_joiner) as [p|]; [|destruct Hp]. exists p. split; [reflexivity|exact Hp].
  - exact (session_progress demo_open demo_sid x demo_open_reachable Hx Hin).
Defined.

Definition demo_nonce : string := "00000000-0000-4000-8000-000000000000".
Definition demo_created : system := play [Create demo_request ""] init_system.
Definition demo_join : result failure JoinSessionResponse * SessionManager :=
  JoinSession demo_invitation demo_nonce (mgr demo_created).

(** The session was sealed between the first join and the retry. *)
Definition demo_retried : system := play [Accept demo_joiner] (System demo_join.2 (tasks demo_created)).

Lemma join_retry_safe_witness :
  (∃ x, sessions (mgr demo_retried) !! demo_sid = Some x ∧ state x = Sealed) ∧
  ∃ r, demo_join.1 = Ok r ∧ ∃ r' m2, JoinSession demo_invitation demo_nonce (mgr demo_retried) = (Ok r', m2) ∧
    jr_participant_token r' = jr_participant_token r ∧
    participants <$> sessions m2 = participants <$> sessions (mgr demo_retried).
Proof.
  split.
  { destruct (sessions (mgr demo_retried) !! demo_sid) as [x|] eqn:Hx; [|vm_compute in Hx; discriminate Hx].
    exists x. split; [reflexivity|]. vm_compute in Hx. injection Hx as <-. reflexivity. }
  destruct demo_join.1 as [r|e] eqn:Hr; [|vm_compute in Hr; discriminate Hr]. exists r. split; [reflexivity|].
  apply (join_retry_safe demo_created demo_invitation demo_nonce r demo_join.2 demo_retried).
  - apply play_steps.
  - discriminate.
  - rewrite <- Hr. apply surjective_pairing.
  - apply play_steps.
  - destruct (invitation_to_session (mgr demo_retried) !! demo_invitation) as [y|] eqn:Hy; [exists y; reflexivity|].
    vm_compute in Hy. discriminate Hy.
Defined.
End demo.
