(* ===== verification/EndToEnd.v ===== *)
(** Client and server together: what an agent's user may conclude from a
    result that the command-line client prints or the MCP server returns.

    The link between the two sides is the promise of the trusted execution
    environment: over a channel whose pinned certificate is certified for a
    policy the user trusts (its image digests are those of this server), the
    answers are replies of this service. Certified means by what the process
    learned from its host: the token is signed under a key set that ITA's
    address answered with. *)

From S2P Require Import Prelude PyText Base64 PyValue External Attestation Policy World Jwks ItaVerifier Rpc Client Backends McpServer Examples DemoServer McpChannels Cli Schema Session SessionSteps SessionInv SessionSystem SessionSpec SessionProps SessionDemo Service.

Open Scope Z_scope.

Section end_to_end.
Context `{Host, X509, PyJWT, Files, PyJson, Grpc}.
Context `{ServiceHost, Server, NJson, Re2, !RandomUnique}.

(** Image digests and settings the user trusts *)
Variable trusted : ItaPolicy → Prop.

(** The log holds only what the host answered: clock readings, the documents at
    the addresses downloaded from, the certificates servers presented. *)
Class Enclave := enclave_answers : ∀ ita learned n ch r md resp,
  trusted ita → Forall answered learned → certified_channel ita learned ch → rpc n ch false r md = Ok resp →
  ∃ log s hs, served log s ∧ replies s hs r resp.

(** The result of a session of this server in which everyone consented: the
    expected participants joined, [t] among them, all accepted the policy and
    submitted an input that passed its schema, and the result passed its own. *)
Definition consented (t result : string) : Prop :=
  ∃ log s sid x, served log s ∧ sessions (mgr s) !! sid = Some x ∧ t ∈ participant_tokens x ∧ state x = Closed ∧
    unanimous (abs x) ∧ all_in (abs x) ∧ (∀ u y, v_inputs (abs x) !! u = Some y → admissible x y) ∧
    result = result_json x ∧ releasable x result.

Lemma closed_reply `{!Enclave} ita learned n ch md t resp :
  trusted ita → Forall answered learned → certified_channel ita learned ch → rpc n ch false (GetResultRequest t) md = Ok resp →
  gr_state resp = CLOSED → consented t (gr_result_json resp).
Proof.
  intros Htr Hl Hch Hrpc Hc. destruct (enclave_answers ita learned n ch _ md resp Htr Hl Hch Hrpc) as (log & s & hs & Hs & [[m' Hh]|[]]).
  cbn [handle] in Hh. apply st_bind_Ok in Hh as (x & m1 & Hd & [= -> <-]). unfold delegate in Hd.
  destruct (GetResult t (mgr s)) as [[y|e] m2] eqn:Hg; [|done]. injection Hd as -> ->.
  destruct (closed_answer s t _ m1 (served_reachable log s Hs) Hg (or_introl Hc)) as (sid & z & Hz).
  exists log, s, sid, z. tauto.
Qed.

(** ** The MCP server *)

(** A result entry stems from an answer that said CLOSED. *)
Definition result_entry (k : string) (x : out) (result : string) : Prop :=
  k = "result" ∧ (∃ v, x = OVal v ∧ json_loads result = Ok v) ∨ k = "result_raw" ∧ x = OStr result.

Lemma result_entries_closed resp st entries k x :
  result_entries resp st = Ok entries → (k, x) ∈ entries → k = "result" ∨ k = "result_raw" →
  gr_state resp = CLOSED ∧ result_entry k x (gr_result_json resp).
Proof.
  unfold result_entries, result_entry. destruct (Z.eqb_spec (gr_state resp) CLOSED) as [Hc|_].
  - destruct (json_loads (gr_result_json resp)) as [v|e].
    + intros [= <-] [= -> ->]%list_elem_of_singleton _. split; [done|]. left. eauto.
    + case_bool_decide; [|done]. intros [= <-] [= -> ->]%list_elem_of_singleton _. split; [done|]. by right.
  - destruct (gr_state resp =? ABORTED).
    + intros (code & _ & [= <-])%bind_Ok. rewrite !elem_of_cons, elem_of_nil.
      intros [[= -> ->]|[[= -> ->]|[]]] [[=]|[=]].
    + intros [= <-] [= -> ->]%list_elem_of_singleton [[=]|[=]].
Qed.

Lemma mcp_result arguments s entries s' k x :
  InvOut s → run_get_result arguments s = (Ok (ODict entries), s') → (k, x) ∈ entries → k = "result" ∨ k = "result_raw" →
  ∃ ch n t resp, attested (log_of s') ch ∧ Forall answered (log_of s') ∧ text_arg arguments "participant_token" = Ok t ∧
    rpc n ch false (GetResultRequest t) None = Ok resp ∧ gr_state resp = CLOSED ∧ result_entry k x (gr_result_json resp).
Proof.
  intros [o Hi] Hr Hin Hk. unfold run_get_result in Hr. apply st_bind_Ok in Hr as (r & s1 & Hstub & Hr).
  pose proof (cached_stub_ok o arguments s Hi) as Hu. rewrite Hstub in Hu. destruct Hu as [Hi1 [Ha Hop _]].
  unfold try_except in Hr.
  destruct ((token ← lift (text_arg arguments "participant_token"); _) s1) as [[y|e] s2] eqn:Hb.
  - injection Hr as -> ->. apply st_bind_Ok in Hb as (t & s3 & Ht & Hb). unfold lift in Ht. injection Ht as Ht ->.
    apply st_bind_Ok in Hb as (resp & s4 & Hcall & Hb). apply st_bind_Ok in Hb as (st & s5 & Hst & Hb).
    apply st_bind_Ok in Hb as (es & s6 & Hes & [= <- <-]). unfold lift in Hst, Hes. injection Hst as _ ->. injection Hes as Hes ->.
    unfold net_m, Rpc.call, on_world, zoom, tick in Hcall. st_unfold. cbn [n_closed n_world n_next n_rpcs] in Hcall.
    rewrite bool_decide_false in Hcall by done. injection Hcall as Hrpc <-.
    assert (Hin' : (k, x) ∈ es).
    { rewrite !elem_of_cons in Hin. destruct Hin as [[= -> ->]|[[= -> ->]|?]]; [destruct Hk; done..|done]. }
    destruct (result_entries_closed resp st es k x Hes Hin' Hk) as [Hc Hx].
    do 4 eexists. split; [exact Ha|]. split; [apply (no_genuine _ (inv_net _ _ Hi1))|]. eauto.
  - unfold rpc_failure in Hr. destruct (rpc_code e) as [c|]; [|done].
    apply st_bind_Ok in Hr as (? & s3 & _ & [= <- <-]). rewrite !elem_of_cons, elem_of_nil in Hin.
    destruct Hin as [[= -> ->]|[[= -> ->]|[]]]; destruct Hk; done.
Qed.

(** ** The command-line client *)

Definition RESULT : log_line := [Txt (ln "Result:")].

(** What the lines show of an answer that said CLOSED *)
Definition shown (result : string) (lines : list log_line) : Prop :=
  ∃ st, lines = [st; RESULT] ∨
    ∃ line, lines = [st; RESULT; line] ∧ (line = [Txt result] ∨ ∃ v, json_loads result = Ok v ∧ line = [Val v]).

(** The channel the lines are about gave such an answer. *)
Definition said_closed (ch : grpc_channel) (tok : json) (s : cli) : Prop :=
  RESULT ∈ c_out s → ∃ n t resp, string_field tok = Ok t ∧
    rpc n ch false (GetResultRequest t) None = Ok resp ∧ gr_state resp = CLOSED ∧ shown (gr_result_json resp) (c_out s).

Lemma get_result_body l ch tok s :
  ready l ch s → c_out s = [] →
  said_closed ch tok ((t ← lift (string_field tok);
    resp ← net_c (Rpc.call ch (GetResultRequest t) None);
    state ← lift (SessionState_Name (gr_state resp));
    print [Txt "  state: "; Txt state];;
    if gr_state resp =? CLOSED then print_result (gr_result_json resp)
    else if gr_state resp =? ABORTED then
      error_name ← lift (SessionError_Name (gr_error_code resp));
      print [Txt (ln "Session ABORTED:")];;
      print [Txt "  error: "; Txt error_name];;
      print [Txt "  detail: "; Txt (gr_error_detail resp)]
    else
      print [Txt (ln "Result not yet available. Session is still "); Txt state; Txt "."];;
      print [Txt "Try again after all inputs are submitted."]) s).2.
Proof.
  intros (_ & Hcl & _ & _ & _) Ho. unfold said_closed, net_c, Rpc.call, on_world, zoom, tick, print, print_result.
  st_unfold. cbn [n_closed n_world n_next n_rpcs]. rewrite Hcl, bool_decide_false by set_solver.
  destruct (string_field tok) as [t|]; [|cbn; by rewrite Ho, elem_of_nil].
  destruct (rpc _ ch false (GetResultRequest t) None) as [resp|] eqn:Hrpc; [|cbn; by rewrite Ho, elem_of_nil].
  assert (Hno : ∀ ls, Forall (λ l, head l ≠ Some (Txt (ln "Result:"))) ls → RESULT ∉ ls).
  { intros ls Hls Hin. rewrite Forall_forall in Hls. by apply (Hls _ Hin). }
  destruct (SessionState_Name (gr_state resp)) as [st|]; [|cbn; by rewrite Ho, elem_of_nil].
  destruct (Z.eqb_spec (gr_state resp) CLOSED) as [Hc|_].
  - intros _. do 3 eexists. split; [done|]. split; [exact Hrpc|]. split; [exact Hc|]. exists [Txt "  state: "; Txt st].
    destruct (json_loads (gr_result_json resp)) as [v|e] eqn:Hj; cbn; rewrite Ho; [right; eauto 8|].
    case_bool_decide; cbn; [right; eauto 8|by left].
  - destruct (gr_state resp =? ABORTED); [destruct (SessionError_Name _)|]; cbn; rewrite Ho; intros Hin; exfalso;
      revert Hin; apply Hno; by repeat constructor.
Qed.

Lemma net_c_out {A : Type} (m : ST net exn A) s : c_out (net_c m s).2 = c_out s.
Proof. unfold net_c, zoom. by destruct (m (c_net s)). Qed.

Lemma make_stub_out args s : c_out (_make_stub args s).2 = c_out s.
Proof.
  unfold _make_stub. rewrite st_bind_eq. cbn [lift]. destruct (_build_policy args) as [p|]; [|done].
  rewrite st_bind_eq. cbn [lift]. destruct (get_verifier p) as [v|]; [|done]. rewrite st_bind_eq. cbn [lift].
  destruct (socket_port (a_port args)) as [port|]; [|done]. rewrite st_bind_eq. cbn [lift ZtabChannel_init].
  rewrite st_bind_eq. match goal with |- context [net_c ?m s] => pose proof (net_c_out m s) as Hn; destruct (net_c m s) as [[r|] s1] end;
    [|done]. by destruct (zc_channel r.2).
Qed.

Variable stdin_text : string.

Lemma cli_result args tok r s :
  cli_main stdin_text (Some (args, Cli.GetResult tok)) init_cli = (r, s) → RESULT ∈ c_out s →
  ∃ log ch n t resp, Forall answered log ∧ attested_for args log ch ∧ string_field tok = Ok t ∧
    rpc n ch false (GetResultRequest t) None = Ok resp ∧ gr_state resp = CLOSED ∧ shown (gr_result_json resp) (c_out s).
Proof.
  unfold cli_main. case_match; [intros [= <- <-]; by intros ?%elem_of_nil|].
  assert (Hs : ∀ x, (try_except (cmd_get_result args tok) command_failure x).2 = (cmd_get_result args tok x).2).
  { intros x. unfold try_except, command_failure. destruct (cmd_get_result args tok x) as [[?|e] s1]; [done|].
    destruct (rpc_code e); [done|]. by destruct (is_exception e). }
  intros Hr. change s with (r, s).2. rewrite <- Hr. cbn [run_command]. rewrite Hs. clear Hr Hs r s.
  unfold cmd_get_result, with_channel. rewrite st_bind_eq. pose proof (make_stub_ok args init_cli eq_refl) as Hm.
  pose proof (make_stub_out args init_cli) as Hout. destruct (_make_stub args init_cli) as [[[ch z]|e] s1].
  2: { cbn in Hout |- *. rewrite Hout. by intros ?%elem_of_nil. }
  cbn [fst snd] in *. destruct Hm as (Ha & Hz & Hready & [_ Hg]). pose proof (get_result_body _ ch tok s1 Hready Hout) as Hbody.
  unfold try_finally. match goal with |- context [let '(_, _) := ?m in _] => destruct m as [r s2] end. cbn [snd] in Hbody.
  rewrite st_bind_eq. pose proof (net_c_out (with_object z close) s2) as Hclose.
  intros Hin. exists (clog s1), ch.
  destruct (net_c (with_object z close) s2) as [[?|?] s3]; cbn in Hclose, Hin |- *; rewrite Hclose in *;
    destruct (Hbody Hin) as (n & t & resp & ?); exists n, t, resp; tauto.
Qed.

End end_to_end.

(** ** A concrete deployment *)

Section demo.
#[local] Instance end_host : Host := demo_host ∅.
#[local] Existing Instance demo_x509.
#[local] Existing Instance demo_jwt.
#[local] Existing Instance steady_files.
#[local] Existing Instance demo_json.
#[local] Existing Instance demo_server.
#[local] Existing Instance demo_njson.
#[local] Existing Instance demo_re2.
#[local] Existing Instance demo_unique.

(** A service without creator token and without model *)
#[local] Instance open_service : ServiceHost := {|
  creator_token_flag := ""; creator_token_env := None; engine := None; find_header _ _ := None;
  CRYPTO_memcmp _ _ _ := 1 |}.

Definition demo_requests : list rpc_request :=
  [CreateSessionRequest demo_request ""; JoinSessionRequest demo_invitation "" ""; AcceptPolicyRequest demo_joiner;
   SubmitInputRequest demo_creator "input"; SubmitInputRequest demo_joiner "input"].

Lemma served_play rs cs log s :
  call_of [] <$> rs = Some <$> cs → served log s → served (log ++ ((λ r, ([], r)) <$> rs)) (play cs s).
Proof.
  revert cs log s. induction rs as [|r rs IH]; intros [|c cs] log s Hrs Hs; try done; [by rewrite app_nil_r|].
  rewrite !fmap_cons in Hrs. injection Hrs as Hc Hrs. cbn [play fold_left].
  rewrite fmap_cons, cons_middle, (assoc_L (++)). apply IH; [done|].
  pose proof (handle_state [] r (mgr s)) as Hst. rewrite Hc in Hst.
  replace (play_one s c) with (System (handle [] r (mgr s)).2 (tasks s ++ threads_of [] r (mgr s)))
    by (unfold play_one, threads_of; by rewrite Hc, Hst).
  eapply served_request; [done|]. apply surjective_pairing.
Qed.

Lemma demo_calculating_served : served ((λ r, ([], r)) <$> demo_requests) demo_calculating.
Proof.
  assert (Ho : served ([] ++ ((λ r, ([], r)) <$> take 2 demo_requests)) demo_open)
    by (apply (served_play _ [Create demo_request ""; Join demo_invitation ""]); [reflexivity|constructor]).
  assert (Hs : served (([] ++ ((λ r, ([], r)) <$> take 2 demo_requests)) ++ ((λ r, ([], r)) <$> [AcceptPolicyRequest demo_joiner]))
    demo_sealed) by (apply (served_play _ [Accept demo_joiner]); [reflexivity|exact Ho]).
  exact (served_play (drop 3 demo_requests) [Submit demo_creator "input"; Submit demo_joiner "input"] _ demo_sealed eq_refl Hs).
Qed.

Lemma demo_closed_served : served ((λ r, ([], r)) <$> demo_requests) demo_closed.
Proof.
  assert (Hstarted : served ((λ r, ([], r)) <$> demo_requests) (System (mgr demo_calculating) [Started demo_sid])).
  { apply (served_task _ demo_calculating [] (Spawning demo_sid) [] (Some (Started demo_sid))).
    - apply demo_calculating_served.
    - exact demo_calculating_tasks.
    - apply run_spawn. }
  assert (Hrunning : served ((λ r, ([], r)) <$> demo_requests) demo_running).
  { eapply (served_task _ _ [] (Started demo_sid) [] (Some _)); [exact Hstarted|reflexivity|].
    apply run_prepare. vm_compute. reflexivity. }
  assert (Hwriting : served ((λ r, ([], r)) <$> demo_requests) (System (mgr demo_running) [Writing demo_sid (Ok "input")])).
  { eapply (served_task _ demo_running [] _ [] (Some (Writing demo_sid (Ok "input")))); [exact Hrunning|reflexivity|].
    apply (run_generate _ _ _ _ true [Raise "busy"; Ok "input"; Raise "busy"]); [reflexivity|].
    vm_compute. reflexivity. }
  apply (served_task _ (System (mgr demo_running) [Writing demo_sid (Ok "input")]) [] (Writing demo_sid (Ok "input")) [] (Some Leaving)); [exact Hwriting|reflexivity|apply run_write].
Qed.

(** The network leads to that service, which answers from its last state. *)
#[local] Instance end_grpc : Grpc := {|
  string_field v := match v with JStr s => Ok s | _ => Ok "" end;
  int32_field n := Ok n;
  rpc n ch closed r md :=
    match r return res (response r) with
    | GetResultRequest t =>
        match (handle [] (GetResultRequest t) (mgr demo_closed)).1 with
        | Ok (Some resp) => Ok resp
        | _ => Raise (Exn (RpcError PERMISSION_DENIED) [])
        end
    | _ => Raise (Exn (RpcError UNAVAILABLE) [])
    end |}.

#[local] Instance demo_enclave : Enclave (λ _, True).
Proof.
  intros ita learned n ch r md resp _ _ _ Hr. exists ((λ r, ([], r)) <$> demo_requests), demo_closed, [].
  split; [apply demo_closed_served|]. left.
  destruct r as [| | | | |t|]; cbn [rpc end_grpc] in Hr; [discriminate Hr..| |discriminate Hr].
  destruct (handle [] (GetResultRequest t) (mgr demo_closed)) as [[[y|]|e] m'] eqn:Hh; try discriminate Hr.
  cbn [fst] in Hr. injection Hr as ->. eauto.
Qed.

Definition demo_result : res unit * cli := cli_main "" (Some (demo_args, Cli.GetResult (JStr demo_joiner))) init_cli.
Definition demo_tool_args : json := JObj [("participant_token", JStr demo_joiner)].

End demo.
